(** * Hevy -> Convex -> Notion synchronisation: a shallow embedding

  The development follows the layout of the repository:

  - [Js]      the handful of JavaScript built-ins the code relies on
              (truthiness, [Math.round], [toLowerCase], [includes],
              the two title regular expressions);
  - [Hevy*]   the payload shapes declared in [convex/hevy.ts];
  - [Db]      the Convex document store: tables of documents in creation
              order, store-assigned identifiers, [insert] / [patch] /
              [delete] / indexed queries;
  - the mutations of [convex/sync.ts];
  - the actions of [convex/hevy.ts] and [convex/notion.ts];
  - the HTTP routes of [convex/http.ts].

  Conventions.  A JavaScript [number] that carries a measurement (weight,
  repetitions, volume, ...) is an exact rational [Q]; indices, counters and
  numeric identifiers are integers [Z].  The code computes with doubles:
  the two agree where the arithmetic of the code is exact, as it is on
  whole numbers up to [Js.MAX_SAFE_INTEGER].  A string is a sequence of
  characters with codes below 256, the first 256 code units of a
  JavaScript string.  A nullable payload attribute is an [option];
  [x || undefined] maps a falsy value to [None]. *)

From Stdlib Require Import List String Ascii Bool Arith ZArith QArith Qround Lia Lqa.
Import ListNotations.

Local Open Scope nat_scope.

(* ------------------------------------------------------------------ *)
(** ** JavaScript built-ins                                             *)
(* ------------------------------------------------------------------ *)

Module Js.

(** Truthiness of a number: every number but [0] (there is no [NaN] in
    the rational model). *)
Definition truthy_num (x : Q) : bool := negb (Qeq_bool x 0).

Definition truthy_int (x : Z) : bool := negb (Z.eqb x 0).

Definition truthy_str (s : string) : bool :=
  match s with EmptyString => false | String _ _ => true end.

(** Truthiness of a nullable value. *)
Definition truthy {A} (t : A -> bool) (x : option A) : bool :=
  match x with Some v => t v | None => false end.

(** [x || undefined]. *)
Definition or_undefined {A} (t : A -> bool) (x : option A) : option A :=
  match x with
  | Some v => if t v then Some v else None
  | None => None
  end.

(** [x || d]. *)
Definition or_else {A} (t : A -> bool) (x : option A) (d : A) : A :=
  match x with
  | Some v => if t v then v else d
  | None => d
  end.

(** [Math.round]: the nearest integer, halves towards +infinity. *)
Definition Math_round (x : Q) : Z := Qfloor (x + (1 # 2)).

(** [Math.round(x * 10) / 10], on exact rationals.  The code rounds the
    double it computed: the two agree where the arithmetic of the code is
    exact, as it is on the whole numbers of halves that a double holds
    (see [exact_volumes]). *)
Definition round1 (x : Q) : Q := inject_Z (Math_round (x * 10)) / 10.

(** [String.prototype.toLowerCase] on the code units below 256: the
    letters [A] to [Z] and the capital letters from 192 to 222, but the
    multiplication sign 215. *)
Definition lower (c : ascii) : ascii :=
  let n := nat_of_ascii c in
  if ((65 <=? n) && (n <=? 90))
     || ((192 <=? n) && (n <=? 222) && negb (n =? 215))
  then ascii_of_nat (n + 32) else c.

Fixpoint toLowerCase (s : string) : string :=
  match s with
  | EmptyString => EmptyString
  | String c s' => String (lower c) (toLowerCase s')
  end.

Fixpoint startsWith (p s : string) : bool :=
  match p, s with
  | EmptyString, _ => true
  | String a p', String b s' => Ascii.eqb a b && startsWith p' s'
  | String _ _, EmptyString => false
  end.

(** [String.prototype.includes]. *)
Fixpoint includes (s sub : string) : bool :=
  startsWith sub s
  || match s with
     | EmptyString => false
     | String _ s' => includes s' sub
     end.

(** [s.split("T")[0]]: the part of [s] before its first ["T"]. *)
Fixpoint split_T_0 (s : string) : string :=
  match s with
  | EmptyString => EmptyString
  | String c s' =>
      if Ascii.eqb c "T" then EmptyString else String c (split_T_0 s')
  end.

(** *** The regular expressions [/(?:k1|k2|...)\s*(\d+)/i]

    [week|w] and [day|d|#] are the two instances.  The search is the
    leftmost one; at a position the keywords are tried in order, [\s*]
    and [\d+] are greedy.  Giving back white space never helps, since the
    next character would have to be a digit, so the greedy attempt is the
    only one that can succeed. *)

(** [\s] on the code units below 256: the space, the codes 9 to 13 and
    the no-break space 160. *)
Definition is_space (c : ascii) : bool :=
  let n := nat_of_ascii c in
  (n =? 32) || ((9 <=? n) && (n <=? 13)) || (n =? 160).

Definition is_digit (c : ascii) : bool :=
  let n := nat_of_ascii c in (48 <=? n) && (n <=? 57).

(** Match keyword [kw] (given in lower case) ignoring case; the rest of
    the subject on success. *)
Fixpoint match_keyword (kw s : string) : option string :=
  match kw, s with
  | EmptyString, _ => Some s
  | String k kw', String c s' =>
      if Ascii.eqb k (lower c) then match_keyword kw' s' else None
  | String _ _, EmptyString => None
  end.

Fixpoint skip_spaces (s : string) : string :=
  match s with
  | String c s' => if is_space c then skip_spaces s' else s
  | EmptyString => s
  end.

Fixpoint take_digits (s : string) : string :=
  match s with
  | String c s' => if is_digit c then String c (take_digits s') else EmptyString
  | EmptyString => EmptyString
  end.

(** The capture group of a match anchored at the head of [s]. *)
Fixpoint match_here (kws : list string) (s : string) : option string :=
  match kws with
  | [] => None
  | kw :: kws' =>
      match match_keyword kw s with
      | Some rest =>
          match take_digits (skip_spaces rest) with
          | EmptyString => match_here kws' s
          | ds => Some ds
          end
      | None => match_here kws' s
      end
  end.

(** [s.match(re)[1]], [None] when there is no match. *)
Fixpoint regex_capture (kws : list string) (s : string) : option string :=
  match match_here kws s with
  | Some ds => Some ds
  | None =>
      match s with
      | EmptyString => None
      | String _ s' => regex_capture kws s'
      end
  end.

(** [Number.MAX_SAFE_INTEGER], [2^53 - 1]: up to it every integer is a
    double. *)
Definition MAX_SAFE_INTEGER : Z := 9007199254740991.

(** [parseInt(ds, 10)] on a string of decimal digits: the integer that
    the digits write.  It is the number the code gets for the values up
    to [MAX_SAFE_INTEGER]; for a longer run of digits the code gets the
    double nearest to it. *)
Fixpoint parseInt_acc (acc : Z) (ds : string) : Z :=
  match ds with
  | EmptyString => acc
  | String c ds' =>
      parseInt_acc (acc * 10 + (Z.of_nat (nat_of_ascii c) - 48)) ds'
  end.

Definition parseInt (ds : string) : Z := parseInt_acc 0 ds.

End Js.

(* ------------------------------------------------------------------ *)
(** ** Payloads of the Hevy API ([convex/hevy.ts])                      *)
(* ------------------------------------------------------------------ *)

Module HevySet.
Record t : Type := mk {
  index : Z;
  type : string;
  weight_kg : option Q;
  reps : option Q;
  distance_meters : option Q;
  duration_seconds : option Q;
  rpe : option Q;
  custom_metric : option Q
}.
End HevySet.

Module HevyExercise.
Record t : Type := mk {
  index : Z;
  title : string;
  notes : option string;
  exercise_template_id : string;
  superset_id : option Z;
  sets : list HevySet.t
}.
End HevyExercise.

Module HevyWorkout.
Record t : Type := mk {
  id : string;
  title : string;
  description : option string;
  start_time : string;
  end_time : option string;
  exercises : list HevyExercise.t
}.
End HevyWorkout.

(** A [HevyEvent]: [type] is ["updated"] or ["deleted"]; the other
  attributes are optional. *)
Module HevyEvent.
Inductive kind : Type := updated | deleted.
Record t : Type := mk {
  type : kind;
  workout : option HevyWorkout.t;
  id : option string;
  deleted_at : option string
}.
End HevyEvent.

Module HevyRoutineFolder.
Record t : Type := mk {
  id : Z;
  index : Z;
  title : string;
  updated_at : string;
  created_at : string
}.
End HevyRoutineFolder.

Module HevyRoutineSet.
Record t : Type := mk {
  index : Z;
  type : string;
  weight_kg : option Q;
  reps : option Q;
  distance_meters : option Q;
  duration_seconds : option Q;
  custom_metric : option Q
}.
End HevyRoutineSet.

Module HevyRoutineExercise.
Record t : Type := mk {
  index : Z;
  title : string;
  notes : option string;
  exercise_template_id : string;
  superset_id : option Z;
  rest_seconds : option Q;
  sets : list HevyRoutineSet.t
}.
End HevyRoutineExercise.

Module HevyRoutine.
Record t : Type := mk {
  id : string;
  title : string;
  folder_id : option Z;
  updated_at : string;
  created_at : string;
  exercises : list HevyRoutineExercise.t
}.
End HevyRoutine.

(* ------------------------------------------------------------------ *)
(** ** The document store ([convex/schema.ts])                          *)
(* ------------------------------------------------------------------ *)

(** Store-assigned document identifier.  The store hands out identifiers
  from one counter and never reuses one. *)
Abbreviation Id := nat.

(** A table: its documents, oldest first (the order of [_creationTime],
  which every index falls back to). *)
Definition Table (R : Type) := list (Id * R).

Module SyncState.
Record t : Type := mk {
  lastSyncedAt : option string;
  lastEventTimestamp : option string;
  lastError : option string;
  syncInProgress : bool
}.
End SyncState.

Module Workout.
Record t : Type := mk {
  hevyId : string;
  title : string;
  description : option string;
  startTime : string;
  endTime : option string;
  durationMinutes : option Z;
  totalVolume : option Q;
  totalSets : option Z;
  totalReps : option Q;
  notionPageId : option string;
  syncedToNotion : bool;
  isDeleted : bool
}.
End Workout.

Module Exercise.
Record t : Type := mk {
  workoutId : Id;
  hevyExerciseIndex : Z;
  exerciseTemplateId : string;
  title : string;
  notes : option string;
  supersetId : option Z;
  notionPageId : option string;
  syncedToNotion : bool
}.
End Exercise.

Module SetRow.
Record t : Type := mk {
  exerciseId : Id;
  workoutId : Id;
  setIndex : Z;
  setType : string;
  weightKg : option Q;
  reps : option Q;
  distanceMeters : option Q;
  durationSeconds : option Q;
  rpe : option Q;
  customMetric : option Q;
  notionPageId : option string;
  syncedToNotion : bool
}.
End SetRow.

Module RoutineFolder.
Record t : Type := mk {
  hevyId : Z;
  title : string;
  index : Z;
  weekNumber : option Z;
  sortOrder : option Z;
  notionPageId : option string;
  syncedToNotion : bool;
  updatedAt : string
}.
End RoutineFolder.

Module Routine.
Record t : Type := mk {
  hevyId : string;
  folderId : option Id;
  hevyFolderId : option Z;
  title : string;
  dayNumber : option Z;
  weekNumber : option Z;
  sortOrder : option Z;
  dayType : option string;
  notionPageId : option string;
  syncedToNotion : bool;
  updatedAt : string
}.
End Routine.

Module RoutineExercise.
Record t : Type := mk {
  routineId : Id;
  index : Z;
  exerciseTemplateId : string;
  title : string;
  notes : option string;
  supersetId : option Z;
  restSeconds : option Q;
  targetSets : Z;
  targetReps : option Q;
  targetWeightKg : option Q;
  weekNumber : option Z;
  dayNumber : option Z;
  exerciseOrder : option Z;
  globalSortOrder : option Z;
  exerciseRole : option string;
  muscleGroup : option string;
  notionPageId : option string;
  syncedToNotion : bool
}.
End RoutineExercise.

Module RoutineSet.
Record t : Type := mk {
  routineExerciseId : Id;
  routineId : Id;
  index : Z;
  setType : string;
  targetReps : option Q;
  targetWeightKg : option Q;
  targetDistanceMeters : option Q;
  targetDurationSeconds : option Q;
  notionPageId : option string;
  syncedToNotion : bool
}.
End RoutineSet.

(** The attributes of [exerciseProgress] that the mirror push reads. *)
Module ExerciseProgress.
Record t : Type := mk {
  exerciseTemplateId : string;
  lastWeightKg : option Q;
  lastReps : option Q;
  suggestedWeightKg : option Q;
  maxWeightKg : option Q
}.
End ExerciseProgress.

Module Db.

Record t : Type := mk {
  nextId : Id;
  syncState : Table SyncState.t;
  workouts : Table Workout.t;
  exercises : Table Exercise.t;
  sets : Table SetRow.t;
  routineFolders : Table RoutineFolder.t;
  routines : Table Routine.t;
  routineExercises : Table RoutineExercise.t;
  routineSets : Table RoutineSet.t;
  exerciseProgress : Table ExerciseProgress.t
}.

Definition empty : t := mk 0 [] [] [] [] [] [] [] [] [].

(** A table of the store: how to read it and how to replace it. *)
Record TableRef (R : Type) : Type := ref {
  get : t -> Table R;
  set : Table R -> t -> t
}.
Arguments ref {R} _ _.
Arguments get {R} _ _.
Arguments set {R} _ _ _.

Definition syncStateT : TableRef SyncState.t :=
  ref syncState
    (fun x d => mk (nextId d) x (workouts d) (exercises d) (sets d)
                  (routineFolders d) (routines d) (routineExercises d)
                  (routineSets d) (exerciseProgress d)).
Definition workoutsT : TableRef Workout.t :=
  ref workouts
    (fun x d => mk (nextId d) (syncState d) x (exercises d) (sets d)
                  (routineFolders d) (routines d) (routineExercises d)
                  (routineSets d) (exerciseProgress d)).
Definition exercisesT : TableRef Exercise.t :=
  ref exercises
    (fun x d => mk (nextId d) (syncState d) (workouts d) x (sets d)
                  (routineFolders d) (routines d) (routineExercises d)
                  (routineSets d) (exerciseProgress d)).
Definition setsT : TableRef SetRow.t :=
  ref sets
    (fun x d => mk (nextId d) (syncState d) (workouts d) (exercises d) x
                  (routineFolders d) (routines d) (routineExercises d)
                  (routineSets d) (exerciseProgress d)).
Definition routineFoldersT : TableRef RoutineFolder.t :=
  ref routineFolders
    (fun x d => mk (nextId d) (syncState d) (workouts d) (exercises d)
                  (sets d) x (routines d) (routineExercises d)
                  (routineSets d) (exerciseProgress d)).
Definition routinesT : TableRef Routine.t :=
  ref routines
    (fun x d => mk (nextId d) (syncState d) (workouts d) (exercises d)
                  (sets d) (routineFolders d) x (routineExercises d)
                  (routineSets d) (exerciseProgress d)).
Definition routineExercisesT : TableRef RoutineExercise.t :=
  ref routineExercises
    (fun x d => mk (nextId d) (syncState d) (workouts d) (exercises d)
                  (sets d) (routineFolders d) (routines d) x
                  (routineSets d) (exerciseProgress d)).
Definition routineSetsT : TableRef RoutineSet.t :=
  ref routineSets
    (fun x d => mk (nextId d) (syncState d) (workouts d) (exercises d)
                  (sets d) (routineFolders d) (routines d)
                  (routineExercises d) x (exerciseProgress d)).

Definition bump (d : t) : t :=
  mk (S (nextId d)) (syncState d) (workouts d) (exercises d) (sets d)
     (routineFolders d) (routines d) (routineExercises d) (routineSets d)
     (exerciseProgress d).

(** [ctx.db.insert(table, row)]: a fresh identifier, the document goes
    last. *)
Definition insert {R} (T : TableRef R) (row : R) (d : t) : Id * t :=
  (nextId d, bump (set T (get T d ++ [(nextId d, row)]) d)).

Definition patch_rows {R} (id : Id) (f : R -> R) (rows : Table R) : Table R :=
  map (fun r => if Nat.eqb (fst r) id then (fst r, f (snd r)) else r) rows.

(** [ctx.db.patch(id, fields)]; [f] performs the shallow merge. *)
Definition patch {R} (T : TableRef R) (id : Id) (f : R -> R) (d : t) : t :=
  set T (patch_rows id f (get T d)) d.

Definition delete_rows {R} (id : Id) (rows : Table R) : Table R :=
  filter (fun r => negb (Nat.eqb (fst r) id)) rows.

(** [ctx.db.delete(id)]. *)
Definition delete {R} (T : TableRef R) (id : Id) (d : t) : t :=
  set T (delete_rows id (get T d)) d.

(** [ctx.db.query(table).withIndex(..., q => q.eq(...)).collect()] and
    [.filter(...).collect()]: the matching documents, oldest first. *)
Definition collect {R} (T : TableRef R) (p : R -> bool) (d : t) : Table R :=
  filter (fun r => p (snd r)) (get T d).

(** [ctx.db.query(table).withIndex(..., q => q.eq(...)).first()]. *)
Definition first {R} (T : TableRef R) (p : R -> bool) (d : t) : option (Id * R) :=
  find (fun r => p (snd r)) (get T d).

(** [ctx.db.get(id)]. *)
Definition lookup {R} (T : TableRef R) (id : Id) (d : t) : option R :=
  option_map snd (find (fun r => Nat.eqb (fst r) id) (get T d)).

End Db.

(* ------------------------------------------------------------------ *)
(** ** Mutations and queries ([convex/sync.ts])                         *)
(* ------------------------------------------------------------------ *)

Module Sync.

Local Open Scope Z_scope.

(** [getSyncState]: [ctx.db.query("syncState").first()]. *)
Definition getSyncState (d : Db.t) : option (Id * SyncState.t) :=
  Db.first Db.syncStateT (fun _ => true) d.

(** The arguments of [updateSyncState], all optional. *)
Record SyncStateArgs : Type := mkSyncStateArgs {
  arg_lastSyncedAt : option string;
  arg_lastEventTimestamp : option string;
  arg_lastError : option string;
  arg_syncInProgress : option bool
}.

(** [updateSyncState]: the spreads [...(x && {field: x})] write a field
    only when the argument is truthy ([lastSyncedAt],
    [lastEventTimestamp]) or defined ([lastError], [syncInProgress]). *)
Definition updateSyncState (args : SyncStateArgs) (d : Db.t) : Db.t :=
  match getSyncState d with
  | Some (id, _) =>
      Db.patch Db.syncStateT id
        (fun st =>
           SyncState.mk
             (if Js.truthy Js.truthy_str (arg_lastSyncedAt args)
              then arg_lastSyncedAt args else SyncState.lastSyncedAt st)
             (if Js.truthy Js.truthy_str (arg_lastEventTimestamp args)
              then arg_lastEventTimestamp args
              else SyncState.lastEventTimestamp st)
             (match arg_lastError args with
              | Some e => Some e
              | None => SyncState.lastError st
              end)
             (match arg_syncInProgress args with
              | Some b => b
              | None => SyncState.syncInProgress st
              end))
        d
  | None =>
      snd (Db.insert Db.syncStateT
             (SyncState.mk (arg_lastSyncedAt args)
                (arg_lastEventTimestamp args)
                (arg_lastError args)
                (match arg_syncInProgress args with
                 | Some b => b
                 | None => false
                 end))
             d)
  end.

(** The running totals of the statistics loop of [upsertWorkout]. *)
Record Stats : Type := mkStats {
  totalVolume : Q;
  totalSets : Z;
  totalReps : Q
}.

(** One iteration of the inner loop: [totalSets++]; the repetitions are
    added when [set.reps] is truthy, the volume when [set.weight_kg] is
    truthy as well. *)
Definition stats_step (acc : Stats) (set : HevySet.t) : Stats :=
  match HevySet.reps set with
  | Some r =>
      if Js.truthy_num r then
        match HevySet.weight_kg set with
        | Some w =>
            if Js.truthy_num w
            then mkStats (totalVolume acc + w * r)%Q (totalSets acc + 1)
                         (totalReps acc + r)%Q
            else mkStats (totalVolume acc) (totalSets acc + 1)
                         (totalReps acc + r)%Q
        | None =>
            mkStats (totalVolume acc) (totalSets acc + 1) (totalReps acc + r)%Q
        end
      else mkStats (totalVolume acc) (totalSets acc + 1) (totalReps acc)
  | None => mkStats (totalVolume acc) (totalSets acc + 1) (totalReps acc)
  end.

(** The two nested [for ... of] loops over [workout.exercises] and
    [exercise.sets]. *)
Definition workout_totals (exercises : list HevyExercise.t) : Stats :=
  fold_left
    (fun acc exercise => fold_left stats_step (HevyExercise.sets exercise) acc)
    exercises (mkStats 0%Q 0 0%Q).

Section WithDate.

(** [new Date(s).getTime()]: milliseconds since the epoch, a built-in of
    the runtime. *)
Variable Date_getTime : string -> Z.

(** The duration computed by [upsertWorkout]: defined when both times are
    truthy, [Math.round((end - start) / 60000)]. *)
Definition workout_duration (workout : HevyWorkout.t) : option Z :=
  match HevyWorkout.end_time workout with
  | Some e =>
      if Js.truthy_str (HevyWorkout.start_time workout) && Js.truthy_str e
      then Some (Js.Math_round
                   (inject_Z (Date_getTime e
                              - Date_getTime (HevyWorkout.start_time workout))
                    / 60000)%Q)
      else None
  | None => None
  end.

(** The scalar fields [upsertWorkout] writes, on top of the document [old]
    when it patches ([notionPageId] is the one field it leaves alone). *)
Definition workout_fields (workout : HevyWorkout.t) (page : option string)
  : Workout.t :=
  let st := workout_totals (HevyWorkout.exercises workout) in
  Workout.mk
    (HevyWorkout.id workout)
    (HevyWorkout.title workout)
    (Js.or_undefined Js.truthy_str (HevyWorkout.description workout))
    (HevyWorkout.start_time workout)
    (Js.or_undefined Js.truthy_str (HevyWorkout.end_time workout))
    (workout_duration workout)
    (Some (Js.round1 (totalVolume st)))
    (Some (totalSets st))
    (Some (totalReps st))
    page
    false
    false.

(** The patch of the [existing] branch: [hevyId] is not among the patched
    fields. *)
Definition workout_patch (workout : HevyWorkout.t) (old : Workout.t) : Workout.t :=
  let new := workout_fields workout (Workout.notionPageId old) in
  Workout.mk
    (Workout.hevyId old)
    (Workout.title new)
    (Workout.description new)
    (Workout.startTime new)
    (Workout.endTime new)
    (Workout.durationMinutes new)
    (Workout.totalVolume new)
    (Workout.totalSets new)
    (Workout.totalReps new)
    (Workout.notionPageId old)
    false
    false.

(** The row inserted into [sets] for one payload set. *)
Definition set_row (exerciseId workoutId : Id) (set : HevySet.t) : SetRow.t :=
  SetRow.mk exerciseId workoutId
    (HevySet.index set)
    (HevySet.type set)
    (Js.or_undefined Js.truthy_num (HevySet.weight_kg set))
    (Js.or_undefined Js.truthy_num (HevySet.reps set))
    (Js.or_undefined Js.truthy_num (HevySet.distance_meters set))
    (Js.or_undefined Js.truthy_num (HevySet.duration_seconds set))
    (Js.or_undefined Js.truthy_num (HevySet.rpe set))
    (Js.or_undefined Js.truthy_num (HevySet.custom_metric set))
    None
    false.

(** The row inserted into [exercises] for one payload exercise. *)
Definition exercise_row (workoutId : Id) (exercise : HevyExercise.t) : Exercise.t :=
  Exercise.mk workoutId
    (HevyExercise.index exercise)
    (HevyExercise.exercise_template_id exercise)
    (HevyExercise.title exercise)
    (Js.or_undefined Js.truthy_str (HevyExercise.notes exercise))
    (Js.or_undefined Js.truthy_int (HevyExercise.superset_id exercise))
    None
    false.

(** The deletion loop of the [existing] branch: for every exercise of the
    workout, its sets (found through [by_exercise]) and then the exercise. *)
Definition delete_exercise (d : Db.t) (ex : Id * Exercise.t) : Db.t :=
  let existingSets :=
    Db.collect Db.setsT (fun s => Nat.eqb (SetRow.exerciseId s) (fst ex)) d in
  Db.delete Db.exercisesT (fst ex)
    (fold_left (fun d' set => Db.delete Db.setsT (fst set) d') existingSets d).

Definition delete_children (workoutId : Id) (d : Db.t) : Db.t :=
  let existingExercises :=
    Db.collect Db.exercisesT
      (fun e => Nat.eqb (Exercise.workoutId e) workoutId) d in
  fold_left delete_exercise existingExercises d.

(** The insertion loop shared by both branches. *)
Definition insert_exercise (workoutId : Id) (d : Db.t) (exercise : HevyExercise.t)
  : Db.t :=
  let '(exerciseId, d1) :=
    Db.insert Db.exercisesT (exercise_row workoutId exercise) d in
  fold_left
    (fun d' set => snd (Db.insert Db.setsT (set_row exerciseId workoutId set) d'))
    (HevyExercise.sets exercise) d1.

Definition insert_children (workoutId : Id) (workout : HevyWorkout.t) (d : Db.t)
  : Db.t :=
  fold_left (insert_exercise workoutId) (HevyWorkout.exercises workout) d.

(** [upsertWorkout]. *)
Definition upsertWorkout (workout : HevyWorkout.t) (d : Db.t) : Id * Db.t :=
  let existing :=
    Db.first Db.workoutsT
      (fun w => String.eqb (Workout.hevyId w) (HevyWorkout.id workout)) d in
  let '(workoutId, d1) :=
    match existing with
    | Some (id, _) =>
        (id, delete_children id
               (Db.patch Db.workoutsT id (workout_patch workout) d))
    | None => Db.insert Db.workoutsT (workout_fields workout None) d
    end in
  (workoutId, insert_children workoutId workout d1).

End WithDate.

(** [markWorkoutDeleted]. *)
Definition mark_deleted (w : Workout.t) : Workout.t :=
  Workout.mk (Workout.hevyId w) (Workout.title w) (Workout.description w)
    (Workout.startTime w) (Workout.endTime w) (Workout.durationMinutes w)
    (Workout.totalVolume w) (Workout.totalSets w) (Workout.totalReps w)
    (Workout.notionPageId w) false true.

Definition markWorkoutDeleted (hevyId : string) (d : Db.t) : Db.t :=
  match Db.first Db.workoutsT
          (fun w => String.eqb (Workout.hevyId w) hevyId) d with
  | Some (id, _) => Db.patch Db.workoutsT id mark_deleted d
  | None => d
  end.

(** [getUnsyncedWorkouts], [getWorkoutExercises], [getExerciseSets]. *)
Definition getUnsyncedWorkouts (d : Db.t) : Table Workout.t :=
  Db.collect Db.workoutsT (fun w => negb (Workout.syncedToNotion w)) d.

Definition getWorkoutExercises (workoutId : Id) (d : Db.t) : Table Exercise.t :=
  Db.collect Db.exercisesT (fun e => Nat.eqb (Exercise.workoutId e) workoutId) d.

Definition getExerciseSets (exerciseId : Id) (d : Db.t) : Table SetRow.t :=
  Db.collect Db.setsT (fun s => Nat.eqb (SetRow.exerciseId s) exerciseId) d.

(** [markWorkoutSynced]. *)
Definition mark_synced (page : string) (w : Workout.t) : Workout.t :=
  Workout.mk (Workout.hevyId w) (Workout.title w) (Workout.description w)
    (Workout.startTime w) (Workout.endTime w) (Workout.durationMinutes w)
    (Workout.totalVolume w) (Workout.totalSets w) (Workout.totalReps w)
    (Some page) true (Workout.isDeleted w).

Definition markWorkoutSynced (workoutId : Id) (notionPageId : string) (d : Db.t)
  : Db.t :=
  Db.patch Db.workoutsT workoutId (mark_synced notionPageId) d.

(** *** Routines (program templates) *)

(** [parseWeekNumber]: [/(?:week|w)\s*(\d+)/i]. *)
Definition parseWeekNumber (title : string) : option Z :=
  option_map Js.parseInt (Js.regex_capture ["week"; "w"]%string title).

(** [parseDayNumber]: [/(?:day|d|#)\s*(\d+)/i]. *)
Definition parseDayNumber (title : string) : option Z :=
  option_map Js.parseInt (Js.regex_capture ["day"; "d"; "#"]%string title).

(** [detectDayType]. *)
Definition detectDayType (title : string) : option string :=
  let titleLower := Js.toLowerCase title in
  if Js.includes titleLower "squat" then Some "Squat"%string
  else if Js.includes titleLower "bench" then Some "Bench"%string
  else if Js.includes titleLower "deadlift" then Some "Deadlift"%string
  else if Js.includes titleLower "press" && negb (Js.includes titleLower "bench")
       then Some "Press"%string
  else if Js.includes titleLower "upper" then Some "Upper"%string
  else if Js.includes titleLower "lower" then Some "Lower"%string
  else if Js.includes titleLower "pull" then Some "Pull"%string
  else if Js.includes titleLower "push" then Some "Push"%string
  else None.

(** [detectExerciseRole]. *)
Definition detectExerciseRole (index : Z) (title : string) : string :=
  let titleLower := Js.toLowerCase title in
  if index =? 0 then "Main Lift"%string
  else if Js.includes titleLower "curl"
          || Js.includes titleLower "extension"
          || Js.includes titleLower "raise"
          || Js.includes titleLower "fly"
          || Js.includes titleLower "kickback"
          || Js.includes titleLower "calf"
          || Js.includes titleLower "ab "
          || Js.includes titleLower "crunch"
          || Js.includes titleLower "plank"
       then "Accessory"%string
  else if (index =? 1) || (index =? 2) then "Variation"%string
  else "Accessory"%string.

(** [detectMuscleGroup]. *)
Definition detectMuscleGroup (title : string) : option string :=
  let titleLower := Js.toLowerCase title in
  if Js.includes titleLower "bench"
     || Js.includes titleLower "chest"
     || Js.includes titleLower "fly"
     || Js.includes titleLower "pec"
  then Some "Chest"%string
  else if Js.includes titleLower "row"
          || Js.includes titleLower "pull"
          || Js.includes titleLower "lat"
          || Js.includes titleLower "back"
          || Js.includes titleLower "deadlift"
       then Some "Back"%string
  else if Js.includes titleLower "shoulder"
          || Js.includes titleLower "press"
          || Js.includes titleLower "raise"
          || Js.includes titleLower "delt"
       then Some "Shoulders"%string
  else if Js.includes titleLower "squat"
          || Js.includes titleLower "leg"
          || Js.includes titleLower "quad"
          || Js.includes titleLower "ham"
          || Js.includes titleLower "glute"
          || Js.includes titleLower "lunge"
          || Js.includes titleLower "calf"
       then Some "Legs"%string
  else if Js.includes titleLower "curl" || Js.includes titleLower "bicep"
       then Some "Biceps"%string
  else if Js.includes titleLower "tricep"
          || Js.includes titleLower "pushdown"
          || Js.includes titleLower "extension"
       then Some "Triceps"%string
  else if Js.includes titleLower "ab"
          || Js.includes titleLower "core"
          || Js.includes titleLower "crunch"
          || Js.includes titleLower "plank"
       then Some "Core"%string
  else None.

(** [weekNumber || 0] and the like. *)
Definition or_zero (x : option Z) : Z := Js.or_else Js.truthy_int x 0.

(** The [data] object of [upsertRoutineFolder]; [page] is the stored
    [notionPageId], which [data] does not mention. *)
Definition folder_data (folder : HevyRoutineFolder.t) (page : option string)
  : RoutineFolder.t :=
  let weekNumber := parseWeekNumber (HevyRoutineFolder.title folder) in
  let sortOrder := or_zero weekNumber * 100 + HevyRoutineFolder.index folder in
  RoutineFolder.mk
    (HevyRoutineFolder.id folder)
    (HevyRoutineFolder.title folder)
    (HevyRoutineFolder.index folder)
    weekNumber
    (Some sortOrder)
    page
    false
    (HevyRoutineFolder.updated_at folder).

(** [upsertRoutineFolder]. *)
Definition upsertRoutineFolder (folder : HevyRoutineFolder.t) (d : Db.t)
  : Id * Db.t :=
  match Db.first Db.routineFoldersT
          (fun f => RoutineFolder.hevyId f =? HevyRoutineFolder.id folder) d with
  | Some (id, _) =>
      (id, Db.patch Db.routineFoldersT id
             (fun old => folder_data folder (RoutineFolder.notionPageId old)) d)
  | None => Db.insert Db.routineFoldersT (folder_data folder None) d
  end.

(** The folder lookup at the head of [upsertRoutine]: the folder's
    identifier and week number, both undefined without a truthy
    [folder_id] or without a matching folder. *)
Definition routine_folder (routine : HevyRoutine.t) (d : Db.t)
  : option Id * option Z :=
  match HevyRoutine.folder_id routine with
  | Some fid =>
      if Js.truthy_int fid then
        match Db.first Db.routineFoldersT
                (fun f => RoutineFolder.hevyId f =? fid) d with
        | Some (id, f) => (Some id, RoutineFolder.weekNumber f)
        | None => (None, None)
        end
      else (None, None)
  | None => (None, None)
  end.

(** [routineData]. *)
Definition routine_data (routine : HevyRoutine.t) (folderId : option Id)
  (folderWeekNumber : option Z) (page : option string) : Routine.t :=
  let dayNumber := parseDayNumber (HevyRoutine.title routine) in
  let dayType := detectDayType (HevyRoutine.title routine) in
  let sortOrder := or_zero folderWeekNumber * 100 + or_zero dayNumber in
  Routine.mk
    (HevyRoutine.id routine)
    folderId
    (Js.or_undefined Js.truthy_int (HevyRoutine.folder_id routine))
    (HevyRoutine.title routine)
    dayNumber
    folderWeekNumber
    (Some sortOrder)
    dayType
    page
    false
    (HevyRoutine.updated_at routine).

(** The row inserted into [routineExercises]. *)
Definition routine_exercise_row (routineId : Id) (folderWeekNumber dayNumber : option Z)
  (exercise : HevyRoutineExercise.t) : RoutineExercise.t :=
  let targetReps :=
    match HevyRoutineExercise.sets exercise with
    | s :: _ => Js.or_undefined Js.truthy_num (HevyRoutineSet.reps s)
    | [] => None
    end in
  let exerciseOrder := HevyRoutineExercise.index exercise in
  let globalSortOrder :=
    or_zero folderWeekNumber * 10000 + or_zero dayNumber * 100 + exerciseOrder in
  RoutineExercise.mk routineId
    (HevyRoutineExercise.index exercise)
    (HevyRoutineExercise.exercise_template_id exercise)
    (HevyRoutineExercise.title exercise)
    (Js.or_undefined Js.truthy_str (HevyRoutineExercise.notes exercise))
    (Js.or_undefined Js.truthy_int (HevyRoutineExercise.superset_id exercise))
    (Js.or_undefined Js.truthy_num (HevyRoutineExercise.rest_seconds exercise))
    (Z.of_nat (List.length (HevyRoutineExercise.sets exercise)))
    targetReps
    None
    folderWeekNumber
    dayNumber
    (Some exerciseOrder)
    (Some globalSortOrder)
    (Some (detectExerciseRole (HevyRoutineExercise.index exercise)
             (HevyRoutineExercise.title exercise)))
    (detectMuscleGroup (HevyRoutineExercise.title exercise))
    None
    false.

(** The row inserted into [routineSets]. *)
Definition routine_set_row (routineExerciseId routineId : Id) (set : HevyRoutineSet.t)
  : RoutineSet.t :=
  RoutineSet.mk routineExerciseId routineId
    (HevyRoutineSet.index set)
    (HevyRoutineSet.type set)
    (Js.or_undefined Js.truthy_num (HevyRoutineSet.reps set))
    (Js.or_undefined Js.truthy_num (HevyRoutineSet.weight_kg set))
    (Js.or_undefined Js.truthy_num (HevyRoutineSet.distance_meters set))
    (Js.or_undefined Js.truthy_num (HevyRoutineSet.duration_seconds set))
    None
    false.

Definition delete_routine_exercise (d : Db.t) (ex : Id * RoutineExercise.t) : Db.t :=
  let existingSets :=
    Db.collect Db.routineSetsT
      (fun s => Nat.eqb (RoutineSet.routineExerciseId s) (fst ex)) d in
  Db.delete Db.routineExercisesT (fst ex)
    (fold_left (fun d' set => Db.delete Db.routineSetsT (fst set) d') existingSets d).

Definition delete_routine_children (routineId : Id) (d : Db.t) : Db.t :=
  let existingExercises :=
    Db.collect Db.routineExercisesT
      (fun e => Nat.eqb (RoutineExercise.routineId e) routineId) d in
  fold_left delete_routine_exercise existingExercises d.

Definition insert_routine_exercise (routineId : Id) (folderWeekNumber dayNumber : option Z)
  (d : Db.t) (exercise : HevyRoutineExercise.t) : Db.t :=
  let '(exerciseId, d1) :=
    Db.insert Db.routineExercisesT
      (routine_exercise_row routineId folderWeekNumber dayNumber exercise) d in
  fold_left
    (fun d' set =>
       snd (Db.insert Db.routineSetsT (routine_set_row exerciseId routineId set) d'))
    (HevyRoutineExercise.sets exercise) d1.

Definition insert_routine_children (routineId : Id) (folderWeekNumber : option Z)
  (routine : HevyRoutine.t) (d : Db.t) : Db.t :=
  fold_left
    (insert_routine_exercise routineId folderWeekNumber
       (parseDayNumber (HevyRoutine.title routine)))
    (HevyRoutine.exercises routine) d.

(** [upsertRoutine].  The patch writes every field of [routineData], so the
    only field of the old document that survives is [notionPageId]. *)
Definition upsertRoutine (routine : HevyRoutine.t) (d : Db.t) : Id * Db.t :=
  let '(folderId, folderWeekNumber) := routine_folder routine d in
  let existing :=
    Db.first Db.routinesT
      (fun r => String.eqb (Routine.hevyId r) (HevyRoutine.id routine)) d in
  let '(routineId, d1) :=
    match existing with
    | Some (id, _) =>
        (id, delete_routine_children id
               (Db.patch Db.routinesT id
                  (fun old => routine_data routine folderId folderWeekNumber
                                (Routine.notionPageId old)) d))
    | None =>
        Db.insert Db.routinesT
          (routine_data routine folderId folderWeekNumber None) d
    end in
  (routineId, insert_routine_children routineId folderWeekNumber routine d1).

(** [getUnsyncedRoutineFolders], [getAllRoutineFolders],
    [getRoutinesByFolder], [getRoutineExercises], [getExerciseProgress]. *)
Definition getUnsyncedRoutineFolders (d : Db.t) : Table RoutineFolder.t :=
  Db.collect Db.routineFoldersT (fun f => negb (RoutineFolder.syncedToNotion f)) d.

Definition getRoutinesByFolder (folderId : Id) (d : Db.t) : Table Routine.t :=
  Db.collect Db.routinesT
    (fun r => match Routine.folderId r with
              | Some f => Nat.eqb f folderId
              | None => false
              end) d.

Definition getRoutineExercises (routineId : Id) (d : Db.t) : Table RoutineExercise.t :=
  Db.collect Db.routineExercisesT
    (fun e => Nat.eqb (RoutineExercise.routineId e) routineId) d.

Definition getExerciseProgress (exerciseTemplateId : string) (d : Db.t)
  : option (Id * ExerciseProgress.t) :=
  find (fun p => String.eqb (ExerciseProgress.exerciseTemplateId (snd p))
                   exerciseTemplateId)
    (Db.exerciseProgress d).

(** [markRoutineFolderSynced], [markRoutineSynced],
    [markRoutineExerciseSynced]. *)
Definition markRoutineFolderSynced (folderId : Id) (notionPageId : string) (d : Db.t)
  : Db.t :=
  Db.patch Db.routineFoldersT folderId
    (fun f => RoutineFolder.mk (RoutineFolder.hevyId f) (RoutineFolder.title f)
                (RoutineFolder.index f) (RoutineFolder.weekNumber f)
                (RoutineFolder.sortOrder f) (Some notionPageId) true
                (RoutineFolder.updatedAt f)) d.

Definition markRoutineSynced (routineId : Id) (notionPageId : string) (d : Db.t)
  : Db.t :=
  Db.patch Db.routinesT routineId
    (fun r => Routine.mk (Routine.hevyId r) (Routine.folderId r)
                (Routine.hevyFolderId r) (Routine.title r) (Routine.dayNumber r)
                (Routine.weekNumber r) (Routine.sortOrder r) (Routine.dayType r)
                (Some notionPageId) true (Routine.updatedAt r)) d.

Definition markRoutineExerciseSynced (exerciseId : Id) (notionPageId : string)
  (d : Db.t) : Db.t :=
  Db.patch Db.routineExercisesT exerciseId
    (fun e => RoutineExercise.mk (RoutineExercise.routineId e)
                (RoutineExercise.index e) (RoutineExercise.exerciseTemplateId e)
                (RoutineExercise.title e) (RoutineExercise.notes e)
                (RoutineExercise.supersetId e) (RoutineExercise.restSeconds e)
                (RoutineExercise.targetSets e) (RoutineExercise.targetReps e)
                (RoutineExercise.targetWeightKg e) (RoutineExercise.weekNumber e)
                (RoutineExercise.dayNumber e) (RoutineExercise.exerciseOrder e)
                (RoutineExercise.globalSortOrder e) (RoutineExercise.exerciseRole e)
                (RoutineExercise.muscleGroup e) (Some notionPageId) true) d.

End Sync.

(* ------------------------------------------------------------------ *)
(** ** Actions: the world outside the store                             *)
(* ------------------------------------------------------------------ *)

(** What the code throws.  The constructor stands for the message. *)
Inductive Err : Type :=
| HevyKeyNotConfigured      (* "HEVY_API_KEY not configured" *)
| HevyRateLimited           (* "Rate limited by Hevy API" *)
| HevyApiError (status : Z) (* "Hevy API error: <status>" *)
| NotionTokenNotConfigured  (* "NOTION_TOKEN not configured" *)
| NotionApiError (status : Z) (text : string)
                            (* "Notion API error: <status> - <text>" *)
| ArgumentValidationError (field : string)
                            (* a required argument of a mutation is undefined *)
| TypeError.                (* a property read on [null] *)

(** [process.env]. *)
Record Env : Type := mkEnv {
  HEVY_API_KEY : option string;
  NOTION_TOKEN : option string;
  SYNC_WEBHOOK_SECRET : option string
}.

Module Notion.

(** A piece of text: literal characters and interpolated numbers (the
    rendering of a number is left to the runtime). *)
Inductive Part : Type :=
| lit (s : string)
| num (x : Q).

Definition Text := list Part.

(** The value of a page property, by kind. *)
Inductive PropValue : Type :=
| title (content : Text)
| rich_text (content : option string)
| number (n : option Q)
| date (start : string)
| select (name : string)
| relation (id : option string).

Definition Props := list (string * PropValue).

(** The filter [{ property, rich_text: { equals } }]. *)
Record Filter : Type := mkFilter {
  property : string;
  equals : string
}.

(** The four requests the code sends through [notionRequest]. *)
Inductive Request : Type :=
| QueryDatabase (databaseId : string) (filter : Filter)
    (* POST /databases/<id>/query *)
| CreatePage (databaseId : string) (properties : Props)
    (* POST /pages *)
| UpdatePage (pageId : string) (properties : Props)
    (* PATCH /pages/<id> { properties } *)
| ArchivePage (pageId : string).
    (* PATCH /pages/<id> { archived: true } *)

(** What the code reads of a response: the status, the text of an error,
    and two attributes of the JSON body: [id] and, for a query, the [id]s
    of [results]. *)
Record Response : Type := mkResponse {
  status : Z;
  text : string;
  id : option string;
  results : option (list string)
}.

Definition ok (r : Response) : bool :=
  (200 <=? status r)%Z && (status r <=? 299)%Z.

End Notion.

Module HevyApi.

(** The two paginated collections the actions read. *)
Inductive Request : Type :=
| GetWorkouts (apiKey : string) (page pageSize : nat)
| GetEvents (apiKey : string) (since : string) (page pageSize : nat).

Record Response : Type := mkResponse {
  status : Z;
  page : nat;
  page_count : nat;
  workouts : list HevyWorkout.t;
  events : list HevyEvent.t
}.

Definition ok (r : Response) : bool :=
  (200 <=? status r)%Z && (status r <=? 299)%Z.

End HevyApi.

(** A line written to the console. *)
Inductive LogLine : Type :=
| LogSynced (workoutTitle : string)          (* "Synced workout: <title>" *)
| LogSyncError (hevyId : string) (e : Err)   (* "Error syncing workout <id>:" *)
| LogBatchError (e : Err).                   (* "Batch error:" *)

(** How a call ends.  [Diverged] is a loop that ran out of fuel, i.e. one
    that does not end. *)
Inductive Outcome (A : Type) : Type :=
| Returned (a : A)
| Threw (e : Err)
| Diverged.
Arguments Returned {A} _.
Arguments Threw {A} _.
Arguments Diverged {A}.

Section Actions.

(** The two remote services, seen from the client: a state that only they
    know and the answer to each request. *)
Variable Net : Type.
Variable notion_fetch : Notion.Request -> Net -> Notion.Response * Net.
Variable hevy_fetch : HevyApi.Request -> Net -> HevyApi.Response * Net.

(** [new Date().toISOString()] at the [n]-th reading of the clock, and
    [new Date(s).getTime()]. *)
Variable toISOString : nat -> string.
Variable Date_getTime : string -> Z.

Variable env : Env.

(** What an action can read and change: the store, the remote services,
    the requests sent so far to the mirror ([sent]) and to the tracker
    ([asked]), the console, and the number of clock readings. *)
Record World : Type := mkWorld {
  db : Db.t;
  net : Net;
  sent : list Notion.Request;
  asked : list HevyApi.Request;
  console : list LogLine;
  clock : nat
}.

Definition Action (A : Type) : Type := World -> Outcome A * World.

Definition ret {A} (a : A) : Action A := fun w => (Returned a, w).

Definition throw {A} (e : Err) : Action A := fun w => (Threw e, w).

Definition diverge {A} : Action A := fun w => (Diverged, w).

Definition bind {A B} (m : Action A) (k : A -> Action B) : Action B :=
  fun w =>
    match m w with
    | (Returned a, w') => k a w'
    | (Threw e, w') => (Threw e, w')
    | (Diverged, w') => (Diverged, w')
    end.

Notation "x <- m ;; k" := (bind m (fun x => k))
  (at level 61, m at next level, right associativity).
Notation "m ;;; k" := (bind m (fun _ => k))
  (at level 61, right associativity).

(** [ctx.runQuery] and [ctx.runMutation].  The mutations are run on the
    payloads as the interfaces of [convex/hevy.ts] type them, which are
    documents the schema accepts: a write that the schema refuses (a
    payload that breaks its interface) is not part of the model, so a
    mutation returns here. *)
Definition runQuery {A} (q : Db.t -> A) : Action A :=
  fun w => (Returned (q (db w)), w).

Definition runMutation (m : Db.t -> Db.t) : Action unit :=
  fun w => (Returned tt,
            mkWorld (m (db w)) (net w) (sent w) (asked w) (console w) (clock w)).

Definition log (l : LogLine) : Action unit :=
  fun w => (Returned tt,
            mkWorld (db w) (net w) (sent w) (asked w) (console w ++ [l]) (clock w)).

Definition now : Action string :=
  fun w => (Returned (toISOString (clock w)),
            mkWorld (db w) (net w) (sent w) (asked w) (console w) (S (clock w))).

(** A [v.string()] argument: [undefined] is refused. *)
Definition required (field : string) (x : option string) : Action string :=
  match x with
  | Some s => ret s
  | None => throw (ArgumentValidationError field)
  end.

(** [for (const x of xs) { body }]. *)
Fixpoint for_each {A} (xs : list A) (body : A -> Action unit) : Action unit :=
  match xs with
  | [] => ret tt
  | x :: xs' => body x ;;; for_each xs' body
  end.

(** *** [convex/notion.ts]: requests *)

(** [notionRequest]: the token is checked first; the request goes out and
    a response that is not [ok] is thrown. *)
Definition notionRequest (r : Notion.Request) : Action Notion.Response :=
  if Js.truthy Js.truthy_str (NOTION_TOKEN env) then
    fun w =>
      let '(resp, n') := notion_fetch r (net w) in
      let w' := mkWorld (db w) n' (sent w ++ [r]) (asked w) (console w) (clock w) in
      if Notion.ok resp then (Returned resp, w')
      else (Threw (NotionApiError (Notion.status resp) (Notion.text resp)), w')
  else throw NotionTokenNotConfigured.

Definition queryDatabase (databaseId : string) (filter : Notion.Filter) :=
  notionRequest (Notion.QueryDatabase databaseId filter).

Definition createPage (databaseId : string) (properties : Notion.Props) :=
  notionRequest (Notion.CreatePage databaseId properties).

Definition updatePage (pageId : string) (properties : Notion.Props) :=
  notionRequest (Notion.UpdatePage pageId properties).

Definition archivePage (pageId : string) :=
  notionRequest (Notion.ArchivePage pageId).

(** *** [convex/notion.ts]: [syncToNotion] *)

Definition plain (s : string) : Notion.Text := [Notion.lit s].

(** [x ? [{ text: { content: x } }] : []]. *)
Definition rich_opt (x : option string) : Notion.PropValue :=
  Notion.rich_text (Js.or_undefined Js.truthy_str x).

Definition int_num (z : Z) : option Q := Some (inject_Z z).

(** [{ number: z || null }] for an optional integer. *)
Definition int_or_null (z : option Z) : Notion.PropValue :=
  Notion.number (option_map inject_Z (Js.or_undefined Js.truthy_int z)).

Definition num_or_null (x : option Q) : Notion.PropValue :=
  Notion.number (Js.or_undefined Js.truthy_num x).

(** [workoutProps]. *)
Definition workoutProps (workout : Workout.t) : Notion.Props :=
  [ ("Workout", Notion.title (plain (Workout.title workout)));
    ("Hevy ID", Notion.rich_text (Some (Workout.hevyId workout)));
    ("Date", Notion.date (Js.split_T_0 (Workout.startTime workout)));
    ("Duration (min)", int_or_null (Workout.durationMinutes workout));
    ("Volume (kg)", num_or_null (Workout.totalVolume workout));
    ("Total Sets", int_or_null (Workout.totalSets workout));
    ("Total Reps", num_or_null (Workout.totalReps workout));
    ("Description", rich_opt (Workout.description workout)) ]%string.

(** [set.weightKg && set.reps ? set.weightKg * set.reps : null]. *)
Definition setVolume (set : SetRow.t) : option Q :=
  match SetRow.weightKg set, SetRow.reps set with
  | Some w, Some r =>
      if Js.truthy_num w && Js.truthy_num r then Some (w * r)%Q else None
  | _, _ => None
  end.

(** The sum of the exercise: the sets with a truthy weight and truthy
    repetitions. *)
Definition exerciseVolume (sets : Table SetRow.t) : Q :=
  fold_left
    (fun acc set =>
       match setVolume (snd set) with
       | Some v => (acc + v)%Q
       | None => acc
       end)
    sets 0%Q.

(** [exerciseProps]. *)
Definition exerciseProps (workoutPageId : option string) (exercise : Exercise.t)
  (sets : Table SetRow.t) : Notion.Props :=
  [ ("Exercise", Notion.title (plain (Exercise.title exercise)));
    ("Workout", Notion.relation workoutPageId);
    ("Exercise Name", Notion.select (Exercise.title exercise));
    ("Exercise Index", Notion.number (int_num (Exercise.hevyExerciseIndex exercise)));
    ("Template ID", Notion.rich_text (Some (Exercise.exerciseTemplateId exercise)));
    ("Notes", rich_opt (Exercise.notes exercise));
    ("Set Count", Notion.number (int_num (Z.of_nat (List.length sets))));
    ("Total Volume (kg)", Notion.number (Some (Js.round1 (exerciseVolume sets)))) ]%string.

(** [setProps]; the title is
    [`Set ${setIndex + 1}: ${weightKg || 0}kg x ${reps || 0}`]. *)
Definition setProps (exercisePageId : option string) (set : SetRow.t)
  : Notion.Props :=
  [ ("Set", Notion.title
              [ Notion.lit "Set ";
                Notion.num (inject_Z (SetRow.setIndex set + 1));
                Notion.lit ": ";
                Notion.num (Js.or_else Js.truthy_num (SetRow.weightKg set) 0%Q);
                Notion.lit "kg x ";
                Notion.num (Js.or_else Js.truthy_num (SetRow.reps set) 0%Q) ]);
    ("Exercise", Notion.relation exercisePageId);
    ("Set Index", Notion.number (int_num (SetRow.setIndex set)));
    ("Type", Notion.select (SetRow.setType set));
    ("Weight (kg)", num_or_null (SetRow.weightKg set));
    ("Reps", num_or_null (SetRow.reps set));
    ("RPE", num_or_null (SetRow.rpe set));
    ("Volume (kg)",
      Notion.number
        (match setVolume set with
         | Some v => if Js.truthy_num v then Some (Js.round1 v) else None
         | None => None
         end));
    ("Distance (m)", num_or_null (SetRow.distanceMeters set));
    ("Duration (s)", num_or_null (SetRow.durationSeconds set)) ]%string.

(** The three database identifiers [syncToNotion] is called with. *)
Record WorkoutDbs : Type := mkWorkoutDbs {
  workoutsDbId : string;
  exercisesDbId : string;
  setsDbId : string
}.

(** The exercise and set pages of one workout (the loop after the workout
    page exists). *)
Definition push_exercise (dbs : WorkoutDbs) (workoutPageId : option string)
  (exercise : Id * Exercise.t) : Action unit :=
  sets <- runQuery (Sync.getExerciseSets (fst exercise)) ;;
  exercisePage <-
    createPage (exercisesDbId dbs)
      (exerciseProps workoutPageId (snd exercise) sets) ;;
  for_each sets
    (fun set =>
       createPage (setsDbId dbs) (setProps (Notion.id exercisePage) (snd set)) ;;;
       ret tt).

(** The page the workout is written to: the stored page id when there is
    one, else the first result of a search of the workouts database by
    ["Hevy ID"], else none. *)
Definition find_workout_page (dbs : WorkoutDbs) (workout : Workout.t)
  : Action (option string) :=
  if Js.truthy Js.truthy_str (Workout.notionPageId workout)
  then ret (Workout.notionPageId workout)
  else
    searchResult <-
      queryDatabase (workoutsDbId dbs)
        (Notion.mkFilter "Hevy ID" (Workout.hevyId workout)) ;;
    match Notion.results searchResult with
    | Some (first :: _) => ret (Some first)
    | _ => ret (Workout.notionPageId workout)
    end.

(** The body of the [try] block for one workout. *)
Definition sync_workout (dbs : WorkoutDbs) (workout : Id * Workout.t)
  : Action unit :=
  let w := snd workout in
  match Workout.isDeleted w, Workout.notionPageId w with
  | true, Some (String c p) =>
      (* deleted and already mirrored: archive, mark synced, [continue] *)
      archivePage (String c p) ;;;
      runMutation (Sync.markWorkoutSynced (fst workout) (String c p))
  | _, _ =>
      found <- find_workout_page dbs w ;;
      workoutPageId <-
        match found with
        | Some (String c p) =>
            updatePage (String c p) (workoutProps w) ;;; ret found
        | _ =>
            newPage <- createPage (workoutsDbId dbs) (workoutProps w) ;;
            ret (Notion.id newPage)
        end ;;
      exercises <- runQuery (Sync.getWorkoutExercises (fst workout)) ;;
      for_each exercises (push_exercise dbs workoutPageId) ;;;
      page <- required "notionPageId" workoutPageId ;;
      runMutation (Sync.markWorkoutSynced (fst workout) page) ;;;
      log (LogSynced (Workout.title w))
  end.

(** The counters of a pass. *)
Record SyncCounts : Type := mkSyncCounts {
  synced : nat;
  errors : nat;
  total : nat
}.

(** The [for] loop with its [try]/[catch]: a throw is logged and counted,
    and the loop goes on with the next workout. *)
Fixpoint sync_workouts (dbs : WorkoutDbs) (workouts : Table Workout.t)
  (syncedCount errorCount : nat) : Action (nat * nat) :=
  match workouts with
  | [] => ret (syncedCount, errorCount)
  | workout :: rest =>
      fun w =>
        match sync_workout dbs workout w with
        | (Returned _, w') =>
            sync_workouts dbs rest (S syncedCount) errorCount w'
        | (Threw e, w') =>
            (log (LogSyncError (Workout.hevyId (snd workout)) e) ;;;
             sync_workouts dbs rest syncedCount (S errorCount)) w'
        | (Diverged, w') => (Diverged, w')
        end
  end.

(** [syncToNotion]. *)
Definition syncToNotion (dbs : WorkoutDbs) : Action SyncCounts :=
  workouts <- runQuery Sync.getUnsyncedWorkouts ;;
  counts <- sync_workouts dbs workouts 0 0 ;;
  ret (mkSyncCounts (fst counts) (snd counts) (List.length workouts)).

(** *** [convex/notion.ts]: [batchProcess] *)

(** [items.slice(i, j)]. *)
Definition slice {T} (i j : nat) (items : list T) : list T :=
  firstn (j - i) (skipn i items).

(** [Promise.allSettled(batch.map(processor))]: every processor of the
    batch is started; none of their failures is thrown.  The processors of
    one batch are run here one after the other, in the order of the
    batch. *)
Fixpoint allSettled {T R} (processor : T -> Action R) (batch : list T)
  : Action (list (R + Err)) :=
  match batch with
  | [] => ret []
  | item :: rest =>
      fun w =>
        match processor item w with
        | (Returned r, w') =>
            (settled <- allSettled processor rest ;; ret (inl r :: settled)) w'
        | (Threw e, w') =>
            (settled <- allSettled processor rest ;; ret (inr e :: settled)) w'
        | (Diverged, w') => (Diverged, w')
        end
  end.

(** The inner loop over [batchResults]: push the fulfilled values, log and
    count the rejections. *)
Fixpoint collect_settled {R} (batchResults : list (R + Err))
  (results : list R) (errors : nat) : Action (list R * nat) :=
  match batchResults with
  | [] => ret (results, errors)
  | inl value :: rest => collect_settled rest (results ++ [value]) errors
  | inr reason :: rest =>
      log (LogBatchError reason) ;;;
      collect_settled rest results (S errors)
  end.

(** [for (let i = 0; i < items.length; i += concurrency)], with [fuel]
    bounding the number of iterations. *)
Fixpoint batch_loop {T R} (fuel : nat) (items : list T)
  (processor : T -> Action R) (concurrency i : nat)
  (results : list R) (errors : nat) : Action (list R * nat) :=
  match fuel with
  | O => diverge
  | S fuel' =>
      if i <? List.length items then
        batchResults <-
          allSettled processor (slice i (i + concurrency) items) ;;
        acc <- collect_settled batchResults results errors ;;
        batch_loop fuel' items processor concurrency (i + concurrency)
          (fst acc) (snd acc)
      else ret (results, errors)
  end.

(** [batchProcess]: one iteration more than there are items is enough
    whenever the loop ends at all. *)
Definition batchProcess {T R} (items : list T) (processor : T -> Action R)
  (concurrency : nat) : Action (list R * nat) :=
  batch_loop (S (List.length items)) items processor concurrency 0 [] 0.

(** *** [convex/notion.ts]: [syncRoutinesToNotion] *)

Record RoutineDbs : Type := mkRoutineDbs {
  programsDbId : string;
  routinesDbId : string;
  routineExercisesDbId : string
}.

Definition folderProps (folder : RoutineFolder.t) (routineCount : nat)
  : Notion.Props :=
  [ ("Program", Notion.title (plain (RoutineFolder.title folder)));
    ("Hevy Folder ID", Notion.number (int_num (RoutineFolder.hevyId folder)));
    ("Week Number",
      Notion.number
        (int_num (Js.or_else Js.truthy_int (RoutineFolder.weekNumber folder)
                    (RoutineFolder.index folder))));
    ("Sort Order", Notion.number (option_map inject_Z (RoutineFolder.sortOrder folder)));
    ("Routine Count", Notion.number (int_num (Z.of_nat routineCount))) ]%string.

(** Step 1, the processor of one folder. *)
Definition push_folder (dbs : RoutineDbs) (folder : Id * RoutineFolder.t)
  : Action ((Id * RoutineFolder.t) * string * Table Routine.t) :=
  routines <- runQuery (Sync.getRoutinesByFolder (fst folder)) ;;
  newPage <-
    createPage (programsDbId dbs)
      (folderProps (snd folder) (List.length routines)) ;;
  page <- required "notionPageId" (Notion.id newPage) ;;
  runMutation (Sync.markRoutineFolderSynced (fst folder) page) ;;;
  ret (folder, page, routines).

Definition routineProps (routine : Routine.t) (folderPageId : string)
  (exercises : Table RoutineExercise.t) : Notion.Props :=
  let totalSets :=
    fold_left (fun acc ex => (acc + RoutineExercise.targetSets (snd ex))%Z)
      exercises 0%Z in
  List.app
   ([ ("Routine", Notion.title (plain (Routine.title routine)));
     ("Hevy ID", Notion.rich_text (Some (Routine.hevyId routine)));
     ("Program", Notion.relation (Some folderPageId));
     ("Week Number", int_or_null (Routine.weekNumber routine));
     ("Day Number", int_or_null (Routine.dayNumber routine));
     ("Sort Order", Notion.number (option_map inject_Z (Routine.sortOrder routine)));
     ("Exercise Count", Notion.number (int_num (Z.of_nat (List.length exercises))));
     ("Total Sets", Notion.number (int_num totalSets)) ]%string)
   (match Js.or_undefined Js.truthy_str (Routine.dayType routine) with
    | Some dayType => [ ("Day Type"%string, Notion.select dayType) ]
    | None => []
    end).

(** Step 2, the processor of one routine. *)
Definition push_routine (dbs : RoutineDbs)
  (item : (Id * Routine.t) * string * Table RoutineExercise.t)
  : Action ((Id * Routine.t) * string * Table RoutineExercise.t) :=
  let '(routine, folderPageId, exercises) := item in
  newPage <-
    createPage (routinesDbId dbs)
      (routineProps (snd routine) folderPageId exercises) ;;
  page <- required "notionPageId" (Notion.id newPage) ;;
  runMutation (Sync.markRoutineSynced (fst routine) page) ;;;
  ret (routine, page, exercises).

Definition routineExerciseProps (exercise : RoutineExercise.t)
  (routinePageId : string) (progress : option (Id * ExerciseProgress.t))
  : Notion.Props :=
  List.concat
  [ ([ ("Exercise", Notion.title (plain (RoutineExercise.title exercise)));
     ("Routine", Notion.relation (Some routinePageId));
     ("Exercise Name", Notion.select (RoutineExercise.title exercise));
     ("Template ID",
       Notion.rich_text (Some (RoutineExercise.exerciseTemplateId exercise)));
     ("Week Number", int_or_null (RoutineExercise.weekNumber exercise));
     ("Day Number", int_or_null (RoutineExercise.dayNumber exercise));
     ("Exercise Order",
       Notion.number (option_map inject_Z (RoutineExercise.exerciseOrder exercise)));
     ("Global Sort",
       Notion.number (option_map inject_Z (RoutineExercise.globalSortOrder exercise)));
     ("Target Sets", Notion.number (int_num (RoutineExercise.targetSets exercise)));
     ("Target Reps", num_or_null (RoutineExercise.targetReps exercise));
     ("Target Weight (kg)", num_or_null (RoutineExercise.targetWeightKg exercise));
     ("Rest (s)", num_or_null (RoutineExercise.restSeconds exercise));
     ("Notes",
       Notion.rich_text
         (option_map (fun n => substring 0 2000 n)
            (Js.or_undefined Js.truthy_str (RoutineExercise.notes exercise)))) ]%string);
    match Js.or_undefined Js.truthy_str (RoutineExercise.exerciseRole exercise) with
    | Some role => [ ("Exercise Role"%string, Notion.select role) ]
    | None => []
    end;
    match Js.or_undefined Js.truthy_str (RoutineExercise.muscleGroup exercise) with
    | Some group => [ ("Muscle Group"%string, Notion.select group) ]
    | None => []
    end;
    match progress with
    | Some (_, p) =>
        [ ("Last Weight (kg)", num_or_null (ExerciseProgress.lastWeightKg p));
          ("Last Reps", num_or_null (ExerciseProgress.lastReps p));
          ("Suggested Weight (kg)",
            num_or_null (ExerciseProgress.suggestedWeightKg p));
          ("PR Weight (kg)", num_or_null (ExerciseProgress.maxWeightKg p)) ]%string
    | None => []
    end ].

(** Step 3, the processor of one routine exercise. *)
Definition push_routine_exercise (dbs : RoutineDbs)
  (item : (Id * RoutineExercise.t) * string) : Action string :=
  let '(exercise, routinePageId) := item in
  progress <-
    runQuery (Sync.getExerciseProgress
                (RoutineExercise.exerciseTemplateId (snd exercise))) ;;
  exercisePage <-
    createPage (routineExercisesDbId dbs)
      (routineExerciseProps (snd exercise) routinePageId progress) ;;
  page <- required "notionPageId" (Notion.id exercisePage) ;;
  runMutation (Sync.markRoutineExerciseSynced (fst exercise) page) ;;;
  ret page.

(** The nested loops that gather [allRoutineData]. *)
Fixpoint gather_routines
  (folderResults : list ((Id * RoutineFolder.t) * string * Table Routine.t))
  : Action (list ((Id * Routine.t) * string * Table RoutineExercise.t)) :=
  match folderResults with
  | [] => ret []
  | (_, pageId, routines) :: rest =>
      here <-
        (fix each (rs : Table Routine.t) :=
           match rs with
           | [] => ret []
           | routine :: rs' =>
               exercises <- runQuery (Sync.getRoutineExercises (fst routine)) ;;
               more <- each rs' ;;
               ret ((routine, pageId, exercises) :: more)
           end) routines ;;
      more <- gather_routines rest ;;
      ret (here ++ more)
  end.

Record RoutineCounts : Type := mkRoutineCounts {
  syncedFolders : nat;
  syncedRoutines : nat;
  syncedExercises : nat;
  routineErrors : nat
}.

(** [syncRoutinesToNotion]. *)
Definition syncRoutinesToNotion (dbs : RoutineDbs) : Action RoutineCounts :=
  folders <- runQuery Sync.getUnsyncedRoutineFolders ;;
  folderResults <- batchProcess folders (push_folder dbs) 5 ;;
  allRoutineData <- gather_routines (fst folderResults) ;;
  routineResults <- batchProcess allRoutineData (push_routine dbs) 10 ;;
  let allExerciseData :=
    flat_map
      (fun r : (Id * Routine.t) * string * Table RoutineExercise.t =>
         let '(_, pageId, exercises) := r in
         map (fun exercise => (exercise, pageId)) exercises)
      (fst routineResults) in
  exerciseResults <- batchProcess allExerciseData (push_routine_exercise dbs) 20 ;;
  ret (mkRoutineCounts
         (List.length (fst folderResults))
         (List.length (fst routineResults))
         (List.length (fst exerciseResults))
         (snd folderResults + snd routineResults + snd exerciseResults)).

(** *** [convex/hevy.ts] *)

(** What [fetchHevyWorkouts] and [fetchHevyEvents] do with a response:
    status 429 and any other status that is not [ok] are thrown. *)
Definition hevyRequest (r : HevyApi.Request) : Action HevyApi.Response :=
  fun w =>
    let '(resp, n') := hevy_fetch r (net w) in
    let w' := mkWorld (db w) n' (sent w) (asked w ++ [r]) (console w) (clock w) in
    if (HevyApi.status resp =? 429)%Z then (Threw HevyRateLimited, w')
    else if HevyApi.ok resp then (Returned resp, w')
    else (Threw (HevyApiError (HevyApi.status resp)), w').

Definition fetchHevyWorkouts (apiKey : string) (page pageSize : nat) :=
  hevyRequest (HevyApi.GetWorkouts apiKey page pageSize).

Definition fetchHevyEvents (apiKey since : string) (page pageSize : nat) :=
  hevyRequest (HevyApi.GetEvents apiKey since page pageSize).

(** [calculateWorkoutStats]: the same two loops as in [upsertWorkout],
    with the volume rounded in the returned object. *)
Definition calculateWorkoutStats (exercises : list HevyExercise.t) : Sync.Stats :=
  let st :=
    fold_left
      (fun acc exercise =>
         fold_left Sync.stats_step (HevyExercise.sets exercise) acc)
      exercises (Sync.mkStats 0%Q 0%Z 0%Q) in
  Sync.mkStats (Js.round1 (Sync.totalVolume st)) (Sync.totalSets st)
    (Sync.totalReps st).

(** [calculateDuration]. *)
Definition calculateDuration (startTime : string) (endTime : option string)
  : option Z :=
  match Js.or_undefined Js.truthy_str endTime with
  | Some e =>
      Some (Js.Math_round
              (inject_Z (Date_getTime e - Date_getTime startTime) / 60000)%Q)
  | None => None
  end.

(** [process.env.HEVY_API_KEY], thrown when falsy. *)
Definition hevy_api_key : Action string :=
  match HEVY_API_KEY env with
  | Some (String c k) => ret (String c k)
  | _ => throw HevyKeyNotConfigured
  end.

(** [for (let page = 2; page <= page_count; page++)], collecting what
    [items] reads off each page. *)
Fixpoint fetch_pages {A} (fetch : nat -> Action HevyApi.Response)
  (items : HevyApi.Response -> list A) (pages : list nat) (acc : list A)
  : Action (list A) :=
  match pages with
  | [] => ret acc
  | page :: rest =>
      pageData <- fetch page ;;
      fetch_pages fetch items rest (acc ++ items pageData)
  end.

Record FullSyncResult : Type := mkFullSyncResult {
  workoutsProcessed : nat
}.

(** [fullSync]. *)
Definition fullSync : Action FullSyncResult :=
  apiKey <- hevy_api_key ;;
  firstPage <- fetchHevyWorkouts apiKey 1 10 ;;
  allWorkouts <-
    fetch_pages (fun page => fetchHevyWorkouts apiKey page 10)
      HevyApi.workouts (seq 2 (HevyApi.page_count firstPage - 1))
      (HevyApi.workouts firstPage) ;;
  for_each allWorkouts
    (fun workout =>
       runMutation (fun d => snd (Sync.upsertWorkout Date_getTime workout d))) ;;;
  lastSyncedAt <- now ;;
  lastEventTimestamp <- now ;;
  runMutation
    (Sync.updateSyncState
       (Sync.mkSyncStateArgs (Some lastSyncedAt) (Some lastEventTimestamp)
          None None)) ;;;
  ret (mkFullSyncResult (List.length allWorkouts)).

(** [syncState?.lastEventTimestamp || "1970-01-01T00:00:00Z"]. *)
Definition epoch : string := "1970-01-01T00:00:00Z".

Definition since_cursor (syncState : option (Id * SyncState.t)) : string :=
  match syncState with
  | Some (_, st) =>
      Js.or_else Js.truthy_str (SyncState.lastEventTimestamp st) epoch
  | None => epoch
  end.

(** The loop over the events, with its two counters. *)
Fixpoint process_events (events : list HevyEvent.t)
  (updatedCount deletedCount : nat) : Action (nat * nat) :=
  match events with
  | [] => ret (updatedCount, deletedCount)
  | event :: rest =>
      match HevyEvent.type event, HevyEvent.workout event, HevyEvent.id event with
      | HevyEvent.updated, Some workout, _ =>
          runMutation (fun d => snd (Sync.upsertWorkout Date_getTime workout d)) ;;;
          process_events rest (S updatedCount) deletedCount
      | HevyEvent.deleted, _, Some (String c i) =>
          runMutation (Sync.markWorkoutDeleted (String c i)) ;;;
          process_events rest updatedCount (S deletedCount)
      | _, _, _ => process_events rest updatedCount deletedCount
      end
  end.

Record IncrementalResult : Type := mkIncrementalResult {
  eventsProcessed : nat;
  updated : nat;
  deleted : nat
}.

(** [incrementalSync]. *)
Definition incrementalSync : Action IncrementalResult :=
  apiKey <- hevy_api_key ;;
  syncState <- runQuery Sync.getSyncState ;;
  let since := since_cursor syncState in
  firstPage <- fetchHevyEvents apiKey since 1 10 ;;
  allEvents <-
    fetch_pages (fun page => fetchHevyEvents apiKey since page 10)
      HevyApi.events (seq 2 (HevyApi.page_count firstPage - 1))
      (HevyApi.events firstPage) ;;
  counts <- process_events allEvents 0 0 ;;
  lastSyncedAt <- now ;;
  lastEventTimestamp <- now ;;
  runMutation
    (Sync.updateSyncState
       (Sync.mkSyncStateArgs (Some lastSyncedAt) (Some lastEventTimestamp)
          None None)) ;;;
  ret (mkIncrementalResult (List.length allEvents) (fst counts) (snd counts)).

(** [fullPipeline] of [convex/notion.ts]. *)
Definition fullPipeline (dbs : WorkoutDbs) : Action (IncrementalResult * SyncCounts) :=
  hevyResult <- incrementalSync ;;
  notionResult <- syncToNotion dbs ;;
  ret (hevyResult, notionResult).

(** *** [convex/http.ts] *)

(** What [request.json()] gives: a rejection (replaced by [{}]), [null],
    an object, read at its three attributes, or another JSON value. *)
Inductive JsonBody : Type :=
| body_rejected
| body_null
| body_other
| body_object (workoutsDbId exercisesDbId setsDbId : option string).

Record HttpRequest : Type := mkHttpRequest {
  authorization : option string;
  json : JsonBody
}.

(** The body of a response. *)
Inductive ResponseBody : Type :=
| Unauthorized                                  (* the text "Unauthorized" *)
| JsonIncremental (r : IncrementalResult)
| JsonPipeline (r : IncrementalResult * SyncCounts)
| JsonFullSync (r : FullSyncResult)
| JsonError (message : Err).                    (* { error: message } *)

Record HttpResponse : Type := mkHttpResponse {
  http_status : Z;
  http_body : ResponseBody
}.

(** [expectedSecret && authHeader !== `Bearer ${expectedSecret}`]. *)
Definition rejected (request : HttpRequest) : bool :=
  match SYNC_WEBHOOK_SECRET env with
  | Some (String c s) =>
      match authorization request with
      | Some h => negb (String.eqb h ("Bearer " ++ String c s))
      | None => true
      end
  | _ => false
  end.

(** [try { ... } catch (error) { 500, { error: error.message } }]. *)
Definition catch_500 (m : Action HttpResponse) : Action HttpResponse :=
  fun w =>
    match m w with
    | (Threw e, w') => (Returned (mkHttpResponse 500 (JsonError e)), w')
    | r => r
    end.

(** The handler of [POST /sync]. *)
Definition post_sync (request : HttpRequest) : Action HttpResponse :=
  if rejected request then ret (mkHttpResponse 401 Unauthorized)
  else
    catch_500
      match json request with
      | body_null => throw TypeError
      | body_object (Some w) (Some e) (Some s) =>
          if Js.truthy_str w && Js.truthy_str e && Js.truthy_str s then
            result <- fullPipeline (mkWorkoutDbs w e s) ;;
            ret (mkHttpResponse 200 (JsonPipeline result))
          else
            result <- incrementalSync ;;
            ret (mkHttpResponse 200 (JsonIncremental result))
      | _ =>
          result <- incrementalSync ;;
          ret (mkHttpResponse 200 (JsonIncremental result))
      end.

(** The handler of [POST /full-sync]. *)
Definition post_full_sync (request : HttpRequest) : Action HttpResponse :=
  if rejected request then ret (mkHttpResponse 401 Unauthorized)
  else
    catch_500
      (result <- fullSync ;;
       ret (mkHttpResponse 200 (JsonFullSync result))).

End Actions.

(* ------------------------------------------------------------------ *)
(** ** [convex/notion.ts]: [updateExistingWithSorting]                  *)
(* ------------------------------------------------------------------ *)

(** [getAllRoutineFolders] of [convex/sync.ts]. *)
Definition getAllRoutineFolders (d : Db.t) : Table RoutineFolder.t :=
  Db.routineFolders d.

(** The counters [updateExistingWithSorting] returns. *)
Record SortingCounts : Type := mkSortingCounts {
  updatedFolders : nat;
  updatedRoutines : nat;
  updatedExercises : nat;
  sortingErrors : nat
}.

(** [`/pages/${pageId}`]: the page id as the template literal prints it. *)
Definition page_of (pageId : option string) : string :=
  match pageId with
  | Some p => p
  | None => "undefined"%string
  end.

(** [xs.filter((x) => x.notionPageId)]. *)
Definition with_page {R} (notionPageId : R -> option string) (xs : Table R)
  : Table R :=
  filter (fun x => Js.truthy Js.truthy_str (notionPageId (snd x))) xs.

Definition folderSortingProps (folder : RoutineFolder.t) : Notion.Props :=
  [ ("Week Number",
      Notion.number
        (int_num (Js.or_else Js.truthy_int (RoutineFolder.weekNumber folder)
                    (RoutineFolder.index folder))));
    ("Sort Order",
      Notion.number
        (int_num (Js.or_else Js.truthy_int (RoutineFolder.sortOrder folder)
                    (RoutineFolder.index folder)))) ]%string.

Definition routineSortingProps (routine : Routine.t) : Notion.Props :=
  [ ("Week Number", int_or_null (Routine.weekNumber routine));
    ("Day Number", int_or_null (Routine.dayNumber routine));
    ("Sort Order",
      Notion.number (int_num (Sync.or_zero (Routine.sortOrder routine)))) ]%string.

Definition exerciseSortingProps (exercise : RoutineExercise.t) : Notion.Props :=
  List.concat
  [ ([ ("Week Number", int_or_null (RoutineExercise.weekNumber exercise));
       ("Day Number", int_or_null (RoutineExercise.dayNumber exercise));
       ("Exercise Order",
         Notion.number
           (int_num (Js.or_else Js.truthy_int
                       (RoutineExercise.exerciseOrder exercise)
                       (RoutineExercise.index exercise))));
       ("Global Sort",
         Notion.number
           (int_num (Sync.or_zero (RoutineExercise.globalSortOrder exercise)))) ]%string);
    match Js.or_undefined Js.truthy_str (RoutineExercise.exerciseRole exercise) with
    | Some role => [ ("Exercise Role"%string, Notion.select role) ]
    | None => []
    end;
    match Js.or_undefined Js.truthy_str (RoutineExercise.muscleGroup exercise) with
    | Some group => [ ("Muscle Group"%string, Notion.select group) ]
    | None => []
    end ].

Section Sorting.

Variable Net : Type.
Variable notion_fetch : Notion.Request -> Net -> Notion.Response * Net.
Variable env : Env.

Notation "x <- m ;; k" := (bind Net m (fun x => k))
  (at level 61, m at next level, right associativity).
Notation "m ;;; k" := (bind Net m (fun _ => k))
  (at level 61, right associativity).

(** [for (const x of xs) { all.push(...(await ctx.runQuery(q, x))) }]. *)
Fixpoint gather_all {A B} (xs : list A) (q : A -> Db.t -> list B)
  : Action Net (list B) :=
  match xs with
  | [] => ret Net []
  | x :: rest =>
      found <- runQuery Net (q x) ;;
      more <- gather_all rest q ;;
      ret Net (found ++ more)
  end.

(** The three processors: one page update each, the document id as the
    result. *)
Definition sort_folder (folder : Id * RoutineFolder.t) : Action Net Id :=
  updatePage Net notion_fetch env
    (page_of (RoutineFolder.notionPageId (snd folder)))
    (folderSortingProps (snd folder)) ;;;
  ret Net (fst folder).

Definition sort_routine (routine : Id * Routine.t) : Action Net Id :=
  updatePage Net notion_fetch env
    (page_of (Routine.notionPageId (snd routine)))
    (routineSortingProps (snd routine)) ;;;
  ret Net (fst routine).

Definition sort_exercise (exercise : Id * RoutineExercise.t) : Action Net Id :=
  updatePage Net notion_fetch env
    (page_of (RoutineExercise.notionPageId (snd exercise)))
    (exerciseSortingProps (snd exercise)) ;;;
  ret Net (fst exercise).

(** [updateExistingWithSorting]; the handler does not read its three
    arguments. *)
Definition updateExistingWithSorting : Action Net SortingCounts :=
  folders <- runQuery Net getAllRoutineFolders ;;
  folderResults <-
    batchProcess Net (with_page RoutineFolder.notionPageId folders)
      sort_folder 10 ;;
  allRoutines <-
    gather_all folders (fun folder => Sync.getRoutinesByFolder (fst folder)) ;;
  routineResults <-
    batchProcess Net (with_page Routine.notionPageId allRoutines)
      sort_routine 10 ;;
  allExercises <-
    gather_all allRoutines
      (fun routine => Sync.getRoutineExercises (fst routine)) ;;
  exerciseResults <-
    batchProcess Net (with_page RoutineExercise.notionPageId allExercises)
      sort_exercise 20 ;;
  ret Net
    (mkSortingCounts
       (List.length (fst folderResults))
       (List.length (fst routineResults))
       (List.length (fst exerciseResults))
       (snd folderResults + snd routineResults + snd exerciseResults)).

End Sorting.

(* ------------------------------------------------------------------ *)
(** ** A simulated environment                                          *)
(* ------------------------------------------------------------------ *)

(** A small in-memory stand-in for the two remote services, the clock and
    the date parser, used to run the model on concrete inputs. *)
Module Sim.

Local Open Scope string_scope.

Record Page : Type := mkPage {
  page_id : string;
  page_db : string;
  page_props : Notion.Props;
  page_archived : bool
}.

Record Net : Type := mkNet {
  pages : list Page;
  down : bool;                                 (* the mirror answers 503 *)
  workout_pages : list (list HevyWorkout.t);   (* the workouts collection *)
  event_pages : list (list HevyEvent.t)        (* the events feed *)
}.

(** Identifier of the [n]-th page created: ["p"] followed by [n] marks. *)
Fixpoint fresh_id (n : nat) : string :=
  match n with
  | O => "p"
  | S n' => fresh_id n' ++ "'"
  end.

Definition prop_equals (filter : Notion.Filter) (p : Page) : bool :=
  existsb
    (fun kv =>
       String.eqb (fst kv) (Notion.property filter)
       && match snd kv with
          | Notion.rich_text (Some s) => String.eqb s (Notion.equals filter)
          | _ => false
          end)
    (page_props p).

Definition has_page (pid : string) (n : Net) : bool :=
  existsb (fun p => String.eqb (page_id p) pid) (pages n).

Definition notion_fetch (r : Notion.Request) (n : Net) : Notion.Response * Net :=
  if down n then (Notion.mkResponse 503 "unavailable" None None, n)
  else
    match r with
    | Notion.QueryDatabase databaseId filter =>
        (Notion.mkResponse 200 "" None
           (Some (map page_id
                    (List.filter
                       (fun p => String.eqb (page_db p) databaseId
                                 && negb (page_archived p)
                                 && prop_equals filter p)
                       (pages n)))),
         n)
    | Notion.CreatePage databaseId properties =>
        let pid := fresh_id (List.length (pages n)) in
        (Notion.mkResponse 200 "" (Some pid) None,
         mkNet (pages n ++ [mkPage pid databaseId properties false])
           (down n) (workout_pages n) (event_pages n))
    | Notion.UpdatePage pageId properties =>
        if has_page pageId n then
          (Notion.mkResponse 200 "" (Some pageId) None,
           mkNet
             (map (fun p =>
                     if String.eqb (page_id p) pageId
                     then mkPage pageId (page_db p) properties (page_archived p)
                     else p)
                (pages n))
             (down n) (workout_pages n) (event_pages n))
        else (Notion.mkResponse 404 "not found" None None, n)
    | Notion.ArchivePage pageId =>
        if has_page pageId n then
          (Notion.mkResponse 200 "" (Some pageId) None,
           mkNet
             (map (fun p =>
                     if String.eqb (page_id p) pageId
                     then mkPage pageId (page_db p) (page_props p) true
                     else p)
                (pages n))
             (down n) (workout_pages n) (event_pages n))
        else (Notion.mkResponse 404 "not found" None None, n)
    end.

Definition hevy_fetch (r : HevyApi.Request) (n : Net) : HevyApi.Response * Net :=
  match r with
  | HevyApi.GetWorkouts _ page _ =>
      (HevyApi.mkResponse 200 page (List.length (workout_pages n))
         (nth (page - 1) (workout_pages n) []) [], n)
  | HevyApi.GetEvents _ _ page _ =>
      (HevyApi.mkResponse 200 page (List.length (event_pages n))
         [] (nth (page - 1) (event_pages n) []), n)
  end.

(** The clock: one second per reading, from noon on 2024-01-02 (the first
    ten readings). *)
Definition toISOString (n : nat) : string :=
  "2024-01-02T12:00:0" ++ String (ascii_of_nat (48 + n)) "Z".

(** Timestamps [YYYY-MM-DDThh:mm:ssZ], in milliseconds since the epoch. *)
Definition digits_at (s : string) (start len : nat) : Z :=
  Js.parseInt (substring start len s).

Definition days_from_civil (y m d : Z) : Z :=
  let y' := (if m <=? 2 then y - 1 else y)%Z in
  let era := (y' / 400)%Z in
  let yoe := (y' - era * 400)%Z in
  let mp := ((m + 9) mod 12)%Z in
  let doy := ((153 * mp + 2) / 5 + d - 1)%Z in
  let doe := (yoe * 365 + yoe / 4 - yoe / 100 + doy)%Z in
  (era * 146097 + doe - 719468)%Z.

Definition Date_getTime (s : string) : Z :=
  ((days_from_civil (digits_at s 0 4) (digits_at s 5 2) (digits_at s 8 2) * 86400
    + digits_at s 11 2 * 3600 + digits_at s 14 2 * 60 + digits_at s 17 2)
   * 1000)%Z.

Definition env : Env := mkEnv (Some "hevy-key") (Some "notion-token") (Some "s3cret").

Definition no_token : Env := mkEnv (Some "hevy-key") None (Some "s3cret").

Definition no_secret : Env := mkEnv (Some "hevy-key") (Some "notion-token") None.

Definition empty_net : Net := mkNet [] false [] [].

Definition dbs : WorkoutDbs := mkWorkoutDbs "db-workouts" "db-exercises" "db-sets".

Definition routine_dbs : RoutineDbs :=
  mkRoutineDbs "db-programs" "db-routines" "db-routine-exercises".

Definition world (d : Db.t) (n : Net) : World Net := mkWorld Net d n [] [] [] 0.

(** A processor for the batch runner: ten times an odd number, a throw
    on an even one. *)
Definition tenfold_odd (n : nat) : Action Net nat :=
  if Nat.even n then throw Net TypeError else ret Net (n * 10).

(** The same processor, writing a line to the console before it ends:
    the line names the item by as many marks as the item counts. *)
Definition noted_tenfold_odd (n : nat) : Action Net nat :=
  bind Net (log Net (LogSynced (fresh_id n))) (fun _ => tenfold_odd n).

(** *** Sample payloads *)

Definition a_set (index : Z) (weight reps : option Q) : HevySet.t :=
  HevySet.mk index "normal" weight reps None None None None.

(** The set list [{100, 5}, {null, 8}, {50, 10}]. *)
Definition three_sets : list HevySet.t :=
  [ a_set 0 (Some 100%Q) (Some 5%Q);
    a_set 1 None (Some 8%Q);
    a_set 2 (Some 50%Q) (Some 10%Q) ].

Definition bench : HevyExercise.t :=
  HevyExercise.mk 0 "Bench Press (Barbell)" None "T-BENCH" None three_sets.

Definition curl : HevyExercise.t :=
  HevyExercise.mk 1 "Bicep Curl" (Some "slow") "T-CURL" None
    [ a_set 0 (Some 12%Q) (Some 12%Q) ].

Definition push_day : HevyWorkout.t :=
  HevyWorkout.mk "w-1" "Push day" None
    "2024-01-01T10:00:00Z" (Some "2024-01-01T11:15:00Z") [ bench; curl ].

(** The bench press and a press with a weight of 22.5 kilograms. *)
Definition with_half_kilograms : list HevyExercise.t :=
  [ bench;
    HevyExercise.mk 1 "Overhead Press" None "T-PRESS" None
      [ a_set 0 (Some (45 # 2)%Q) (Some 7%Q) ] ].

(** A workout whose only exercise has the three sets above. *)
Definition bench_only : HevyWorkout.t :=
  HevyWorkout.mk "w-2" "Bench only" None
    "2024-01-01T10:00:00Z" (Some "2024-01-01T11:15:00Z") [ bench ].

Definition week2 : HevyRoutineFolder.t :=
  HevyRoutineFolder.mk 7 1 "SBS Week 2" "2024-01-01T00:00:00Z" "2023-12-01T00:00:00Z".

Definition day3 : HevyRoutine.t :=
  HevyRoutine.mk "r-1" "Day 3 - Bench" (Some 7%Z)
    "2024-01-01T00:00:00Z" "2023-12-01T00:00:00Z"
    [ HevyRoutineExercise.mk 0 "Bench Press (Barbell)" None "T-BENCH" None None
        [ HevyRoutineSet.mk 0 "normal" None (Some 5%Q) None None None;
          HevyRoutineSet.mk 1 "normal" None (Some 5%Q) None None None ];
      HevyRoutineExercise.mk 1 "Bicep Curl" None "T-CURL" None (Some 90%Q)
        [ HevyRoutineSet.mk 0 "normal" None (Some 12%Q) None None None ] ].

(** *** Sample stores and mirrors *)

(** The store after the sample workout was upserted. *)
Definition pushed_store : Db.t :=
  snd (Sync.upsertWorkout Date_getTime push_day Db.empty).

(** The store after the sample workout was upserted and then deleted. *)
Definition deleted_store : Db.t := Sync.markWorkoutDeleted "w-1" pushed_store.

(** The store after the sample folder and its routine were upserted. *)
Definition routine_store : Db.t :=
  snd (Sync.upsertRoutine day3 (snd (Sync.upsertRoutineFolder week2 Db.empty))).

Definition blank_workout : Workout.t :=
  Workout.mk "" "" None "" None None None None None None false false.

(** The first workout that waits for the mirror. *)
Definition first_unsynced (d : Db.t) : Id * Workout.t :=
  hd (0, blank_workout) (Sync.getUnsyncedWorkouts d).

(** A mirror that holds a page with a given natural key. *)
Definition net_with_page (databaseId hevyId : string) : Net :=
  mkNet
    [ mkPage "old" databaseId [("Hevy ID", Notion.rich_text (Some hevyId))] false ]
    false [] [].

(** The pages a search by natural key finds. *)
Definition search (databaseId hevyId : string) (n : Net) : option (list string) :=
  Notion.results
    (fst (notion_fetch
            (Notion.QueryDatabase databaseId (Notion.mkFilter "Hevy ID" hevyId)) n)).

(** An events feed of two pages: an update and the deletion of the sample
    workout and an event without a payload, then an update of the other
    workout. *)
Definition events_net : Net :=
  mkNet [] false []
    [ [ HevyEvent.mk HevyEvent.updated (Some push_day) None None;
        HevyEvent.mk HevyEvent.deleted None (Some "w-1")
          (Some "2024-01-01T12:00:00Z");
        HevyEvent.mk HevyEvent.updated None None None ];
      [ HevyEvent.mk HevyEvent.updated (Some bench_only) None None ] ].

(** A third workout, and a tracker whose workouts collection and events
    feed have three pages each. *)
Definition curl_only : HevyWorkout.t :=
  HevyWorkout.mk "w-3" "Curl only" None
    "2024-01-03T10:00:00Z" (Some "2024-01-03T10:30:00Z") [ curl ].

Definition three_pages_net : Net :=
  mkNet [] false
    [ [ push_day ]; [ bench_only ]; [ curl_only ] ]
    [ [ HevyEvent.mk HevyEvent.updated (Some push_day) None None ];
      [ HevyEvent.mk HevyEvent.deleted None (Some "w-1")
          (Some "2024-01-01T12:00:00Z");
        HevyEvent.mk HevyEvent.updated None None None ];
      [ HevyEvent.mk HevyEvent.updated (Some bench_only) None None;
        HevyEvent.mk HevyEvent.updated (Some curl_only) None None ] ].

(** The sample workout after a push that stored the page [old], after
    its deletion, and after an update event instead. *)
Definition mirrored_store : Db.t := Sync.markWorkoutSynced 0 "old" pushed_store.

Definition mirrored_deleted_store : Db.t :=
  Sync.markWorkoutDeleted "w-1" mirrored_store.

Definition updated_store : Db.t :=
  snd (Sync.upsertWorkout Date_getTime push_day mirrored_store).

(** A tracker that answers the first page and then fails with status
    503. *)
Definition hevy_fails_after_first (r : HevyApi.Request) (n : Net)
  : HevyApi.Response * Net :=
  match r with
  | HevyApi.GetWorkouts _ 1 _ | HevyApi.GetEvents _ _ 1 _ => hevy_fetch r n
  | _ => (HevyApi.mkResponse 503 0 0 [] [], n)
  end.

(** A tracker that answers every request with status 429, and one that
    answers with status 503. *)
Definition hevy_limited (r : HevyApi.Request) (n : Net)
  : HevyApi.Response * Net :=
  (HevyApi.mkResponse 429 0 0 [] [], n).

Definition hevy_down (r : HevyApi.Request) (n : Net) : HevyApi.Response * Net :=
  (HevyApi.mkResponse 503 0 0 [] [], n).

(** The sample folder and routine after a push that stored the pages
    [f] and [r], upserted again. *)
Definition sorted_store : Db.t :=
  Sync.markRoutineSynced 1 "r" (Sync.markRoutineFolderSynced 0 "f" routine_store).

Definition sorted_net : Net :=
  mkNet [ mkPage "f" "db-programs" [] false; mkPage "r" "db-routines" [] false ]
    false [] [].

End Sim.

(* ------------------------------------------------------------------ *)
(** ** Vocabulary of the statements                                     *)
(* ------------------------------------------------------------------ *)

(** A table of a well-formed store: every identifier was handed out
    already, and none twice. *)
Definition table_ok {R} (n : Id) (t : Table R) : Prop :=
  Forall (fun r => fst r < n) t /\ NoDup (map fst t).

(** The invariant of the store: the tables are in order and a reference
    from a child to its parent names an identifier that was handed out. *)
Record wf (d : Db.t) : Prop := mk_wf {
  wf_syncState : table_ok (Db.nextId d) (Db.syncState d);
  wf_workouts : table_ok (Db.nextId d) (Db.workouts d);
  wf_exercises : table_ok (Db.nextId d) (Db.exercises d);
  wf_sets : table_ok (Db.nextId d) (Db.sets d);
  wf_routineFolders : table_ok (Db.nextId d) (Db.routineFolders d);
  wf_routines : table_ok (Db.nextId d) (Db.routines d);
  wf_routineExercises : table_ok (Db.nextId d) (Db.routineExercises d);
  wf_routineSets : table_ok (Db.nextId d) (Db.routineSets d);
  wf_exercise_parent :
    Forall (fun r => Exercise.workoutId (snd r) < Db.nextId d) (Db.exercises d);
  wf_set_parent :
    Forall (fun r => SetRow.exerciseId (snd r) < Db.nextId d) (Db.sets d);
  wf_routineExercise_parent :
    Forall (fun r => RoutineExercise.routineId (snd r) < Db.nextId d)
      (Db.routineExercises d);
  wf_routineSet_parent :
    Forall (fun r => RoutineSet.routineExerciseId (snd r) < Db.nextId d)
      (Db.routineSets d)
}.

(** The workouts with a given natural key. *)
Definition workouts_with (hevyId : string) (d : Db.t) : Table Workout.t :=
  Db.collect Db.workoutsT (fun w => String.eqb (Workout.hevyId w) hevyId) d.

Definition routines_with (hevyId : string) (d : Db.t) : Table Routine.t :=
  Db.collect Db.routinesT (fun r => String.eqb (Routine.hevyId r) hevyId) d.

(** Rows numbered from [n] on, as consecutive insertions number them. *)
Definition numbered {R} (n : Id) (rows : list R) : Table R :=
  combine (seq n (List.length rows)) rows.

(** The rows that an insertion loop adds to the table of the parents
    ([exercises], [routineExercises]) and to the table of their children
    ([sets], [routineSets]) when the next identifier is [n]: [kids] reads
    the children off a payload item, [prow] and [crow] build the rows. *)
Fixpoint new_parents {P C PR : Type} (kids : P -> list C) (prow : P -> PR)
  (n : Id) (ps : list P) : Table PR :=
  match ps with
  | [] => []
  | p :: rest =>
      (n, prow p) :: new_parents kids prow (S n + List.length (kids p)) rest
  end.

Fixpoint new_kids {P C CR : Type} (kids : P -> list C) (crow : Id -> C -> CR)
  (n : Id) (ps : list P) : Table CR :=
  match ps with
  | [] => []
  | p :: rest =>
      numbered (S n) (map (crow n) (kids p))
      ++ new_kids kids crow (S n + List.length (kids p)) rest
  end.

(** The number of identifiers the insertion loop uses. *)
Definition ids_used {P C : Type} (kids : P -> list C) (ps : list P) : nat :=
  fold_right (fun p k => S (List.length (kids p)) + k) 0 ps.

(** What [markWorkoutDeleted] may do to a workout document: set
    [isDeleted] and clear [syncedToNotion], and nothing else. *)
Definition tombstoned (old new : Workout.t) : Prop :=
  Workout.isDeleted new = true
  /\ Workout.syncedToNotion new = false
  /\ Workout.hevyId new = Workout.hevyId old
  /\ Workout.title new = Workout.title old
  /\ Workout.description new = Workout.description old
  /\ Workout.startTime new = Workout.startTime old
  /\ Workout.endTime new = Workout.endTime old
  /\ Workout.durationMinutes new = Workout.durationMinutes old
  /\ Workout.totalVolume new = Workout.totalVolume old
  /\ Workout.totalSets new = Workout.totalSets old
  /\ Workout.totalReps new = Workout.totalReps old
  /\ Workout.notionPageId new = Workout.notionPageId old.

(** The mutations of [convex/sync.ts] that write to the tables of the
    model. *)
Inductive Mutation : Type :=
| UpdateSyncState (args : Sync.SyncStateArgs)
| UpsertWorkout (workout : HevyWorkout.t)
| MarkWorkoutDeleted (hevyId : string)
| MarkWorkoutSynced (workoutId : Id) (notionPageId : string)
| UpsertRoutineFolder (folder : HevyRoutineFolder.t)
| UpsertRoutine (routine : HevyRoutine.t)
| MarkRoutineFolderSynced (folderId : Id) (notionPageId : string)
| MarkRoutineSynced (routineId : Id) (notionPageId : string)
| MarkRoutineExerciseSynced (exerciseId : Id) (notionPageId : string).

Definition apply_mutation (Date_getTime : string -> Z) (d : Db.t) (m : Mutation)
  : Db.t :=
  match m with
  | UpdateSyncState args => Sync.updateSyncState args d
  | UpsertWorkout workout => snd (Sync.upsertWorkout Date_getTime workout d)
  | MarkWorkoutDeleted hevyId => Sync.markWorkoutDeleted hevyId d
  | MarkWorkoutSynced workoutId page => Sync.markWorkoutSynced workoutId page d
  | UpsertRoutineFolder folder => snd (Sync.upsertRoutineFolder folder d)
  | UpsertRoutine routine => snd (Sync.upsertRoutine routine d)
  | MarkRoutineFolderSynced folderId page =>
      Sync.markRoutineFolderSynced folderId page d
  | MarkRoutineSynced routineId page => Sync.markRoutineSynced routineId page d
  | MarkRoutineExerciseSynced exerciseId page =>
      Sync.markRoutineExerciseSynced exerciseId page d
  end.

(** The one mutation that clears a tombstone: an upsert of a payload with
    the natural key of the workout. *)
Definition upserts_key (hevyId : string) (m : Mutation) : bool :=
  match m with
  | UpsertWorkout workout => String.eqb (HevyWorkout.id workout) hevyId
  | _ => false
  end.

(** *** Properties of actions *)

(** An action that leaves the store as it is. *)
Definition keeps_db {Net A} (m : Action Net A) : Prop :=
  forall w, db Net (snd (m w)) = db Net w.

(** An action that ends: it returns or throws. *)
Definition ends {Net A} (m : Action Net A) : Prop :=
  forall w, fst (m w) <> Diverged.

(** An action whose requests to the mirror all satisfy [ok]. *)
Definition sends_only {Net A} (ok : Notion.Request -> Prop) (m : Action Net A)
  : Prop :=
  forall w, exists new,
    sent Net (snd (m w)) = sent Net w ++ new /\ Forall ok new.

(** A page property with a given name. *)
Definition has_key (key : string) (props : Notion.Props) : bool :=
  existsb (fun kv => String.eqb (fst kv) key) props.

(** A request that creates a page that does not carry the natural key of
    a workout: the pages of exercises and sets. *)
Definition child_page (r : Notion.Request) : Prop :=
  exists databaseId properties,
    r = Notion.CreatePage databaseId properties
    /\ has_key "Hevy ID" properties = false.

Definition is_create (r : Notion.Request) : Prop :=
  exists databaseId properties, r = Notion.CreatePage databaseId properties.

Definition is_archive (r : Notion.Request) : bool :=
  match r with Notion.ArchivePage _ => true | _ => false end.

(** The database a request creates a page in. *)
Definition created_in (r : Notion.Request) : option string :=
  match r with
  | Notion.CreatePage databaseId _ => Some databaseId
  | _ => None
  end.

(** How the store relates to the outcome of a push of the workout [id]:
    marked synced on return, untouched on a throw. *)
Definition marked_or_untouched (id : Id) (d : Db.t) (o : Outcome unit) (d' : Db.t)
  : Prop :=
  match o with
  | Returned _ => exists page, d' = Sync.markWorkoutSynced id page d
  | Threw _ => d' = d
  | Diverged => False
  end.

(** The identifiers of the workouts that wait for the mirror. *)
Definition unsynced_ids (d : Db.t) : list Id :=
  map fst (Sync.getUnsyncedWorkouts d).

(** A run of [markWorkoutSynced]. *)
Definition mark_all (marks : list (Id * string)) (d : Db.t) : Db.t :=
  fold_left (fun d' m => Sync.markWorkoutSynced (fst m) (snd m) d') marks d.

(** The databases in which the children of a workout get their pages: per
    exercise, one page in the exercises database and one page per set in
    the sets database. *)
Definition child_targets (dbs : WorkoutDbs) (exercises : Table Exercise.t)
  (d : Db.t) : list (option string) :=
  flat_map
    (fun ex =>
       Some (exercisesDbId dbs)
       :: repeat (Some (setsDbId dbs))
            (List.length (Sync.getExerciseSets (fst ex) d)))
    exercises.

(** The search of the workouts database by natural key. *)
Definition search_by_key (dbs : WorkoutDbs) (workout : Workout.t)
  : Notion.Request :=
  Notion.QueryDatabase (workoutsDbId dbs)
    (Notion.mkFilter "Hevy ID" (Workout.hevyId workout)).

(** The [try] block of [syncToNotion] without its archive branch, in
    three parts: the search ([find_workout_page]), the update of the page
    that was found or the creation of one, and the rest from the exercises
    on. *)
Definition push_tail (Net : Type)
  (notion_fetch : Notion.Request -> Net -> Notion.Response * Net) (env : Env)
  (dbs : WorkoutDbs) (id : Id) (title : string) (page : option string)
  : Action Net unit :=
  bind Net (runQuery Net (Sync.getWorkoutExercises id))
    (fun exercises =>
       bind Net
         (for_each Net exercises (push_exercise Net notion_fetch env dbs page))
         (fun _ =>
            bind Net (required Net "notionPageId" page)
              (fun p =>
                 bind Net (runMutation Net (Sync.markWorkoutSynced id p))
                   (fun _ => log Net (LogSynced title))))).

Definition write_page (Net : Type)
  (notion_fetch : Notion.Request -> Net -> Notion.Response * Net) (env : Env)
  (dbs : WorkoutDbs) (wk : Workout.t) (found : option string)
  : Action Net (option string) :=
  match found with
  | Some (String c p) =>
      bind Net (updatePage Net notion_fetch env (String c p) (workoutProps wk))
        (fun _ => ret Net found)
  | _ =>
      bind Net (createPage Net notion_fetch env (workoutsDbId dbs) (workoutProps wk))
        (fun newPage => ret Net (Notion.id newPage))
  end.

Definition push_general (Net : Type)
  (notion_fetch : Notion.Request -> Net -> Notion.Response * Net) (env : Env)
  (dbs : WorkoutDbs) (workout : Id * Workout.t) : Action Net unit :=
  bind Net (find_workout_page Net notion_fetch env dbs (snd workout))
    (fun found =>
       bind Net (write_page Net notion_fetch env dbs (snd workout) found)
         (push_tail Net notion_fetch env dbs (fst workout)
            (Workout.title (snd workout)))).

(** *** Batches *)

(** The consecutive groups of at most [N] items ([fuel] bounds their
    number). *)
Fixpoint chunks_fuel {T} (fuel N : nat) (items : list T) : list (list T) :=
  match fuel with
  | O => []
  | S fuel' =>
      match items with
      | [] => []
      | _ => firstn N items :: chunks_fuel fuel' N (skipn N items)
      end
  end.

Definition chunks {T} (N : nat) (items : list T) : list (list T) :=
  chunks_fuel (List.length items) N items.

(** The groups run one after the other: a group is settled and collected
    before the next one starts. *)
Fixpoint run_chunks {Net T R} (groups : list (list T))
  (processor : T -> Action Net R) (results : list R) (errors : nat)
  : Action Net (list R * nat) :=
  match groups with
  | [] => ret Net (results, errors)
  | group :: rest =>
      bind Net (allSettled Net processor group)
        (fun settled =>
           bind Net (collect_settled Net settled results errors)
             (fun acc => run_chunks rest processor (fst acc) (snd acc)))
  end.

(** The values of the fulfilled promises, in order, and the number of
    rejected ones. *)
Definition values_of {R} (settled : list (R + Err)) : list R :=
  flat_map (fun s => match s with inl v => [v] | inr _ => [] end) settled.

Definition failures_of {R} (settled : list (R + Err)) : nat :=
  List.length
    (filter (fun s => match s with inl _ => false | inr _ => true end) settled).

(** [s] is how the processor ended on [item], in some world. *)
Definition settles {Net T R} (processor : T -> Action Net R) (item : T)
  (s : R + Err) : Prop :=
  exists w w',
    processor item w
    = (match s with inl v => Returned v | inr e => Threw e end, w').

(** The reasons of the rejected promises, in order. *)
Definition reasons_of {R} (settled : list (R + Err)) : list Err :=
  flat_map (fun s => match s with inl _ => [] | inr e => [e] end) settled.

(** The world after the batch errors [es] were written to the console. *)
Definition logged {Net} (es : list Err) (w : World Net) : World Net :=
  mkWorld Net (db Net w) (net Net w) (sent Net w) (asked Net w)
    (console Net w ++ map LogBatchError es) (clock Net w).

(** The processors of one group, dispatched in the order of the group
    from the world [w] on: each starts in the world the one before it
    left, and ends by returning a value or by throwing. *)
Inductive group_settles {Net T R} (processor : T -> Action Net R)
  : list T -> World Net -> list (R + Err) -> World Net -> Prop :=
| group_done w : group_settles processor [] w [] w
| group_returned item rest w v w1 settled w2 :
    processor item w = (Returned v, w1) ->
    group_settles processor rest w1 settled w2 ->
    group_settles processor (item :: rest) w (inl v :: settled) w2
| group_threw item rest w e w1 settled w2 :
    processor item w = (Threw e, w1) ->
    group_settles processor rest w1 settled w2 ->
    group_settles processor (item :: rest) w (inr e :: settled) w2.

(** The groups one after the other: a group settles, the reasons of its
    rejections are written to the console, and only then the next group
    starts, in the world so reached. *)
Inductive groups_settle {Net T R} (processor : T -> Action Net R)
  : list (list T) -> World Net -> list (R + Err) -> World Net -> Prop :=
| groups_done w : groups_settle processor [] w [] w
| groups_next group rest w settled w1 more w2 :
    group_settles processor group w settled w1 ->
    groups_settle processor rest (logged (reasons_of settled) w1) more w2 ->
    groups_settle processor (group :: rest) w (settled ++ more) w2.

(** *** Runs that return *)

(** An action that returns, in every world, a value that satisfies [P]. *)
Definition returns {Net A} (P : A -> Prop) (m : Action Net A) : Prop :=
  forall w, exists a w', m w = (Returned a, w') /\ P a.

(** A mirror that accepts every request and answers the creation of a
    page with the identifier of the page. *)
Definition accepts_all {Net}
  (notion_fetch : Notion.Request -> Net -> Notion.Response * Net) : Prop :=
  forall r n,
    Notion.ok (fst (notion_fetch r n)) = true
    /\ (is_create r -> exists page, Notion.id (fst (notion_fetch r n)) = Some page).

(** *** The events feed *)

(** The events [incrementalSync] counts as updated and as deleted, and
    the mutation it runs for an event. *)
Definition is_upsert (e : HevyEvent.t) : bool :=
  match HevyEvent.type e, HevyEvent.workout e with
  | HevyEvent.updated, Some _ => true
  | _, _ => false
  end.

Definition is_removal (e : HevyEvent.t) : bool :=
  match HevyEvent.type e, HevyEvent.id e with
  | HevyEvent.deleted, Some (String _ _) => true
  | _, _ => false
  end.

Definition event_mutation (e : HevyEvent.t) : list Mutation :=
  match HevyEvent.type e, HevyEvent.workout e, HevyEvent.id e with
  | HevyEvent.updated, Some workout, _ => [UpsertWorkout workout]
  | HevyEvent.deleted, _, Some (String c i) => [MarkWorkoutDeleted (String c i)]
  | _, _, _ => []
  end.

(** The answers of the source to the requests [rs], asked one after the
    other from the state [n] of the source on. *)
Fixpoint answers {Net}
  (hevy_fetch : HevyApi.Request -> Net -> HevyApi.Response * Net)
  (rs : list HevyApi.Request) (n : Net) : list HevyApi.Response :=
  match rs with
  | [] => []
  | r :: rest =>
      fst (hevy_fetch r n) :: answers hevy_fetch rest (snd (hevy_fetch r n))
  end.

(** The errors that the requests to the tracker throw: the missing key,
    the rate limit and an error status. *)
Definition tracker_error (e : Err) : bool :=
  match e with
  | HevyKeyNotConfigured | HevyRateLimited | HevyApiError _ => true
  | _ => false
  end.

(** A source that answers every request with a status from 200 to 299. *)
Definition feed_up {Net}
  (hevy_fetch : HevyApi.Request -> Net -> HevyApi.Response * Net) : Prop :=
  forall r n, HevyApi.ok (fst (hevy_fetch r n)) = true.

(** The arguments with which [incrementalSync] calls [updateSyncState]
    when its two readings of the clock are [t] and [t + 1]. *)
Definition cursor_args (toISOString : nat -> string) (t : nat)
  : Sync.SyncStateArgs :=
  Sync.mkSyncStateArgs (Some (toISOString t)) (Some (toISOString (S t)))
    None None.

(** *** The HTTP routes *)

(** The databases a body of [POST /sync] names, when it names all three
    with non-empty identifiers. *)
Definition wants_pipeline (b : JsonBody) : option WorkoutDbs :=
  match b with
  | body_object (Some w) (Some e) (Some s) =>
      if Js.truthy_str w && Js.truthy_str e && Js.truthy_str s
      then Some (mkWorkoutDbs w e s) else None
  | _ => None
  end.

(** *** Titles *)

(** A string in which some character, or every character, satisfies [p]. *)
Fixpoint some_char (p : ascii -> bool) (s : string) : bool :=
  match s with
  | EmptyString => false
  | String c s' => p c || some_char p s'
  end.

Fixpoint every_char (p : ascii -> bool) (s : string) : bool :=
  match s with
  | EmptyString => true
  | String c s' => p c && every_char p s'
  end.

(** The first character of [s], if any, is not a digit. *)
Definition no_digit_ahead (s : string) : bool :=
  match s with
  | EmptyString => true
  | String c _ => negb (Js.is_digit c)
  end.

(** The lower-case form of [c] is not the first letter of [kw]. *)
Definition not_head_of (kw : string) (c : ascii) : bool :=
  match kw with
  | EmptyString => false
  | String k _ => negb (Ascii.eqb k (Js.lower c))
  end.

(** A captured group is a run of digits of the subject that comes after
    one of the keywords, in any case, and white space, and that no digit
    follows. *)
Definition captured_from (kws : list string) (s ds : string) : Prop :=
  exists pre k sp post,
    s = (pre ++ k ++ sp ++ ds ++ post)%string
    /\ In (Js.toLowerCase k) kws
    /\ every_char Js.is_space sp = true
    /\ ds <> EmptyString
    /\ every_char Js.is_digit ds = true
    /\ no_digit_ahead post = true.

(** *** Statistics *)

(** The sets of a payload, in the order of the two loops. *)
Definition all_sets (exercises : list HevyExercise.t) : list HevySet.t :=
  flat_map HevyExercise.sets exercises.

(** What one set adds to the repetitions and to the volume. *)
Definition counted_reps (set : HevySet.t) : Q :=
  Js.or_else Js.truthy_num (HevySet.reps set) 0%Q.

Definition counted_volume (set : HevySet.t) : Q :=
  match HevySet.reps set, HevySet.weight_kg set with
  | Some r, Some w =>
      if Js.truthy_num r && Js.truthy_num w then (w * r)%Q else 0%Q
  | _, _ => 0%Q
  end.

Definition Qsum (l : list Q) : Q := fold_right Qplus 0%Q l.

(** *** Payloads on which the arithmetic of the code is exact *)

(** A number that is not negative and a whole number of halves (a weight
    in steps of half a kilogram), and one that is a whole number (a
    number of repetitions). *)
Definition in_halves (x : Q) : bool :=
  ((2 * Qnum x) mod Zpos (Qden x) =? 0)%Z && (0 <=? Qnum x)%Z.

Definition whole (x : Q) : bool :=
  (Qnum x mod Zpos (Qden x) =? 0)%Z && (0 <=? Qnum x)%Z.

Definition halves (x : Q) : Prop := exists z : Z, (x == inject_Z z / 2)%Q.

Definition plain_set (set : HevySet.t) : bool :=
  match HevySet.weight_kg set with
  | Some w => in_halves w
  | None => true
  end
  && match HevySet.reps set with
     | Some r => whole r
     | None => true
     end.

(** The sets of a payload are plain and ten times its volume is not above
    [Number.MAX_SAFE_INTEGER]: every product, every partial sum and the
    tenfold of the sum is then a whole number of halves that a double
    holds, so that the code computes them without a rounding error. *)
Definition exact_volumes (exercises : list HevyExercise.t) : Prop :=
  forallb plain_set (all_sets exercises) = true
  /\ (Qsum (map counted_volume (all_sets exercises)) * 10
      <= inject_Z Js.MAX_SAFE_INTEGER)%Q.

(** *** Children and their parents *)

(** Every exercise names a stored workout and every set a stored
    exercise; the same for the exercises and sets of routines. *)
Definition no_orphans (d : Db.t) : Prop :=
  Forall (fun e => In (Exercise.workoutId (snd e)) (map fst (Db.workouts d)))
    (Db.exercises d)
  /\ Forall (fun s => In (SetRow.exerciseId (snd s)) (map fst (Db.exercises d)))
       (Db.sets d)
  /\ Forall (fun e => In (RoutineExercise.routineId (snd e))
                       (map fst (Db.routines d)))
       (Db.routineExercises d)
  /\ Forall (fun s => In (RoutineSet.routineExerciseId (snd s))
                       (map fst (Db.routineExercises d)))
       (Db.routineSets d).

(** *** Volumes on the pages *)

(** The volume behind the page of one set, [0] when the page shows
    none. *)
Definition page_volume (set : SetRow.t) : Q :=
  match setVolume set with Some v => v | None => 0%Q end.

(** *** Requests that update a page *)

Definition is_update (r : Notion.Request) : Prop :=
  exists pageId properties, r = Notion.UpdatePage pageId properties.

(* ------------------------------------------------------------------ *)
(** ** Tables                                                           *)
(* ------------------------------------------------------------------ *)

Section TableFacts.

Context {R : Type}.

Lemma filter_filter (p q : Id * R -> bool) (t : Table R) :
  filter p (filter q t) = filter (fun r => q r && p r) t.
Proof.
  induction t as [|r t IH]; simpl; [reflexivity|].
  destruct (q r); simpl; [destruct (p r); simpl; now rewrite IH | exact IH].
Qed.

Lemma filter_none (p : Id * R -> bool) (t : Table R) :
  Forall (fun r => p r = false) t -> filter p t = [].
Proof.
  induction 1 as [|r t Hr _ IH]; simpl; [reflexivity|now rewrite Hr].
Qed.

Lemma filter_all (p : Id * R -> bool) (t : Table R) :
  Forall (fun r => p r = true) t -> filter p t = t.
Proof.
  induction 1 as [|r t Hr _ IH]; simpl; [reflexivity|now rewrite Hr, IH].
Qed.

Lemma Forall_filter (P : Id * R -> Prop) (p : Id * R -> bool) (t : Table R) :
  Forall P t -> Forall P (filter p t).
Proof.
  induction 1 as [|r t Hr _ IH]; simpl; [constructor|].
  destruct (p r); [constructor|]; assumption.
Qed.

Lemma map_fst_filter_incl (p : Id * R -> bool) (t : Table R) i :
  In i (map fst (filter p t)) -> In i (map fst t).
Proof.
  rewrite !in_map_iff. intros [r [E H]]. apply filter_In in H.
  exists r. tauto.
Qed.

Lemma NoDup_filter (p : Id * R -> bool) (t : Table R) :
  NoDup (map fst t) -> NoDup (map fst (filter p t)).
Proof.
  induction t as [|r t IH]; simpl; intros H; [constructor|].
  inversion H as [|? ? Hn Hd]; subst.
  destruct (p r); simpl; [constructor|]; auto.
  intros Hin. apply Hn. eapply map_fst_filter_incl; eassumption.
Qed.

Lemma table_ok_filter n (p : Id * R -> bool) (t : Table R) :
  table_ok n t -> table_ok n (filter p t).
Proof.
  intros [H1 H2]. split; [now apply Forall_filter | now apply NoDup_filter].
Qed.

Lemma table_ok_mono n m (t : Table R) :
  n <= m -> table_ok n t -> table_ok m t.
Proof.
  intros L [H1 H2]. split; [|assumption].
  eapply Forall_impl; [|exact H1]. simpl. intros; lia.
Qed.

Lemma map_fst_patch_rows id (f : R -> R) (t : Table R) :
  map fst (Db.patch_rows id f t) = map fst t.
Proof.
  unfold Db.patch_rows. rewrite map_map. apply map_ext.
  intros r. simpl. now destruct (Nat.eqb (fst r) id).
Qed.

Lemma table_ok_patch n id (f : R -> R) (t : Table R) :
  table_ok n t -> table_ok n (Db.patch_rows id f t).
Proof.
  intros [H1 H2]. split.
  - rewrite Forall_forall in *. intros r Hr.
    assert (Hi : In (fst r) (map fst (Db.patch_rows id f t)))
      by (apply in_map; exact Hr).
    rewrite map_fst_patch_rows, in_map_iff in Hi.
    destruct Hi as [r' [E Hr']]. rewrite <- E. now apply H1.
  - now rewrite map_fst_patch_rows.
Qed.

Lemma table_ok_snoc n (row : R) (t : Table R) :
  table_ok n t -> table_ok (S n) (t ++ [(n, row)]).
Proof.
  intros [H1 H2]. split.
  - apply Forall_app. split.
    + eapply Forall_impl; [|exact H1]. simpl. intros; lia.
    + constructor; [simpl; lia|constructor].
  - rewrite map_app. simpl.
    apply NoDup_app; [assumption|constructor; [intros []|constructor]|].
    intros i Hi [E|[]]. subst i.
    rewrite in_map_iff in Hi. destruct Hi as [r [E Hr]].
    rewrite Forall_forall in H1. specialize (H1 r Hr). lia.
Qed.

Lemma table_ok_app n m (t new : Table R) :
  n <= m -> table_ok n t ->
  Forall (fun r => n <= fst r < m) new -> NoDup (map fst new) ->
  table_ok m (t ++ new).
Proof.
  intros L [H1 H2] Hn Hd. split.
  - apply Forall_app. split.
    + eapply Forall_impl; [|exact H1]. simpl. intros; lia.
    + eapply Forall_impl; [|exact Hn]. simpl. intros; lia.
  - rewrite map_app. apply NoDup_app; [assumption|assumption|].
    intros i Hi Hi'. rewrite in_map_iff in Hi, Hi'.
    destruct Hi as [r [E Hr]]. destruct Hi' as [r' [E' Hr']].
    rewrite Forall_forall in H1, Hn.
    specialize (H1 r Hr). specialize (Hn r' Hr'). lia.
Qed.

End TableFacts.

(** *** Numbered rows *)

Lemma map_fst_numbered {R} (rows : list R) n :
  map fst (numbered n rows) = seq n (List.length rows).
Proof.
  unfold numbered. revert n.
  induction rows as [|r rows IH]; intros n; simpl; [reflexivity|].
  now rewrite IH.
Qed.

Lemma map_snd_numbered {R} (rows : list R) n :
  map snd (numbered n rows) = rows.
Proof.
  unfold numbered. revert n.
  induction rows as [|r rows IH]; intros n; simpl; [reflexivity|].
  now rewrite IH.
Qed.

Lemma length_numbered {R} (rows : list R) n :
  List.length (numbered n rows) = List.length rows.
Proof.
  rewrite <- (length_map fst), map_fst_numbered. apply length_seq.
Qed.

Lemma numbered_cons {R} (r : R) (rows : list R) n :
  numbered n (r :: rows) = (n, r) :: numbered (S n) rows.
Proof. reflexivity. Qed.

Lemma numbered_ids {R} (rows : list R) n :
  Forall (fun r => n <= fst r < n + List.length rows) (numbered n rows).
Proof.
  rewrite Forall_forall. intros r Hr.
  apply (in_map fst) in Hr. rewrite map_fst_numbered, in_seq in Hr. exact Hr.
Qed.

Lemma numbered_rows {R} (P : R -> Prop) (rows : list R) n :
  Forall P rows -> Forall (fun r => P (snd r)) (numbered n rows).
Proof.
  intros H. rewrite Forall_forall in *. intros r Hr.
  apply H. rewrite <- (map_snd_numbered rows n). now apply in_map.
Qed.

Lemma numbered_NoDup {R} (rows : list R) n :
  NoDup (map fst (numbered n rows)).
Proof. rewrite map_fst_numbered. apply seq_NoDup. Qed.

(** *** The rows added by an insertion loop *)

Section Cascade.

Context {P C PR CR : Type}.
Variable kids : P -> list C.
Variable prow : P -> PR.
Variable crow : Id -> C -> CR.
Variable parent_of : CR -> Id.
Hypothesis parent_crow : forall e c, parent_of (crow e c) = e.

Lemma new_parents_ids ps : forall n,
  Forall (fun r => n <= fst r < n + ids_used kids ps) (new_parents kids prow n ps).
Proof.
  induction ps as [|p ps IH]; intros n; simpl; [constructor|].
  constructor; [simpl; lia|].
  eapply Forall_impl; [|apply IH]. simpl. intros; lia.
Qed.

Lemma new_parents_NoDup ps : forall n,
  NoDup (map fst (new_parents kids prow n ps)).
Proof.
  induction ps as [|p ps IH]; intros n; simpl; constructor; [|apply IH].
  intros Hin. rewrite in_map_iff in Hin. destruct Hin as [r [E Hr]].
  pose proof (new_parents_ids ps (S n + List.length (kids p))) as H.
  rewrite Forall_forall in H. specialize (H r Hr). lia.
Qed.

Lemma new_parents_rows (Q : PR -> Prop) ps : forall n,
  (forall p, Q (prow p)) ->
  Forall (fun r => Q (snd r)) (new_parents kids prow n ps).
Proof.
  induction ps as [|p ps IH]; intros n H; simpl; constructor;
    [apply H|apply IH, H].
Qed.

Lemma new_parents_length ps : forall n,
  List.length (new_parents kids prow n ps) = List.length ps.
Proof.
  induction ps as [|p ps IH]; intros n; simpl; [reflexivity|now rewrite IH].
Qed.

Lemma new_kids_ids ps : forall n,
  Forall (fun r => n < fst r < n + ids_used kids ps) (new_kids kids crow n ps).
Proof.
  induction ps as [|p ps IH]; intros n; simpl; [constructor|].
  apply Forall_app. split.
  - eapply Forall_impl; [|apply numbered_ids].
    simpl. intros r. rewrite length_map. lia.
  - eapply Forall_impl; [|apply IH]. simpl. intros; lia.
Qed.

Lemma new_kids_NoDup ps : forall n,
  NoDup (map fst (new_kids kids crow n ps)).
Proof.
  induction ps as [|p ps IH]; intros n; simpl; [constructor|].
  rewrite map_app. apply NoDup_app; [apply numbered_NoDup|apply IH|].
  intros i Hi Hi'. rewrite in_map_iff in Hi, Hi'.
  destruct Hi as [r [E Hr]]. destruct Hi' as [r' [E' Hr']].
  pose proof (numbered_ids (map (crow n) (kids p)) (S n)) as H1.
  pose proof (new_kids_ids ps (S n + List.length (kids p))) as H2.
  rewrite Forall_forall in H1, H2. specialize (H1 r Hr). specialize (H2 r' Hr').
  rewrite length_map in H1. lia.
Qed.

Lemma new_kids_parent ps : forall n,
  Forall (fun r => n <= parent_of (snd r) < n + ids_used kids ps)
    (new_kids kids crow n ps).
Proof.
  induction ps as [|p ps IH]; intros n; simpl; [constructor|].
  apply Forall_app. split.
  - apply (numbered_rows
             (fun s => n <= parent_of s
                       < n + S (List.length (kids p) + ids_used kids ps))).
    rewrite Forall_forall. intros r Hr.
    rewrite in_map_iff in Hr. destruct Hr as [s [E _]]. subst r.
    rewrite parent_crow. lia.
  - eapply Forall_impl; [|apply IH]. simpl. intros; lia.
Qed.

(** The children of the [k]-th new parent are the children of the [k]-th
    item of the payload. *)
Lemma new_kids_per_parent ps : forall n,
  map (fun e =>
         List.length
           (filter (fun s => Nat.eqb (parent_of (snd s)) (fst e))
              (new_kids kids crow n ps)))
    (new_parents kids prow n ps)
  = map (fun p => List.length (kids p)) ps.
Proof.
  induction ps as [|p ps IH]; intros n; simpl; [reflexivity|].
  f_equal.
  - rewrite filter_app, length_app.
    rewrite filter_all, length_numbered, length_map.
    + rewrite filter_none; [simpl; lia|].
      eapply Forall_impl; [|apply new_kids_parent]. simpl.
      intros r Hr. apply Nat.eqb_neq. lia.
    + apply (numbered_rows (fun s => Nat.eqb (parent_of s) n = true)).
      rewrite Forall_forall. intros r Hr.
      rewrite in_map_iff in Hr. destruct Hr as [s [E _]]. subst r.
      rewrite parent_crow. apply Nat.eqb_refl.
  - rewrite <- (IH (S n + List.length (kids p))).
    apply map_ext_in. intros e He.
    rewrite filter_app, length_app. rewrite filter_none; [reflexivity|].
    pose proof (new_parents_ids ps (S n + List.length (kids p))) as H.
    rewrite Forall_forall in H. specialize (H e He).
    apply (numbered_rows (fun s => Nat.eqb (parent_of s) (fst e) = false)).
    rewrite Forall_forall. intros r Hr.
    rewrite in_map_iff in Hr. destruct Hr as [s [E _]]. subst r.
    rewrite parent_crow. apply Nat.eqb_neq. lia.
Qed.

End Cascade.

(** *** The loops of [upsertWorkout], table by table *)

Lemma insert_sets_eq e wid sets : forall d,
  fold_left
    (fun d' set => snd (Db.insert Db.setsT (Sync.set_row e wid set) d')) sets d
  = Db.mk (Db.nextId d + List.length sets) (Db.syncState d) (Db.workouts d)
      (Db.exercises d)
      (Db.sets d ++ numbered (Db.nextId d) (map (Sync.set_row e wid) sets))
      (Db.routineFolders d) (Db.routines d) (Db.routineExercises d)
      (Db.routineSets d) (Db.exerciseProgress d).
Proof.
  induction sets as [|s sets IH]; intros d.
  - simpl. rewrite Nat.add_0_r, app_nil_r. now destruct d.
  - simpl fold_left. rewrite IH. simpl.
    rewrite numbered_cons, <- app_assoc. simpl.
    f_equal. lia.
Qed.

Lemma insert_exercise_eq wid d ex :
  Sync.insert_exercise wid d ex
  = Db.mk (Db.nextId d + S (List.length (HevyExercise.sets ex)))
      (Db.syncState d) (Db.workouts d)
      (Db.exercises d ++ [(Db.nextId d, Sync.exercise_row wid ex)])
      (Db.sets d
       ++ numbered (S (Db.nextId d))
            (map (Sync.set_row (Db.nextId d) wid) (HevyExercise.sets ex)))
      (Db.routineFolders d) (Db.routines d) (Db.routineExercises d)
      (Db.routineSets d) (Db.exerciseProgress d).
Proof.
  unfold Sync.insert_exercise.
  destruct (Db.insert Db.exercisesT (Sync.exercise_row wid ex) d)
    as [e d1] eqn:E.
  rewrite insert_sets_eq. unfold Db.insert in E. inversion E; subst; clear E.
  simpl. f_equal. lia.
Qed.

Lemma insert_children_eq wid exs : forall d,
  fold_left (Sync.insert_exercise wid) exs d
  = Db.mk (Db.nextId d + ids_used HevyExercise.sets exs) (Db.syncState d)
      (Db.workouts d)
      (Db.exercises d
       ++ new_parents HevyExercise.sets (Sync.exercise_row wid) (Db.nextId d) exs)
      (Db.sets d
       ++ new_kids HevyExercise.sets (fun e => Sync.set_row e wid) (Db.nextId d) exs)
      (Db.routineFolders d) (Db.routines d) (Db.routineExercises d)
      (Db.routineSets d) (Db.exerciseProgress d).
Proof.
  induction exs as [|ex exs IH]; intros d.
  - simpl. rewrite Nat.add_0_r, !app_nil_r. now destruct d.
  - simpl fold_left. rewrite IH, insert_exercise_eq. simpl.
    rewrite <- !app_assoc. simpl.
    replace (Db.nextId d + S (List.length (HevyExercise.sets ex)))
      with (S (Db.nextId d + List.length (HevyExercise.sets ex))) by lia.
    f_equal. lia.
Qed.

(** Deleting the rows named by a list is a filter. *)
Lemma delete_rows_fold {R X} (l : list (Id * X)) : forall t : Table R,
  fold_left (fun t' x => Db.delete_rows (fst x) t') l t
  = filter (fun r => negb (existsb (fun x => Nat.eqb (fst r) (fst x)) l)) t.
Proof.
  induction l as [|x l IH]; intros t; simpl.
  - symmetry. apply filter_all. now apply Forall_forall.
  - rewrite IH. unfold Db.delete_rows. rewrite filter_filter.
    apply filter_ext. intros r. now rewrite negb_orb.
Qed.

Lemma delete_sets_eq (l : Table SetRow.t) : forall d,
  fold_left (fun d' set => Db.delete Db.setsT (fst set) d') l d
  = Db.set Db.setsT
      (fold_left (fun t' x => Db.delete_rows (fst x) t') l (Db.sets d)) d.
Proof.
  induction l as [|x l IH]; intros d; simpl.
  - now destruct d.
  - rewrite IH. reflexivity.
Qed.

Lemma delete_exercise_eq d ex :
  exists keep,
    Sync.delete_exercise d ex
    = Db.set Db.exercisesT (Db.delete_rows (fst ex) (Db.exercises d))
        (Db.set Db.setsT (filter keep (Db.sets d)) d).
Proof.
  unfold Sync.delete_exercise. rewrite delete_sets_eq, delete_rows_fold.
  eexists. reflexivity.
Qed.

Lemma delete_exercises_eq (l : Table Exercise.t) : forall d,
  exists keep,
    fold_left Sync.delete_exercise l d
    = Db.set Db.exercisesT
        (filter (fun r => negb (existsb (fun x => Nat.eqb (fst r) (fst x)) l))
           (Db.exercises d))
        (Db.set Db.setsT (filter keep (Db.sets d)) d).
Proof.
  induction l as [|x l IH]; intros d; simpl.
  - exists (fun _ => true). rewrite !filter_all by now apply Forall_forall.
    now destruct d.
  - destruct (delete_exercise_eq d x) as [k1 E1]. rewrite E1.
    destruct (IH (Db.set Db.exercisesT (Db.delete_rows (fst x) (Db.exercises d))
                    (Db.set Db.setsT (filter k1 (Db.sets d)) d))) as [k2 E2].
    rewrite E2. simpl. unfold Db.delete_rows. rewrite !filter_filter.
    exists (fun r => k1 r && k2 r). f_equal.
    apply filter_ext. intros r. now rewrite negb_orb.
Qed.

(** After the deletion loop the workout has no exercise left, and nothing
    but [exercises] and [sets] has changed. *)
Lemma delete_children_eq wid d :
  exists keepE keepS,
    Sync.delete_children wid d
    = Db.set Db.exercisesT (filter keepE (Db.exercises d))
        (Db.set Db.setsT (filter keepS (Db.sets d)) d)
    /\ Forall (fun r => Nat.eqb (Exercise.workoutId (snd r)) wid = false)
         (filter keepE (Db.exercises d)).
Proof.
  unfold Sync.delete_children.
  destruct (delete_exercises_eq
              (Db.collect Db.exercisesT
                 (fun e => Nat.eqb (Exercise.workoutId e) wid) d) d) as [k E].
  eexists. exists k. split; [exact E|].
  rewrite Forall_forall. intros r Hr. apply filter_In in Hr. destruct Hr as [Hin Hk].
  destruct (Nat.eqb (Exercise.workoutId (snd r)) wid) eqn:Ew; [|reflexivity].
  exfalso. apply negb_true_iff in Hk.
  assert (Hex : existsb (fun x : Id * Exercise.t => Nat.eqb (fst r) (fst x))
                  (Db.collect Db.exercisesT
                     (fun e => Nat.eqb (Exercise.workoutId e) wid) d) = true).
  { apply existsb_exists. exists r. split; [|apply Nat.eqb_refl].
    unfold Db.collect. apply filter_In. split; assumption. }
  congruence.
Qed.

(** *** Queries *)

Lemma first_In {R} (T : Db.TableRef R) p d id r :
  Db.first T p d = Some (id, r) -> In (id, r) (Db.get T d) /\ p r = true.
Proof. unfold Db.first. intros H. apply find_some in H. exact H. Qed.

Lemma first_None {R} (T : Db.TableRef R) p d :
  Db.first T p d = None -> Db.collect T p d = [].
Proof.
  unfold Db.first, Db.collect. intros H. apply filter_none.
  rewrite Forall_forall. intros r Hr. exact (find_none _ _ H r Hr).
Qed.

Lemma table_ok_In {R} n (t : Table R) id r :
  table_ok n t -> In (id, r) t -> id < n.
Proof.
  intros [H _] Hin. rewrite Forall_forall in H. exact (H _ Hin).
Qed.

Lemma Forall_lt_mono {R} (f : Id * R -> nat) n m (t : Table R) :
  n <= m -> Forall (fun r => f r < n) t -> Forall (fun r => f r < m) t.
Proof.
  intros L H. eapply Forall_impl; [|exact H]. simpl. intros; lia.
Qed.

Lemma table_ok_extend {R} n k u m (t new : Table R) :
  n <= k -> k + u <= m -> table_ok n t ->
  Forall (fun r => k <= fst r < k + u) new -> NoDup (map fst new) ->
  table_ok m (t ++ new).
Proof.
  intros L1 L2 T Hn Hd. apply table_ok_app with (n := k); try assumption.
  - lia.
  - eapply table_ok_mono; [|eassumption]. lia.
  - eapply Forall_impl; [|exact Hn]. simpl. intros; lia.
Qed.

Lemma new_kids_ids_le {P C CR} (kids : P -> list C) (crow : Id -> C -> CR) ps n :
  Forall (fun r => n <= fst r < n + ids_used kids ps) (new_kids kids crow n ps).
Proof.
  eapply Forall_impl; [|apply new_kids_ids]. simpl. intros; lia.
Qed.

Lemma collect_first {R} (T : Db.TableRef R) p d x rest :
  Db.collect T p d = x :: rest -> Db.first T p d = Some x.
Proof.
  unfold Db.collect, Db.first. induction (Db.get T d) as [|r t IH]; simpl.
  - discriminate.
  - destruct (p (snd r)); [intros E; now inversion E|exact IH].
Qed.

Lemma first_collect {R} (T : Db.TableRef R) p d x :
  Db.first T p d = Some x -> exists rest, Db.collect T p d = x :: rest.
Proof.
  unfold Db.collect, Db.first. induction (Db.get T d) as [|r t IH]; simpl.
  - discriminate.
  - destruct (p (snd r)); [intros E; inversion E; eauto|exact IH].
Qed.

(** A patch that does not move a row in or out of a query commutes with
    the query. *)
Lemma filter_patch_rows {R} (p : R -> bool) id (f : R -> R) (t : Table R) :
  (forall r, p (f r) = p r) ->
  filter (fun r => p (snd r)) (Db.patch_rows id f t)
  = Db.patch_rows id f (filter (fun r => p (snd r)) t).
Proof.
  intros H. induction t as [|r t IH]; simpl; [reflexivity|].
  destruct (Nat.eqb (fst r) id) eqn:E; simpl.
  - rewrite H. destruct (p (snd r)); simpl; [rewrite E|]; now rewrite IH.
  - destruct (p (snd r)); simpl; [rewrite E|]; now rewrite IH.
Qed.

(** The two queries of a parent's children, on a table that ends with the
    rows of an insertion loop. *)
Lemma parents_of_new {P C PR} (kids : P -> list C) (prow : P -> PR)
  (owner : PR -> Id) wid (old : Table PR) n ps :
  (forall p, owner (prow p) = wid) ->
  Forall (fun r => Nat.eqb (owner (snd r)) wid = false) old ->
  filter (fun r => Nat.eqb (owner (snd r)) wid) (old ++ new_parents kids prow n ps)
  = new_parents kids prow n ps.
Proof.
  intros Hown Hold. rewrite filter_app, (filter_none _ _ Hold). simpl.
  apply filter_all.
  apply (new_parents_rows kids prow (fun row => Nat.eqb (owner row) wid = true)).
  intros p. rewrite Hown. apply Nat.eqb_refl.
Qed.

Lemma kids_of_new {P C PR CR} (kids : P -> list C) (prow : P -> PR)
  (crow : Id -> C -> CR) (parent_of : CR -> Id) (old : Table CR) n ps :
  (forall e c, parent_of (crow e c) = e) ->
  Forall (fun r => parent_of (snd r) < n) old ->
  map (fun e =>
         List.length
           (filter (fun s => Nat.eqb (parent_of (snd s)) (fst e))
              (old ++ new_kids kids crow n ps)))
    (new_parents kids prow n ps)
  = map (fun p => List.length (kids p)) ps.
Proof.
  intros Hpc Hold.
  rewrite <- (new_kids_per_parent kids prow crow parent_of Hpc ps n).
  apply map_ext_in. intros e He.
  rewrite filter_app, length_app, filter_none; [reflexivity|].
  pose proof (new_parents_ids kids prow ps n) as Hids.
  rewrite Forall_forall in Hids. specialize (Hids e He).
  eapply Forall_impl; [|exact Hold]. simpl.
  intros r Hr. apply Nat.eqb_neq. lia.
Qed.

(** *** [upsertWorkout] in closed form *)

Section UpsertWorkout.

Variable Date_getTime : string -> Z.
Variable workout : HevyWorkout.t.

Let exs := HevyWorkout.exercises workout.
Let matches := fun w : Workout.t =>
  String.eqb (Workout.hevyId w) (HevyWorkout.id workout).

Lemma upsertWorkout_existing d id old :
  Db.first Db.workoutsT matches d = Some (id, old) ->
  exists keepE keepS,
    Sync.upsertWorkout Date_getTime workout d
    = (id,
       Db.mk (Db.nextId d + ids_used HevyExercise.sets exs) (Db.syncState d)
         (Db.patch_rows id (Sync.workout_patch Date_getTime workout) (Db.workouts d))
         (filter keepE (Db.exercises d)
          ++ new_parents HevyExercise.sets (Sync.exercise_row id) (Db.nextId d) exs)
         (filter keepS (Db.sets d)
          ++ new_kids HevyExercise.sets (fun e => Sync.set_row e id) (Db.nextId d) exs)
         (Db.routineFolders d) (Db.routines d) (Db.routineExercises d)
         (Db.routineSets d) (Db.exerciseProgress d))
    /\ Forall (fun r => Nat.eqb (Exercise.workoutId (snd r)) id = false)
         (filter keepE (Db.exercises d)).
Proof.
  intros H. unfold Sync.upsertWorkout. fold matches. rewrite H.
  destruct (delete_children_eq id
              (Db.patch Db.workoutsT id (Sync.workout_patch Date_getTime workout) d))
    as [kE [kS [E F]]].
  exists kE, kS. split; [|exact F].
  rewrite E. unfold Sync.insert_children. rewrite insert_children_eq.
  reflexivity.
Qed.

Lemma upsertWorkout_new d :
  Db.first Db.workoutsT matches d = None ->
  Sync.upsertWorkout Date_getTime workout d
  = (Db.nextId d,
     Db.mk (S (Db.nextId d) + ids_used HevyExercise.sets exs) (Db.syncState d)
       (Db.workouts d
        ++ [(Db.nextId d, Sync.workout_fields Date_getTime workout None)])
       (Db.exercises d
        ++ new_parents HevyExercise.sets (Sync.exercise_row (Db.nextId d))
             (S (Db.nextId d)) exs)
       (Db.sets d
        ++ new_kids HevyExercise.sets (fun e => Sync.set_row e (Db.nextId d))
             (S (Db.nextId d)) exs)
       (Db.routineFolders d) (Db.routines d) (Db.routineExercises d)
       (Db.routineSets d) (Db.exerciseProgress d)).
Proof.
  intros H. unfold Sync.upsertWorkout. fold matches. rewrite H.
  unfold Db.insert, Sync.insert_children. rewrite insert_children_eq.
  reflexivity.
Qed.

(** [upsertWorkout] keeps the store well formed. *)
Lemma upsertWorkout_wf d :
  wf d -> wf (snd (Sync.upsertWorkout Date_getTime workout d)).
Proof.
  intros W. destruct W.
  destruct (Db.first Db.workoutsT matches d) as [[id old]|] eqn:F.
  - destruct (upsertWorkout_existing d id old F) as [kE [kS [E _]]].
    rewrite E. clear E. simpl.
    apply first_In in F. destruct F as [Hin _]. simpl in Hin.
    pose proof (table_ok_In _ _ _ _ wf_workouts0 Hin) as Hid.
    set (u := ids_used HevyExercise.sets exs).
    constructor; simpl; fold u.
    + eapply table_ok_mono; [|eassumption]. lia.
    + eapply table_ok_mono; [|apply table_ok_patch; eassumption]. lia.
    + eapply (table_ok_extend (Db.nextId d) (Db.nextId d) u);
        [lia|lia|now apply table_ok_filter|apply new_parents_ids
        |apply new_parents_NoDup].
    + eapply (table_ok_extend (Db.nextId d) (Db.nextId d) u);
        [lia|lia|now apply table_ok_filter|apply new_kids_ids_le
        |apply new_kids_NoDup].
    + eapply table_ok_mono; [|eassumption]. lia.
    + eapply table_ok_mono; [|eassumption]. lia.
    + eapply table_ok_mono; [|eassumption]. lia.
    + eapply table_ok_mono; [|eassumption]. lia.
    + apply Forall_app. split.
      * apply Forall_filter. eapply Forall_lt_mono; [|eassumption]. lia.
      * apply (new_parents_rows HevyExercise.sets (Sync.exercise_row id)
                 (fun row => Exercise.workoutId row < Db.nextId d + u)).
        intros p. simpl. lia.
    + apply Forall_app. split.
      * apply Forall_filter. eapply Forall_lt_mono; [|eassumption]. lia.
      * eapply Forall_impl;
          [|apply (new_kids_parent HevyExercise.sets (fun e => Sync.set_row e id)
                     SetRow.exerciseId); reflexivity].
        simpl. fold u. intros r Hr. lia.
    + eapply Forall_lt_mono; [|eassumption]. lia.
    + eapply Forall_lt_mono; [|eassumption]. lia.
  - rewrite (upsertWorkout_new d F). simpl.
    set (u := ids_used HevyExercise.sets exs).
    constructor; simpl; fold u.
    + eapply table_ok_mono; [|eassumption]. lia.
    + eapply table_ok_mono; [|apply table_ok_snoc; eassumption]. lia.
    + eapply (table_ok_extend (Db.nextId d) (S (Db.nextId d)) u);
        [lia|lia|eassumption|apply new_parents_ids|apply new_parents_NoDup].
    + eapply (table_ok_extend (Db.nextId d) (S (Db.nextId d)) u);
        [lia|lia|eassumption|apply new_kids_ids_le|apply new_kids_NoDup].
    + eapply table_ok_mono; [|eassumption]. lia.
    + eapply table_ok_mono; [|eassumption]. lia.
    + eapply table_ok_mono; [|eassumption]. lia.
    + eapply table_ok_mono; [|eassumption]. lia.
    + apply Forall_app. split.
      * eapply Forall_lt_mono; [|eassumption]. lia.
      * apply (new_parents_rows HevyExercise.sets (Sync.exercise_row (Db.nextId d))
                 (fun row => Exercise.workoutId row < S (Db.nextId d + u))).
        intros p. simpl. lia.
    + apply Forall_app. split.
      * eapply Forall_lt_mono; [|eassumption]. lia.
      * eapply Forall_impl;
          [|apply (new_kids_parent HevyExercise.sets
                     (fun e => Sync.set_row e (Db.nextId d)) SetRow.exerciseId);
            reflexivity].
        simpl. fold u. intros r Hr. lia.
    + eapply Forall_lt_mono; [|eassumption]. lia.
    + eapply Forall_lt_mono; [|eassumption]. lia.
Qed.

Lemma workout_patch_fields old :
  matches old = true ->
  Sync.workout_patch Date_getTime workout old
  = Sync.workout_fields Date_getTime workout (Workout.notionPageId old).
Proof.
  unfold matches. intros H. apply String.eqb_eq in H.
  unfold Sync.workout_patch, Sync.workout_fields. simpl. now rewrite H.
Qed.

(** What one upsert leaves behind when the natural key is unique: one
    workout with the fields of the payload, and as many exercise and set
    rows as the payload has. *)
Lemma upsertWorkout_once d :
  wf d ->
  List.length (workouts_with (HevyWorkout.id workout) d) <= 1 ->
  let r := Sync.upsertWorkout Date_getTime workout d in
  exists page,
    workouts_with (HevyWorkout.id workout) (snd r)
    = [(fst r, Sync.workout_fields Date_getTime workout page)]
    /\ List.length (Sync.getWorkoutExercises (fst r) (snd r)) = List.length exs
    /\ map (fun e => List.length (Sync.getExerciseSets (fst e) (snd r)))
         (Sync.getWorkoutExercises (fst r) (snd r))
       = map (fun ex => List.length (HevyExercise.sets ex)) exs.
Proof.
  intros W U. destruct W. cbv zeta.
  unfold workouts_with, Sync.getWorkoutExercises, Sync.getExerciseSets, Db.collect.
  destruct (Db.first Db.workoutsT matches d) as [[id old]|] eqn:F.
  - destruct (upsertWorkout_existing d id old F) as [kE [kS [E Hgone]]].
    rewrite E. clear E. simpl.
    exists (Workout.notionPageId old).
    destruct (first_collect _ _ _ _ F) as [rest C].
    unfold workouts_with in U. fold matches in U. rewrite C in U.
    destruct rest; [|simpl in U; lia]. clear U.
    unfold Db.collect in C. simpl in C.
    pose proof (first_In _ _ _ _ _ F) as [Hin Hm]. simpl in Hin.
    split; [|split].
    + fold matches.
      rewrite (filter_patch_rows matches) by reflexivity.
      rewrite C. simpl. rewrite Nat.eqb_refl. simpl.
      now rewrite workout_patch_fields.
    + rewrite (parents_of_new HevyExercise.sets (Sync.exercise_row id)
                 Exercise.workoutId id) by (reflexivity || assumption).
      apply new_parents_length.
    + rewrite (parents_of_new HevyExercise.sets (Sync.exercise_row id)
                 Exercise.workoutId id) by (reflexivity || assumption).
      apply (kids_of_new HevyExercise.sets (Sync.exercise_row id)
               (fun e => Sync.set_row e id) SetRow.exerciseId);
        [reflexivity|now apply Forall_filter].
  - rewrite (upsertWorkout_new d F). simpl.
    exists None.
    pose proof (first_None _ _ _ F) as C. unfold Db.collect in C. simpl in C.
    assert (Hnone : Forall (fun r : Id * Exercise.t =>
                              Nat.eqb (Exercise.workoutId (snd r)) (Db.nextId d) = false)
                      (Db.exercises d)).
    { eapply Forall_impl; [|exact wf_exercise_parent0]. simpl.
      intros r Hr. apply Nat.eqb_neq. lia. }
    split; [|split].
    + rewrite filter_app. unfold matches in C. rewrite C. simpl.
      now rewrite String.eqb_refl.
    + rewrite (parents_of_new HevyExercise.sets (Sync.exercise_row (Db.nextId d))
                 Exercise.workoutId (Db.nextId d)) by (reflexivity || assumption).
      apply new_parents_length.
    + rewrite (parents_of_new HevyExercise.sets (Sync.exercise_row (Db.nextId d))
                 Exercise.workoutId (Db.nextId d)) by (reflexivity || assumption).
      apply (kids_of_new HevyExercise.sets (Sync.exercise_row (Db.nextId d))
               (fun e => Sync.set_row e (Db.nextId d)) SetRow.exerciseId);
        [reflexivity|].
      eapply Forall_lt_mono; [|exact wf_set_parent0]. lia.
Qed.

(** The second upsert of a payload finds the workout of the first. *)
Lemma upsertWorkout_same_id d page id :
  workouts_with (HevyWorkout.id workout) d
  = [(id, Sync.workout_fields Date_getTime workout page)] ->
  fst (Sync.upsertWorkout Date_getTime workout d) = id
  /\ forall page',
       workouts_with (HevyWorkout.id workout)
         (snd (Sync.upsertWorkout Date_getTime workout d))
       = [(id, Sync.workout_fields Date_getTime workout page')] ->
       page' = page.
Proof.
  intros C. pose proof (collect_first _ _ _ _ _ C) as F. fold matches in F.
  destruct (upsertWorkout_existing d id _ F) as [kE [kS [E _]]].
  rewrite E. simpl. split; [reflexivity|].
  intros page'. unfold workouts_with, Db.collect. simpl.
  change (fun r : Id * Workout.t =>
            String.eqb (Workout.hevyId (snd r)) (HevyWorkout.id workout))
    with (fun r : Id * Workout.t => matches (snd r)).
  rewrite (filter_patch_rows matches) by reflexivity.
  unfold workouts_with, Db.collect in C. simpl in C.
  change (fun r : Id * Workout.t =>
            String.eqb (Workout.hevyId (snd r)) (HevyWorkout.id workout))
    with (fun r : Id * Workout.t => matches (snd r)) in C.
  rewrite C. simpl. rewrite Nat.eqb_refl. simpl.
  intros H. inversion H. reflexivity.
Qed.

End UpsertWorkout.

(** *** The loops of [upsertRoutine], table by table *)

Lemma insert_routine_sets_eq e rid sets : forall d,
  fold_left
    (fun d' set =>
       snd (Db.insert Db.routineSetsT (Sync.routine_set_row e rid set) d'))
    sets d
  = Db.mk (Db.nextId d + List.length sets) (Db.syncState d) (Db.workouts d)
      (Db.exercises d) (Db.sets d) (Db.routineFolders d) (Db.routines d)
      (Db.routineExercises d)
      (Db.routineSets d
       ++ numbered (Db.nextId d) (map (Sync.routine_set_row e rid) sets))
      (Db.exerciseProgress d).
Proof.
  induction sets as [|s sets IH]; intros d.
  - simpl. rewrite Nat.add_0_r, app_nil_r. now destruct d.
  - simpl fold_left. rewrite IH. simpl.
    rewrite numbered_cons, <- app_assoc. simpl.
    f_equal. lia.
Qed.

Lemma insert_routine_exercise_eq rid week day d ex :
  Sync.insert_routine_exercise rid week day d ex
  = Db.mk (Db.nextId d + S (List.length (HevyRoutineExercise.sets ex)))
      (Db.syncState d) (Db.workouts d) (Db.exercises d) (Db.sets d)
      (Db.routineFolders d) (Db.routines d)
      (Db.routineExercises d
       ++ [(Db.nextId d, Sync.routine_exercise_row rid week day ex)])
      (Db.routineSets d
       ++ numbered (S (Db.nextId d))
            (map (Sync.routine_set_row (Db.nextId d) rid)
               (HevyRoutineExercise.sets ex)))
      (Db.exerciseProgress d).
Proof.
  unfold Sync.insert_routine_exercise.
  destruct (Db.insert Db.routineExercisesT
              (Sync.routine_exercise_row rid week day ex) d) as [e d1] eqn:E.
  rewrite insert_routine_sets_eq. unfold Db.insert in E.
  inversion E; subst; clear E. simpl. f_equal. lia.
Qed.

Lemma insert_routine_children_eq rid week day exs : forall d,
  fold_left (Sync.insert_routine_exercise rid week day) exs d
  = Db.mk (Db.nextId d + ids_used HevyRoutineExercise.sets exs)
      (Db.syncState d) (Db.workouts d) (Db.exercises d) (Db.sets d)
      (Db.routineFolders d) (Db.routines d)
      (Db.routineExercises d
       ++ new_parents HevyRoutineExercise.sets
            (Sync.routine_exercise_row rid week day) (Db.nextId d) exs)
      (Db.routineSets d
       ++ new_kids HevyRoutineExercise.sets
            (fun e => Sync.routine_set_row e rid) (Db.nextId d) exs)
      (Db.exerciseProgress d).
Proof.
  induction exs as [|ex exs IH]; intros d.
  - simpl. rewrite Nat.add_0_r, !app_nil_r. now destruct d.
  - simpl fold_left. rewrite IH, insert_routine_exercise_eq. simpl.
    rewrite <- !app_assoc. simpl.
    replace (Db.nextId d + S (List.length (HevyRoutineExercise.sets ex)))
      with (S (Db.nextId d + List.length (HevyRoutineExercise.sets ex))) by lia.
    f_equal. lia.
Qed.

Lemma delete_routine_sets_eq (l : Table RoutineSet.t) : forall d,
  fold_left (fun d' set => Db.delete Db.routineSetsT (fst set) d') l d
  = Db.set Db.routineSetsT
      (fold_left (fun t' x => Db.delete_rows (fst x) t') l (Db.routineSets d)) d.
Proof.
  induction l as [|x l IH]; intros d; simpl.
  - now destruct d.
  - rewrite IH. reflexivity.
Qed.

Lemma delete_routine_exercise_eq d ex :
  exists keep,
    Sync.delete_routine_exercise d ex
    = Db.set Db.routineExercisesT
        (Db.delete_rows (fst ex) (Db.routineExercises d))
        (Db.set Db.routineSetsT (filter keep (Db.routineSets d)) d).
Proof.
  unfold Sync.delete_routine_exercise.
  rewrite delete_routine_sets_eq, delete_rows_fold.
  eexists. reflexivity.
Qed.

Lemma delete_routine_exercises_eq (l : Table RoutineExercise.t) : forall d,
  exists keep,
    fold_left Sync.delete_routine_exercise l d
    = Db.set Db.routineExercisesT
        (filter (fun r => negb (existsb (fun x => Nat.eqb (fst r) (fst x)) l))
           (Db.routineExercises d))
        (Db.set Db.routineSetsT (filter keep (Db.routineSets d)) d).
Proof.
  induction l as [|x l IH]; intros d; simpl.
  - exists (fun _ => true). rewrite !filter_all by now apply Forall_forall.
    now destruct d.
  - destruct (delete_routine_exercise_eq d x) as [k1 E1]. rewrite E1.
    destruct (IH (Db.set Db.routineExercisesT
                    (Db.delete_rows (fst x) (Db.routineExercises d))
                    (Db.set Db.routineSetsT (filter k1 (Db.routineSets d)) d)))
      as [k2 E2].
    rewrite E2. simpl. unfold Db.delete_rows. rewrite !filter_filter.
    exists (fun r => k1 r && k2 r). f_equal.
    apply filter_ext. intros r. now rewrite negb_orb.
Qed.

Lemma delete_routine_children_eq rid d :
  exists keepE keepS,
    Sync.delete_routine_children rid d
    = Db.set Db.routineExercisesT (filter keepE (Db.routineExercises d))
        (Db.set Db.routineSetsT (filter keepS (Db.routineSets d)) d)
    /\ Forall (fun r => Nat.eqb (RoutineExercise.routineId (snd r)) rid = false)
         (filter keepE (Db.routineExercises d)).
Proof.
  unfold Sync.delete_routine_children.
  destruct (delete_routine_exercises_eq
              (Db.collect Db.routineExercisesT
                 (fun e => Nat.eqb (RoutineExercise.routineId e) rid) d) d)
    as [k E].
  eexists. exists k. split; [exact E|].
  rewrite Forall_forall. intros r Hr. apply filter_In in Hr. destruct Hr as [Hin Hk].
  destruct (Nat.eqb (RoutineExercise.routineId (snd r)) rid) eqn:Ew; [|reflexivity].
  exfalso. apply negb_true_iff in Hk.
  assert (Hex : existsb (fun x : Id * RoutineExercise.t => Nat.eqb (fst r) (fst x))
                  (Db.collect Db.routineExercisesT
                     (fun e => Nat.eqb (RoutineExercise.routineId e) rid) d) = true).
  { apply existsb_exists. exists r. split; [|apply Nat.eqb_refl].
    unfold Db.collect. apply filter_In. split; assumption. }
  congruence.
Qed.

(** Rows with the same identifier are the same row. *)
Lemma NoDup_fst_eq {R} (t : Table R) i a b :
  NoDup (map fst t) -> In (i, a) t -> In (i, b) t -> a = b.
Proof.
  induction t as [|r t IH]; simpl; intros H Ha Hb; [contradiction|].
  inversion H as [|? ? Hn Hd]; subst.
  destruct Ha as [Ha|Ha], Hb as [Hb|Hb].
  - congruence.
  - subst r. exfalso. apply Hn. simpl. apply (in_map fst) in Hb. exact Hb.
  - subst r. exfalso. apply Hn. simpl. apply (in_map fst) in Ha. exact Ha.
  - auto.
Qed.

Lemma filter_patch_rows_in {R} (p : R -> bool) id (f : R -> R) (t : Table R) :
  (forall r, In r t -> fst r = id -> p (f (snd r)) = p (snd r)) ->
  filter (fun r => p (snd r)) (Db.patch_rows id f t)
  = Db.patch_rows id f (filter (fun r => p (snd r)) t).
Proof.
  induction t as [|r t IH]; simpl; intros H; [reflexivity|].
  rewrite IH by (intros; apply H; auto).
  destruct (Nat.eqb (fst r) id) eqn:E; simpl.
  - rewrite (H r) by (auto; now apply Nat.eqb_eq).
    destruct (p (snd r)); simpl; [rewrite E|]; reflexivity.
  - destruct (p (snd r)); simpl; [rewrite E|]; reflexivity.
Qed.

(** *** [upsertRoutine] in closed form *)

Section UpsertRoutine.

Variable routine : HevyRoutine.t.

Let rexs := HevyRoutine.exercises routine.
Let day := Sync.parseDayNumber (HevyRoutine.title routine).
Let rmatches := fun r : Routine.t =>
  String.eqb (Routine.hevyId r) (HevyRoutine.id routine).

Lemma routine_folder_frame d d' :
  Db.routineFolders d' = Db.routineFolders d ->
  Sync.routine_folder routine d' = Sync.routine_folder routine d.
Proof.
  intros E. unfold Sync.routine_folder, Db.first. simpl. now rewrite E.
Qed.

Lemma upsertRoutine_existing d id old :
  Db.first Db.routinesT rmatches d = Some (id, old) ->
  exists keepE keepS,
    Sync.upsertRoutine routine d
    = (id,
       Db.mk (Db.nextId d + ids_used HevyRoutineExercise.sets rexs)
         (Db.syncState d) (Db.workouts d) (Db.exercises d) (Db.sets d)
         (Db.routineFolders d)
         (Db.patch_rows id
            (fun old => Sync.routine_data routine
                          (fst (Sync.routine_folder routine d))
                          (snd (Sync.routine_folder routine d))
                          (Routine.notionPageId old))
            (Db.routines d))
         (filter keepE (Db.routineExercises d)
          ++ new_parents HevyRoutineExercise.sets
               (Sync.routine_exercise_row id
                  (snd (Sync.routine_folder routine d)) day)
               (Db.nextId d) rexs)
         (filter keepS (Db.routineSets d)
          ++ new_kids HevyRoutineExercise.sets
               (fun e => Sync.routine_set_row e id) (Db.nextId d) rexs)
         (Db.exerciseProgress d))
    /\ Forall (fun r => Nat.eqb (RoutineExercise.routineId (snd r)) id = false)
         (filter keepE (Db.routineExercises d)).
Proof.
  intros H. unfold Sync.upsertRoutine.
  destruct (Sync.routine_folder routine d) as [folderId week].
  fold rmatches. rewrite H.
  destruct (delete_routine_children_eq id
              (Db.patch Db.routinesT id
                 (fun old => Sync.routine_data routine folderId week
                               (Routine.notionPageId old)) d))
    as [kE [kS [E F]]].
  exists kE, kS. split; [|exact F].
  rewrite E. unfold Sync.insert_routine_children.
  rewrite insert_routine_children_eq. reflexivity.
Qed.

Lemma upsertRoutine_new d :
  Db.first Db.routinesT rmatches d = None ->
  Sync.upsertRoutine routine d
  = (Db.nextId d,
     Db.mk (S (Db.nextId d) + ids_used HevyRoutineExercise.sets rexs)
       (Db.syncState d) (Db.workouts d) (Db.exercises d) (Db.sets d)
       (Db.routineFolders d)
       (Db.routines d
        ++ [(Db.nextId d,
             Sync.routine_data routine (fst (Sync.routine_folder routine d))
               (snd (Sync.routine_folder routine d)) None)])
       (Db.routineExercises d
        ++ new_parents HevyRoutineExercise.sets
             (Sync.routine_exercise_row (Db.nextId d)
                (snd (Sync.routine_folder routine d)) day)
             (S (Db.nextId d)) rexs)
       (Db.routineSets d
        ++ new_kids HevyRoutineExercise.sets
             (fun e => Sync.routine_set_row e (Db.nextId d))
             (S (Db.nextId d)) rexs)
       (Db.exerciseProgress d)).
Proof.
  intros H. unfold Sync.upsertRoutine.
  destruct (Sync.routine_folder routine d) as [folderId week].
  fold rmatches. rewrite H.
  unfold Db.insert, Sync.insert_routine_children.
  rewrite insert_routine_children_eq. reflexivity.
Qed.

(** [upsertRoutine] keeps the store well formed. *)
Lemma upsertRoutine_wf d :
  wf d -> wf (snd (Sync.upsertRoutine routine d)).
Proof.
  intros W. destruct W.
  destruct (Db.first Db.routinesT rmatches d) as [[id old]|] eqn:F.
  - destruct (upsertRoutine_existing d id old F) as [kE [kS [E _]]].
    rewrite E. clear E. simpl.
    apply first_In in F. destruct F as [Hin _]. simpl in Hin.
    pose proof (table_ok_In _ _ _ _ wf_routines0 Hin) as Hid.
    set (u := ids_used HevyRoutineExercise.sets rexs).
    constructor; simpl; fold u.
    + eapply table_ok_mono; [|eassumption]. lia.
    + eapply table_ok_mono; [|eassumption]. lia.
    + eapply table_ok_mono; [|eassumption]. lia.
    + eapply table_ok_mono; [|eassumption]. lia.
    + eapply table_ok_mono; [|eassumption]. lia.
    + eapply table_ok_mono; [|apply table_ok_patch; eassumption]. lia.
    + eapply (table_ok_extend (Db.nextId d) (Db.nextId d) u);
        [lia|lia|now apply table_ok_filter|apply new_parents_ids
        |apply new_parents_NoDup].
    + eapply (table_ok_extend (Db.nextId d) (Db.nextId d) u);
        [lia|lia|now apply table_ok_filter|apply new_kids_ids_le
        |apply new_kids_NoDup].
    + eapply Forall_lt_mono; [|eassumption]. lia.
    + eapply Forall_lt_mono; [|eassumption]. lia.
    + apply Forall_app. split.
      * apply Forall_filter. eapply Forall_lt_mono; [|eassumption]. lia.
      * apply (new_parents_rows HevyRoutineExercise.sets
                 (Sync.routine_exercise_row id
                    (snd (Sync.routine_folder routine d)) day)
                 (fun row => RoutineExercise.routineId row < Db.nextId d + u)).
        intros p. simpl. lia.
    + apply Forall_app. split.
      * apply Forall_filter. eapply Forall_lt_mono; [|eassumption]. lia.
      * eapply Forall_impl;
          [|apply (new_kids_parent HevyRoutineExercise.sets
                     (fun e => Sync.routine_set_row e id)
                     RoutineSet.routineExerciseId); reflexivity].
        simpl. fold u. intros r Hr. lia.
  - rewrite (upsertRoutine_new d F). simpl.
    set (u := ids_used HevyRoutineExercise.sets rexs).
    constructor; simpl; fold u.
    + eapply table_ok_mono; [|eassumption]. lia.
    + eapply table_ok_mono; [|eassumption]. lia.
    + eapply table_ok_mono; [|eassumption]. lia.
    + eapply table_ok_mono; [|eassumption]. lia.
    + eapply table_ok_mono; [|eassumption]. lia.
    + eapply table_ok_mono; [|apply table_ok_snoc; eassumption]. lia.
    + eapply (table_ok_extend (Db.nextId d) (S (Db.nextId d)) u);
        [lia|lia|eassumption|apply new_parents_ids|apply new_parents_NoDup].
    + eapply (table_ok_extend (Db.nextId d) (S (Db.nextId d)) u);
        [lia|lia|eassumption|apply new_kids_ids_le|apply new_kids_NoDup].
    + eapply Forall_lt_mono; [|eassumption]. lia.
    + eapply Forall_lt_mono; [|eassumption]. lia.
    + apply Forall_app. split.
      * eapply Forall_lt_mono; [|eassumption]. lia.
      * apply (new_parents_rows HevyRoutineExercise.sets
                 (Sync.routine_exercise_row (Db.nextId d)
                    (snd (Sync.routine_folder routine d)) day)
                 (fun row => RoutineExercise.routineId row < S (Db.nextId d + u))).
        intros p. simpl. lia.
    + apply Forall_app. split.
      * eapply Forall_lt_mono; [|eassumption]. lia.
      * eapply Forall_impl;
          [|apply (new_kids_parent HevyRoutineExercise.sets
                     (fun e => Sync.routine_set_row e (Db.nextId d))
                     RoutineSet.routineExerciseId); reflexivity].
        simpl. fold u. intros r Hr. lia.
Qed.

(** What one upsert of a routine leaves behind when the natural key is
    unique. *)
Lemma upsertRoutine_once d :
  wf d ->
  List.length (routines_with (HevyRoutine.id routine) d) <= 1 ->
  let r := Sync.upsertRoutine routine d in
  exists page,
    routines_with (HevyRoutine.id routine) (snd r)
    = [(fst r,
        Sync.routine_data routine (fst (Sync.routine_folder routine d))
          (snd (Sync.routine_folder routine d)) page)]
    /\ Db.routineFolders (snd r) = Db.routineFolders d
    /\ List.length (Sync.getRoutineExercises (fst r) (snd r)) = List.length rexs
    /\ map (fun e =>
              List.length
                (Db.collect Db.routineSetsT
                   (fun s => Nat.eqb (RoutineSet.routineExerciseId s) (fst e))
                   (snd r)))
         (Sync.getRoutineExercises (fst r) (snd r))
       = map (fun ex => List.length (HevyRoutineExercise.sets ex)) rexs.
Proof.
  intros W U. destruct W. cbv zeta.
  unfold routines_with, Sync.getRoutineExercises, Db.collect.
  destruct (Db.first Db.routinesT rmatches d) as [[id old]|] eqn:F.
  - destruct (upsertRoutine_existing d id old F) as [kE [kS [E Hgone]]].
    rewrite E. clear E. simpl.
    exists (Routine.notionPageId old).
    destruct (first_collect _ _ _ _ F) as [rest C].
    unfold routines_with in U. fold rmatches in U. rewrite C in U.
    destruct rest; [|simpl in U; lia]. clear U.
    unfold Db.collect in C. simpl in C.
    pose proof (first_In _ _ _ _ _ F) as [Hin Hm]. simpl in Hin.
    split; [|split; [reflexivity|split]].
    + change (fun r : Id * Routine.t =>
                String.eqb (Routine.hevyId (snd r)) (HevyRoutine.id routine))
        with (fun r : Id * Routine.t => rmatches (snd r)).
      rewrite (filter_patch_rows_in rmatches).
      * rewrite C. simpl. now rewrite Nat.eqb_refl.
      * intros r Hr Hi. destruct r as [i a]. simpl in *. subst i.
        rewrite (NoDup_fst_eq _ _ _ _ (proj2 wf_routines0) Hr Hin), Hm.
        unfold rmatches. simpl. apply String.eqb_refl.
    + rewrite (parents_of_new HevyRoutineExercise.sets
                 (Sync.routine_exercise_row id
                    (snd (Sync.routine_folder routine d)) day)
                 RoutineExercise.routineId id) by (reflexivity || assumption).
      apply new_parents_length.
    + rewrite (parents_of_new HevyRoutineExercise.sets
                 (Sync.routine_exercise_row id
                    (snd (Sync.routine_folder routine d)) day)
                 RoutineExercise.routineId id) by (reflexivity || assumption).
      apply (kids_of_new HevyRoutineExercise.sets
               (Sync.routine_exercise_row id
                  (snd (Sync.routine_folder routine d)) day)
               (fun e => Sync.routine_set_row e id) RoutineSet.routineExerciseId);
        [reflexivity|now apply Forall_filter].
  - rewrite (upsertRoutine_new d F). simpl.
    exists None.
    pose proof (first_None _ _ _ F) as C. unfold Db.collect in C. simpl in C.
    assert (Hnone : Forall (fun r : Id * RoutineExercise.t =>
                              Nat.eqb (RoutineExercise.routineId (snd r))
                                (Db.nextId d) = false)
                      (Db.routineExercises d)).
    { eapply Forall_impl; [|exact wf_routineExercise_parent0]. simpl.
      intros r Hr. apply Nat.eqb_neq. lia. }
    split; [|split; [reflexivity|split]].
    + rewrite filter_app. unfold rmatches in C. rewrite C. simpl.
      now rewrite String.eqb_refl.
    + rewrite (parents_of_new HevyRoutineExercise.sets
                 (Sync.routine_exercise_row (Db.nextId d)
                    (snd (Sync.routine_folder routine d)) day)
                 RoutineExercise.routineId (Db.nextId d))
        by (reflexivity || assumption).
      apply new_parents_length.
    + rewrite (parents_of_new HevyRoutineExercise.sets
                 (Sync.routine_exercise_row (Db.nextId d)
                    (snd (Sync.routine_folder routine d)) day)
                 RoutineExercise.routineId (Db.nextId d))
        by (reflexivity || assumption).
      apply (kids_of_new HevyRoutineExercise.sets
               (Sync.routine_exercise_row (Db.nextId d)
                  (snd (Sync.routine_folder routine d)) day)
               (fun e => Sync.routine_set_row e (Db.nextId d))
               RoutineSet.routineExerciseId);
        [reflexivity|].
      eapply Forall_lt_mono; [|exact wf_routineSet_parent0]. lia.
Qed.

(** The second upsert of a routine finds the routine of the first and
    keeps its page. *)
Lemma upsertRoutine_same_id d fid week page id :
  wf d ->
  routines_with (HevyRoutine.id routine) d
  = [(id, Sync.routine_data routine fid week page)] ->
  fst (Sync.upsertRoutine routine d) = id
  /\ forall page',
       routines_with (HevyRoutine.id routine) (snd (Sync.upsertRoutine routine d))
       = [(id, Sync.routine_data routine (fst (Sync.routine_folder routine d))
                 (snd (Sync.routine_folder routine d)) page')] ->
       page' = page.
Proof.
  intros W C. destruct W.
  pose proof (collect_first _ _ _ _ _ C) as F. fold rmatches in F.
  destruct (upsertRoutine_existing d id _ F) as [kE [kS [E _]]].
  rewrite E. simpl. split; [reflexivity|].
  pose proof (first_In _ _ _ _ _ F) as [Hin Hm]. simpl in Hin.
  intros page'. unfold routines_with, Db.collect. simpl.
  change (fun r : Id * Routine.t =>
            String.eqb (Routine.hevyId (snd r)) (HevyRoutine.id routine))
    with (fun r : Id * Routine.t => rmatches (snd r)).
  rewrite (filter_patch_rows_in rmatches).
  - unfold routines_with, Db.collect in C. simpl in C.
    change (fun r : Id * Routine.t =>
              String.eqb (Routine.hevyId (snd r)) (HevyRoutine.id routine))
      with (fun r : Id * Routine.t => rmatches (snd r)) in C.
    rewrite C. simpl. rewrite Nat.eqb_refl. simpl.
    intros H. inversion H. reflexivity.
  - intros r Hr Hi. destruct r as [i a]. simpl in *. subst i.
    rewrite (NoDup_fst_eq _ _ _ _ (proj2 wf_routines0) Hr Hin), Hm.
    unfold rmatches. simpl. apply String.eqb_refl.
Qed.

End UpsertRoutine.

Lemma wf_empty : wf Db.empty.
Proof.
  constructor; simpl; try (split; constructor); constructor.
Qed.

(* ------------------------------------------------------------------ *)
(** ** C2: the statistics of a workout                                  *)
(* ------------------------------------------------------------------ *)

Lemma stats_step_sets acc set :
  Sync.totalSets (Sync.stats_step acc set) = (Sync.totalSets acc + 1)%Z.
Proof.
  unfold Sync.stats_step.
  destruct (HevySet.reps set) as [r|]; [|reflexivity].
  destruct (Js.truthy_num r); [|reflexivity].
  destruct (HevySet.weight_kg set) as [w|]; [|reflexivity].
  now destruct (Js.truthy_num w).
Qed.

Lemma stats_step_volume acc acc' set :
  Sync.totalVolume acc = Sync.totalVolume acc' ->
  Sync.totalVolume (Sync.stats_step acc set)
  = Sync.totalVolume (Sync.stats_step acc' set).
Proof.
  intros E. unfold Sync.stats_step.
  destruct (HevySet.reps set) as [r|]; [|exact E].
  destruct (Js.truthy_num r); [|exact E].
  destruct (HevySet.weight_kg set) as [w|]; [|exact E].
  destruct (Js.truthy_num w); simpl; [now rewrite E|exact E].
Qed.

Lemma stats_fold_volume sets : forall acc acc',
  Sync.totalVolume acc = Sync.totalVolume acc' ->
  Sync.totalVolume (fold_left Sync.stats_step sets acc)
  = Sync.totalVolume (fold_left Sync.stats_step sets acc').
Proof.
  induction sets as [|s sets IH]; intros acc acc' E; simpl; [exact E|].
  apply IH. now apply stats_step_volume.
Qed.

Lemma stats_fold_sets sets : forall acc,
  Sync.totalSets (fold_left Sync.stats_step sets acc)
  = (Sync.totalSets acc + Z.of_nat (List.length sets))%Z.
Proof.
  induction sets as [|s sets IH]; intros acc.
  - simpl. lia.
  - simpl fold_left. rewrite IH, stats_step_sets. simpl List.length. lia.
Qed.

(** A set that lacks the weight or the repetitions leaves the volume of
    the running totals as it is. *)
Lemma stats_step_null acc set :
  HevySet.weight_kg set = None \/ HevySet.reps set = None ->
  Sync.totalVolume (Sync.stats_step acc set) = Sync.totalVolume acc.
Proof.
  unfold Sync.stats_step. intros [E|E]; rewrite E.
  - destruct (HevySet.reps set) as [r|]; [|reflexivity].
    now destruct (Js.truthy_num r).
  - reflexivity.
Qed.

(** C2, as the code has it.  For the set list
    [{100, 5}, {null, 8}, {50, 10}] the statistics of the upsert are a
    volume of 1000 (rounded to one decimal), 3 sets and 23 repetitions: a
    set with repetitions and no weight adds its repetitions.  In general a
    set whose weight is null or whose repetitions are null, wherever it
    stands in the list, adds nothing to the volume and one to the number
    of sets. *)
Theorem workout_statistics :
  (let st := Sync.workout_totals [Sim.bench] in
   Js.round1 (Sync.totalVolume st) == 1000
   /\ Sync.totalSets st = 3%Z
   /\ Sync.totalReps st == 23)
  /\ (let st := calculateWorkoutStats [Sim.bench] in
      Sync.totalVolume st == 1000
      /\ Sync.totalSets st = 3%Z
      /\ Sync.totalReps st == 23)
  /\ (forall Date_getTime : string -> Z,
        let row := Sync.workout_fields Date_getTime Sim.bench_only None in
        Db.lookup Db.workoutsT 0
          (snd (Sync.upsertWorkout Date_getTime Sim.bench_only Db.empty))
        = Some row
        /\ Workout.totalVolume row = Some (10000 # 10)
        /\ Workout.totalSets row = Some 3%Z
        /\ Workout.totalReps row = Some (23 # 1))
  /\ (forall acc before after index type reps distance duration rpe metric,
        let set :=
          HevySet.mk index type None reps distance duration rpe metric in
        Sync.totalVolume (fold_left Sync.stats_step (before ++ set :: after) acc)
        = Sync.totalVolume (fold_left Sync.stats_step (before ++ after) acc)
        /\ Sync.totalSets (fold_left Sync.stats_step (before ++ set :: after) acc)
           = (Sync.totalSets (fold_left Sync.stats_step (before ++ after) acc) + 1)%Z)
  /\ (forall acc before after index type weight distance duration rpe metric,
        let set :=
          HevySet.mk index type weight None distance duration rpe metric in
        Sync.totalVolume (fold_left Sync.stats_step (before ++ set :: after) acc)
        = Sync.totalVolume (fold_left Sync.stats_step (before ++ after) acc)
        /\ Sync.totalSets (fold_left Sync.stats_step (before ++ set :: after) acc)
           = (Sync.totalSets (fold_left Sync.stats_step (before ++ after) acc) + 1)%Z).
Proof.
  split; [|split; [|split; [|split]]].
  - cbv zeta. vm_compute. repeat split; reflexivity.
  - cbv zeta. vm_compute. repeat split; reflexivity.
  - intros Date_getTime. cbv zeta. repeat split.
  - intros acc before after index type reps distance duration rpe metric set.
    split.
    + rewrite !fold_left_app. simpl fold_left.
      apply stats_fold_volume. apply stats_step_null. now left.
    + rewrite !stats_fold_sets, !length_app. simpl List.length. lia.
  - intros acc before after index type weight distance duration rpe metric set.
    split.
    + rewrite !fold_left_app. simpl fold_left.
      apply stats_fold_volume. apply stats_step_null. now right.
    + rewrite !stats_fold_sets, !length_app. simpl List.length. lia.
Qed.

(** The claim of 15 repetitions fails on the code: the set without a
    weight still has 8 repetitions, and they are counted. *)
Lemma total_reps_is_23_not_15 :
  Sync.totalReps (Sync.workout_totals [Sim.bench]) == 23
  /\ ~ Sync.totalReps (Sync.workout_totals [Sim.bench]) == 15
  /\ Workout.totalReps
       (Sync.workout_fields Sim.Date_getTime Sim.bench_only None)
     = Some (23 # 1).
Proof.
  split; [vm_compute; reflexivity|]. split; [|reflexivity].
  vm_compute. discriminate.
Qed.

(* ------------------------------------------------------------------ *)
(** ** C4: a [deleted] event                                            *)
(* ------------------------------------------------------------------ *)

Lemma patch_rows_Forall2 {R} id (f : R -> R) (t : Table R) :
  Forall2
    (fun r r' =>
       fst r' = fst r
       /\ snd r' = if Nat.eqb (fst r) id then f (snd r) else snd r)
    t (Db.patch_rows id f t).
Proof.
  induction t as [|r t IH]; simpl; constructor; [|exact IH].
  destruct (Nat.eqb (fst r) id); split; reflexivity.
Qed.

(** C4.  [markWorkoutDeleted] for a natural key that a workout has:
    every table but [workouts] is as it was, no identifier is handed out,
    the workouts keep their identifiers and their order, the matching
    workout gets [isDeleted = true] and [syncedToNotion = false] and keeps
    every other field, and every other workout is as it was.  For a key
    that no workout has, the store is as it was.  A [deleted] event with a
    truthy [id] does exactly this and counts as one deletion. *)
Theorem markWorkoutDeleted_frame (hevyId : string) (d : Db.t) :
  let d' := Sync.markWorkoutDeleted hevyId d in
  Db.nextId d' = Db.nextId d
  /\ Db.syncState d' = Db.syncState d
  /\ Db.exercises d' = Db.exercises d
  /\ Db.sets d' = Db.sets d
  /\ Db.routineFolders d' = Db.routineFolders d
  /\ Db.routines d' = Db.routines d
  /\ Db.routineExercises d' = Db.routineExercises d
  /\ Db.routineSets d' = Db.routineSets d
  /\ Db.exerciseProgress d' = Db.exerciseProgress d
  /\ match Db.first Db.workoutsT
             (fun w => String.eqb (Workout.hevyId w) hevyId) d with
     | Some (id, _) =>
         Forall2
           (fun old new =>
              fst new = fst old
              /\ if Nat.eqb (fst old) id
                 then tombstoned (snd old) (snd new)
                 else snd new = snd old)
           (Db.workouts d) (Db.workouts d')
     | None => d' = d
     end
  /\ (forall (Net : Type) (Date_getTime : string -> Z) (c : ascii) (s : string)
        (at_ : option string) (wk : option HevyWorkout.t) (w : World Net),
        process_events Net Date_getTime
          [HevyEvent.mk HevyEvent.deleted wk (Some (String c s)) at_] 0 0 w
        = (Returned (0, 1),
           mkWorld Net (Sync.markWorkoutDeleted (String c s) (db Net w))
             (net Net w) (sent Net w) (asked Net w) (console Net w)
             (clock Net w))).
Proof.
  cbv zeta. unfold Sync.markWorkoutDeleted.
  destruct (Db.first Db.workoutsT
              (fun w => String.eqb (Workout.hevyId w) hevyId) d)
    as [[id old]|] eqn:F; simpl.
  - repeat (split; [reflexivity|]). split; [|reflexivity].
    eapply Forall2_impl; [|apply patch_rows_Forall2].
    simpl. intros r r' [E1 E2]. split; [exact E1|].
    destruct (Nat.eqb (fst r) id); [|exact E2].
    rewrite E2. unfold tombstoned. simpl. repeat split.
  - repeat (split; [reflexivity|]). reflexivity.
Qed.

(* ------------------------------------------------------------------ *)
(** ** The invariant under every mutation                               *)
(* ------------------------------------------------------------------ *)

Lemma markWorkoutSynced_wf id page d : wf d -> wf (Sync.markWorkoutSynced id page d).
Proof.
  intros []. constructor; simpl; try assumption. now apply table_ok_patch.
Qed.

Lemma markWorkoutDeleted_wf h d : wf d -> wf (Sync.markWorkoutDeleted h d).
Proof.
  intros W. unfold Sync.markWorkoutDeleted.
  destruct (Db.first Db.workoutsT _ d) as [[id old]|]; [|exact W].
  destruct W. constructor; simpl; try assumption. now apply table_ok_patch.
Qed.

Lemma markRoutineFolderSynced_wf id page d :
  wf d -> wf (Sync.markRoutineFolderSynced id page d).
Proof.
  intros []. constructor; simpl; try assumption. now apply table_ok_patch.
Qed.

Lemma markRoutineSynced_wf id page d :
  wf d -> wf (Sync.markRoutineSynced id page d).
Proof.
  intros []. constructor; simpl; try assumption. now apply table_ok_patch.
Qed.

Lemma Forall_patch_rows {R} (P : R -> Prop) id (f : R -> R) (t : Table R) :
  (forall r, P r -> P (f r)) ->
  Forall (fun r => P (snd r)) t ->
  Forall (fun r => P (snd r)) (Db.patch_rows id f t).
Proof.
  intros Hf H. induction H as [|r t Hr _ IH]; simpl; constructor; [|exact IH].
  destruct (Nat.eqb (fst r) id); simpl; auto.
Qed.

Lemma markRoutineExerciseSynced_wf id page d :
  wf d -> wf (Sync.markRoutineExerciseSynced id page d).
Proof.
  intros []. constructor; simpl; try assumption.
  - now apply table_ok_patch.
  - apply (Forall_patch_rows
             (fun e => RoutineExercise.routineId e < Db.nextId d));
      [intros r Hr; exact Hr|assumption].
Qed.

(** A store after one more identifier was handed out. *)
Lemma wf_bump d d' :
  wf d ->
  Db.nextId d' = S (Db.nextId d) ->
  table_ok (S (Db.nextId d)) (Db.syncState d') ->
  table_ok (S (Db.nextId d)) (Db.routineFolders d') ->
  Db.workouts d' = Db.workouts d -> Db.exercises d' = Db.exercises d ->
  Db.sets d' = Db.sets d -> Db.routines d' = Db.routines d ->
  Db.routineExercises d' = Db.routineExercises d ->
  Db.routineSets d' = Db.routineSets d ->
  wf d'.
Proof.
  intros [] En Hs Hf Ew Ee Est Er Ere Ers.
  constructor; rewrite En; rewrite ?Ew, ?Ee, ?Est, ?Er, ?Ere, ?Ers;
    try assumption;
    try (eapply table_ok_mono; [|eassumption]; lia);
    try (eapply Forall_lt_mono; [|eassumption]; lia).
Qed.

Lemma updateSyncState_wf args d : wf d -> wf (Sync.updateSyncState args d).
Proof.
  intros W. unfold Sync.updateSyncState.
  destruct (Sync.getSyncState d) as [[id st]|].
  - destruct W. constructor; simpl; try assumption. now apply table_ok_patch.
  - apply (wf_bump d); try reflexivity; try assumption; simpl.
    + apply table_ok_snoc. now destruct W.
    + eapply table_ok_mono; [|destruct W; eassumption]. lia.
Qed.

Lemma upsertRoutineFolder_wf folder d :
  wf d -> wf (snd (Sync.upsertRoutineFolder folder d)).
Proof.
  intros W. unfold Sync.upsertRoutineFolder.
  destruct (Db.first Db.routineFoldersT _ d) as [[id old]|].
  - destruct W. constructor; simpl; try assumption. now apply table_ok_patch.
  - apply (wf_bump d); try reflexivity; try assumption; simpl.
    + eapply table_ok_mono; [|destruct W; eassumption]. lia.
    + apply table_ok_snoc. now destruct W.
Qed.

Lemma apply_mutation_wf Date_getTime m d :
  wf d -> wf (apply_mutation Date_getTime d m).
Proof.
  intros W. destruct m; simpl.
  - now apply updateSyncState_wf.
  - now apply upsertWorkout_wf.
  - now apply markWorkoutDeleted_wf.
  - now apply markWorkoutSynced_wf.
  - now apply upsertRoutineFolder_wf.
  - now apply upsertRoutine_wf.
  - now apply markRoutineFolderSynced_wf.
  - now apply markRoutineSynced_wf.
  - now apply markRoutineExerciseSynced_wf.
Qed.

Lemma apply_mutations_wf Date_getTime ms : forall d,
  wf d -> wf (fold_left (apply_mutation Date_getTime) ms d).
Proof.
  induction ms as [|m ms IH]; intros d W; simpl; [exact W|].
  apply IH. now apply apply_mutation_wf.
Qed.

(* ------------------------------------------------------------------ *)
(** ** C3: tombstones                                                   *)
(* ------------------------------------------------------------------ *)

Lemma lookup_patch_rows {R} id id' (f : R -> R) (t : Table R) :
  option_map snd (find (fun r => Nat.eqb (fst r) id) (Db.patch_rows id' f t))
  = option_map (fun x => if Nat.eqb id id' then f x else x)
      (option_map snd (find (fun r => Nat.eqb (fst r) id) t)).
Proof.
  induction t as [|r t IH]; simpl; [reflexivity|].
  destruct (Nat.eqb (fst r) id') eqn:E'; simpl.
  - destruct (Nat.eqb (fst r) id) eqn:E; simpl; [|exact IH].
    apply Nat.eqb_eq in E, E'. rewrite <- E, E', Nat.eqb_refl. reflexivity.
  - destruct (Nat.eqb (fst r) id) eqn:E; simpl; [|exact IH].
    apply Nat.eqb_eq in E. rewrite <- E, E'. reflexivity.
Qed.

Lemma lookup_app {R} id (t new : Table R) x :
  option_map snd (find (fun r => Nat.eqb (fst r) id) t) = Some x ->
  option_map snd (find (fun r => Nat.eqb (fst r) id) (t ++ new)) = Some x.
Proof.
  induction t as [|r t IH]; simpl; [discriminate|].
  destruct (Nat.eqb (fst r) id); simpl; [trivial|exact IH].
Qed.

Lemma lookup_In {R} id (t : Table R) x :
  option_map snd (find (fun r => Nat.eqb (fst r) id) t) = Some x -> In (id, x) t.
Proof.
  destruct (find _ t) as [r|] eqn:F; simpl; [|discriminate].
  intros E. inversion E; subst. apply find_some in F. destruct F as [Hin Hid].
  apply Nat.eqb_eq in Hid. destruct r; simpl in *; now subst.
Qed.

(** The mutations that do not write to [workouts]. *)
Lemma workouts_untouched Date_getTime m d :
  match m with
  | UpsertWorkout _ | MarkWorkoutDeleted _ | MarkWorkoutSynced _ _ => True
  | _ => Db.workouts (apply_mutation Date_getTime d m) = Db.workouts d
  end.
Proof.
  destruct m; simpl; try exact I; try reflexivity.
  - unfold Sync.updateSyncState.
    now destruct (Sync.getSyncState d) as [[id st]|].
  - unfold Sync.upsertRoutineFolder.
    now destruct (Db.first Db.routineFoldersT _ d) as [[id old]|].
  - destruct (Db.first Db.routinesT
                (fun r => String.eqb (Routine.hevyId r) (HevyRoutine.id routine)) d)
      as [[id old]|] eqn:F.
    + destruct (upsertRoutine_existing routine d id old F) as [kE [kS [E _]]].
      now rewrite E.
    + now rewrite (upsertRoutine_new routine d F).
Qed.

(** No mutation removes a workout or changes its natural key. *)
Lemma workout_retained_step Date_getTime m d id w :
  Db.lookup Db.workoutsT id d = Some w ->
  exists w',
    Db.lookup Db.workoutsT id (apply_mutation Date_getTime d m) = Some w'
    /\ Workout.hevyId w' = Workout.hevyId w.
Proof.
  unfold Db.lookup. simpl. intros L.
  pose proof (workouts_untouched Date_getTime m d) as Fr.
  destruct m; try (rewrite Fr; eauto).
  - (* upsertWorkout *)
    simpl.
    destruct (Db.first Db.workoutsT
                (fun w0 => String.eqb (Workout.hevyId w0) (HevyWorkout.id workout)) d)
      as [[id' old]|] eqn:F.
    + destruct (upsertWorkout_existing Date_getTime workout d id' old F)
        as [kE [kS [E _]]].
      rewrite E. simpl. rewrite lookup_patch_rows, L. simpl.
      destruct (Nat.eqb id id'); eexists; split; reflexivity.
    + rewrite (upsertWorkout_new Date_getTime workout d F). simpl.
      rewrite (lookup_app _ _ _ _ L). eauto.
  - (* markWorkoutDeleted *)
    simpl. unfold Sync.markWorkoutDeleted.
    destruct (Db.first Db.workoutsT _ d) as [[id' old]|]; [|eauto].
    simpl. rewrite lookup_patch_rows, L. simpl.
    destruct (Nat.eqb id id'); eexists; split; reflexivity.
  - (* markWorkoutSynced *)
    simpl. rewrite lookup_patch_rows, L. simpl.
    destruct (Nat.eqb id workoutId); eexists; split; reflexivity.
Qed.

(** A tombstone survives every mutation but an upsert of its key. *)
Lemma tombstone_step Date_getTime m d id w :
  wf d ->
  Db.lookup Db.workoutsT id d = Some w ->
  Workout.isDeleted w = true ->
  upserts_key (Workout.hevyId w) m = false ->
  exists w',
    Db.lookup Db.workoutsT id (apply_mutation Date_getTime d m) = Some w'
    /\ Workout.isDeleted w' = true
    /\ Workout.hevyId w' = Workout.hevyId w.
Proof.
  unfold Db.lookup. simpl. intros W L Del K.
  pose proof (workouts_untouched Date_getTime m d) as Fr.
  destruct m; try (rewrite Fr; eauto).
  - (* upsertWorkout of another key *)
    simpl in *.
    destruct (Db.first Db.workoutsT
                (fun w0 => String.eqb (Workout.hevyId w0) (HevyWorkout.id workout)) d)
      as [[id' old]|] eqn:F.
    + destruct (upsertWorkout_existing Date_getTime workout d id' old F)
        as [kE [kS [E _]]].
      rewrite E. simpl. rewrite lookup_patch_rows, L. simpl.
      destruct (Nat.eqb id id') eqn:Eid; [|eauto].
      exfalso. apply Nat.eqb_eq in Eid. subst id'.
      apply first_In in F. destruct F as [Hin Hm]. simpl in Hin.
      apply lookup_In in L.
      pose proof (NoDup_fst_eq _ _ _ _ (proj2 (wf_workouts d W)) Hin L) as Eo.
      subst old. apply String.eqb_eq in Hm.
      rewrite Hm, String.eqb_refl in K. discriminate.
    + rewrite (upsertWorkout_new Date_getTime workout d F). simpl.
      rewrite (lookup_app _ _ _ _ L). eauto.
  - (* markWorkoutDeleted *)
    simpl. unfold Sync.markWorkoutDeleted.
    destruct (Db.first Db.workoutsT _ d) as [[id' old]|]; [|eauto].
    simpl. rewrite lookup_patch_rows, L. simpl.
    destruct (Nat.eqb id id'); eexists; repeat split; auto.
  - (* markWorkoutSynced *)
    simpl. rewrite lookup_patch_rows, L. simpl.
    destruct (Nat.eqb id workoutId); eexists; repeat split; auto.
Qed.

(* ------------------------------------------------------------------ *)
(** ** Actions                                                          *)
(* ------------------------------------------------------------------ *)

Lemma filter_all_ids (p : Id -> bool) (l : list Id) :
  Forall (fun i => p i = true) l -> filter p l = l.
Proof.
  induction 1 as [|x l Hx _ IH]; simpl; [reflexivity|now rewrite Hx, IH].
Qed.

Section ActionFacts.

Variable Net : Type.
Variable notion_fetch : Notion.Request -> Net -> Notion.Response * Net.
Variable env : Env.

Lemma bind_Returned {A B} (m : Action Net A) (k : A -> Action Net B) w a w1 :
  m w = (Returned a, w1) -> bind Net m k w = k a w1.
Proof. unfold bind. now intros ->. Qed.

Lemma bind_Threw {A B} (m : Action Net A) (k : A -> Action Net B) w e w1 :
  m w = (Threw e, w1) -> bind Net m k w = (Threw e, w1).
Proof. unfold bind. now intros ->. Qed.

Lemma bind_Diverged {A B} (m : Action Net A) (k : A -> Action Net B) w w1 :
  m w = (Diverged, w1) -> bind Net m k w = (Diverged, w1).
Proof. unfold bind. now intros ->. Qed.

(** *** [keeps_db] *)

Lemma keeps_db_ret {A} (a : A) : keeps_db (ret Net a).
Proof. intros w. reflexivity. Qed.

Lemma keeps_db_throw {A} e : keeps_db (@throw Net A e).
Proof. intros w. reflexivity. Qed.

Lemma keeps_db_bind {A B} (m : Action Net A) (k : A -> Action Net B) :
  keeps_db m -> (forall a, keeps_db (k a)) -> keeps_db (bind Net m k).
Proof.
  intros Hm Hk w. unfold bind. specialize (Hm w).
  destruct (m w) as [[a|e|] w1]; simpl in *; [|assumption|assumption].
  now rewrite Hk.
Qed.

Lemma keeps_db_runQuery {A} (q : Db.t -> A) : keeps_db (runQuery Net q).
Proof. intros w. reflexivity. Qed.

Lemma keeps_db_log l : keeps_db (log Net l).
Proof. intros w. reflexivity. Qed.

Lemma keeps_db_required f x : keeps_db (required Net f x).
Proof. intros w. now destruct x. Qed.

Lemma keeps_db_notionRequest r : keeps_db (notionRequest Net notion_fetch env r).
Proof.
  intros w. unfold notionRequest.
  destruct (Js.truthy Js.truthy_str (NOTION_TOKEN env)); [|reflexivity].
  destruct (notion_fetch r (net Net w)) as [resp n'].
  now destruct (Notion.ok resp).
Qed.

Lemma keeps_db_for_each {A} (xs : list A) (body : A -> Action Net unit) :
  (forall x, keeps_db (body x)) -> keeps_db (for_each Net xs body).
Proof.
  intros H. induction xs as [|x xs IH]; simpl.
  - apply keeps_db_ret.
  - apply keeps_db_bind; [apply H|intros _; exact IH].
Qed.

(** *** [ends] *)

Lemma ends_ret {A} (a : A) : ends (ret Net a).
Proof. intros w. discriminate. Qed.

Lemma ends_throw {A} e : ends (@throw Net A e).
Proof. intros w. discriminate. Qed.

Lemma ends_bind {A B} (m : Action Net A) (k : A -> Action Net B) :
  ends m -> (forall a, ends (k a)) -> ends (bind Net m k).
Proof.
  intros Hm Hk w. unfold bind. specialize (Hm w).
  destruct (m w) as [[a|e|] w1]; simpl in *;
    [apply Hk|discriminate|contradiction].
Qed.

Lemma ends_runQuery {A} (q : Db.t -> A) : ends (runQuery Net q).
Proof. intros w. discriminate. Qed.

Lemma ends_runMutation f : ends (runMutation Net f).
Proof. intros w. discriminate. Qed.

Lemma ends_log l : ends (log Net l).
Proof. intros w. discriminate. Qed.

Lemma ends_required f x : ends (required Net f x).
Proof. intros w. destruct x; discriminate. Qed.

Lemma ends_notionRequest r : ends (notionRequest Net notion_fetch env r).
Proof.
  intros w. unfold notionRequest.
  destruct (Js.truthy Js.truthy_str (NOTION_TOKEN env)); [|discriminate].
  destruct (notion_fetch r (net Net w)) as [resp n'].
  destruct (Notion.ok resp); discriminate.
Qed.

Lemma ends_for_each {A} (xs : list A) (body : A -> Action Net unit) :
  (forall x, ends (body x)) -> ends (for_each Net xs body).
Proof.
  intros H. induction xs as [|x xs IH]; simpl.
  - apply ends_ret.
  - apply ends_bind; [apply H|intros _; exact IH].
Qed.

(** *** [sends_only] *)

Lemma sends_only_silent {A} ok (m : Action Net A) :
  (forall w, sent Net (snd (m w)) = sent Net w) -> sends_only ok m.
Proof.
  intros H w. exists []. rewrite H, app_nil_r. split; [reflexivity|constructor].
Qed.

Lemma sends_only_ret {A} ok (a : A) : sends_only ok (ret Net a).
Proof. now apply sends_only_silent. Qed.

Lemma sends_only_throw {A} ok e : sends_only ok (@throw Net A e).
Proof. now apply sends_only_silent. Qed.

Lemma sends_only_runQuery {A} ok (q : Db.t -> A) : sends_only ok (runQuery Net q).
Proof. now apply sends_only_silent. Qed.

Lemma sends_only_runMutation ok f : sends_only ok (runMutation Net f).
Proof. now apply sends_only_silent. Qed.

Lemma sends_only_log ok l : sends_only ok (log Net l).
Proof. now apply sends_only_silent. Qed.

Lemma sends_only_required ok f x : sends_only ok (required Net f x).
Proof. apply sends_only_silent. intros w. now destruct x. Qed.

Lemma sends_only_bind {A B} ok (m : Action Net A) (k : A -> Action Net B) :
  sends_only ok m -> (forall a, sends_only ok (k a)) ->
  sends_only ok (bind Net m k).
Proof.
  intros Hm Hk w. unfold bind. destruct (Hm w) as [n1 [E1 F1]].
  destruct (m w) as [[a|e|] w1]; simpl in *; eauto.
  destruct (Hk a w1) as [n2 [E2 F2]].
  exists (n1 ++ n2). rewrite E2, E1, app_assoc. split; [reflexivity|].
  apply Forall_app. now split.
Qed.

Lemma sends_only_notionRequest (ok : Notion.Request -> Prop) r :
  ok r -> sends_only ok (notionRequest Net notion_fetch env r).
Proof.
  intros Hr w. unfold notionRequest.
  destruct (Js.truthy Js.truthy_str (NOTION_TOKEN env)).
  - destruct (notion_fetch r (net Net w)) as [resp n'].
    exists [r]. split; [now destruct (Notion.ok resp)|now constructor].
  - exists []. simpl. rewrite app_nil_r. split; [reflexivity|constructor].
Qed.

Lemma sends_only_for_each {A} ok (xs : list A) (body : A -> Action Net unit) :
  (forall x, sends_only ok (body x)) -> sends_only ok (for_each Net xs body).
Proof.
  intros H. induction xs as [|x xs IH]; simpl.
  - apply sends_only_ret.
  - apply sends_only_bind; [apply H|intros _; exact IH].
Qed.

Lemma sends_only_weaken {A} (ok ok' : Notion.Request -> Prop) (m : Action Net A) :
  (forall r, ok r -> ok' r) -> sends_only ok m -> sends_only ok' m.
Proof.
  intros H Hm w. destruct (Hm w) as [new [E F]]. exists new. split; [exact E|].
  eapply Forall_impl; [|exact F]. exact H.
Qed.

(** *** The pages of the children of a workout *)

Variable dbs : WorkoutDbs.

Local Abbreviation notionRequest' := (notionRequest Net notion_fetch env).
Local Abbreviation createPage' := (createPage Net notion_fetch env).
Local Abbreviation push_exercise' := (push_exercise Net notion_fetch env dbs).
Local Abbreviation find_workout_page' := (find_workout_page Net notion_fetch env dbs).
Local Abbreviation sync_workout' := (sync_workout Net notion_fetch env dbs).
Local Abbreviation sync_workouts' := (sync_workouts Net notion_fetch env dbs).
Local Abbreviation syncToNotion' := (syncToNotion Net notion_fetch env dbs).

Lemma exerciseProps_no_key page exercise sets :
  has_key "Hevy ID" (exerciseProps page exercise sets) = false.
Proof. reflexivity. Qed.

Lemma setProps_no_key page set :
  has_key "Hevy ID" (setProps page set) = false.
Proof. reflexivity. Qed.

Lemma push_sets_spec page (sets : Table SetRow.t) :
  let m := for_each Net sets
             (fun set =>
                bind Net (createPage' (setsDbId dbs) (setProps page (snd set)))
                  (fun _ => ret Net tt)) in
  keeps_db m /\ ends m /\ sends_only child_page m.
Proof.
  cbv zeta. split; [|split].
  - apply keeps_db_for_each. intros x. apply keeps_db_bind.
    + apply keeps_db_notionRequest.
    + intros _. apply keeps_db_ret.
  - apply ends_for_each. intros x. apply ends_bind.
    + apply ends_notionRequest.
    + intros _. apply ends_ret.
  - apply sends_only_for_each. intros x. apply sends_only_bind.
    + apply sends_only_notionRequest. eexists _, _. split; [reflexivity|].
      apply setProps_no_key.
    + intros _. apply sends_only_ret.
Qed.

Lemma push_exercise_spec page exercise :
  keeps_db (push_exercise' page exercise)
  /\ ends (push_exercise' page exercise)
  /\ sends_only child_page (push_exercise' page exercise).
Proof.
  unfold push_exercise. split; [|split].
  - apply keeps_db_bind; [apply keeps_db_runQuery|]. intros sets.
    apply keeps_db_bind; [apply keeps_db_notionRequest|]. intros p.
    apply push_sets_spec.
  - apply ends_bind; [apply ends_runQuery|]. intros sets.
    apply ends_bind; [apply ends_notionRequest|]. intros p.
    apply push_sets_spec.
  - apply sends_only_bind; [apply sends_only_runQuery|]. intros sets.
    apply sends_only_bind.
    + apply sends_only_notionRequest. eexists _, _. split; [reflexivity|].
      apply exerciseProps_no_key.
    + intros p. apply push_sets_spec.
Qed.

Lemma find_workout_page_spec workout :
  keeps_db (find_workout_page' workout) /\ ends (find_workout_page' workout).
Proof.
  unfold find_workout_page.
  destruct (Js.truthy Js.truthy_str (Workout.notionPageId workout)).
  - split; [apply keeps_db_ret|apply ends_ret].
  - split.
    + apply keeps_db_bind; [apply keeps_db_notionRequest|]. intros r.
      destruct (Notion.results r) as [[|p ps]|]; apply keeps_db_ret.
    + apply ends_bind; [apply ends_notionRequest|]. intros r.
      destruct (Notion.results r) as [[|p ps]|]; apply ends_ret.
Qed.

(** *** One workout of a pass *)

Lemma db_outcome_bind {A B} (Q : Db.t -> Outcome B -> Db.t -> Prop)
  (m : Action Net A) (k : A -> Action Net B) :
  keeps_db m -> ends m ->
  (forall d e, Q d (Threw e) d) ->
  (forall a w, Q (db Net w) (fst (k a w)) (db Net (snd (k a w)))) ->
  forall w, Q (db Net w) (fst (bind Net m k w)) (db Net (snd (bind Net m k w))).
Proof.
  intros Hm He Ht Hk w. unfold bind. specialize (Hm w). specialize (He w).
  destruct (m w) as [[a|e|] w1]; simpl in *.
  - rewrite <- Hm. apply Hk.
  - rewrite Hm. apply Ht.
  - contradiction.
Qed.

Lemma children_spec page (exercises : Table Exercise.t) :
  keeps_db (for_each Net exercises (push_exercise' page))
  /\ ends (for_each Net exercises (push_exercise' page))
  /\ sends_only child_page (for_each Net exercises (push_exercise' page)).
Proof.
  split; [|split].
  - apply keeps_db_for_each. intros x. apply push_exercise_spec.
  - apply ends_for_each. intros x. apply push_exercise_spec.
  - apply sends_only_for_each. intros x. apply push_exercise_spec.
Qed.

(** The tail of the [try] block: from the exercises on. *)
Lemma sync_tail_db id title (page : option string) w :
  let m :=
    bind Net (runQuery Net (Sync.getWorkoutExercises id))
      (fun exercises =>
         bind Net (for_each Net exercises (push_exercise' page))
           (fun _ =>
              bind Net (required Net "notionPageId" page)
                (fun p =>
                   bind Net (runMutation Net (Sync.markWorkoutSynced id p))
                     (fun _ => log Net (LogSynced title))))) in
  marked_or_untouched id (db Net w) (fst (m w)) (db Net (snd (m w))).
Proof.
  cbv zeta.
  apply (db_outcome_bind (marked_or_untouched id));
    [apply keeps_db_runQuery|apply ends_runQuery|reflexivity|].
  intros exercises w1.
  apply (db_outcome_bind (marked_or_untouched id));
    [apply children_spec|apply children_spec|reflexivity|].
  intros _ w2.
  apply (db_outcome_bind (marked_or_untouched id));
    [apply keeps_db_required|apply ends_required|reflexivity|].
  intros p w3. simpl. exists p. reflexivity.
Qed.

Lemma sync_workout_db workout w :
  marked_or_untouched (fst workout) (db Net w)
    (fst (sync_workout' workout w)) (db Net (snd (sync_workout' workout w))).
Proof.
  unfold sync_workout.
  assert (General :
    forall w,
      let m :=
        bind Net (find_workout_page' (snd workout))
          (fun found =>
             bind Net
               match found with
               | Some (String c p) =>
                   bind Net (updatePage Net notion_fetch env (String c p)
                               (workoutProps (snd workout)))
                     (fun _ => ret Net found)
               | _ =>
                   bind Net (createPage' (workoutsDbId dbs)
                               (workoutProps (snd workout)))
                     (fun newPage => ret Net (Notion.id newPage))
               end
               (fun workoutPageId =>
                  bind Net (runQuery Net (Sync.getWorkoutExercises (fst workout)))
                    (fun exercises =>
                       bind Net
                         (for_each Net exercises (push_exercise' workoutPageId))
                         (fun _ =>
                            bind Net (required Net "notionPageId" workoutPageId)
                              (fun p =>
                                 bind Net
                                   (runMutation Net
                                      (Sync.markWorkoutSynced (fst workout) p))
                                   (fun _ =>
                                      log Net
                                        (LogSynced (Workout.title (snd workout))))))))) in
      marked_or_untouched (fst workout) (db Net w) (fst (m w))
        (db Net (snd (m w)))).
  { clear w. intros w. cbv zeta.
    apply (db_outcome_bind (marked_or_untouched (fst workout)));
      [apply find_workout_page_spec|apply find_workout_page_spec|reflexivity|].
    intros found w1.
    apply (db_outcome_bind (marked_or_untouched (fst workout))).
    - destruct found as [[|c p]|];
        (apply keeps_db_bind; [apply keeps_db_notionRequest|intros; apply keeps_db_ret]).
    - destruct found as [[|c p]|];
        (apply ends_bind; [apply ends_notionRequest|intros; apply ends_ret]).
    - reflexivity.
    - intros page w2. apply sync_tail_db. }
  destruct (Workout.isDeleted (snd workout)); [|apply General].
  destruct (Workout.notionPageId (snd workout)) as [[|c p]|] eqn:E;
    try apply General.
  apply (db_outcome_bind (marked_or_untouched (fst workout)));
    [apply keeps_db_notionRequest|apply ends_notionRequest|reflexivity|].
  intros _ w1. simpl. eexists. reflexivity.
Qed.

Lemma sync_workout_ends workout : ends (sync_workout' workout).
Proof.
  intros w. pose proof (sync_workout_db workout w) as H.
  destruct (fst (sync_workout' workout w)); [discriminate|discriminate|].
  contradiction.
Qed.

(** *** A pass over the unsynced workouts *)

Lemma unsynced_ids_mark id page d :
  unsynced_ids (Sync.markWorkoutSynced id page d)
  = filter (fun i => negb (Nat.eqb i id)) (unsynced_ids d).
Proof.
  unfold unsynced_ids, Sync.getUnsyncedWorkouts, Sync.markWorkoutSynced,
    Db.collect, Db.patch. simpl.
  induction (Db.workouts d) as [|r t IH]; simpl; [reflexivity|].
  destruct (Nat.eqb (fst r) id) eqn:E; simpl.
  - destruct (Workout.syncedToNotion (snd r)); simpl; [exact IH|].
    rewrite E. simpl. exact IH.
  - destruct (Workout.syncedToNotion (snd r)); simpl; [exact IH|].
    rewrite E. simpl. now rewrite IH.
Qed.

Lemma length_remove_one (l : list Id) id :
  NoDup l -> In id l ->
  S (List.length (filter (fun i => negb (Nat.eqb i id)) l)) = List.length l.
Proof.
  induction l as [|x l IH]; simpl; intros N H; [contradiction|].
  inversion N as [|? ? Hn Hd]; subst.
  destruct (Nat.eqb x id) eqn:E; simpl.
  - apply Nat.eqb_eq in E. subst x. f_equal.
    rewrite filter_all_ids; [reflexivity|].
    rewrite Forall_forall. intros i Hi. apply negb_true_iff, Nat.eqb_neq.
    intros ->. contradiction.
  - f_equal. apply IH; [assumption|].
    destruct H as [H|H]; [|assumption]. apply Nat.eqb_neq in E. contradiction.
Qed.

Lemma NoDup_filter_ids (p : Id -> bool) (l : list Id) :
  NoDup l -> NoDup (filter p l).
Proof.
  induction l as [|x l IH]; simpl; intros N; [constructor|].
  inversion N as [|? ? Hn Hd]; subst.
  destruct (p x); [constructor|]; auto.
  intros Hin. apply filter_In in Hin. tauto.
Qed.

Lemma sync_workouts_spec (ws : Table Workout.t) : forall s e w,
  NoDup (map fst ws) ->
  incl (map fst ws) (unsynced_ids (db Net w)) ->
  NoDup (unsynced_ids (db Net w)) ->
  exists s' e' w' marks,
    sync_workouts' ws s e w = (Returned (s', e'), w')
    /\ s' + e' = s + e + List.length ws
    /\ s' = s + List.length marks
    /\ db Net w' = mark_all marks (db Net w)
    /\ List.length (unsynced_ids (db Net w')) + List.length marks
       = List.length (unsynced_ids (db Net w)).
Proof.
  induction ws as [|workout ws IH]; intros s e w N I U.
  - exists s, e, w, []. simpl. repeat split; lia.
  - simpl sync_workouts.
    inversion N as [|? ? Hn Hd]; subst.
    pose proof (sync_workout_db workout w) as Hdb.
    destruct (sync_workout' workout w) as [[[]|err|] w1] eqn:R; simpl in Hdb.
    + destruct Hdb as [page Hdb].
      assert (Hin : In (fst workout) (unsynced_ids (db Net w)))
        by (apply I; now left).
      destruct (IH (S s) e w1) as [s' [e' [w' [marks [E [C [L [D K]]]]]]]].
      * assumption.
      * rewrite Hdb, unsynced_ids_mark. intros i Hi.
        apply filter_In. split; [apply I; now right|].
        apply negb_true_iff, Nat.eqb_neq. intros ->. contradiction.
      * rewrite Hdb, unsynced_ids_mark. now apply NoDup_filter_ids.
      * exists s', e', w', ((fst workout, page) :: marks).
        split; [exact E|]. simpl List.length. split; [lia|]. split; [lia|].
        split; [rewrite D, Hdb; reflexivity|].
        rewrite Hdb, unsynced_ids_mark in K.
        pose proof (length_remove_one _ _ U Hin). lia.
    + destruct (IH s (S e)
                  (mkWorld Net (db Net w1) (net Net w1) (sent Net w1)
                     (asked Net w1)
                     (console Net w1
                      ++ [LogSyncError (Workout.hevyId (snd workout)) err])
                     (clock Net w1)))
        as [s' [e' [w' [marks [E [C [L [D K]]]]]]]].
      * assumption.
      * simpl. rewrite Hdb. intros i Hi. apply I. now right.
      * simpl. now rewrite Hdb.
      * exists s', e', w', marks. simpl in *.
        split; [exact E|]. split; [lia|]. split; [lia|].
        rewrite Hdb in D, K. split; assumption.
    + contradiction.
Qed.

Lemma unsynced_ids_NoDup d :
  NoDup (map fst (Db.workouts d)) -> NoDup (unsynced_ids d).
Proof.
  intros H. unfold unsynced_ids, Sync.getUnsyncedWorkouts, Db.collect. simpl.
  now apply NoDup_filter.
Qed.

Lemma syncToNotion_spec (w : World Net) :
  NoDup (map fst (Db.workouts (db Net w))) ->
  exists counts w' marks,
    syncToNotion' w = (Returned counts, w')
    /\ total counts = List.length (Sync.getUnsyncedWorkouts (db Net w))
    /\ synced counts + errors counts = total counts
    /\ errors counts = List.length (Sync.getUnsyncedWorkouts (db Net w'))
    /\ synced counts = List.length marks
    /\ db Net w' = mark_all marks (db Net w).
Proof.
  intros N. unfold syncToNotion, bind, runQuery, ret.
  destruct (sync_workouts_spec (Sync.getUnsyncedWorkouts (db Net w)) 0 0 w)
    as [s' [e' [w' [marks [E [C [L [D K]]]]]]]].
  - now apply unsynced_ids_NoDup.
  - apply incl_refl.
  - now apply unsynced_ids_NoDup.
  - rewrite E. exists (mkSyncCounts s' e'
                         (List.length (Sync.getUnsyncedWorkouts (db Net w)))),
      w', marks.
    simpl. unfold unsynced_ids in K. rewrite !length_map in K.
    repeat split; try assumption; lia.
Qed.


End ActionFacts.



(* ------------------------------------------------------------------ *)
(** ** C3: what clears a tombstone, and what does not                   *)
(* ------------------------------------------------------------------ *)

Lemma workout_retained_run Date_getTime ms : forall d id w,
  Db.lookup Db.workoutsT id d = Some w ->
  exists w',
    Db.lookup Db.workoutsT id (fold_left (apply_mutation Date_getTime) ms d)
    = Some w'
    /\ Workout.hevyId w' = Workout.hevyId w.
Proof.
  induction ms as [|m ms IH]; intros d id w L; simpl; [eauto|].
  destruct (workout_retained_step Date_getTime m d id w L) as [w1 [L1 H1]].
  destruct (IH _ _ _ L1) as [w' [L' H']].
  exists w'. split; [exact L'|congruence].
Qed.

Lemma tombstone_run Date_getTime ms : forall d id w,
  wf d ->
  Db.lookup Db.workoutsT id d = Some w ->
  Workout.isDeleted w = true ->
  forallb (fun m => negb (upserts_key (Workout.hevyId w) m)) ms = true ->
  exists w',
    Db.lookup Db.workoutsT id (fold_left (apply_mutation Date_getTime) ms d)
    = Some w'
    /\ Workout.isDeleted w' = true
    /\ Workout.hevyId w' = Workout.hevyId w.
Proof.
  induction ms as [|m ms IH]; intros d id w W L Del K; simpl; [eauto|].
  simpl in K. apply andb_true_iff in K. destruct K as [K1 K2].
  apply negb_true_iff in K1.
  destruct (tombstone_step Date_getTime m d id w W L Del K1)
    as [w1 [L1 [D1 H1]]].
  destruct (IH (apply_mutation Date_getTime d m) id w1) as [w' [L' [D' H']]].
  - now apply apply_mutation_wf.
  - exact L1.
  - exact D1.
  - now rewrite H1.
  - exists w'. repeat split; [exact L'|exact D'|congruence].
Qed.

Lemma mark_all_as_mutations Date_getTime marks : forall d,
  mark_all marks d
  = fold_left (apply_mutation Date_getTime)
      (map (fun m => MarkWorkoutSynced (fst m) (snd m)) marks) d.
Proof.
  unfold mark_all. induction marks as [|m marks IH]; intros d; simpl;
    [reflexivity|apply IH].
Qed.

(** C3, as the code has it.  A workout with [isDeleted = true] in a
    well-formed store is never removed, whatever mutations run, and keeps
    its natural key; it keeps [isDeleted = true] under every run of
    mutations in which no [upsertWorkout] carries its natural key, and
    under a whole pass of the mirror push, which archives or pushes it and
    marks it synced.  (An [upsertWorkout] of its key is what clears the
    flag: the patch writes [isDeleted: false].) *)
Theorem tombstone_kept_unless_upserted
  (Date_getTime : string -> Z) (ms : list Mutation) (d : Db.t) (id : Id)
  (w : Workout.t) :
  wf d ->
  Db.lookup Db.workoutsT id d = Some w ->
  Workout.isDeleted w = true ->
  (exists w',
     Db.lookup Db.workoutsT id (fold_left (apply_mutation Date_getTime) ms d)
     = Some w'
     /\ Workout.hevyId w' = Workout.hevyId w)
  /\ (forallb (fun m => negb (upserts_key (Workout.hevyId w) m)) ms = true ->
      exists w',
        Db.lookup Db.workoutsT id (fold_left (apply_mutation Date_getTime) ms d)
        = Some w'
        /\ Workout.isDeleted w' = true
        /\ Workout.hevyId w' = Workout.hevyId w)
  /\ (forall (Net : Type) notion_fetch env dbs (world : World Net),
        db Net world = d ->
        exists w',
          Db.lookup Db.workoutsT id
            (db Net (snd (syncToNotion Net notion_fetch env dbs world)))
          = Some w'
          /\ Workout.isDeleted w' = true
          /\ Workout.hevyId w' = Workout.hevyId w).
Proof.
  intros W L Del. split; [|split].
  - now apply workout_retained_run.
  - intros K. now apply tombstone_run.
  - intros Net notion_fetch env dbs world E. subst d.
    destruct (syncToNotion_spec Net notion_fetch env dbs world
                (proj2 (wf_workouts _ W)))
      as [counts [w' [marks [R [_ [_ [_ [_ D]]]]]]]].
    rewrite R. simpl. rewrite D, (mark_all_as_mutations Date_getTime).
    apply tombstone_run; try assumption.
    clear. induction marks as [|m marks IH]; simpl; [reflexivity|exact IH].
Qed.

(** The store after the sample workout was upserted and then deleted. *)
Lemma wf_deleted_sample :
  wf (Sync.markWorkoutDeleted "w-1"
        (snd (Sync.upsertWorkout Sim.Date_getTime Sim.push_day Db.empty))).
Proof.
  apply markWorkoutDeleted_wf, upsertWorkout_wf, wf_empty.
Qed.

(** The theorem at that store, for a run that marks the workout synced
    (as the mirror push does after archiving), upserts another workout and
    repeats the deletion: the tombstone is still there. *)
Lemma tombstone_witness :
  exists w',
    Db.lookup Db.workoutsT 0
      (fold_left (apply_mutation Sim.Date_getTime)
         [ MarkWorkoutSynced 0 "p"; UpsertWorkout Sim.bench_only;
           MarkWorkoutDeleted "w-1" ]
         (Sync.markWorkoutDeleted "w-1"
            (snd (Sync.upsertWorkout Sim.Date_getTime Sim.push_day Db.empty))))
    = Some w'
    /\ Workout.isDeleted w' = true
    /\ Workout.hevyId w' = "w-1"%string.
Proof.
  exact (proj1 (proj2
    (tombstone_kept_unless_upserted Sim.Date_getTime
       [ MarkWorkoutSynced 0 "p"; UpsertWorkout Sim.bench_only;
         MarkWorkoutDeleted "w-1" ]
       (Sync.markWorkoutDeleted "w-1"
          (snd (Sync.upsertWorkout Sim.Date_getTime Sim.push_day Db.empty)))
       0 _ wf_deleted_sample eq_refl eq_refl)) eq_refl).
Defined.

(** A deleted workout that was never mirrored comes back: an upsert of the
    same natural key (an [updated] event) writes [isDeleted: false]. *)
Lemma upsert_clears_tombstone :
  let d :=
    Sync.markWorkoutDeleted "w-1"
      (snd (Sync.upsertWorkout Sim.Date_getTime Sim.push_day Db.empty)) in
  option_map Workout.isDeleted (Db.lookup Db.workoutsT 0 d) = Some true
  /\ option_map Workout.notionPageId (Db.lookup Db.workoutsT 0 d) = Some None
  /\ option_map Workout.syncedToNotion (Db.lookup Db.workoutsT 0 d) = Some false
  /\ option_map Workout.isDeleted
       (Db.lookup Db.workoutsT 0
          (snd (Sync.upsertWorkout Sim.Date_getTime Sim.push_day d)))
     = Some false.
Proof. cbv zeta. vm_compute. repeat split. Qed.

(* ------------------------------------------------------------------ *)
(** ** The requests of one workout                                      *)
(* ------------------------------------------------------------------ *)

Section PushFacts.

Variable Net : Type.
Variable notion_fetch : Notion.Request -> Net -> Notion.Response * Net.
Variable env : Env.
Variable dbs : WorkoutDbs.

Local Abbreviation notionRequest' := (notionRequest Net notion_fetch env).
Local Abbreviation createPage' := (createPage Net notion_fetch env).
Local Abbreviation updatePage' := (updatePage Net notion_fetch env).
Local Abbreviation push_exercise' := (push_exercise Net notion_fetch env dbs).
Local Abbreviation find_workout_page' := (find_workout_page Net notion_fetch env dbs).
Local Abbreviation sync_workout' := (sync_workout Net notion_fetch env dbs).

Lemma bind_Returned_inv {A B} (m : Action Net A) (k : A -> Action Net B) w b w' :
  bind Net m k w = (Returned b, w') ->
  exists a w1, m w = (Returned a, w1) /\ k a w1 = (Returned b, w').
Proof.
  unfold bind. destruct (m w) as [[a|e|] w1]; intros H; try discriminate.
  eauto.
Qed.

(** What a request that returned has done. *)
Lemma notionRequest_Returned r w resp w' :
  notionRequest' r w = (Returned resp, w') ->
  Js.truthy Js.truthy_str (NOTION_TOKEN env) = true
  /\ Notion.ok resp = true
  /\ notion_fetch r (net Net w) = (resp, net Net w')
  /\ sent Net w' = sent Net w ++ [r]
  /\ db Net w' = db Net w.
Proof.
  unfold notionRequest.
  destruct (Js.truthy Js.truthy_str (NOTION_TOKEN env)); [|discriminate].
  destruct (notion_fetch r (net Net w)) as [resp0 n'] eqn:F.
  destruct (Notion.ok resp0) eqn:O; intros H; inversion H; subst.
  simpl. auto.
Qed.

(** A request under a configured token. *)
Lemma notionRequest_run r w :
  Js.truthy Js.truthy_str (NOTION_TOKEN env) = true ->
  notionRequest' r w
  = (if Notion.ok (fst (notion_fetch r (net Net w)))
     then Returned (fst (notion_fetch r (net Net w)))
     else Threw (NotionApiError
                   (Notion.status (fst (notion_fetch r (net Net w))))
                   (Notion.text (fst (notion_fetch r (net Net w))))),
     mkWorld Net (db Net w) (snd (notion_fetch r (net Net w)))
       (sent Net w ++ [r]) (asked Net w) (console Net w) (clock Net w)).
Proof.
  intros T. unfold notionRequest. rewrite T.
  destruct (notion_fetch r (net Net w)) as [resp n']. simpl.
  now destruct (Notion.ok resp).
Qed.

(** The set pages of an exercise, when all were created. *)
Lemma push_sets_Returned page (sets : Table SetRow.t) : forall w w',
  for_each Net sets
    (fun set =>
       bind Net (createPage' (setsDbId dbs) (setProps page (snd set)))
         (fun _ => ret Net tt)) w
  = (Returned tt, w') ->
  db Net w' = db Net w
  /\ exists new,
       sent Net w' = sent Net w ++ new
       /\ map created_in new
          = repeat (Some (setsDbId dbs)) (List.length sets).
Proof.
  induction sets as [|s sets IH]; intros w w' H; simpl in H.
  - inversion H; subst. split; [reflexivity|].
    exists []. now rewrite app_nil_r.
  - apply bind_Returned_inv in H. destruct H as [[] [w1 [H1 H2]]].
    apply bind_Returned_inv in H1. destruct H1 as [resp [w0 [H0 H1]]].
    inversion H1; subst w1. clear H1.
    apply notionRequest_Returned in H0. destruct H0 as [_ [_ [_ [S0 D0]]]].
    destruct (IH _ _ H2) as [D [new [S N]]].
    split; [congruence|].
    exists (Notion.CreatePage (setsDbId dbs) (setProps page (snd s)) :: new).
    rewrite S, S0, <- app_assoc. split; [reflexivity|].
    simpl. now rewrite N.
Qed.

Lemma push_exercise_Returned page exercise w w' :
  push_exercise' page exercise w = (Returned tt, w') ->
  db Net w' = db Net w
  /\ exists new,
       sent Net w' = sent Net w ++ new
       /\ map created_in new = child_targets dbs [exercise] (db Net w).
Proof.
  unfold push_exercise. intros H.
  apply bind_Returned_inv in H. destruct H as [sets [w1 [H1 H]]].
  inversion H1; subst. clear H1.
  apply bind_Returned_inv in H. destruct H as [resp [w2 [H2 H]]].
  apply notionRequest_Returned in H2. destruct H2 as [_ [_ [_ [S2 D2]]]].
  apply push_sets_Returned in H. destruct H as [D [new [S N]]].
  split; [congruence|].
  eexists (_ :: new). rewrite S, S2, <- app_assoc. split; [reflexivity|].
  unfold child_targets. simpl. now rewrite N, app_nil_r.
Qed.

Lemma children_Returned page (exercises : Table Exercise.t) : forall w w',
  for_each Net exercises (push_exercise' page) w = (Returned tt, w') ->
  db Net w' = db Net w
  /\ exists new,
       sent Net w' = sent Net w ++ new
       /\ map created_in new = child_targets dbs exercises (db Net w).
Proof.
  induction exercises as [|ex exercises IH]; intros w w' H; simpl in H.
  - inversion H; subst. split; [reflexivity|].
    exists []. now rewrite app_nil_r.
  - apply bind_Returned_inv in H. destruct H as [[] [w1 [H1 H2]]].
    apply push_exercise_Returned in H1. destruct H1 as [D1 [n1 [S1 N1]]].
    destruct (IH _ _ H2) as [D2 [n2 [S2 N2]]].
    split; [congruence|].
    exists (n1 ++ n2). rewrite S2, S1, app_assoc. split; [reflexivity|].
    rewrite map_app, N1, N2, D1. unfold child_targets. simpl.
    now rewrite app_nil_r.
Qed.

(** *** The [try] block without the archive branch *)

Local Abbreviation push_tail' := (push_tail Net notion_fetch env dbs).
Local Abbreviation write_page' := (write_page Net notion_fetch env dbs).
Local Abbreviation push_general' := (push_general Net notion_fetch env dbs).

Lemma sync_workout_general workout :
  Workout.isDeleted (snd workout)
  && Js.truthy Js.truthy_str (Workout.notionPageId (snd workout)) = false ->
  sync_workout' workout = push_general' workout.
Proof.
  unfold sync_workout, push_general, write_page, push_tail.
  destruct (Workout.isDeleted (snd workout)); [|reflexivity].
  destruct (Workout.notionPageId (snd workout)) as [[|c p]|];
    simpl; intros H; try reflexivity; discriminate.
Qed.

Lemma push_tail_sends id title page : sends_only child_page (push_tail' id title page).
Proof.
  unfold push_tail.
  apply sends_only_bind; [apply sends_only_runQuery|]. intros exercises.
  apply sends_only_bind.
  { apply sends_only_for_each. intros x. apply push_exercise_spec. }
  intros _. apply sends_only_bind; [apply sends_only_required|]. intros p.
  apply sends_only_bind; [apply sends_only_runMutation|]. intros _.
  apply sends_only_log.
Qed.

Lemma push_tail_db id title page w :
  match fst (push_tail' id title page w) with
  | Returned _ =>
      exists p,
        page = Some p
        /\ db Net (snd (push_tail' id title page w))
           = Sync.markWorkoutSynced id p (db Net w)
  | Threw _ => db Net (snd (push_tail' id title page w)) = db Net w
  | Diverged => False
  end.
Proof.
  unfold push_tail.
  apply (db_outcome_bind Net
           (fun d o d' =>
              match o with
              | Returned _ =>
                  exists p, page = Some p /\ d' = Sync.markWorkoutSynced id p d
              | Threw _ => d' = d
              | Diverged => False
              end));
    [apply keeps_db_runQuery|apply ends_runQuery|reflexivity|].
  intros exercises w1.
  apply (db_outcome_bind Net
           (fun d o d' =>
              match o with
              | Returned _ =>
                  exists p, page = Some p /\ d' = Sync.markWorkoutSynced id p d
              | Threw _ => d' = d
              | Diverged => False
              end));
    [apply children_spec|apply children_spec|reflexivity|].
  intros _ w2. destruct page as [p|]; simpl; [|reflexivity].
  exists p. split; reflexivity.
Qed.

Lemma push_tail_Returned id title page w w' :
  push_tail' id title page w = (Returned tt, w') ->
  exists p new,
    page = Some p
    /\ db Net w' = Sync.markWorkoutSynced id p (db Net w)
    /\ sent Net w' = sent Net w ++ new
    /\ map created_in new
       = child_targets dbs (Sync.getWorkoutExercises id (db Net w)) (db Net w).
Proof.
  intros H. pose proof (push_tail_db id title page w) as D.
  rewrite H in D. simpl in D. destruct D as [p [Ep D]]. exists p.
  unfold push_tail in H.
  apply bind_Returned_inv in H. destruct H as [exercises [w1 [H1 H]]].
  inversion H1; subst exercises w1. clear H1.
  apply bind_Returned_inv in H. destruct H as [[] [w2 [H2 H]]].
  apply children_Returned in H2. destruct H2 as [D2 [new [S2 N2]]].
  exists new. subst page. simpl in H. inversion H; subst w'. simpl.
  split; [reflexivity|]. split; [now rewrite D2|]. split; assumption.
Qed.

Lemma find_workout_page_unsynced wk :
  Js.truthy Js.truthy_str (Workout.notionPageId wk) = false ->
  find_workout_page' wk
  = bind Net (notionRequest' (search_by_key dbs wk))
      (fun searchResult =>
         match Notion.results searchResult with
         | Some (first :: _) => ret Net (Some first)
         | _ => ret Net (Workout.notionPageId wk)
         end).
Proof.
  intros H. unfold find_workout_page. now rewrite H.
Qed.

Lemma not_archive_child r : child_page r -> is_archive r = false.
Proof. intros [d [p [E _]]]. now subst r. Qed.

(** Without the archive branch nothing is archived. *)
Lemma push_general_no_archive workout :
  sends_only (fun r => is_archive r = false) (push_general' workout).
Proof.
  unfold push_general.
  apply sends_only_bind.
  { unfold find_workout_page.
    destruct (Js.truthy Js.truthy_str (Workout.notionPageId (snd workout)));
      [apply sends_only_ret|].
    apply sends_only_bind; [now apply sends_only_notionRequest|].
    intros r. destruct (Notion.results r) as [[|p ps]|]; apply sends_only_ret. }
  intros found. apply sends_only_bind.
  { unfold write_page. destruct found as [[|c p]|];
      (apply sends_only_bind;
       [now apply sends_only_notionRequest|intros; apply sends_only_ret]). }
  intros page. eapply sends_only_weaken; [|apply push_tail_sends].
  apply not_archive_child.
Qed.

(** What a push that returned has sent and stored, for a workout without
    a stored page: the search, then the update of the page it found or the
    creation of a page, then the pages of the children; the page is the one
    that is stored. *)
Lemma push_general_Returned workout w w' :
  Js.truthy Js.truthy_str (Workout.notionPageId (snd workout)) = false ->
  push_general' workout w = (Returned tt, w') ->
  exists page second children,
    sent Net w'
    = sent Net w ++ search_by_key dbs (snd workout) :: second :: children
    /\ (second = Notion.UpdatePage page (workoutProps (snd workout))
        \/ (second
            = Notion.CreatePage (workoutsDbId dbs) (workoutProps (snd workout))
            /\ Notion.id
                 (fst (notion_fetch second
                         (snd (notion_fetch (search_by_key dbs (snd workout))
                                 (net Net w)))))
               = Some page))
    /\ map created_in children
       = child_targets dbs (Sync.getWorkoutExercises (fst workout) (db Net w))
           (db Net w)
    /\ db Net w' = Sync.markWorkoutSynced (fst workout) page (db Net w).
Proof.
  intros P H. unfold push_general in H.
  rewrite (find_workout_page_unsynced _ P) in H.
  apply bind_Returned_inv in H. destruct H as [found [w1 [H1 H]]].
  apply bind_Returned_inv in H1. destruct H1 as [sr [w0 [H0 H1]]].
  apply notionRequest_Returned in H0. destruct H0 as [_ [_ [F0 [S0 D0]]]].
  assert (E1 : w1 = w0)
    by (destruct (Notion.results sr) as [[|p ps]|]; now inversion H1).
  subst w1. clear H1.
  apply bind_Returned_inv in H. destruct H as [page [w2 [H2 H]]].
  apply push_tail_Returned in H. destruct H as [p [children [Ep [D [S N]]]]].
  subst page.
  assert (W : exists second,
             sent Net w2 = sent Net w0 ++ [second]
             /\ db Net w2 = db Net w0
             /\ (second = Notion.UpdatePage p (workoutProps (snd workout))
                 \/ (second = Notion.CreatePage (workoutsDbId dbs)
                                (workoutProps (snd workout))
                     /\ Notion.id (fst (notion_fetch second (net Net w0)))
                        = Some p))).
  { unfold write_page in H2. destruct found as [[|c q]|].
    - apply bind_Returned_inv in H2. destruct H2 as [resp [w3 [H3 H2]]].
      inversion H2; subst. clear H2.
      apply notionRequest_Returned in H3. destruct H3 as [_ [_ [F3 [S3 D3]]]].
      eexists. split; [exact S3|]. split; [exact D3|]. right.
      split; [reflexivity|]. now rewrite F3.
    - apply bind_Returned_inv in H2. destruct H2 as [resp [w3 [H3 H2]]].
      inversion H2; subst. clear H2.
      apply notionRequest_Returned in H3. destruct H3 as [_ [_ [F3 [S3 D3]]]].
      eexists. split; [exact S3|]. split; [exact D3|]. now left.
    - apply bind_Returned_inv in H2. destruct H2 as [resp [w3 [H3 H2]]].
      inversion H2; subst. clear H2.
      apply notionRequest_Returned in H3. destruct H3 as [_ [_ [F3 [S3 D3]]]].
      eexists. split; [exact S3|]. split; [exact D3|]. right.
      split; [reflexivity|]. now rewrite F3. }
  destruct W as [second [S2 [D2 Hs]]].
  exists p, second, children.
  split; [rewrite S, S2, S0, <- !app_assoc; reflexivity|].
  split.
  { destruct Hs as [Hs|[Hs Hi]]; [now left|right]. split; [exact Hs|].
    rewrite F0. exact Hi. }
  split; [rewrite N, D2, D0; reflexivity|].
  rewrite D, D2, D0. reflexivity.
Qed.

(** The adoption of a page that the search found. *)
Lemma push_general_adopts workout w c p ps :
  Js.truthy Js.truthy_str (NOTION_TOKEN env) = true ->
  Js.truthy Js.truthy_str (Workout.notionPageId (snd workout)) = false ->
  Notion.ok (fst (notion_fetch (search_by_key dbs (snd workout)) (net Net w)))
  = true ->
  Notion.results
    (fst (notion_fetch (search_by_key dbs (snd workout)) (net Net w)))
  = Some (String c p :: ps) ->
  exists rest,
    sent Net (snd (push_general' workout w))
    = sent Net w
      ++ search_by_key dbs (snd workout)
         :: Notion.UpdatePage (String c p) (workoutProps (snd workout)) :: rest
    /\ Forall child_page rest
    /\ match fst (push_general' workout w) with
       | Returned _ =>
           db Net (snd (push_general' workout w))
           = Sync.markWorkoutSynced (fst workout) (String c p) (db Net w)
       | Threw _ => db Net (snd (push_general' workout w)) = db Net w
       | Diverged => False
       end.
Proof.
  intros T P O R. unfold push_general.
  rewrite (find_workout_page_unsynced _ P).
  set (q := search_by_key dbs (snd workout)) in *.
  set (w1 := mkWorld Net (db Net w) (snd (notion_fetch q (net Net w)))
               (sent Net w ++ [q]) (asked Net w) (console Net w) (clock Net w)).
  assert (H1 : bind Net (notionRequest' q)
                 (fun searchResult =>
                    match Notion.results searchResult with
                    | Some (first :: _) => ret Net (Some first)
                    | _ => ret Net (Workout.notionPageId (snd workout))
                    end) w
               = (Returned (Some (String c p)), w1)).
  { unfold bind. rewrite (notionRequest_run _ _ T), O, R. reflexivity. }
  rewrite (bind_Returned _ _ _ _ _ _ H1).
  unfold write_page.
  set (u := Notion.UpdatePage (String c p) (workoutProps (snd workout))).
  set (w2 := mkWorld Net (db Net w1) (snd (notion_fetch u (net Net w1)))
               (sent Net w1 ++ [u]) (asked Net w1) (console Net w1)
               (clock Net w1)).
  destruct (Notion.ok (fst (notion_fetch u (net Net w1)))) eqn:O2.
  - assert (H2 : bind Net (updatePage' (String c p) (workoutProps (snd workout)))
                   (fun _ => ret Net (Some (String c p))) w1
                 = (Returned (Some (String c p)), w2)).
    { unfold bind, updatePage. fold u.
      rewrite (notionRequest_run _ _ T), O2. reflexivity. }
    rewrite (bind_Returned _ _ _ _ _ _ H2).
    destruct (push_tail_sends (fst workout) (Workout.title (snd workout))
                (Some (String c p)) w2) as [rest [S F]].
    exists rest. split.
    { rewrite S. simpl. rewrite <- !app_assoc. reflexivity. }
    split; [exact F|].
    pose proof (push_tail_db (fst workout) (Workout.title (snd workout))
                  (Some (String c p)) w2) as D.
    destruct (fst (push_tail' (fst workout) (Workout.title (snd workout))
                     (Some (String c p)) w2)).
    + destruct D as [p' [Ep D]]. inversion Ep; subst p'. exact D.
    + exact D.
    + exact D.
  - assert (H2 : bind Net (updatePage' (String c p) (workoutProps (snd workout)))
                   (fun _ => ret Net (Some (String c p))) w1
                 = (Threw (NotionApiError
                             (Notion.status (fst (notion_fetch u (net Net w1))))
                             (Notion.text (fst (notion_fetch u (net Net w1))))),
                    w2)).
    { unfold bind, updatePage. fold u.
      rewrite (notionRequest_run _ _ T), O2. reflexivity. }
    rewrite (bind_Threw _ _ _ _ _ _ H2). simpl.
    exists []. split; [rewrite <- app_assoc; reflexivity|].
    split; [constructor|reflexivity].
Qed.

End PushFacts.

(* ------------------------------------------------------------------ *)
(** ** C9: the batch runner                                             *)
(* ------------------------------------------------------------------ *)

Lemma length_skipn_cons {T} N (x : T) (items : list T) :
  0 < N -> List.length (skipn N (x :: items)) <= List.length items.
Proof.
  intros HN. rewrite length_skipn.
  change (List.length (x :: items)) with (S (List.length items)). lia.
Qed.

Lemma chunks_fuel_any {T} N : 0 < N -> forall f1 f2 (items : list T),
  List.length items <= f1 -> List.length items <= f2 ->
  chunks_fuel f1 N items = chunks_fuel f2 N items.
Proof.
  intros HN. induction f1 as [|f1 IH]; intros f2 items L1 L2.
  - destruct items; [|simpl in L1; lia]. now destruct f2.
  - destruct items as [|x items]; [now destruct f2|].
    destruct f2 as [|f2]; [simpl in L2; lia|].
    simpl chunks_fuel. f_equal.
    pose proof (length_skipn_cons N x items HN).
    simpl in L1, L2. apply IH; lia.
Qed.

Lemma chunks_fuel_enough {T} N (items : list T) fuel :
  0 < N -> List.length items <= fuel ->
  chunks_fuel fuel N items = chunks N items.
Proof.
  intros HN L. unfold chunks. now apply chunks_fuel_any.
Qed.

Lemma chunks_nil {T} N : chunks N (@nil T) = [].
Proof. reflexivity. Qed.

Lemma chunks_cons {T} N (items : list T) :
  0 < N -> items <> [] ->
  chunks N items = firstn N items :: chunks N (skipn N items).
Proof.
  intros HN Hne. destruct items as [|x items]; [contradiction|].
  unfold chunks at 1. simpl chunks_fuel. f_equal.
  apply chunks_fuel_enough; [assumption|].
  now apply length_skipn_cons.
Qed.

Lemma chunks_concat {T} N (items : list T) :
  0 < N -> List.concat (chunks N items) = items.
Proof.
  intros HN. remember (List.length items) as n eqn:En.
  revert items En. induction n as [n IH] using lt_wf_ind. intros items En.
  destruct items as [|x items]; [reflexivity|].
  rewrite chunks_cons by (assumption || discriminate).
  simpl List.concat. rewrite (IH (List.length (skipn N (x :: items)))).
  - apply firstn_skipn.
  - subst n. pose proof (length_skipn_cons N x items HN). simpl. lia.
  - reflexivity.
Qed.

Lemma chunks_sizes {T} N (items : list T) :
  0 < N -> Forall (fun c => 0 < List.length c <= N) (chunks N items).
Proof.
  intros HN. remember (List.length items) as n eqn:En.
  revert items En. induction n as [n IH] using lt_wf_ind. intros items En.
  destruct items as [|x items]; [constructor|].
  rewrite chunks_cons by (assumption || discriminate).
  constructor.
  - rewrite length_firstn.
    change (List.length (x :: items)) with (S (List.length items)). lia.
  - apply (IH (List.length (skipn N (x :: items)))); [|reflexivity].
    subst n. pose proof (length_skipn_cons N x items HN). simpl. lia.
Qed.

Section BatchFacts.

Variable Net : Type.
Context {T R : Type}.
Variable processor : T -> Action Net R.

Lemma slice_chunk (items : list T) N i :
  slice i (i + N) items = firstn N (skipn i items).
Proof. unfold slice. f_equal. lia. Qed.

(** The loop of [batchProcess] runs the groups in order. *)
Lemma batch_loop_chunks N (items : list T) : 0 < N ->
  forall fuel i results errors w,
    List.length (skipn i items) < fuel ->
    batch_loop Net fuel items processor N i results errors w
    = run_chunks (chunks N (skipn i items)) processor results errors w.
Proof.
  intros HN. induction fuel as [|fuel IH]; intros i results errors w L; [lia|].
  simpl batch_loop. rewrite length_skipn in L.
  destruct (i <? List.length items) eqn:Ei.
  - apply Nat.ltb_lt in Ei.
    rewrite chunks_cons; [|assumption|].
    2:{ intros E. apply (f_equal (@List.length T)) in E.
        rewrite length_skipn in E. simpl in E. lia. }
    simpl run_chunks. rewrite slice_chunk. unfold bind.
    destruct (allSettled Net processor (firstn N (skipn i items)) w)
      as [[settled|e|] w1]; try reflexivity.
    destruct (collect_settled Net settled results errors w1)
      as [[acc|e|] w2]; try reflexivity.
    rewrite IH by (rewrite length_skipn; lia).
    rewrite skipn_skipn, Nat.add_comm. reflexivity.
  - apply Nat.ltb_ge in Ei.
    rewrite skipn_all2 by assumption. reflexivity.
Qed.

Lemma batchProcess_chunks N (items : list T) w :
  0 < N ->
  batchProcess Net items processor N w
  = run_chunks (chunks N items) processor [] 0 w.
Proof.
  intros HN. unfold batchProcess.
  rewrite (batch_loop_chunks N items HN) by (simpl; lia).
  reflexivity.
Qed.

(** With a bound of [0] the index never moves: the loop does not end. *)
Lemma batch_loop_zero_diverges (x : T) (items : list T) :
  forall fuel results errors w,
    fst (batch_loop Net fuel (x :: items) processor 0 0 results errors w)
    = Diverged.
Proof.
  induction fuel as [|fuel IH]; intros results errors w; [reflexivity|].
  simpl. unfold bind. simpl. apply IH.
Qed.

(** What [Promise.allSettled] gives when every processor ends. *)
Lemma allSettled_spec (batch : list T) :
  (forall item, ends (processor item)) ->
  forall w, exists settled w',
    allSettled Net processor batch w = (Returned settled, w')
    /\ Forall2 (settles processor) batch settled.
Proof.
  intros He. induction batch as [|item batch IH]; intros w; simpl.
  - exists [], w. split; [reflexivity|constructor].
  - pose proof (He item w) as E.
    destruct (processor item w) as [[r|e|] w1] eqn:P; simpl in E.
    + destruct (IH w1) as [settled [w' [A F]]].
      exists (inl r :: settled), w'. unfold bind. rewrite A.
      split; [reflexivity|]. constructor; [|exact F]. now exists w, w1.
    + destruct (IH w1) as [settled [w' [A F]]].
      exists (inr e :: settled), w'. unfold bind. rewrite A.
      split; [reflexivity|]. constructor; [|exact F]. now exists w, w1.
    + contradiction.
Qed.

Lemma collect_settled_spec (settled : list (R + Err)) :
  forall results errors w, exists w',
    collect_settled Net settled results errors w
    = (Returned (results ++ values_of settled, errors + failures_of settled), w').
Proof.
  induction settled as [|s settled IH]; intros results errors w.
  - exists w. simpl. unfold ret, values_of, failures_of. simpl.
    now rewrite app_nil_r, Nat.add_0_r.
  - destruct s as [v|e]; simpl.
    + destruct (IH (results ++ [v]) errors w) as [w' E]. exists w'.
      rewrite E. unfold values_of, failures_of. simpl.
      now rewrite <- app_assoc.
    + unfold bind, log. simpl.
      destruct (IH results (S errors)
                  (mkWorld Net (db Net w) (net Net w) (sent Net w) (asked Net w)
                     (console Net w ++ [LogBatchError e]) (clock Net w)))
        as [w' E].
      exists w'. rewrite E. unfold values_of, failures_of. simpl.
      rewrite Nat.add_succ_r. reflexivity.
Qed.

Lemma values_of_app (a b : list (R + Err)) :
  values_of (a ++ b) = values_of a ++ values_of b.
Proof. unfold values_of. apply flat_map_app. Qed.

Lemma failures_of_app (a b : list (R + Err)) :
  failures_of (a ++ b) = failures_of a + failures_of b.
Proof. unfold failures_of. now rewrite filter_app, length_app. Qed.

Lemma values_failures_length (settled : list (R + Err)) :
  List.length (values_of settled) + failures_of settled = List.length settled.
Proof.
  unfold values_of, failures_of.
  induction settled as [|s settled IH]; [reflexivity|].
  destruct s; simpl; lia.
Qed.

Lemma run_chunks_spec (groups : list (list T)) :
  (forall item, ends (processor item)) ->
  forall results errors w, exists settled w',
    run_chunks groups processor results errors w
    = (Returned (results ++ values_of settled, errors + failures_of settled), w')
    /\ Forall2 (settles processor) (List.concat groups) settled.
Proof.
  intros He. induction groups as [|g groups IH]; intros results errors w.
  - exists [], w. simpl. unfold ret, values_of, failures_of. simpl.
    rewrite app_nil_r, Nat.add_0_r. split; [reflexivity|constructor].
  - simpl run_chunks. unfold bind.
    destruct (allSettled_spec g He w) as [s1 [w1 [A F1]]]. rewrite A.
    destruct (collect_settled_spec s1 results errors w1) as [w2 C]. rewrite C.
    simpl fst. simpl snd.
    destruct (IH (results ++ values_of s1) (errors + failures_of s1) w2)
      as [s2 [w' [E F2]]].
    exists (s1 ++ s2), w'. rewrite E.
    rewrite values_of_app, failures_of_app, <- app_assoc, Nat.add_assoc.
    split; [reflexivity|]. simpl List.concat. now apply Forall2_app.
Qed.

Lemma group_settles_each (batch : list T) w settled w' :
  group_settles processor batch w settled w' ->
  Forall2 (settles processor) batch settled.
Proof.
  induction 1 as [w|item rest w v w1 settled w2 P _ IH
                  |item rest w e w1 settled w2 P _ IH].
  - constructor.
  - constructor; [now exists w, w1|exact IH].
  - constructor; [now exists w, w1|exact IH].
Qed.

Lemma groups_settle_each (groups : list (list T)) w settled w' :
  groups_settle processor groups w settled w' ->
  Forall2 (settles processor) (List.concat groups) settled.
Proof.
  induction 1 as [w|group rest w settled w1 more w2 G _ IH]; simpl.
  - constructor.
  - apply Forall2_app; [|exact IH]. eapply group_settles_each. exact G.
Qed.

(** [Promise.allSettled] on a group whose processors end. *)
Lemma allSettled_group (batch : list T) :
  (forall item, ends (processor item)) ->
  forall w, exists settled w',
    allSettled Net processor batch w = (Returned settled, w')
    /\ group_settles processor batch w settled w'.
Proof.
  intros He. induction batch as [|item batch IH]; intros w; simpl.
  - exists [], w. split; [reflexivity|constructor].
  - pose proof (He item w) as E.
    destruct (processor item w) as [[r|e|] w1] eqn:P; simpl in E.
    + destruct (IH w1) as [settled [w' [A F]]].
      exists (inl r :: settled), w'. unfold bind. rewrite A.
      split; [reflexivity|]. eapply group_returned; eassumption.
    + destruct (IH w1) as [settled [w' [A F]]].
      exists (inr e :: settled), w'. unfold bind. rewrite A.
      split; [reflexivity|]. eapply group_threw; eassumption.
    + contradiction.
Qed.

(** The inner loop over the settled promises: the values are pushed, the
    rejections counted and their reasons written to the console. *)
Lemma collect_settled_logged (settled : list (R + Err)) :
  forall results errors w,
    collect_settled Net settled results errors w
    = (Returned (results ++ values_of settled, errors + failures_of settled),
       logged (reasons_of settled) w).
Proof.
  induction settled as [|s settled IH]; intros results errors w.
  - simpl. unfold ret, values_of, failures_of, reasons_of, logged. simpl.
    rewrite !app_nil_r, Nat.add_0_r. now destruct w.
  - destruct s as [v|e]; simpl.
    + rewrite IH. unfold values_of, failures_of, reasons_of. simpl.
      now rewrite <- app_assoc.
    + unfold bind, log. simpl. rewrite IH.
      unfold values_of, failures_of, reasons_of, logged. simpl.
      rewrite Nat.add_succ_r, <- app_assoc. reflexivity.
Qed.

Lemma run_chunks_groups (groups : list (list T)) :
  (forall item, ends (processor item)) ->
  forall results errors w, exists settled w',
    run_chunks groups processor results errors w
    = (Returned (results ++ values_of settled, errors + failures_of settled), w')
    /\ groups_settle processor groups w settled w'.
Proof.
  intros He. induction groups as [|g groups IH]; intros results errors w.
  - exists [], w. simpl. unfold ret, values_of, failures_of. simpl.
    rewrite app_nil_r, Nat.add_0_r. split; [reflexivity|constructor].
  - simpl run_chunks. unfold bind.
    destruct (allSettled_group g He w) as [s1 [w1 [A G1]]]. rewrite A.
    rewrite collect_settled_logged. simpl fst. simpl snd.
    destruct (IH (results ++ values_of s1) (errors + failures_of s1)
                (logged (reasons_of s1) w1))
      as [s2 [w' [E G2]]].
    exists (s1 ++ s2), w'. rewrite E.
    rewrite values_of_app, failures_of_app, <- app_assoc, Nat.add_assoc.
    split; [reflexivity|]. econstructor; eassumption.
Qed.

(** C9.  For a bound [N >= 1] and processors that end, [batchProcess]
    runs the consecutive groups of at most [N] items one after the other,
    each group settled and collected before the next starts, and returns:
    the results are the values of the fulfilled items in the order of the
    input, the error count is the number of rejected items, and together
    they are as many as the items.  The world it leaves is the one the
    processors made: every processor was started, in the order of its
    group, in the world the one before it left, and the next group was
    started only after the rejections of the group before were written to
    the console. *)
Theorem batchProcess_groups_in_order (items : list T) (N : nat) (w : World Net) :
  0 < N ->
  (forall item, ends (processor item)) ->
  batchProcess Net items processor N w
  = run_chunks (chunks N items) processor [] 0 w
  /\ List.concat (chunks N items) = items
  /\ Forall (fun group => 0 < List.length group <= N) (chunks N items)
  /\ exists settled w',
       batchProcess Net items processor N w
       = (Returned (values_of settled, failures_of settled), w')
       /\ groups_settle processor (chunks N items) w settled w'
       /\ Forall2 (settles processor) items settled
       /\ List.length (values_of settled) + failures_of settled
          = List.length items.
Proof.
  intros HN He.
  split; [now apply batchProcess_chunks|].
  split; [now apply chunks_concat|].
  split; [now apply chunks_sizes|].
  rewrite batchProcess_chunks by assumption.
  destruct (run_chunks_groups (chunks N items) He [] 0 w)
    as [settled [w' [E G]]].
  pose proof (groups_settle_each _ _ _ _ G) as F.
  rewrite chunks_concat in F by assumption.
  exists settled, w'. split; [exact E|]. split; [exact G|]. split; [exact F|].
  rewrite values_failures_length. symmetry. eapply Forall2_length. exact F.
Qed.

End BatchFacts.

Lemma noted_tenfold_odd_ends item : ends (Sim.noted_tenfold_odd item).
Proof.
  intros w. unfold Sim.noted_tenfold_odd, Sim.tenfold_odd, bind, log. simpl.
  destruct (Nat.even item); discriminate.
Qed.

(** The theorem for five items in groups of two, with a processor that
    writes a line to the console before it returns ten times an odd item
    or throws on an even one: three groups, three values in the order of
    the input, two failures; on the console the lines of a group come
    before the error of that group, and that before the lines of the
    next group. *)
Lemma batchProcess_witness :
  let w := Sim.world Db.empty Sim.empty_net in
  let run := batchProcess Sim.Net [1; 2; 3; 4; 5] Sim.noted_tenfold_odd 2 w in
  run = run_chunks [[1; 2]; [3; 4]; [5]] Sim.noted_tenfold_odd [] 0 w
  /\ fst run = Returned ([10; 30; 50], 2)
  /\ console Sim.Net (snd run)
     = [ LogSynced "p'"; LogSynced "p''"; LogBatchError TypeError;
         LogSynced "p'''"; LogSynced "p''''"; LogBatchError TypeError;
         LogSynced "p'''''" ]%string.
Proof.
  cbv zeta. split; [|split].
  - exact (proj1 (batchProcess_groups_in_order Sim.Net Sim.noted_tenfold_odd
                    [1; 2; 3; 4; 5] 2 (Sim.world Db.empty Sim.empty_net)
                    (Nat.lt_0_succ 1) noted_tenfold_odd_ends)).
  - vm_compute. reflexivity.
  - vm_compute. reflexivity.
Defined.

(* ------------------------------------------------------------------ *)
(** ** The requests of the routine push                                 *)
(* ------------------------------------------------------------------ *)

Section RoutinePushFacts.

Variable Net : Type.
Variable notion_fetch : Notion.Request -> Net -> Notion.Response * Net.
Variable env : Env.
Variable ok : Notion.Request -> Prop.

Lemma sends_only_allSettled {T R} (processor : T -> Action Net R) batch :
  (forall item, sends_only ok (processor item)) ->
  sends_only ok (allSettled Net processor batch).
Proof.
  intros H. induction batch as [|item batch IH]; simpl.
  - apply sends_only_ret.
  - intros w. destruct (H item w) as [n1 [S1 F1]].
    destruct (processor item w) as [[r|e|] w1]; simpl in *.
    + destruct (sends_only_bind Net ok (allSettled Net processor batch)
                  (fun settled => ret Net (inl r :: settled)) IH
                  (fun a => sends_only_ret Net ok _) w1) as [n2 [S2 F2]].
      exists (n1 ++ n2). rewrite S2, S1, app_assoc. split; [reflexivity|].
      apply Forall_app. now split.
    + destruct (sends_only_bind Net ok (allSettled Net processor batch)
                  (fun settled => ret Net (inr e :: settled)) IH
                  (fun a => sends_only_ret Net ok _) w1) as [n2 [S2 F2]].
      exists (n1 ++ n2). rewrite S2, S1, app_assoc. split; [reflexivity|].
      apply Forall_app. now split.
    + exists n1. now split.
Qed.

Lemma sends_only_collect_settled {R} (settled : list (R + Err)) :
  forall results errors,
    sends_only ok (collect_settled Net settled results errors).
Proof.
  induction settled as [|s settled IH]; intros results errors; simpl.
  - apply sends_only_ret.
  - destruct s as [v|e]; [apply IH|].
    apply sends_only_bind; [apply sends_only_log|]. intros _. apply IH.
Qed.

Lemma sends_only_batch_loop {T R} (processor : T -> Action Net R) items N :
  (forall item, sends_only ok (processor item)) ->
  forall fuel i results errors,
    sends_only ok (batch_loop Net fuel items processor N i results errors).
Proof.
  intros H. induction fuel as [|fuel IH]; intros i results errors; simpl.
  - apply sends_only_silent. reflexivity.
  - destruct (i <? List.length items); [|apply sends_only_ret].
    apply sends_only_bind; [now apply sends_only_allSettled|]. intros settled.
    apply sends_only_bind; [apply sends_only_collect_settled|]. intros acc.
    apply IH.
Qed.

Lemma sends_only_batchProcess {T R} (processor : T -> Action Net R) items N :
  (forall item, sends_only ok (processor item)) ->
  sends_only ok (batchProcess Net items processor N).
Proof. intros H. now apply sends_only_batch_loop. Qed.

Lemma sends_only_gather_routines folderResults :
  sends_only ok (gather_routines Net folderResults).
Proof.
  induction folderResults as [|[[folder pageId] routines] rest IH]; simpl.
  - apply sends_only_ret.
  - apply sends_only_bind.
    + induction routines as [|routine rs IHr]; [apply sends_only_ret|].
      apply sends_only_bind; [apply sends_only_runQuery|]. intros exercises.
      apply sends_only_bind; [exact IHr|]. intros more. apply sends_only_ret.
    + intros here. apply sends_only_bind; [exact IH|]. intros more.
      apply sends_only_ret.
Qed.

End RoutinePushFacts.

(** The routine push sends nothing but [CreatePage] requests: it never
    queries a database and never updates a page. *)
Lemma syncRoutinesToNotion_only_creates Net notion_fetch env dbs :
  sends_only is_create (syncRoutinesToNotion Net notion_fetch env dbs).
Proof.
  unfold syncRoutinesToNotion.
  apply sends_only_bind; [apply sends_only_runQuery|]. intros folders.
  apply sends_only_bind.
  { apply sends_only_batchProcess. intros folder. unfold push_folder.
    apply sends_only_bind; [apply sends_only_runQuery|]. intros routines.
    apply sends_only_bind.
    { apply sends_only_notionRequest. now eexists _, _. }
    intros newPage. apply sends_only_bind; [apply sends_only_required|].
    intros page. apply sends_only_bind; [apply sends_only_runMutation|].
    intros _. apply sends_only_ret. }
  intros folderResults.
  apply sends_only_bind; [apply sends_only_gather_routines|].
  intros allRoutineData.
  apply sends_only_bind.
  { apply sends_only_batchProcess. intros [[routine folderPageId] exercises].
    unfold push_routine.
    apply sends_only_bind.
    { apply sends_only_notionRequest. now eexists _, _. }
    intros newPage. apply sends_only_bind; [apply sends_only_required|].
    intros page. apply sends_only_bind; [apply sends_only_runMutation|].
    intros _. apply sends_only_ret. }
  intros routineResults.
  apply sends_only_bind.
  { apply sends_only_batchProcess. intros [exercise routinePageId].
    unfold push_routine_exercise.
    apply sends_only_bind; [apply sends_only_runQuery|]. intros progress.
    apply sends_only_bind.
    { apply sends_only_notionRequest. now eexists _, _. }
    intros newPage. apply sends_only_bind; [apply sends_only_required|].
    intros page. apply sends_only_bind; [apply sends_only_runMutation|].
    intros _. apply sends_only_ret. }
  intros exerciseResults. apply sends_only_ret.
Qed.

(* ------------------------------------------------------------------ *)
(** ** Pushes that return                                               *)
(* ------------------------------------------------------------------ *)

Section ReturnFacts.

Variable Net : Type.
Variable notion_fetch : Notion.Request -> Net -> Notion.Response * Net.
Variable env : Env.
Variable dbs : WorkoutDbs.

Lemma returns_ret {A} (P : A -> Prop) a : P a -> returns P (ret Net a).
Proof. intros H w. now exists a, w. Qed.

Lemma returns_bind {A B} (P : A -> Prop) (Q : B -> Prop)
  (m : Action Net A) (k : A -> Action Net B) :
  returns P m -> (forall a, P a -> returns Q (k a)) -> returns Q (bind Net m k).
Proof.
  intros Hm Hk w. destruct (Hm w) as [a [w1 [E Pa]]].
  destruct (Hk a Pa w1) as [b [w2 [E2 Qb]]].
  exists b, w2. split; [|exact Qb]. unfold bind. now rewrite E.
Qed.

Lemma returns_weaken {A} (P Q : A -> Prop) (m : Action Net A) :
  (forall a, P a -> Q a) -> returns P m -> returns Q m.
Proof.
  intros I H w. destruct (H w) as [a [w' [E Pa]]]. exists a, w'. auto.
Qed.

Lemma returns_for_each {A} (xs : list A) (body : A -> Action Net unit) :
  (forall x, returns (fun _ => True) (body x)) ->
  returns (fun _ => True) (for_each Net xs body).
Proof.
  intros H. induction xs as [|x xs IH]; simpl.
  - now apply returns_ret.
  - eapply returns_bind; [apply H|]. intros _ _. exact IH.
Qed.

Hypothesis token : Js.truthy Js.truthy_str (NOTION_TOKEN env) = true.
Hypothesis accepting : accepts_all notion_fetch.

Lemma notionRequest_returns r :
  returns (fun resp => is_create r -> exists page, Notion.id resp = Some page)
    (notionRequest Net notion_fetch env r).
Proof.
  intros w. rewrite (notionRequest_run Net notion_fetch env r w token).
  destruct (accepting r (net Net w)) as [O I]. rewrite O.
  eexists _, _. split; [reflexivity|exact I].
Qed.

Lemma push_exercise_returns page exercise :
  returns (fun _ => True) (push_exercise Net notion_fetch env dbs page exercise).
Proof.
  unfold push_exercise.
  eapply returns_bind with (P := fun _ => True).
  { intros w. now eexists _, _. }
  intros sets _.
  eapply returns_bind; [apply notionRequest_returns|]. intros exercisePage _.
  apply returns_for_each. intros set.
  eapply returns_bind; [apply notionRequest_returns|]. intros _ _.
  now apply returns_ret.
Qed.

Lemma push_tail_returns id title p :
  returns (fun _ => True) (push_tail Net notion_fetch env dbs id title (Some p)).
Proof.
  unfold push_tail.
  eapply returns_bind with (P := fun _ => True).
  { intros w. now eexists _, _. }
  intros exercises _.
  eapply returns_bind.
  { apply returns_for_each. intros x. apply push_exercise_returns. }
  intros _ _. simpl.
  eapply returns_bind with (P := fun _ => True); [now apply returns_ret|].
  intros page _.
  eapply returns_bind with (P := fun _ => True).
  { intros w. now eexists _, _. }
  intros _ _ w. now eexists _, _.
Qed.

Lemma write_page_returns wk found :
  returns (fun page => exists p, page = Some p)
    (write_page Net notion_fetch env dbs wk found).
Proof.
  unfold write_page. destruct found as [[|c q]|].
  - eapply returns_bind; [apply notionRequest_returns|]. intros newPage I.
    apply returns_ret. apply I. now eexists _, _.
  - eapply returns_bind; [apply notionRequest_returns|]. intros _ _.
    apply returns_ret. now eexists.
  - eapply returns_bind; [apply notionRequest_returns|]. intros newPage I.
    apply returns_ret. apply I. now eexists _, _.
Qed.

Lemma find_workout_page_returns wk :
  returns (fun _ => True) (find_workout_page Net notion_fetch env dbs wk).
Proof.
  unfold find_workout_page.
  destruct (Js.truthy Js.truthy_str (Workout.notionPageId wk));
    [now apply returns_ret|].
  eapply returns_bind; [apply notionRequest_returns|]. intros r _.
  destruct (Notion.results r) as [[|p ps]|]; now apply returns_ret.
Qed.

(** With the access token set and a mirror that accepts every request,
    the push of a workout returns. *)
Lemma push_general_returns workout :
  returns (fun _ => True) (push_general Net notion_fetch env dbs workout).
Proof.
  unfold push_general.
  eapply returns_bind; [apply find_workout_page_returns|]. intros found _.
  eapply returns_bind; [apply write_page_returns|]. intros page [p ->].
  apply push_tail_returns.
Qed.

End ReturnFacts.

(* ------------------------------------------------------------------ *)
(** ** C10: a workout deleted before it was mirrored                    *)
(* ------------------------------------------------------------------ *)

(** C10.  A workout with [isDeleted = true] and no stored page id does not
    take the archive branch of the mirror push: its push is the general
    one.  An unsynced workout of the store is among the workouts the pass
    goes through, deleted or not.  The push sends no archive request; when
    it returns it has searched the workouts database by natural key,
    updated the page it found or created one, created one page per exercise
    and one per set, and the store is the old one with the workout marked
    synced under that page id: the stored document of the workout then
    carries that page id, has [syncedToNotion = true] and is still deleted.
    With the access token set and a mirror that accepts every request the
    push returns. *)
Theorem deleted_workout_without_page_is_pushed
  (Net : Type) (notion_fetch : Notion.Request -> Net -> Notion.Response * Net)
  (env : Env) (dbs : WorkoutDbs) (workout : Id * Workout.t) :
  Workout.isDeleted (snd workout) = true ->
  Js.truthy Js.truthy_str (Workout.notionPageId (snd workout)) = false ->
  sync_workout Net notion_fetch env dbs workout
  = push_general Net notion_fetch env dbs workout
  /\ (forall d,
        In workout (Db.workouts d) ->
        Workout.syncedToNotion (snd workout) = false ->
        In workout (Sync.getUnsyncedWorkouts d))
  /\ sends_only (fun r => is_archive r = false)
       (sync_workout Net notion_fetch env dbs workout)
  /\ (forall w w',
        sync_workout Net notion_fetch env dbs workout w = (Returned tt, w') ->
        exists page second children,
          sent Net w'
          = sent Net w ++ search_by_key dbs (snd workout) :: second :: children
          /\ (second = Notion.UpdatePage page (workoutProps (snd workout))
              \/ (second
                  = Notion.CreatePage (workoutsDbId dbs)
                      (workoutProps (snd workout))
                  /\ Notion.id
                       (fst (notion_fetch second
                               (snd (notion_fetch
                                       (search_by_key dbs (snd workout))
                                       (net Net w)))))
                     = Some page))
          /\ map created_in children
             = child_targets dbs
                 (Sync.getWorkoutExercises (fst workout) (db Net w)) (db Net w)
          /\ db Net w' = Sync.markWorkoutSynced (fst workout) page (db Net w)
          /\ (Db.lookup Db.workoutsT (fst workout) (db Net w)
              = Some (snd workout) ->
              exists stored,
                Db.lookup Db.workoutsT (fst workout) (db Net w') = Some stored
                /\ Workout.notionPageId stored = Some page
                /\ Workout.syncedToNotion stored = true
                /\ Workout.isDeleted stored = true
                /\ Workout.hevyId stored = Workout.hevyId (snd workout)))
  /\ (Js.truthy Js.truthy_str (NOTION_TOKEN env) = true ->
      accepts_all notion_fetch ->
      returns (fun _ => True) (sync_workout Net notion_fetch env dbs workout)).
Proof.
  intros D P.
  assert (G : sync_workout Net notion_fetch env dbs workout
              = push_general Net notion_fetch env dbs workout).
  { apply sync_workout_general. now rewrite P, andb_false_r. }
  split; [exact G|]. split.
  { intros d I S. unfold Sync.getUnsyncedWorkouts, Db.collect.
    apply filter_In. split; [exact I|]. simpl. now rewrite S. }
  rewrite G. split; [apply push_general_no_archive|]. split.
  - intros w w' R.
    destruct (push_general_Returned Net notion_fetch env dbs workout w w' P R)
      as [page [second [children [S1 [S2 [S3 S4]]]]]].
    exists page, second, children.
    split; [exact S1|]. split; [exact S2|]. split; [exact S3|].
    split; [exact S4|].
    intros L. rewrite S4. unfold Sync.markWorkoutSynced, Db.lookup in *.
    simpl in *. rewrite lookup_patch_rows, L. simpl. rewrite Nat.eqb_refl.
    eexists. split; [reflexivity|]. simpl. now rewrite D.
  - intros T A. now apply push_general_returns.
Qed.

(** The theorem at the store in which the sample workout was upserted and
    then deleted, with an empty mirror: the push returns, after a search
    and the creation of the workout page, two exercise pages and four set
    pages; nothing waits for the mirror any more, and the stored workout
    carries the id of the page that was created. *)
Lemma deleted_workout_witness :
  let workout := Sim.first_unsynced Sim.deleted_store in
  let w := Sim.world Sim.deleted_store Sim.empty_net in
  let r := sync_workout Sim.Net Sim.notion_fetch Sim.env Sim.dbs workout w in
  Workout.isDeleted (snd workout) = true
  /\ Workout.notionPageId (snd workout) = None
  /\ r = push_general Sim.Net Sim.notion_fetch Sim.env Sim.dbs workout w
  /\ fst r = Returned tt
  /\ map created_in (sent Sim.Net (snd r))
     = [ None; Some "db-workouts"; Some "db-exercises"; Some "db-sets";
         Some "db-sets"; Some "db-sets"; Some "db-exercises"; Some "db-sets" ]%string
  /\ unsynced_ids (db Sim.Net (snd r)) = []
  /\ option_map
       (fun stored =>
          (Workout.notionPageId stored, Workout.syncedToNotion stored,
           Workout.isDeleted stored))
       (Db.lookup Db.workoutsT (fst workout) (db Sim.Net (snd r)))
     = Some (Some "p"%string, true, true).
Proof.
  cbv zeta.
  split; [vm_compute; reflexivity|]. split; [vm_compute; reflexivity|]. split.
  - now rewrite (proj1 (deleted_workout_without_page_is_pushed Sim.Net
                          Sim.notion_fetch Sim.env Sim.dbs
                          (Sim.first_unsynced Sim.deleted_store)
                          ltac:(vm_compute; reflexivity)
                          ltac:(vm_compute; reflexivity))).
  - repeat split; vm_compute; reflexivity.
Defined.

(* ------------------------------------------------------------------ *)
(** ** C5: search before creation                                       *)
(* ------------------------------------------------------------------ *)

(** C5.  The push of a workout without a stored page id, with the access
    token set, starts with a search of the workouts database by the
    workout's ["Hevy ID"]; when the search finds a page, the next request
    updates that page, every later request creates the page of an exercise
    or of a set (none creates a page that carries a ["Hevy ID"]), and a
    push that returns has stored the page that was found.  The push of
    routine folders, routines and routine exercises sends nothing but
    requests that create a page: it never searches. *)
Theorem workouts_adopt_routines_only_create
  (Net : Type) (notion_fetch : Notion.Request -> Net -> Notion.Response * Net)
  (env : Env) (dbs : WorkoutDbs) (routineDbs : RoutineDbs)
  (workout : Id * Workout.t) (w : World Net) (c : ascii) (p : string)
  (ps : list string) :
  Js.truthy Js.truthy_str (NOTION_TOKEN env) = true ->
  Js.truthy Js.truthy_str (Workout.notionPageId (snd workout)) = false ->
  Notion.ok (fst (notion_fetch (search_by_key dbs (snd workout)) (net Net w)))
  = true ->
  Notion.results
    (fst (notion_fetch (search_by_key dbs (snd workout)) (net Net w)))
  = Some (String c p :: ps) ->
  (exists rest,
     sent Net (snd (sync_workout Net notion_fetch env dbs workout w))
     = sent Net w
       ++ search_by_key dbs (snd workout)
          :: Notion.UpdatePage (String c p) (workoutProps (snd workout)) :: rest
     /\ Forall child_page rest
     /\ match fst (sync_workout Net notion_fetch env dbs workout w) with
        | Returned _ =>
            db Net (snd (sync_workout Net notion_fetch env dbs workout w))
            = Sync.markWorkoutSynced (fst workout) (String c p) (db Net w)
        | Threw _ =>
            db Net (snd (sync_workout Net notion_fetch env dbs workout w))
            = db Net w
        | Diverged => False
        end)
  /\ sends_only is_create (syncRoutinesToNotion Net notion_fetch env routineDbs).
Proof.
  intros T P O R. split; [|apply syncRoutinesToNotion_only_creates].
  rewrite sync_workout_general by (now rewrite P, andb_false_r).
  eapply push_general_adopts; eassumption.
Qed.

(** The theorem for the sample workout and a mirror that already holds a
    page with its ["Hevy ID"]: the page is updated, the workout is stored
    under it, and the search still finds one page. *)
Lemma adoption_witness :
  let workout := Sim.first_unsynced Sim.pushed_store in
  let w := Sim.world Sim.pushed_store (Sim.net_with_page "db-workouts" "w-1") in
  let r := sync_workout Sim.Net Sim.notion_fetch Sim.env Sim.dbs workout w in
  Sim.search "db-workouts" "w-1" (net Sim.Net w) = Some ["old"%string]
  /\ (exists rest,
        sent Sim.Net (snd r)
        = Notion.QueryDatabase "db-workouts" (Notion.mkFilter "Hevy ID" "w-1")
          :: Notion.UpdatePage "old" (workoutProps (snd workout)) :: rest
        /\ Forall child_page rest)
  /\ fst r = Returned tt
  /\ map Workout.notionPageId (map snd (Db.workouts (db Sim.Net (snd r))))
     = [Some "old"%string]
  /\ Sim.search "db-workouts" "w-1" (net Sim.Net (snd r)) = Some ["old"%string].
Proof.
  cbv zeta. split; [vm_compute; reflexivity|]. split.
  - destruct (proj1 (workouts_adopt_routines_only_create Sim.Net
                       Sim.notion_fetch Sim.env Sim.dbs Sim.routine_dbs
                       (Sim.first_unsynced Sim.pushed_store)
                       (Sim.world Sim.pushed_store
                          (Sim.net_with_page "db-workouts" "w-1"))
                       "o"%char "ld"%string []
                       ltac:(vm_compute; reflexivity)
                       ltac:(vm_compute; reflexivity)
                       ltac:(vm_compute; reflexivity)
                       ltac:(vm_compute; reflexivity)))
      as [rest [S [F _]]].
    exists rest. split; [|exact F].
    etransitivity; [exact S|]. vm_compute. reflexivity.
  - repeat split; vm_compute; reflexivity.
Defined.

(** A routine whose ["Hevy ID"] already has a page in the routines
    database: the routine push sends four creations and no search, and
    afterwards the search by natural key finds two pages. *)
Lemma routine_page_is_duplicated :
  let w := Sim.world Sim.routine_store (Sim.net_with_page "db-routines" "r-1") in
  let r :=
    syncRoutinesToNotion Sim.Net Sim.notion_fetch Sim.env Sim.routine_dbs w in
  map Routine.hevyId (map snd (Db.routines (db Sim.Net w))) = ["r-1"%string]
  /\ map Routine.notionPageId (map snd (Db.routines (db Sim.Net w))) = [None]
  /\ Sim.search "db-routines" "r-1" (net Sim.Net w) = Some ["old"%string]
  /\ fst r = Returned (mkRoutineCounts 1 1 2 0)
  /\ map created_in (sent Sim.Net (snd r))
     = [ Some "db-programs"; Some "db-routines"; Some "db-routine-exercises";
         Some "db-routine-exercises" ]%string
  /\ Sim.search "db-routines" "r-1" (net Sim.Net (snd r))
     = Some ["old"; "p''"]%string.
Proof.
  repeat split; vm_compute; reflexivity.
Qed.

(* ------------------------------------------------------------------ *)
(** ** C7: the cursor of the incremental sync                           *)
(* ------------------------------------------------------------------ *)

Lemma getSyncState_updateSyncState args d :
  Js.truthy Js.truthy_str (Sync.arg_lastEventTimestamp args) = true ->
  exists id st,
    Sync.getSyncState (Sync.updateSyncState args d) = Some (id, st)
    /\ SyncState.lastEventTimestamp st = Sync.arg_lastEventTimestamp args.
Proof.
  intros T. unfold Sync.updateSyncState, Sync.getSyncState, Db.first.
  destruct d as [n ss ws es sets fs rs res rss ep]. simpl.
  destruct ss as [|[id st] rows]; simpl.
  - eexists _, _. split; reflexivity.
  - rewrite Nat.eqb_refl. simpl. eexists _, _. split; [reflexivity|].
    simpl. now rewrite T.
Qed.

Section IncrementalFacts.

Variable Net : Type.
Variable hevy_fetch : HevyApi.Request -> Net -> HevyApi.Response * Net.
Variable toISOString : nat -> string.
Variable Date_getTime : string -> Z.
Variable env : Env.

Hypothesis up : feed_up hevy_fetch.

Lemma hevyRequest_run r w :
  hevyRequest Net hevy_fetch r w
  = (Returned (fst (hevy_fetch r (net Net w))),
     mkWorld Net (db Net w) (snd (hevy_fetch r (net Net w))) (sent Net w)
       (asked Net w ++ [r]) (console Net w) (clock Net w)).
Proof.
  unfold hevyRequest. pose proof (up r (net Net w)) as O.
  destruct (hevy_fetch r (net Net w)) as [resp n']. simpl in *.
  assert (S : (HevyApi.status resp =? 429)%Z = false).
  { unfold HevyApi.ok in O. apply andb_prop in O. destruct O as [_ O].
    apply Z.leb_le in O. apply Z.eqb_neq. lia. }
  now rewrite S, O.
Qed.

Lemma fetch_pages_run {A} (req : nat -> HevyApi.Request)
  (items : HevyApi.Response -> list A) :
  forall pages acc w,
  exists more w',
    fetch_pages Net (fun page => hevyRequest Net hevy_fetch (req page))
      items pages acc w
    = (Returned (acc ++ more), w')
    /\ db Net w' = db Net w
    /\ sent Net w' = sent Net w
    /\ console Net w' = console Net w
    /\ clock Net w' = clock Net w
    /\ asked Net w' = asked Net w ++ map req pages.
Proof.
  induction pages as [|page pages IH]; intros acc w; simpl.
  - exists [], w. rewrite !app_nil_r. repeat split; reflexivity.
  - rewrite (bind_Returned Net _ _ _ _ _ (hevyRequest_run (req page) w)).
    destruct (IH (acc ++ items (fst (hevy_fetch (req page) (net Net w))))
                (mkWorld Net (db Net w)
                   (snd (hevy_fetch (req page) (net Net w))) (sent Net w)
                   (asked Net w ++ [req page]) (console Net w) (clock Net w)))
      as [more [w' [E [D [Hs [Hc [K Q]]]]]]].
    exists (items (fst (hevy_fetch (req page) (net Net w))) ++ more), w'.
    rewrite E, app_assoc. simpl in *.
    rewrite <- app_assoc in Q. repeat split; assumption.
Qed.

(** The loop over the pages collects what the answers to its requests
    hold, in the order of the pages. *)
Lemma fetch_pages_answers {A} (req : nat -> HevyApi.Request)
  (items : HevyApi.Response -> list A) :
  forall pages acc w,
  exists w',
    fetch_pages Net (fun page => hevyRequest Net hevy_fetch (req page))
      items pages acc w
    = (Returned
         (acc ++ flat_map items (answers hevy_fetch (map req pages) (net Net w))),
       w')
    /\ db Net w' = db Net w
    /\ sent Net w' = sent Net w
    /\ console Net w' = console Net w
    /\ clock Net w' = clock Net w
    /\ asked Net w' = asked Net w ++ map req pages.
Proof.
  induction pages as [|page pages IH]; intros acc w; simpl.
  - exists w. rewrite !app_nil_r. repeat split; reflexivity.
  - rewrite (bind_Returned Net _ _ _ _ _ (hevyRequest_run (req page) w)).
    destruct (IH (acc ++ items (fst (hevy_fetch (req page) (net Net w))))
                (mkWorld Net (db Net w)
                   (snd (hevy_fetch (req page) (net Net w))) (sent Net w)
                   (asked Net w ++ [req page]) (console Net w) (clock Net w)))
      as [w' [E [D [Hs [Hc [K Q]]]]]].
    exists w'. rewrite E, app_assoc. simpl in *.
    rewrite <- app_assoc in Q. repeat split; assumption.
Qed.

Lemma process_events_run : forall events u d w,
  process_events Net Date_getTime events u d w
  = (Returned (u + List.length (filter is_upsert events),
               d + List.length (filter is_removal events)),
     mkWorld Net
       (fold_left (apply_mutation Date_getTime)
          (flat_map event_mutation events) (db Net w))
       (net Net w) (sent Net w) (asked Net w) (console Net w) (clock Net w)).
Proof.
  induction events as [|e events IH]; intros u d w.
  - simpl. rewrite !Nat.add_0_r. now destruct w.
  - simpl. unfold is_upsert, is_removal, event_mutation.
    destruct (HevyEvent.type e), (HevyEvent.workout e) as [workout|],
      (HevyEvent.id e) as [[|c i]|];
      simpl; unfold bind, runMutation; try rewrite IH; simpl;
      rewrite ?Nat.add_succ_r; reflexivity.
Qed.

(** C7.  With the key of the source configured, a source that answers
    every request with a success status and a clock whose readings are not
    empty, [incrementalSync] returns.  Its requests are the pages 1 to
    [page_count] of the events feed, all with [since] the stored
    [lastEventTimestamp], or the epoch start when there is no sync state or
    no timestamp in it; the events it processes are the events of the
    answers to these requests, page after page.  The result counts the
    events fetched, those with
    type [updated] and a workout, and those with type [deleted] and an id.
    The store is the old one after the mutations of the events, in order,
    and then [updateSyncState] with the two readings of the clock made
    after the loop: the cursor stored is the second of them whatever the
    events were. *)
Theorem incrementalSync_cursor_is_now (w : World Net) (c : ascii) (k : string) :
  HEVY_API_KEY env = Some (String c k) ->
  (forall t, toISOString t <> EmptyString) ->
  let since := since_cursor (Sync.getSyncState (db Net w)) in
  let run := incrementalSync Net hevy_fetch toISOString Date_getTime env w in
  (match Sync.getSyncState (db Net w) with
   | Some (_, st) =>
       match SyncState.lastEventTimestamp st with
       | Some (String a s) => since = String a s
       | _ => since = "1970-01-01T00:00:00Z"%string
       end
   | None => since = "1970-01-01T00:00:00Z"%string
   end)
  /\ exists events,
       fst run
       = Returned
           (mkIncrementalResult (List.length events)
              (List.length (filter is_upsert events))
              (List.length (filter is_removal events)))
       /\ (exists first,
             asked Net (snd run)
             = asked Net w
               ++ map (fun page => HevyApi.GetEvents (String c k) since page 10)
                    (seq 1 (S (HevyApi.page_count first - 1)))
             /\ first
                = fst (hevy_fetch (HevyApi.GetEvents (String c k) since 1 10)
                         (net Net w))
             /\ events
                = flat_map HevyApi.events
                    (answers hevy_fetch
                       (map (fun page =>
                               HevyApi.GetEvents (String c k) since page 10)
                          (seq 1 (S (HevyApi.page_count first - 1))))
                       (net Net w)))
       /\ db Net (snd run)
          = Sync.updateSyncState (cursor_args toISOString (clock Net w))
              (fold_left (apply_mutation Date_getTime)
                 (flat_map event_mutation events) (db Net w))
       /\ exists id st,
            Sync.getSyncState (db Net (snd run)) = Some (id, st)
            /\ SyncState.lastEventTimestamp st
               = Some (toISOString (S (clock Net w))).
Proof.
  intros K T since run. split.
  { unfold since, since_cursor.
    destruct (Sync.getSyncState (db Net w)) as [[id st]|]; [|reflexivity].
    destruct (SyncState.lastEventTimestamp st) as [[|a s]|]; reflexivity. }
  set (first := fst (hevy_fetch (HevyApi.GetEvents (String c k) since 1 10)
                       (net Net w))).
  set (w1 := mkWorld Net (db Net w)
               (snd (hevy_fetch (HevyApi.GetEvents (String c k) since 1 10)
                       (net Net w)))
               (sent Net w)
               (asked Net w ++ [HevyApi.GetEvents (String c k) since 1 10])
               (console Net w) (clock Net w)).
  destruct (fetch_pages_answers
              (fun page => HevyApi.GetEvents (String c k) since page 10)
              HevyApi.events (seq 2 (HevyApi.page_count first - 1))
              (HevyApi.events first) w1)
    as [w2 [E [D [Hs [Hc [Q A]]]]]].
  set (more :=
         flat_map HevyApi.events
           (answers hevy_fetch
              (map (fun page => HevyApi.GetEvents (String c k) since page 10)
                 (seq 2 (HevyApi.page_count first - 1)))
              (net Net w1))) in E.
  assert (R : run
              = (Returned
                   (mkIncrementalResult
                      (List.length (HevyApi.events first ++ more))
                      (List.length
                         (filter is_upsert (HevyApi.events first ++ more)))
                      (List.length
                         (filter is_removal (HevyApi.events first ++ more)))),
                 mkWorld Net
                   (Sync.updateSyncState (cursor_args toISOString (clock Net w))
                      (fold_left (apply_mutation Date_getTime)
                         (flat_map event_mutation (HevyApi.events first ++ more))
                         (db Net w)))
                   (net Net w2) (sent Net w2) (asked Net w2) (console Net w2)
                   (S (S (clock Net w))))).
  { unfold run, incrementalSync, hevy_api_key. rewrite K.
    unfold bind at 1. unfold ret at 1. unfold bind at 1. unfold runQuery at 1.
    fold since. unfold fetchHevyEvents.
    rewrite (bind_Returned Net _ _ _ _ _
               (hevyRequest_run (HevyApi.GetEvents (String c k) since 1 10) w)).
    fold first. fold w1.
    rewrite (bind_Returned Net _ _ _ _ _ E).
    rewrite (bind_Returned Net _ _ _ _ _
               (process_events_run (HevyApi.events first ++ more) 0 0 w2)).
    unfold bind, now, runMutation, ret, cursor_args. simpl.
    rewrite D, Q. reflexivity. }
  exists (HevyApi.events first ++ more). rewrite R. simpl.
  split; [reflexivity|]. split.
  { exists first. split; [|split; reflexivity].
    rewrite A. unfold w1. simpl. now rewrite <- app_assoc. }
  split; [reflexivity|].
  apply getSyncState_updateSyncState. simpl.
  specialize (T (S (clock Net w))).
  destruct (toISOString (S (clock Net w))); [contradiction|reflexivity].
Qed.

End IncrementalFacts.

(** The theorem on an empty store and a feed of three pages with five
    events, three of them updates with a workout and one a deletion: the
    cursor asked for is the epoch start, the three pages are asked for,
    the events of all of them are processed (the workouts of the first and
    of the third page are stored, the first one deleted by the event of
    the second page) and the cursor stored is the second reading of the
    clock. *)
Lemma incrementalSync_witness :
  let w := Sim.world Db.empty Sim.three_pages_net in
  let run :=
    incrementalSync Sim.Net Sim.hevy_fetch Sim.toISOString Sim.Date_getTime
      Sim.env w in
  (exists id st,
     Sync.getSyncState (db Sim.Net (snd run)) = Some (id, st)
     /\ SyncState.lastEventTimestamp st = Some "2024-01-02T12:00:01Z"%string)
  /\ fst run = Returned (mkIncrementalResult 5 3 1)
  /\ asked Sim.Net (snd run)
     = [ HevyApi.GetEvents "hevy-key" "1970-01-01T00:00:00Z" 1 10;
         HevyApi.GetEvents "hevy-key" "1970-01-01T00:00:00Z" 2 10;
         HevyApi.GetEvents "hevy-key" "1970-01-01T00:00:00Z" 3 10 ]%string
  /\ map (fun r => (Workout.hevyId (snd r), Workout.isDeleted (snd r)))
       (Db.workouts (db Sim.Net (snd run)))
     = [ ("w-1", true); ("w-2", false); ("w-3", false) ]%string
  /\ map (fun s => SyncState.lastEventTimestamp (snd s))
       (Db.syncState (db Sim.Net (snd run)))
     = [Some "2024-01-02T12:00:01Z"%string].
Proof.
  split.
  - destruct (proj2 (incrementalSync_cursor_is_now Sim.Net Sim.hevy_fetch
                       Sim.toISOString Sim.Date_getTime Sim.env
                       ltac:(intros [] n; reflexivity)
                       (Sim.world Db.empty Sim.three_pages_net)
                       "h"%char "evy-key"%string eq_refl
                       ltac:(intros t; unfold Sim.toISOString; simpl;
                             discriminate)))
      as [events [_ [_ [_ [id [st [G L]]]]]]].
    exists id, st. split; [exact G|exact L].
  - repeat split; vm_compute; reflexivity.
Defined.

(* ------------------------------------------------------------------ *)
(** ** C8: the answers of the two POST routes                           *)
(* ------------------------------------------------------------------ *)

Section HttpFacts.

Variable Net : Type.
Variable notion_fetch : Notion.Request -> Net -> Notion.Response * Net.
Variable hevy_fetch : HevyApi.Request -> Net -> HevyApi.Response * Net.
Variable toISOString : nat -> string.
Variable Date_getTime : string -> Z.
Variable env : Env.

Local Abbreviation post_sync' :=
  (post_sync Net notion_fetch hevy_fetch toISOString Date_getTime env).
Local Abbreviation post_full_sync' :=
  (post_full_sync Net hevy_fetch toISOString Date_getTime env).
Local Abbreviation incrementalSync' :=
  (incrementalSync Net hevy_fetch toISOString Date_getTime env).
Local Abbreviation fullSync' :=
  (fullSync Net hevy_fetch toISOString Date_getTime env).
Local Abbreviation fullPipeline' :=
  (fullPipeline Net notion_fetch hevy_fetch toISOString Date_getTime env).

Lemma rejected_with_secret request c s :
  SYNC_WEBHOOK_SECRET env = Some (String c s) ->
  authorization request <> Some ("Bearer " ++ String c s)%string ->
  rejected env request = true.
Proof.
  intros E H. unfold rejected. rewrite E.
  destruct (authorization request) as [h|]; [|reflexivity].
  destruct (String.eqb h ("Bearer " ++ String c s)) eqn:Q; [|reflexivity].
  apply String.eqb_eq in Q. subst h. now contradiction H.
Qed.

Lemma catch_500_Threw (m : Action Net HttpResponse) w e w' :
  m w = (Threw e, w') ->
  catch_500 Net m w = (Returned (mkHttpResponse 500 (JsonError e)), w').
Proof. unfold catch_500. now intros ->. Qed.

Lemma catch_500_never_throws (m : Action Net HttpResponse) w e :
  fst (catch_500 Net m w) <> Threw e.
Proof. unfold catch_500. destruct (m w) as [[r|e'|] w']; discriminate. Qed.

(** The [try] block of [POST /sync], by what the body asks for. *)
Lemma post_sync_accepted request :
  rejected env request = false ->
  post_sync' request
  = catch_500 Net
      match json request with
      | body_null => throw Net TypeError
      | b =>
          match wants_pipeline b with
          | Some dbs =>
              bind Net (fullPipeline' dbs)
                (fun result => ret Net (mkHttpResponse 200 (JsonPipeline result)))
          | None =>
              bind Net incrementalSync'
                (fun result =>
                   ret Net (mkHttpResponse 200 (JsonIncremental result)))
          end
      end.
Proof.
  intros R. unfold post_sync. rewrite R. f_equal.
  destruct (json request) as [| | |[w|] [e|] [s|]]; try reflexivity.
  simpl. now destruct (Js.truthy_str w && Js.truthy_str e && Js.truthy_str s).
Qed.

(** A request that is not rejected is answered by the [try] block: with
    200, or with 500 after a throw. *)
Lemma catch_500_status {A} (m : Action Net A) (body : A -> ResponseBody)
  w resp w' :
  catch_500 Net (bind Net m (fun r => ret Net (mkHttpResponse 200 (body r)))) w
  = (Returned resp, w') ->
  http_status resp = 200%Z \/ http_status resp = 500%Z.
Proof.
  unfold catch_500, bind, ret.
  destruct (m w) as [[a|e|] w1]; intros H; inversion H; subst; simpl; auto.
Qed.

Lemma accepted_answers accepted w0 resp w1 :
  rejected env accepted = false ->
  post_sync' accepted w0 = (Returned resp, w1)
  \/ post_full_sync' accepted w0 = (Returned resp, w1) ->
  http_status resp = 200%Z \/ http_status resp = 500%Z.
Proof.
  intros A [H|H].
  - rewrite (post_sync_accepted accepted A) in H.
    destruct (json accepted) as [| | |x y z].
    + eapply catch_500_status. exact H.
    + inversion H; subst. simpl. auto.
    + eapply catch_500_status. exact H.
    + destruct (wants_pipeline (body_object x y z));
        eapply catch_500_status; exact H.
  - unfold post_full_sync in H. rewrite A in H.
    eapply catch_500_status. exact H.
Qed.

(** C8.  With a webhook secret configured (a non-empty value), a request
    to [POST /sync] or [POST /full-sync] whose [Authorization] header is
    missing or is not ["Bearer "] followed by the secret is answered with
    401 and the text [Unauthorized], and nothing else happens.  With no
    secret configured (the variable unset or empty) no request is
    rejected, whatever its header, as is the request that carries the
    configured secret; a request that is not rejected is never answered
    with 401.  Whatever the configuration, a request that is not rejected
    is never answered with a throw: a throw of the action it runs
    ([fullSync]; for [/sync], [fullPipeline] when the body names the three
    databases, else [incrementalSync]) and the failure to read a [null]
    body are answered with 500 and the error. *)
Theorem unauthorized_with_secret_and_errors_500
  (request : HttpRequest) (w : World Net) :
  (forall c s,
     SYNC_WEBHOOK_SECRET env = Some (String c s) ->
     authorization request <> Some ("Bearer " ++ String c s)%string ->
     post_sync' request w = (Returned (mkHttpResponse 401 Unauthorized), w)
     /\ post_full_sync' request w
        = (Returned (mkHttpResponse 401 Unauthorized), w))
  /\ (Js.truthy Js.truthy_str (SYNC_WEBHOOK_SECRET env) = false ->
      rejected env request = false)
  /\ (forall c s,
        SYNC_WEBHOOK_SECRET env = Some (String c s) ->
        authorization request = Some ("Bearer " ++ String c s)%string ->
        rejected env request = false)
  /\ (rejected env request = false ->
      forall resp w',
        post_sync' request w = (Returned resp, w')
        \/ post_full_sync' request w = (Returned resp, w') ->
        http_status resp = 200%Z \/ http_status resp = 500%Z)
  /\ (forall accepted w0 e,
        rejected env accepted = false ->
        fst (post_sync' accepted w0) <> Threw e
        /\ fst (post_full_sync' accepted w0) <> Threw e)
  /\ (forall accepted w0 e w1,
        rejected env accepted = false ->
        (fullSync' w0 = (Threw e, w1) ->
         post_full_sync' accepted w0
         = (Returned (mkHttpResponse 500 (JsonError e)), w1))
        /\ (json accepted = body_null ->
            post_sync' accepted w0
            = (Returned (mkHttpResponse 500 (JsonError TypeError)), w0))
        /\ (json accepted <> body_null ->
            wants_pipeline (json accepted) = None ->
            incrementalSync' w0 = (Threw e, w1) ->
            post_sync' accepted w0
            = (Returned (mkHttpResponse 500 (JsonError e)), w1))
        /\ (forall dbs,
              wants_pipeline (json accepted) = Some dbs ->
              fullPipeline' dbs w0 = (Threw e, w1) ->
              post_sync' accepted w0
              = (Returned (mkHttpResponse 500 (JsonError e)), w1))).
Proof.
  split.
  { intros c s E H. pose proof (rejected_with_secret request c s E H) as R.
    split; [unfold post_sync; now rewrite R|].
    unfold post_full_sync; now rewrite R. }
  split.
  { unfold rejected. destruct (SYNC_WEBHOOK_SECRET env) as [[|c s]|];
      simpl; [reflexivity|discriminate|reflexivity]. }
  split.
  { intros c s E H. unfold rejected. rewrite E, H.
    now rewrite String.eqb_refl. }
  split.
  { intros A resp w' H. eapply accepted_answers; eassumption. }
  split.
  { intros accepted w0 e A. split.
    - unfold post_sync. rewrite A. apply catch_500_never_throws.
    - unfold post_full_sync. rewrite A. apply catch_500_never_throws. }
  intros accepted w0 e w1 A. split; [|split; [|split]].
  - intros F. unfold post_full_sync. rewrite A.
    apply catch_500_Threw. unfold bind. now rewrite F.
  - intros B. rewrite (post_sync_accepted accepted A), B. reflexivity.
  - intros B P I. rewrite (post_sync_accepted accepted A).
    apply catch_500_Threw.
    destruct (json accepted) as [| | |x y z]; try congruence;
      try (simpl in P |- *; rewrite ?P; unfold bind; now rewrite I).
  - intros dbs P F. rewrite (post_sync_accepted accepted A).
    apply catch_500_Threw.
    destruct (json accepted) as [| | |x y z]; try discriminate.
    rewrite P. unfold bind. now rewrite F.
Qed.

End HttpFacts.

(** The theorem in the simulated environment, whose secret is [s3cret],
    for a request with the header of another secret: both routes answer
    401; the same request is not rejected where no secret is configured,
    and a request with the header of the secret is not rejected. *)
Lemma unauthorized_witness :
  let request := mkHttpRequest (Some "Bearer guess"%string) body_rejected in
  let w := Sim.world Db.empty Sim.events_net in
  post_sync Sim.Net Sim.notion_fetch Sim.hevy_fetch Sim.toISOString
    Sim.Date_getTime Sim.env request w
  = (Returned (mkHttpResponse 401 Unauthorized), w)
  /\ post_full_sync Sim.Net Sim.hevy_fetch Sim.toISOString Sim.Date_getTime
       Sim.env request w
     = (Returned (mkHttpResponse 401 Unauthorized), w)
  /\ rejected Sim.no_secret request = false
  /\ rejected Sim.env
       (mkHttpRequest (Some "Bearer s3cret"%string) body_rejected)
     = false.
Proof.
  cbv zeta.
  destruct (proj1 (unauthorized_with_secret_and_errors_500 Sim.Net
                     Sim.notion_fetch Sim.hevy_fetch Sim.toISOString
                     Sim.Date_getTime Sim.env
                     (mkHttpRequest (Some "Bearer guess"%string) body_rejected)
                     (Sim.world Db.empty Sim.events_net))
              "s"%char "3cret"%string eq_refl ltac:(simpl; discriminate))
    as [A B].
  split; [exact A|]. split; [exact B|]. split.
  - vm_compute. reflexivity.
  - exact (proj1 (proj2 (proj2
             (unauthorized_with_secret_and_errors_500 Sim.Net
                Sim.notion_fetch Sim.hevy_fetch Sim.toISOString
                Sim.Date_getTime Sim.env
                (mkHttpRequest (Some "Bearer s3cret"%string) body_rejected)
                (Sim.world Db.empty Sim.events_net))))
             "s"%char "3cret"%string eq_refl eq_refl).
Defined.

(** Without a configured secret a request with no [Authorization] header
    is not answered with 401: both routes run their action and answer
    200. *)
Lemma no_secret_no_401 :
  let request := mkHttpRequest None body_rejected in
  let w := Sim.world Db.empty Sim.events_net in
  SYNC_WEBHOOK_SECRET Sim.no_secret = None
  /\ authorization request = None
  /\ fst (post_sync Sim.Net Sim.notion_fetch Sim.hevy_fetch Sim.toISOString
            Sim.Date_getTime Sim.no_secret request w)
     = Returned (mkHttpResponse 200 (JsonIncremental (mkIncrementalResult 4 2 1)))
  /\ fst (post_full_sync Sim.Net Sim.hevy_fetch Sim.toISOString Sim.Date_getTime
            Sim.no_secret request w)
     = Returned (mkHttpResponse 200 (JsonFullSync (mkFullSyncResult 0))).
Proof.
  repeat split; vm_compute; reflexivity.
Qed.

(* ------------------------------------------------------------------ *)
(** ** Week and day numbers read off a title                            *)
(* ------------------------------------------------------------------ *)

Lemma match_keyword_digit kw : forall s rest,
  Js.match_keyword kw s = Some rest ->
  some_char Js.is_digit rest = true -> some_char Js.is_digit s = true.
Proof.
  induction kw as [|k kw IH]; intros s rest M H; simpl in M.
  - destruct s; inversion M; subst; exact H.
  - destruct s as [|c s]; [discriminate|].
    destruct (Ascii.eqb k (Js.lower c)); [|discriminate].
    simpl. rewrite (IH _ _ M H). apply orb_true_r.
Qed.

Lemma skip_spaces_digit s :
  some_char Js.is_digit (Js.skip_spaces s) = true ->
  some_char Js.is_digit s = true.
Proof.
  induction s as [|c s IH]; simpl; [auto|].
  destruct (Js.is_space c); simpl; [|auto].
  intros H. rewrite (IH H). apply orb_true_r.
Qed.

Lemma take_digits_every s : every_char Js.is_digit (Js.take_digits s) = true.
Proof.
  induction s as [|c s IH]; simpl; [reflexivity|].
  destruct (Js.is_digit c) eqn:D; simpl; [now rewrite D|reflexivity].
Qed.

Lemma take_digits_digit s c ds :
  Js.take_digits s = String c ds -> some_char Js.is_digit s = true.
Proof.
  destruct s as [|a s]; simpl; [discriminate|].
  destruct (Js.is_digit a); [reflexivity|discriminate].
Qed.

Lemma match_here_digits kws : forall s ds,
  Js.match_here kws s = Some ds ->
  ds <> EmptyString
  /\ every_char Js.is_digit ds = true
  /\ some_char Js.is_digit s = true.
Proof.
  induction kws as [|kw kws IH]; intros s ds M; simpl in M; [discriminate|].
  destruct (Js.match_keyword kw s) as [rest|] eqn:K; [|now apply IH].
  destruct (Js.take_digits (Js.skip_spaces rest)) as [|c r] eqn:T;
    [now apply IH|].
  inversion M; subst ds. split; [discriminate|]. split.
  - rewrite <- T. apply take_digits_every.
  - eapply match_keyword_digit; [exact K|].
    apply skip_spaces_digit. eapply take_digits_digit. exact T.
Qed.

Lemma regex_capture_digits kws : forall s ds,
  Js.regex_capture kws s = Some ds ->
  ds <> EmptyString
  /\ every_char Js.is_digit ds = true
  /\ some_char Js.is_digit s = true.
Proof.
  induction s as [|c s IH]; intros ds R; simpl in R.
  - destruct (Js.match_here kws "") as [x|] eqn:M; [|discriminate].
    inversion R; subst x. now apply match_here_digits in M.
  - destruct (Js.match_here kws (String c s)) as [x|] eqn:M.
    + inversion R; subst x. now apply match_here_digits in M.
    + destruct (IH ds R) as [N [E S]]. split; [exact N|]. split; [exact E|].
      simpl. rewrite S. apply orb_true_r.
Qed.

Lemma is_digit_value c :
  Js.is_digit c = true -> (0 <= Z.of_nat (nat_of_ascii c) - 48 <= 9)%Z.
Proof.
  unfold Js.is_digit. intros H. apply andb_prop in H. destruct H as [A B].
  apply Nat.leb_le in A. apply Nat.leb_le in B. lia.
Qed.

Lemma parseInt_acc_nonneg ds : forall acc,
  every_char Js.is_digit ds = true -> (0 <= acc)%Z ->
  (0 <= Js.parseInt_acc acc ds)%Z.
Proof.
  induction ds as [|c ds IH]; intros acc E A; simpl; [exact A|].
  simpl in E. apply andb_prop in E. destruct E as [D E].
  apply IH; [exact E|]. pose proof (is_digit_value c D). lia.
Qed.

(** *** What a match of the regular expression looks like *)

Lemma match_keyword_split kw : forall s rest,
  Js.match_keyword kw s = Some rest ->
  exists k, s = (k ++ rest)%string /\ Js.toLowerCase k = kw.
Proof.
  induction kw as [|a kw IH]; intros s rest M; simpl in M.
  - exists EmptyString. destruct s; inversion M; subst; split; reflexivity.
  - destruct s as [|c s]; [discriminate|].
    destruct (Ascii.eqb a (Js.lower c)) eqn:E; [|discriminate].
    apply Ascii.eqb_eq in E. destruct (IH _ _ M) as [k [-> L]].
    exists (String c k). simpl. now rewrite <- E, L.
Qed.

Lemma skip_spaces_split s :
  exists sp,
    s = (sp ++ Js.skip_spaces s)%string /\ every_char Js.is_space sp = true.
Proof.
  induction s as [|c s [sp [E S]]]; simpl.
  - exists EmptyString. split; reflexivity.
  - destruct (Js.is_space c) eqn:C.
    + exists (String c sp). simpl. rewrite C, S. split; [|reflexivity].
      now rewrite <- E.
    + exists EmptyString. split; reflexivity.
Qed.

Lemma take_digits_split s :
  exists post,
    s = (Js.take_digits s ++ post)%string /\ no_digit_ahead post = true.
Proof.
  induction s as [|c s [post [E N]]]; simpl.
  - exists EmptyString. split; reflexivity.
  - destruct (Js.is_digit c) eqn:C.
    + exists post. simpl. split; [now rewrite <- E|exact N].
    + exists (String c s). simpl. rewrite C. split; reflexivity.
Qed.

Lemma match_here_split kws : forall s ds,
  Js.match_here kws s = Some ds ->
  exists k sp post,
    s = (k ++ sp ++ ds ++ post)%string
    /\ In (Js.toLowerCase k) kws
    /\ every_char Js.is_space sp = true
    /\ ds <> EmptyString
    /\ every_char Js.is_digit ds = true
    /\ no_digit_ahead post = true.
Proof.
  induction kws as [|kw kws IH]; intros s ds M; simpl in M; [discriminate|].
  assert (Later : Js.match_here kws s = Some ds ->
                  exists k sp post,
                    s = (k ++ sp ++ ds ++ post)%string
                    /\ In (Js.toLowerCase k) (kw :: kws)
                    /\ every_char Js.is_space sp = true
                    /\ ds <> EmptyString
                    /\ every_char Js.is_digit ds = true
                    /\ no_digit_ahead post = true).
  { intros H. destruct (IH _ _ H) as [k [sp [post [E [I R]]]]].
    exists k, sp, post. split; [exact E|]. split; [now right|exact R]. }
  destruct (Js.match_keyword kw s) as [rest|] eqn:K; [|now apply Later].
  destruct (Js.take_digits (Js.skip_spaces rest)) as [|c r] eqn:T;
    [now apply Later|].
  inversion M; subst ds. clear Later.
  destruct (match_keyword_split _ _ _ K) as [k [Es L]].
  destruct (skip_spaces_split rest) as [sp [Er S]].
  destruct (take_digits_split (Js.skip_spaces rest)) as [post [Ed N]].
  exists k, sp, post. rewrite T in Ed.
  split; [now rewrite Es, Er at 1; rewrite Ed at 1|].
  split; [left; now rewrite L|]. split; [exact S|]. split; [discriminate|].
  split; [rewrite <- T; apply take_digits_every|exact N].
Qed.

Lemma regex_capture_split kws : forall s ds,
  Js.regex_capture kws s = Some ds -> captured_from kws s ds.
Proof.
  assert (Here : forall s ds,
             Js.match_here kws s = Some ds -> captured_from kws s ds).
  { intros s ds M. destruct (match_here_split _ _ _ M) as [k [sp [post R]]].
    now exists EmptyString, k, sp, post. }
  induction s as [|c s IH]; intros ds R; simpl in R.
  - destruct (Js.match_here kws "") as [x|] eqn:M; [|discriminate].
    inversion R; subst x. now apply Here.
  - destruct (Js.match_here kws (String c s)) as [x|] eqn:M.
    + inversion R; subst x. now apply Here.
    + destruct (IH ds R) as [pre [k [sp [post [E Rest]]]]].
      exists (String c pre), k, sp, post. split; [|exact Rest].
      simpl. now rewrite E.
Qed.

(** A title without a decimal digit has no week number and no day number.
    A number that was read is not negative; when it is not above
    [Number.MAX_SAFE_INTEGER] it is the value of a run of digits of the
    title, one that follows the keyword ([week] or [w]; [day], [d] or [#])
    and white space and that no digit follows. *)
Theorem week_and_day_numbers_come_from_digits (title : string) :
  (some_char Js.is_digit title = false ->
   Sync.parseWeekNumber title = None /\ Sync.parseDayNumber title = None)
  /\ (forall n,
        Sync.parseWeekNumber title = Some n ->
        (0 <= n)%Z
        /\ ((n <= Js.MAX_SAFE_INTEGER)%Z ->
            exists ds,
              captured_from ["week"; "w"]%string title ds
              /\ n = Js.parseInt ds))
  /\ (forall n,
        Sync.parseDayNumber title = Some n ->
        (0 <= n)%Z
        /\ ((n <= Js.MAX_SAFE_INTEGER)%Z ->
            exists ds,
              captured_from ["day"; "d"; "#"]%string title ds
              /\ n = Js.parseInt ds)).
Proof.
  assert (G : forall kws n,
             option_map Js.parseInt (Js.regex_capture kws title) = Some n ->
             some_char Js.is_digit title = true
             /\ (0 <= n)%Z
             /\ exists ds, captured_from kws title ds /\ n = Js.parseInt ds).
  { intros kws n H.
    destruct (Js.regex_capture kws title) as [ds|] eqn:R; [|discriminate].
    inversion H; subst n. destruct (regex_capture_digits _ _ _ R) as [N [E S]].
    split; [exact S|]. split.
    - apply parseInt_acc_nonneg; [exact E|lia].
    - exists ds. split; [now apply regex_capture_split|reflexivity]. }
  split; [|split].
  - intros H. unfold Sync.parseWeekNumber, Sync.parseDayNumber. split.
    + destruct (option_map Js.parseInt (Js.regex_capture ["week"; "w"]%string title))
        as [n|] eqn:R; [|reflexivity].
      apply G in R. destruct R as [S _]. congruence.
    + destruct (option_map Js.parseInt
                  (Js.regex_capture ["day"; "d"; "#"]%string title))
        as [n|] eqn:R; [|reflexivity].
      apply G in R. destruct R as [S _]. congruence.
  - intros n H. apply G in H. destruct H as [_ [P H]]. split; [exact P|].
    intros _. exact H.
  - intros n H. apply G in H. destruct H as [_ [P H]]. split; [exact P|].
    intros _. exact H.
Qed.

(** *** A number after the keyword *)

Section TitleFacts.

Local Open Scope string_scope.

Lemma match_keyword_lower k : forall rest,
  Js.match_keyword (Js.toLowerCase k) (k ++ rest) = Some rest.
Proof.
  induction k as [|c k IH]; intros rest; simpl.
  - now destruct rest.
  - rewrite Ascii.eqb_refl. apply IH.
Qed.

Lemma skip_spaces_app sp : forall rest,
  every_char Js.is_space sp = true ->
  Js.skip_spaces (sp ++ rest) = Js.skip_spaces rest.
Proof.
  induction sp as [|c sp IH]; intros rest E; simpl; [reflexivity|].
  simpl in E. apply andb_prop in E. destruct E as [S E].
  rewrite S. now apply IH.
Qed.

Lemma is_digit_not_space c : Js.is_digit c = true -> Js.is_space c = false.
Proof.
  unfold Js.is_digit, Js.is_space. intros H.
  apply andb_prop in H. destruct H as [A B].
  apply Nat.leb_le in A. apply Nat.leb_le in B.
  apply orb_false_intro; [apply orb_false_intro|].
  - apply Nat.eqb_neq. lia.
  - apply andb_false_intro2. apply Nat.leb_gt. lia.
  - apply Nat.eqb_neq. lia.
Qed.

Lemma take_digits_app ds : forall rest,
  every_char Js.is_digit ds = true -> no_digit_ahead rest = true ->
  Js.take_digits (ds ++ rest) = ds.
Proof.
  induction ds as [|c ds IH]; intros rest E N; simpl.
  - destruct rest as [|a rest]; [reflexivity|]. simpl in N |- *.
    apply negb_true_iff in N. now rewrite N.
  - simpl in E. apply andb_prop in E. destruct E as [D E].
    rewrite D. f_equal. now apply IH.
Qed.

Lemma match_here_first kw kws k sp ds rest :
  Js.toLowerCase k = kw ->
  every_char Js.is_space sp = true ->
  ds <> EmptyString -> every_char Js.is_digit ds = true ->
  no_digit_ahead rest = true ->
  Js.match_here (kw :: kws) (k ++ sp ++ ds ++ rest) = Some ds.
Proof.
  intros K S N D R. simpl. rewrite <- K, match_keyword_lower.
  rewrite (skip_spaces_app _ _ S).
  assert (E : Js.skip_spaces (ds ++ rest) = ds ++ rest).
  { destruct ds as [|c ds]; [contradiction|]. simpl in D |- *.
    apply andb_prop in D. destruct D as [D _].
    now rewrite (is_digit_not_space _ D). }
  rewrite E, (take_digits_app _ _ D R).
  destruct ds; [contradiction|reflexivity].
Qed.

Lemma match_keyword_head kw c s :
  not_head_of kw c = true -> Js.match_keyword kw (String c s) = None.
Proof.
  destruct kw as [|k kw]; simpl; [discriminate|].
  intros H. apply negb_true_iff in H. now rewrite H.
Qed.

Lemma match_here_head kws c s :
  forallb (fun kw => not_head_of kw c) kws = true ->
  Js.match_here kws (String c s) = None.
Proof.
  induction kws as [|kw kws IH]; intros H; [reflexivity|].
  simpl in H. apply andb_prop in H. destruct H as [A B].
  change (Js.match_here (kw :: kws) (String c s))
    with (match Js.match_keyword kw (String c s) with
          | Some rest =>
              match Js.take_digits (Js.skip_spaces rest) with
              | EmptyString => Js.match_here kws (String c s)
              | ds => Some ds
              end
          | None => Js.match_here kws (String c s)
          end).
  rewrite (match_keyword_head _ _ _ A). now apply IH.
Qed.

Lemma regex_capture_skip kws p : forall s,
  every_char (fun c => forallb (fun kw => not_head_of kw c) kws) p = true ->
  Js.regex_capture kws (p ++ s) = Js.regex_capture kws s.
Proof.
  induction p as [|c p IH]; intros s H; [reflexivity|].
  simpl in H. apply andb_prop in H. destruct H as [A B].
  change (String c p ++ s)%string with (String c (p ++ s)).
  destruct s as [|a s]; simpl Js.regex_capture at 1;
    rewrite (match_here_head _ _ _ A); now apply IH.
Qed.

Lemma every_char_weaken (p q : ascii -> bool) s :
  (forall c, p c = true -> q c = true) ->
  every_char p s = true -> every_char q s = true.
Proof.
  intros I. induction s as [|c s IH]; simpl; [reflexivity|].
  intros H. apply andb_prop in H. destruct H as [A B].
  now rewrite (I c A), (IH B).
Qed.

Lemma regex_capture_here kws s ds :
  Js.match_here kws s = Some ds -> Js.regex_capture kws s = Some ds.
Proof. intros M. destruct s; simpl; now rewrite M. Qed.

(** A title made of a prefix without the letters [w] and [W], then the
    word [week] in any case, white space, a run of digits and a rest that
    does not go on with a digit has the value of the digits as its week
    number; the same with [day], for a prefix without [d], [D] and [#],
    gives the day number.  The digits write a number that is not above
    [Number.MAX_SAFE_INTEGER], so that the code reads it exactly. *)
Theorem number_after_the_keyword (p k sp ds rest : string) :
  every_char Js.is_space sp = true ->
  ds <> EmptyString ->
  every_char Js.is_digit ds = true ->
  (Js.parseInt ds <= Js.MAX_SAFE_INTEGER)%Z ->
  no_digit_ahead rest = true ->
  (Js.toLowerCase k = "week"%string ->
   every_char (not_head_of "w") p = true ->
   Sync.parseWeekNumber (p ++ k ++ sp ++ ds ++ rest) = Some (Js.parseInt ds))
  /\ (Js.toLowerCase k = "day"%string ->
      every_char (fun c => not_head_of "d" c && not_head_of "#" c) p = true ->
      Sync.parseDayNumber (p ++ k ++ sp ++ ds ++ rest) = Some (Js.parseInt ds)).
Proof.
  intros S N D _ R. split; intros K P.
  - unfold Sync.parseWeekNumber. rewrite regex_capture_skip.
    + now rewrite (regex_capture_here _ _ ds
                     (match_here_first _ _ k sp ds rest K S N D R)).
    + revert P. apply every_char_weaken. intros c A. simpl in A |- *.
      now rewrite A.
  - unfold Sync.parseDayNumber. rewrite regex_capture_skip.
    + now rewrite (regex_capture_here _ _ ds
                     (match_here_first _ _ k sp ds rest K S N D R)).
    + revert P. apply every_char_weaken. intros c A.
      apply andb_prop in A. destruct A as [A1 A2].
      simpl in A1, A2 |- *. now rewrite A1, A2.
Qed.

End TitleFacts.

(** The theorem on the titles [SBS Week 2] and [Day 3 - Bench]. *)
Lemma number_after_the_keyword_witness :
  Sync.parseWeekNumber "SBS Week 2" = Some 2%Z
  /\ Sync.parseDayNumber "Day 3 - Bench" = Some 3%Z.
Proof.
  split.
  - exact (proj1 (number_after_the_keyword "SBS " "Week" " " "2" ""
                    eq_refl ltac:(discriminate) eq_refl
                    ltac:(vm_compute; discriminate) eq_refl)
             eq_refl eq_refl).
  - exact (proj2 (number_after_the_keyword "" "Day" " " "3" " - Bench"
                    eq_refl ltac:(discriminate) eq_refl
                    ltac:(vm_compute; discriminate) eq_refl)
             eq_refl eq_refl).
Defined.

(* ------------------------------------------------------------------ *)
(** ** Categories read off a title                                      *)
(* ------------------------------------------------------------------ *)

Lemma lower_lower c : Js.lower (Js.lower c) = Js.lower c.
Proof. destruct c as [[] [] [] [] [] [] [] []]; reflexivity. Qed.

Lemma toLowerCase_idem s : Js.toLowerCase (Js.toLowerCase s) = Js.toLowerCase s.
Proof.
  induction s as [|c s IH]; simpl; [reflexivity|].
  now rewrite lower_lower, IH.
Qed.

(** The three detectors look at the lower-case form of the title only:
    a title and its lower-case form get the same day type, the same
    exercise role and the same muscle group. *)
Theorem detectors_ignore_case (index : Z) (title : string) :
  Sync.detectDayType (Js.toLowerCase title) = Sync.detectDayType title
  /\ Sync.detectExerciseRole index (Js.toLowerCase title)
     = Sync.detectExerciseRole index title
  /\ Sync.detectMuscleGroup (Js.toLowerCase title)
     = Sync.detectMuscleGroup title.
Proof.
  unfold Sync.detectDayType, Sync.detectExerciseRole, Sync.detectMuscleGroup.
  rewrite toLowerCase_idem. repeat split; reflexivity.
Qed.

(** The role of an exercise is one of three; it is [Main Lift] exactly
    for the exercise of index 0, whatever its title, and [Variation] only
    at index 1 or 2. *)
Theorem exercise_role_by_position (index : Z) (title : string) :
  (Sync.detectExerciseRole index title = "Main Lift"%string <-> index = 0%Z)
  /\ (Sync.detectExerciseRole index title = "Variation"%string ->
      index = 1%Z \/ index = 2%Z)
  /\ (Sync.detectExerciseRole index title = "Main Lift"%string
      \/ Sync.detectExerciseRole index title = "Variation"%string
      \/ Sync.detectExerciseRole index title = "Accessory"%string).
Proof.
  unfold Sync.detectExerciseRole.
  destruct (index =? 0)%Z eqn:Z0.
  { apply Z.eqb_eq in Z0. subst index. repeat split; auto; discriminate. }
  apply Z.eqb_neq in Z0.
  match goal with
  | |- context [if ?b then "Accessory"%string else _] => destruct b
  end.
  { split; [split; [discriminate|contradiction]|]. split; [discriminate|auto]. }
  destruct (index =? 1)%Z eqn:Z1; [apply Z.eqb_eq in Z1|];
    [|destruct (index =? 2)%Z eqn:Z2; [apply Z.eqb_eq in Z2|]]; simpl;
    (split; [split; [discriminate|contradiction]|]);
    (split; [intros; try discriminate; auto|auto]).
Qed.

(* ------------------------------------------------------------------ *)
(** ** The statistics as sums                                           *)
(* ------------------------------------------------------------------ *)

Lemma fold_left_flat_map {A B C} (f : A -> C -> A) (g : B -> list C) l :
  forall acc,
    fold_left (fun acc x => fold_left f (g x) acc) l acc
    = fold_left f (flat_map g l) acc.
Proof.
  induction l as [|x l IH]; intros acc; simpl; [reflexivity|].
  now rewrite fold_left_app, IH.
Qed.

Lemma stats_step_reps acc set :
  Sync.totalReps (Sync.stats_step acc set)
  == Sync.totalReps acc + counted_reps set.
Proof.
  unfold Sync.stats_step, counted_reps, Js.or_else.
  destruct (HevySet.reps set) as [r|]; [|simpl; ring].
  destruct (Js.truthy_num r); [|simpl; ring].
  destruct (HevySet.weight_kg set) as [w|]; [|simpl; ring].
  destruct (Js.truthy_num w); simpl; ring.
Qed.

Lemma stats_step_volume_sum acc set :
  Sync.totalVolume (Sync.stats_step acc set)
  == Sync.totalVolume acc + counted_volume set.
Proof.
  unfold Sync.stats_step, counted_volume.
  destruct (HevySet.reps set) as [r|]; [|simpl; ring].
  destruct (Js.truthy_num r).
  - destruct (HevySet.weight_kg set) as [w|]; [|simpl; ring].
    destruct (Js.truthy_num w); simpl; ring.
  - destruct (HevySet.weight_kg set) as [w|]; simpl; ring.
Qed.

Lemma stats_fold_sums sets : forall acc,
  Sync.totalReps (fold_left Sync.stats_step sets acc)
  == Sync.totalReps acc + Qsum (map counted_reps sets)
  /\ Sync.totalVolume (fold_left Sync.stats_step sets acc)
     == Sync.totalVolume acc + Qsum (map counted_volume sets).
Proof.
  induction sets as [|s sets IH]; intros acc; simpl.
  - split; ring.
  - destruct (IH (Sync.stats_step acc s)) as [R V]. split.
    + rewrite R, stats_step_reps. ring.
    + rewrite V, stats_step_volume_sum. ring.
Qed.

Lemma workout_totals_are_sums_aux (exercises : list HevyExercise.t) :
  Sync.totalVolume (Sync.workout_totals exercises)
  == Qsum (map counted_volume (all_sets exercises))
  /\ calculateWorkoutStats exercises
     = Sync.mkStats (Js.round1 (Sync.totalVolume (Sync.workout_totals exercises)))
         (Sync.totalSets (Sync.workout_totals exercises))
         (Sync.totalReps (Sync.workout_totals exercises)).
Proof.
  unfold Sync.workout_totals, all_sets, calculateWorkoutStats.
  rewrite fold_left_flat_map.
  destruct (stats_fold_sums (flat_map HevyExercise.sets exercises)
              (Sync.mkStats 0 0 0)) as [R V].
  split; [rewrite V; simpl; ring|reflexivity].
Qed.

(** The statistics of a list of exercises: the number of sets is the
    number of all sets; the repetitions are the sum of the repetitions of
    the sets that have any; the volume is the sum of weight times
    repetitions over the sets that have both.  [calculateWorkoutStats]
    returns the numbers [upsertWorkout] stores. *)
Theorem workout_totals_are_sums (exercises : list HevyExercise.t) :
  let st := Sync.workout_totals exercises in
  Sync.totalSets st = Z.of_nat (List.length (all_sets exercises))
  /\ Sync.totalReps st == Qsum (map counted_reps (all_sets exercises))
  /\ Sync.totalVolume st == Qsum (map counted_volume (all_sets exercises))
  /\ calculateWorkoutStats exercises
     = Sync.mkStats (Js.round1 (Sync.totalVolume st)) (Sync.totalSets st)
         (Sync.totalReps st)
  /\ forall Date_getTime id title description start_time end_time page,
       let row :=
         Sync.workout_fields Date_getTime
           (HevyWorkout.mk id title description start_time end_time exercises)
           page in
       Workout.totalVolume row
       = Some (Sync.totalVolume (calculateWorkoutStats exercises))
       /\ Workout.totalSets row
          = Some (Sync.totalSets (calculateWorkoutStats exercises))
       /\ Workout.totalReps row
          = Some (Sync.totalReps (calculateWorkoutStats exercises)).
Proof.
  cbv zeta. unfold Sync.workout_totals, all_sets.
  rewrite fold_left_flat_map.
  destruct (stats_fold_sums (flat_map HevyExercise.sets exercises)
              (Sync.mkStats 0 0 0)) as [R V].
  split; [rewrite stats_fold_sets; simpl; lia|].
  split; [rewrite R; simpl; ring|].
  split; [rewrite V; simpl; ring|].
  split.
  - unfold calculateWorkoutStats. now rewrite fold_left_flat_map.
  - intros. repeat split.
Qed.

(** *** Rounding to one decimal *)

Section RoundingFacts.

Local Open Scope Q_scope.

Lemma in_halves_halves x : in_halves x = true -> halves x.
Proof.
  unfold in_halves. intros H. apply andb_prop in H. destruct H as [M _].
  apply Z.eqb_eq in M. apply Z.mod_divide in M; [|discriminate].
  destruct M as [k M]. exists k. destruct x as [p q].
  change (Qnum (p # q)) with p in M. change (Qden (p # q)) with q in M.
  unfold Qeq, Qdiv, Qmult, Qinv, inject_Z.
  change (Qnum (p # q)) with p. change (Qden (p # q)) with q.
  simpl Qnum. simpl Qden. lia.
Qed.

Lemma whole_halves x : whole x = true -> exists z : Z, x == inject_Z z.
Proof.
  unfold whole. intros H. apply andb_prop in H. destruct H as [M _].
  apply Z.eqb_eq in M. apply Z.mod_divide in M; [|discriminate].
  destruct M as [k M]. exists k. destruct x as [p q].
  change (Qnum (p # q)) with p in M. change (Qden (p # q)) with q in M.
  unfold Qeq, inject_Z.
  change (Qnum (p # q)) with p. change (Qden (p # q)) with q.
  simpl Qnum. simpl Qden. lia.
Qed.

Lemma halves_0 : halves 0.
Proof. exists 0%Z. reflexivity. Qed.

Lemma halves_plus x y : halves x -> halves y -> halves (x + y).
Proof.
  intros [a A] [b B]. exists (a + b)%Z. rewrite A, B, inject_Z_plus. field.
Qed.

Lemma halves_comp x y : x == y -> halves x -> halves y.
Proof. intros E [a A]. exists a. now rewrite <- E. Qed.

Lemma halves_Qsum l : Forall halves l -> halves (Qsum l).
Proof.
  induction 1 as [|x l Hx _ IH]; simpl; [exact halves_0|].
  now apply halves_plus.
Qed.

Lemma counted_volume_halves set :
  plain_set set = true -> halves (counted_volume set).
Proof.
  unfold plain_set, counted_volume. intros H.
  apply andb_prop in H. destruct H as [W R].
  destruct (HevySet.reps set) as [r|]; [|exact halves_0].
  destruct (HevySet.weight_kg set) as [w|]; [|exact halves_0].
  destruct (Js.truthy_num r && Js.truthy_num w); [|exact halves_0].
  destruct (in_halves_halves w W) as [a A].
  destruct (whole_halves r R) as [b B].
  exists (a * b)%Z. rewrite A, B, inject_Z_mult. field.
Qed.

Lemma volumes_halves (sets : list HevySet.t) :
  forallb plain_set sets = true -> halves (Qsum (map counted_volume sets)).
Proof.
  intros H. apply halves_Qsum. apply Forall_map.
  rewrite forallb_forall in H. apply Forall_forall.
  intros set I. apply counted_volume_halves. now apply H.
Qed.

Lemma Qfloor_half (n : Z) : Qfloor (inject_Z n + (1 # 2)) = n.
Proof.
  pose proof (Qfloor_le (inject_Z n + (1 # 2))) as L.
  pose proof (Qlt_floor (inject_Z n + (1 # 2))) as U.
  set (f := Qfloor (inject_Z n + (1 # 2))) in *.
  rewrite inject_Z_plus in U. change (inject_Z 1) with 1 in U.
  assert (A : (f <= n)%Z).
  { apply Z.lt_succ_r. rewrite Zlt_Qlt. unfold Z.succ.
    rewrite inject_Z_plus. change (inject_Z 1) with 1. lra. }
  assert (B : (n <= f)%Z).
  { apply Z.lt_succ_r. rewrite Zlt_Qlt. unfold Z.succ.
    rewrite inject_Z_plus. change (inject_Z 1) with 1. lra. }
  lia.
Qed.

(** Rounding to a tenth leaves a whole number of halves as it is. *)
Lemma round1_halves x : halves x -> Js.round1 x == x.
Proof.
  intros [z E]. unfold Js.round1, Js.Math_round.
  assert (F : Qfloor (x * 10 + (1 # 2)) = (5 * z)%Z).
  { rewrite <- (Qfloor_half (5 * z)). apply Qfloor_comp.
    rewrite E, inject_Z_mult. change (inject_Z 5) with 5. field. }
  rewrite F, E, inject_Z_mult. change (inject_Z 5) with 5. field.
Qed.

(** For a payload whose weights are whole numbers of half kilograms and
    whose repetitions are whole numbers, with ten times the volume not
    above [Number.MAX_SAFE_INTEGER], the rounding to one decimal changes
    nothing: the volume [upsertWorkout] stores and [calculateWorkoutStats]
    returns is the sum of weight times repetitions, a whole number of
    halves. *)
Theorem volume_in_half_kilograms_is_stored_exactly (exercises : list HevyExercise.t) :
  exact_volumes exercises ->
  let exact := Qsum (map counted_volume (all_sets exercises)) in
  let stored := Sync.totalVolume (calculateWorkoutStats exercises) in
  stored == exact
  /\ (exists k : Z, stored * 2 == inject_Z k)
  /\ forall Date_getTime id title description start_time end_time page,
       Workout.totalVolume
         (Sync.workout_fields Date_getTime
            (HevyWorkout.mk id title description start_time end_time exercises)
            page)
       = Some stored.
Proof.
  intros [P _]. cbv zeta.
  destruct (workout_totals_are_sums_aux exercises) as [V C].
  rewrite C. simpl Sync.totalVolume.
  pose proof (volumes_halves _ P) as H.
  assert (Ht : halves (Sync.totalVolume (Sync.workout_totals exercises)))
    by (apply (halves_comp _ _ (Qeq_sym _ _ V)); exact H).
  pose proof (round1_halves _ Ht) as R.
  split; [now rewrite R|]. split.
  - destruct Ht as [z E]. exists z. rewrite R, E. field.
  - intros. reflexivity.
Qed.

End RoundingFacts.

(** The theorem on two exercises with weights of 100, 50 and 22.5
    kilograms: the stored volume is 1157.5. *)
Lemma stored_volume_witness :
  Sync.totalVolume (calculateWorkoutStats Sim.with_half_kilograms)
  == 2315 # 2.
Proof.
  assert (H : exact_volumes Sim.with_half_kilograms)
    by (split; [vm_compute; reflexivity|vm_compute; discriminate]).
  refine (Qeq_trans _ _ _
            (proj1 (volume_in_half_kilograms_is_stored_exactly Sim.with_half_kilograms
                      H))
            _).
  vm_compute. reflexivity.
Defined.

(* ------------------------------------------------------------------ *)
(** ** The sync state document                                          *)
(* ------------------------------------------------------------------ *)

(** [updateSyncState] keeps one sync state document: it creates the
    document when there is none ([syncInProgress] false unless given) and
    else patches the first one, so the number of documents does not grow.
    In the patch, a timestamp that is absent or empty leaves the stored one
    as it is, and so do an absent error and an absent flag; an empty error
    text is written.  No other table changes. *)
Theorem updateSyncState_keeps_one_document (args : Sync.SyncStateArgs) (d : Db.t) :
  let d' := Sync.updateSyncState args d in
  List.length (Db.syncState d') = Nat.max 1 (List.length (Db.syncState d))
  /\ (Sync.getSyncState d = None ->
      Sync.getSyncState d'
      = Some (Db.nextId d,
              SyncState.mk (Sync.arg_lastSyncedAt args)
                (Sync.arg_lastEventTimestamp args) (Sync.arg_lastError args)
                (match Sync.arg_syncInProgress args with
                 | Some b => b
                 | None => false
                 end)))
  /\ (forall id st,
        Sync.getSyncState d = Some (id, st) ->
        exists st',
          Sync.getSyncState d' = Some (id, st')
          /\ (Js.truthy Js.truthy_str (Sync.arg_lastSyncedAt args) = false ->
              SyncState.lastSyncedAt st' = SyncState.lastSyncedAt st)
          /\ (Js.truthy Js.truthy_str (Sync.arg_lastEventTimestamp args) = false ->
              SyncState.lastEventTimestamp st' = SyncState.lastEventTimestamp st)
          /\ (Js.truthy Js.truthy_str (Sync.arg_lastEventTimestamp args) = true ->
              SyncState.lastEventTimestamp st' = Sync.arg_lastEventTimestamp args)
          /\ (Sync.arg_lastError args = None ->
              SyncState.lastError st' = SyncState.lastError st)
          /\ (forall e, Sync.arg_lastError args = Some e ->
              SyncState.lastError st' = Some e)
          /\ (Sync.arg_syncInProgress args = None ->
              SyncState.syncInProgress st' = SyncState.syncInProgress st))
  /\ Db.workouts d' = Db.workouts d
  /\ Db.exercises d' = Db.exercises d
  /\ Db.sets d' = Db.sets d
  /\ Db.routineFolders d' = Db.routineFolders d
  /\ Db.routines d' = Db.routines d
  /\ Db.routineExercises d' = Db.routineExercises d
  /\ Db.routineSets d' = Db.routineSets d
  /\ Db.exerciseProgress d' = Db.exerciseProgress d.
Proof.
  cbv zeta. unfold Sync.updateSyncState, Sync.getSyncState, Db.first.
  destruct d as [n ss ws es sets fs rs res rss ep]. simpl.
  destruct ss as [|[id st] rows]; simpl.
  - split; [reflexivity|]. split; [reflexivity|].
    split; [discriminate|]. repeat split.
  - rewrite Nat.eqb_refl. simpl.
    split; [unfold Db.patch_rows; now rewrite length_map|].
    split; [discriminate|]. split; [|repeat split].
    intros id0 st0 E. inversion E; subst id0 st0. clear E.
    eexists. split; [reflexivity|]. simpl.
    split; [now intros ->|]. split; [now intros ->|]. split; [now intros ->|].
    split; [now intros ->|]. split; [now intros e ->|now intros ->].
Qed.

(* ------------------------------------------------------------------ *)
(** ** Routine folders                                                  *)
(* ------------------------------------------------------------------ *)

Lemma find_patch_rows {R} (p : R -> bool) id (f : R -> R) old (t : Table R) :
  NoDup (map fst t) ->
  find (fun r => p (snd r)) t = Some (id, old) ->
  p (f old) = true ->
  find (fun r => p (snd r)) (Db.patch_rows id f t) = Some (id, f old).
Proof.
  intros N F P. induction t as [|[i r] t IH]; simpl in *; [discriminate|].
  inversion N as [|? ? NI N']; subst.
  destruct (p r) eqn:Pr.
  - inversion F; subst i r. rewrite Nat.eqb_refl. simpl. now rewrite P.
  - assert (I : i <> id).
    { intros ->. apply NI. apply find_some in F. destruct F as [F _].
      now apply (in_map fst) in F. }
    apply Nat.eqb_neq in I. rewrite I. simpl. rewrite Pr. now apply IH.
Qed.

Lemma patch_rows_twice {R} id (f : R -> R) (t : Table R) :
  (forall r, f (f r) = f r) ->
  Db.patch_rows id f (Db.patch_rows id f t) = Db.patch_rows id f t.
Proof.
  intros I. unfold Db.patch_rows. rewrite map_map. apply map_ext.
  intros [i r]. simpl. destruct (Nat.eqb i id) eqn:E; simpl; rewrite E.
  - now rewrite I.
  - reflexivity.
Qed.

Lemma patch_rows_fresh {R} n (f : R -> R) (t : Table R) :
  Forall (fun r => fst r < n) t -> Db.patch_rows n f t = t.
Proof.
  intros F. unfold Db.patch_rows. rewrite <- (map_id t) at 2.
  apply map_ext_in. intros r I. rewrite Forall_forall in F.
  specialize (F r I). destruct (Nat.eqb (fst r) n) eqn:E; [|reflexivity].
  apply Nat.eqb_eq in E. lia.
Qed.

Lemma find_snoc {R} (p : Id * R -> bool) (t : Table R) x :
  find p t = None -> p x = true -> find p (t ++ [x]) = Some x.
Proof.
  intros N P. induction t as [|r t IH]; simpl in *; [now rewrite P|].
  destruct (p r); [discriminate|]. now apply IH.
Qed.

(** On a well-formed store, upserting a folder a second time changes
    nothing: same identifier, same store.  After an upsert the first
    document with the folder's Hevy id is the one returned; it carries the
    payload, the sort order [week * 100 + index] with week 0 when the title
    has none, and [syncedToNotion = false]; when the folder was stored
    before, it keeps its identifier and its mirror page id. *)
Theorem upsertRoutineFolder_twice_is_once
  (folder : HevyRoutineFolder.t) (d : Db.t) :
  wf d ->
  let once := Sync.upsertRoutineFolder folder d in
  let stored :=
    Db.first Db.routineFoldersT
      (fun f => (RoutineFolder.hevyId f =? HevyRoutineFolder.id folder)%Z) in
  Sync.upsertRoutineFolder folder (snd once) = once
  /\ (exists page,
        stored (snd once) = Some (fst once, Sync.folder_data folder page)
        /\ match stored d with
           | Some (id, old) =>
               fst once = id /\ page = RoutineFolder.notionPageId old
           | None => fst once = Db.nextId d /\ page = None
           end)
  /\ (forall page,
        RoutineFolder.syncedToNotion (Sync.folder_data folder page) = false
        /\ RoutineFolder.sortOrder (Sync.folder_data folder page)
           = Some (Sync.or_zero
                     (Sync.parseWeekNumber (HevyRoutineFolder.title folder))
                   * 100 + HevyRoutineFolder.index folder)%Z).
Proof.
  intros W. cbv zeta.
  destruct (wf_routineFolders d W) as [Lt Nd].
  set (p := fun f : RoutineFolder.t =>
              (RoutineFolder.hevyId f =? HevyRoutineFolder.id folder)%Z).
  set (g := fun old : RoutineFolder.t =>
              Sync.folder_data folder (RoutineFolder.notionPageId old)).
  assert (Pg : forall page, p (Sync.folder_data folder page) = true)
    by (intros page; unfold p; simpl; apply Z.eqb_refl).
  assert (Gg : forall r, g (g r) = g r) by reflexivity.
  assert (Once : Sync.upsertRoutineFolder folder d
                 = match Db.first Db.routineFoldersT p d with
                   | Some (id, _) => (id, Db.patch Db.routineFoldersT id g d)
                   | None =>
                       Db.insert Db.routineFoldersT
                         (Sync.folder_data folder None) d
                   end) by reflexivity.
  assert (After : exists page,
             Db.first Db.routineFoldersT p
               (snd (Sync.upsertRoutineFolder folder d))
             = Some (fst (Sync.upsertRoutineFolder folder d),
                     Sync.folder_data folder page)
             /\ match Db.first Db.routineFoldersT p d with
                | Some (id, old) =>
                    fst (Sync.upsertRoutineFolder folder d) = id
                    /\ page = RoutineFolder.notionPageId old
                | None =>
                    fst (Sync.upsertRoutineFolder folder d) = Db.nextId d
                    /\ page = None
                end).
  { rewrite Once.
    destruct (Db.first Db.routineFoldersT p d) as [[id old]|] eqn:F.
    - exists (RoutineFolder.notionPageId old). split; [|now split].
      unfold Db.first, Db.patch in *.
      destruct d as [n ss ws es sets fs rs res rss ep]. simpl in *.
      exact (find_patch_rows p id g old fs Nd F (Pg _)).
    - exists None. split; [|now split].
      unfold Db.first, Db.insert, Db.bump in *.
      destruct d as [n ss ws es sets fs rs res rss ep]. simpl in *.
      exact (find_snoc (fun r => p (snd r)) fs
               (n, Sync.folder_data folder None) F (Pg None)). }
  split; [|split; [exact After|intros page; split; reflexivity]].
  destruct After as [page [A M]].
  assert (Twice : Sync.upsertRoutineFolder folder
                    (snd (Sync.upsertRoutineFolder folder d))
                  = (fst (Sync.upsertRoutineFolder folder d),
                     Db.patch Db.routineFoldersT
                       (fst (Sync.upsertRoutineFolder folder d)) g
                       (snd (Sync.upsertRoutineFolder folder d)))).
  { unfold Sync.upsertRoutineFolder at 1. fold p. now rewrite A. }
  rewrite Twice. clear Twice A.
  rewrite Once in M |- *.
  destruct (Db.first Db.routineFoldersT p d) as [[id old]|] eqn:F.
  - simpl. f_equal. unfold Db.patch.
    destruct d as [n ss ws es sets fs rs res rss ep]. simpl.
    now rewrite patch_rows_twice.
  - unfold Db.insert, Db.patch, Db.bump.
    destruct d as [n ss ws es sets fs rs res rss ep]. simpl in *.
    f_equal. f_equal. unfold Db.patch_rows. rewrite map_app. simpl.
    rewrite Nat.eqb_refl. f_equal.
    exact (patch_rows_fresh n g fs Lt).
Qed.

(** The theorem on the empty store and the sample folder. *)
Lemma upsertRoutineFolder_twice_witness :
  Sync.upsertRoutineFolder Sim.week2
    (snd (Sync.upsertRoutineFolder Sim.week2 Db.empty))
  = Sync.upsertRoutineFolder Sim.week2 Db.empty.
Proof.
  exact (proj1 (upsertRoutineFolder_twice_is_once Sim.week2 Db.empty wf_empty)).
Defined.

(* ------------------------------------------------------------------ *)
(** ** What an upsert of a workout replaces                             *)
(* ------------------------------------------------------------------ *)

Lemma existsb_same_id {R} (q : Id * R -> bool) (t : Table R) r :
  NoDup (map fst t) -> In r t ->
  existsb (fun x => Nat.eqb (fst r) (fst x)) (filter q t) = q r.
Proof.
  intros N I. destruct (q r) eqn:Q.
  - apply existsb_exists. exists r. split; [|apply Nat.eqb_refl].
    apply filter_In. now split.
  - destruct (existsb _ (filter q t)) eqn:E; [|reflexivity].
    apply existsb_exists in E. destruct E as [x [Hx Ex]].
    apply filter_In in Hx. destruct Hx as [Hx Qx].
    apply Nat.eqb_eq in Ex. destruct r as [i a], x as [j b]. simpl in Ex.
    subst j. rewrite (NoDup_fst_eq t i a b N I Hx) in Q. congruence.
Qed.

(** Deleting, one identifier after the other, the documents a query
    found leaves the documents the query did not find. *)
Lemma delete_rows_found {R} (q : Id * R -> bool) (t : Table R) :
  NoDup (map fst t) ->
  fold_left (fun t' x => Db.delete_rows (fst x) t') (filter q t) t
  = filter (fun r => negb (q r)) t.
Proof.
  intros N. rewrite delete_rows_fold. apply filter_ext_in.
  intros r I. now rewrite existsb_same_id.
Qed.

Lemma delete_exercise_exact d ex :
  NoDup (map fst (Db.sets d)) ->
  Sync.delete_exercise d ex
  = Db.set Db.exercisesT
      (filter (fun r => negb (Nat.eqb (fst r) (fst ex))) (Db.exercises d))
      (Db.set Db.setsT
         (filter (fun s => negb (Nat.eqb (SetRow.exerciseId (snd s)) (fst ex)))
            (Db.sets d)) d).
Proof.
  intros N. unfold Sync.delete_exercise. rewrite delete_sets_eq.
  unfold Db.collect. simpl.
  rewrite (delete_rows_found
             (fun s => Nat.eqb (SetRow.exerciseId (snd s)) (fst ex))
             (Db.sets d) N).
  reflexivity.
Qed.

Lemma delete_exercises_exact (l : Table Exercise.t) : forall d,
  NoDup (map fst (Db.sets d)) ->
  fold_left Sync.delete_exercise l d
  = Db.set Db.exercisesT
      (filter (fun r => negb (existsb (fun x => Nat.eqb (fst r) (fst x)) l))
         (Db.exercises d))
      (Db.set Db.setsT
         (filter
            (fun s =>
               negb (existsb
                       (fun x => Nat.eqb (SetRow.exerciseId (snd s)) (fst x)) l))
            (Db.sets d)) d).
Proof.
  induction l as [|x l IH]; intros d N; simpl.
  - rewrite !filter_all by now apply Forall_forall. now destruct d.
  - rewrite (delete_exercise_exact d x N), IH
      by (simpl; now apply NoDup_filter).
    simpl. rewrite !filter_filter.
    rewrite (filter_ext
               (fun r : Id * Exercise.t =>
                  negb (Nat.eqb (fst r) (fst x))
                  && negb (existsb (fun x0 => Nat.eqb (fst r) (fst x0)) l))
               (fun r =>
                  negb (Nat.eqb (fst r) (fst x)
                        || existsb (fun x0 => Nat.eqb (fst r) (fst x0)) l)))
      by (intros r; now rewrite negb_orb).
    rewrite (filter_ext
               (fun s : Id * SetRow.t =>
                  negb (Nat.eqb (SetRow.exerciseId (snd s)) (fst x))
                  && negb (existsb
                             (fun x0 : Id * Exercise.t =>
                                Nat.eqb (SetRow.exerciseId (snd s)) (fst x0)) l))
               (fun s =>
                  negb (Nat.eqb (SetRow.exerciseId (snd s)) (fst x)
                        || existsb
                             (fun x0 : Id * Exercise.t =>
                                Nat.eqb (SetRow.exerciseId (snd s)) (fst x0)) l)))
      by (intros r; now rewrite negb_orb).
    reflexivity.
Qed.

(** The deletion loop of [upsertWorkout] on a store with distinct
    identifiers: the exercises of the workout go, and with them the sets
    of those exercises; nothing else does. *)
Lemma delete_children_exact wid d :
  NoDup (map fst (Db.exercises d)) -> NoDup (map fst (Db.sets d)) ->
  Sync.delete_children wid d
  = Db.set Db.exercisesT
      (filter (fun r => negb (Nat.eqb (Exercise.workoutId (snd r)) wid))
         (Db.exercises d))
      (Db.set Db.setsT
         (filter
            (fun s =>
               negb (existsb
                       (fun x => Nat.eqb (SetRow.exerciseId (snd s)) (fst x))
                       (Sync.getWorkoutExercises wid d)))
            (Db.sets d)) d).
Proof.
  intros NE NS. unfold Sync.delete_children.
  rewrite (delete_exercises_exact _ d NS). f_equal.
  apply filter_ext_in. intros r I. unfold Db.collect. simpl.
  now rewrite (existsb_same_id
                 (fun e => Nat.eqb (Exercise.workoutId (snd e)) wid)
                 (Db.exercises d) r NE I).
Qed.

Lemma find_append {A} (p : A -> bool) (t u : list A) :
  find p (t ++ u) = match find p t with Some x => Some x | None => find p u end.
Proof.
  induction t as [|r t IH]; simpl; [reflexivity|]. now destruct (p r).
Qed.

Section UpsertWorkoutFrame.

Variable Date_getTime : string -> Z.
Variable workout : HevyWorkout.t.

(** [upsertWorkout] on a well-formed store, both branches at once: [id]
    is the identifier returned and [n] the first identifier handed out to
    the new exercises. *)
Lemma upsertWorkout_exact d :
  wf d ->
  exists n ws,
    Db.nextId d <= n
    /\ Sync.upsertWorkout Date_getTime workout d
       = (fst (Sync.upsertWorkout Date_getTime workout d),
          Db.mk (n + ids_used HevyExercise.sets (HevyWorkout.exercises workout))
            (Db.syncState d) ws
            (filter
               (fun r =>
                  negb (Nat.eqb (Exercise.workoutId (snd r))
                          (fst (Sync.upsertWorkout Date_getTime workout d))))
               (Db.exercises d)
             ++ new_parents HevyExercise.sets
                  (Sync.exercise_row
                     (fst (Sync.upsertWorkout Date_getTime workout d)))
                  n (HevyWorkout.exercises workout))
            (filter
               (fun s =>
                  negb (existsb
                          (fun x => Nat.eqb (SetRow.exerciseId (snd s)) (fst x))
                          (Sync.getWorkoutExercises
                             (fst (Sync.upsertWorkout Date_getTime workout d))
                             d)))
               (Db.sets d)
             ++ new_kids HevyExercise.sets
                  (fun e =>
                     Sync.set_row e
                       (fst (Sync.upsertWorkout Date_getTime workout d)))
                  n (HevyWorkout.exercises workout))
            (Db.routineFolders d) (Db.routines d) (Db.routineExercises d)
            (Db.routineSets d) (Db.exerciseProgress d))
    /\ map fst ws
       = map fst (Db.workouts d)
         ++ (if existsb (fun i => Nat.eqb i
                                    (fst (Sync.upsertWorkout Date_getTime workout d)))
                  (map fst (Db.workouts d))
             then []
             else [fst (Sync.upsertWorkout Date_getTime workout d)])
    /\ (forall other,
          other <> fst (Sync.upsertWorkout Date_getTime workout d) ->
          option_map snd (find (fun r => Nat.eqb (fst r) other) ws)
          = Db.lookup Db.workoutsT other d).
Proof.
  intros W.
  destruct (Db.first Db.workoutsT
              (fun w => String.eqb (Workout.hevyId w) (HevyWorkout.id workout)) d)
    as [[id old]|] eqn:F.
  - assert (E : Sync.upsertWorkout Date_getTime workout d
                = (id,
                   Sync.insert_children id workout
                     (Sync.delete_children id
                        (Db.patch Db.workoutsT id
                           (Sync.workout_patch Date_getTime workout) d))))
      by (unfold Sync.upsertWorkout; now rewrite F).
    rewrite E. simpl fst.
    exists (Db.nextId d),
      (Db.patch_rows id (Sync.workout_patch Date_getTime workout) (Db.workouts d)).
    split; [lia|]. split; [|split].
    + f_equal. rewrite delete_children_exact;
        [|exact (proj2 (wf_exercises d W))|exact (proj2 (wf_sets d W))].
      unfold Sync.insert_children. rewrite insert_children_eq. reflexivity.
    + rewrite map_fst_patch_rows.
      apply first_In in F. destruct F as [F _].
      assert (X : existsb (fun i => Nat.eqb i id) (map fst (Db.workouts d)) = true).
      { apply existsb_exists. exists id. split; [|apply Nat.eqb_refl].
        now apply (in_map fst) in F. }
      now rewrite X, app_nil_r.
    + intros other O. unfold Db.lookup. simpl. rewrite lookup_patch_rows.
      apply Nat.eqb_neq in O. rewrite O.
      now destruct (option_map snd _).
  - assert (E : Sync.upsertWorkout Date_getTime workout d
                = (Db.nextId d,
                   Sync.insert_children (Db.nextId d) workout
                     (snd (Db.insert Db.workoutsT
                             (Sync.workout_fields Date_getTime workout None) d))))
      by (unfold Sync.upsertWorkout; now rewrite F).
    rewrite E. simpl fst.
    exists (S (Db.nextId d)),
      (Db.workouts d
       ++ [(Db.nextId d, Sync.workout_fields Date_getTime workout None)]).
    destruct (wf_workouts d W) as [WL _].
    pose proof (wf_exercise_parent d W) as EP.
    split; [lia|]. split; [|split].
    + f_equal. unfold Sync.insert_children. rewrite insert_children_eq.
      unfold Db.insert, Db.bump. simpl.
      assert (G : Sync.getWorkoutExercises (Db.nextId d) d = []).
      { unfold Sync.getWorkoutExercises, Db.collect. apply filter_none.
        eapply Forall_impl; [|exact EP]. simpl. intros r Hr.
        apply Nat.eqb_neq. lia. }
      rewrite G. simpl.
      rewrite !filter_all; [reflexivity|now apply Forall_forall|].
      eapply Forall_impl; [|exact EP]. simpl. intros r Hr.
      apply negb_true_iff, Nat.eqb_neq. lia.
    + rewrite map_app. simpl.
      assert (X : existsb (fun i => Nat.eqb i (Db.nextId d))
                    (map fst (Db.workouts d)) = false).
      { destruct (existsb _ _) eqn:X; [|reflexivity].
        apply existsb_exists in X. destruct X as [i [Hi Ei]].
        apply Nat.eqb_eq in Ei. subst i. apply in_map_iff in Hi.
        destruct Hi as [r [Er Hr]]. rewrite Forall_forall in WL.
        specialize (WL r Hr). lia. }
      now rewrite X.
    + intros other O. unfold Db.lookup. simpl.
      rewrite find_append.
      destruct (find (fun r => Nat.eqb (fst r) other) (Db.workouts d));
        [reflexivity|].
      simpl. apply Nat.eqb_neq in O. rewrite Nat.eqb_sym in O. now rewrite O.
Qed.

(** On a well-formed store an upsert of a workout touches that workout
    only: every other workout document, the exercises of every other
    workout and the sets of those exercises are as before, and so are the
    sync state and the routine tables.  The exercises the workout had
    before are gone, together with their sets. *)
Theorem upsertWorkout_touches_one_workout (d : Db.t) :
  wf d ->
  let r := Sync.upsertWorkout Date_getTime workout d in
  (forall other,
     other <> fst r ->
     Db.lookup Db.workoutsT other (snd r) = Db.lookup Db.workoutsT other d
     /\ Sync.getWorkoutExercises other (snd r) = Sync.getWorkoutExercises other d)
  /\ (forall ex,
        In ex (Db.exercises d) -> Exercise.workoutId (snd ex) <> fst r ->
        Sync.getExerciseSets (fst ex) (snd r) = Sync.getExerciseSets (fst ex) d)
  /\ (forall ex,
        In ex (Sync.getWorkoutExercises (fst r) d) ->
        ~ In (fst ex) (map fst (Db.exercises (snd r)))
        /\ Sync.getExerciseSets (fst ex) (snd r) = [])
  /\ Db.syncState (snd r) = Db.syncState d
  /\ Db.routineFolders (snd r) = Db.routineFolders d
  /\ Db.routines (snd r) = Db.routines d
  /\ Db.routineExercises (snd r) = Db.routineExercises d
  /\ Db.routineSets (snd r) = Db.routineSets d.
Proof.
  intros W. cbv zeta.
  destruct (upsertWorkout_exact d W) as [n [ws [Ln [E [_ Lw]]]]].
  set (id := fst (Sync.upsertWorkout Date_getTime workout d)) in *.
  destruct (wf_exercises d W) as [EL EN].
  assert (NewP : forall i,
            i < Db.nextId d ->
            ~ In i (map fst (new_parents HevyExercise.sets (Sync.exercise_row id)
                               n (HevyWorkout.exercises workout)))).
  { intros i Hi Hin. apply in_map_iff in Hin. destruct Hin as [x [Ex Hx]].
    pose proof (new_parents_ids HevyExercise.sets (Sync.exercise_row id)
                  (HevyWorkout.exercises workout) n) as Q.
    rewrite Forall_forall in Q. specialize (Q x Hx). lia. }
  assert (NewK : forall i,
            i < Db.nextId d ->
            filter (fun s : Id * SetRow.t => Nat.eqb (SetRow.exerciseId (snd s)) i)
              (new_kids HevyExercise.sets (fun e => Sync.set_row e id) n
                 (HevyWorkout.exercises workout)) = []).
  { intros i Hi. apply filter_none.
    eapply Forall_impl;
      [|apply (new_kids_parent HevyExercise.sets (fun e => Sync.set_row e id)
                 SetRow.exerciseId (fun e c => eq_refl))].
    simpl. intros s Hs. apply Nat.eqb_neq. lia. }
  assert (Mine : forall (ex : Id * Exercise.t) (s : Id * SetRow.t),
            In ex (Db.exercises d) ->
            SetRow.exerciseId (snd s) = fst ex ->
            existsb (fun x => Nat.eqb (SetRow.exerciseId (snd s)) (fst x))
              (Sync.getWorkoutExercises id d)
            = Nat.eqb (Exercise.workoutId (snd ex)) id).
  { intros ex s I P. rewrite P.
    exact (existsb_same_id
             (fun e => Nat.eqb (Exercise.workoutId (snd e)) id)
             (Db.exercises d) ex EN I). }
  rewrite E. simpl snd.
  split; [|split; [|split; [|repeat split]]].
  - intros other O. split; [exact (Lw other O)|].
    unfold Sync.getWorkoutExercises, Db.collect. simpl.
    rewrite filter_app, filter_filter.
    rewrite (filter_none _ (new_parents _ _ _ _)).
    + rewrite app_nil_r. apply filter_ext. intros r.
      destruct (Nat.eqb (Exercise.workoutId (snd r)) other) eqn:Q;
        [|apply andb_false_r].
      apply Nat.eqb_eq in Q. rewrite Q.
      apply Nat.eqb_neq in O. now rewrite O.
    + apply (new_parents_rows HevyExercise.sets (Sync.exercise_row id)
               (fun row => Nat.eqb (Exercise.workoutId row) other = false)).
      intros p0. simpl. apply Nat.eqb_neq. congruence.
  - intros ex I O. unfold Sync.getExerciseSets, Db.collect. simpl.
    rewrite Forall_forall in EL.
    rewrite filter_app, (NewK (fst ex) (EL ex I)), app_nil_r, filter_filter.
    apply filter_ext_in. intros s Hs.
    destruct (Nat.eqb (SetRow.exerciseId (snd s)) (fst ex)) eqn:Q;
      [|apply andb_false_r].
    apply Nat.eqb_eq in Q. rewrite (Mine ex s I Q).
    apply Nat.eqb_neq in O. now rewrite O.
  - intros ex I. unfold Sync.getWorkoutExercises, Db.collect in I.
    apply filter_In in I. destruct I as [I Q]. simpl in I.
    rewrite Forall_forall in EL. split.
    + simpl. rewrite map_app, in_app_iff. intros [H|H].
      * apply in_map_iff in H. destruct H as [x [Ex Hx]].
        apply filter_In in Hx. destruct Hx as [Hx Kx].
        destruct ex as [i a], x as [j b]. simpl in *. subst j.
        rewrite (NoDup_fst_eq _ i b a EN Hx I) in Kx.
        simpl in Kx. now rewrite Q in Kx.
      * exact (NewP (fst ex) (EL ex I) H).
    + unfold Sync.getExerciseSets, Db.collect. simpl.
      rewrite filter_app, (NewK (fst ex) (EL ex I)), app_nil_r, filter_filter.
      apply filter_none. rewrite Forall_forall. intros s Hs.
      destruct (Nat.eqb (SetRow.exerciseId (snd s)) (fst ex)) eqn:P;
        [|apply andb_false_r].
      apply Nat.eqb_eq in P. now rewrite (Mine ex s I P), Q.
Qed.

End UpsertWorkoutFrame.

(** The theorem on the store that holds the sample workout, for an
    upsert of the other sample: the exercises and sets of the first are as
    they were. *)
Lemma upsertWorkout_frame_witness :
  let d := Sim.pushed_store in
  let r := Sync.upsertWorkout Sim.Date_getTime Sim.bench_only d in
  fst r = 7
  /\ Sync.getWorkoutExercises 0 (snd r) = Sync.getWorkoutExercises 0 d
  /\ List.length (Sync.getWorkoutExercises 0 d) = 2.
Proof.
  cbv zeta. split; [vm_compute; reflexivity|]. split.
  - exact (proj2 (proj1 (upsertWorkout_touches_one_workout Sim.Date_getTime
                           Sim.bench_only Sim.pushed_store
                           (upsertWorkout_wf Sim.Date_getTime Sim.push_day
                              Db.empty wf_empty))
                    0 ltac:(vm_compute; discriminate))).
  - vm_compute. reflexivity.
Defined.

(* ------------------------------------------------------------------ *)
(** ** No child without its parent                                      *)
(* ------------------------------------------------------------------ *)

Lemma delete_routine_exercise_exact d ex :
  NoDup (map fst (Db.routineSets d)) ->
  Sync.delete_routine_exercise d ex
  = Db.set Db.routineExercisesT
      (filter (fun r => negb (Nat.eqb (fst r) (fst ex))) (Db.routineExercises d))
      (Db.set Db.routineSetsT
         (filter
            (fun s => negb (Nat.eqb (RoutineSet.routineExerciseId (snd s)) (fst ex)))
            (Db.routineSets d)) d).
Proof.
  intros N. unfold Sync.delete_routine_exercise.
  rewrite delete_routine_sets_eq. unfold Db.collect. simpl.
  rewrite (delete_rows_found
             (fun s => Nat.eqb (RoutineSet.routineExerciseId (snd s)) (fst ex))
             (Db.routineSets d) N).
  reflexivity.
Qed.

Lemma delete_routine_exercises_exact (l : Table RoutineExercise.t) : forall d,
  NoDup (map fst (Db.routineSets d)) ->
  fold_left Sync.delete_routine_exercise l d
  = Db.set Db.routineExercisesT
      (filter (fun r => negb (existsb (fun x => Nat.eqb (fst r) (fst x)) l))
         (Db.routineExercises d))
      (Db.set Db.routineSetsT
         (filter
            (fun s =>
               negb (existsb
                       (fun x =>
                          Nat.eqb (RoutineSet.routineExerciseId (snd s)) (fst x))
                       l))
            (Db.routineSets d)) d).
Proof.
  induction l as [|x l IH]; intros d N; simpl.
  - rewrite !filter_all by now apply Forall_forall. now destruct d.
  - rewrite (delete_routine_exercise_exact d x N), IH
      by (simpl; now apply NoDup_filter).
    simpl. rewrite !filter_filter.
    rewrite (filter_ext
               (fun r : Id * RoutineExercise.t =>
                  negb (Nat.eqb (fst r) (fst x))
                  && negb (existsb (fun x0 => Nat.eqb (fst r) (fst x0)) l))
               (fun r =>
                  negb (Nat.eqb (fst r) (fst x)
                        || existsb (fun x0 => Nat.eqb (fst r) (fst x0)) l)))
      by (intros r; now rewrite negb_orb).
    rewrite (filter_ext
               (fun s : Id * RoutineSet.t =>
                  negb (Nat.eqb (RoutineSet.routineExerciseId (snd s)) (fst x))
                  && negb (existsb
                             (fun x0 : Id * RoutineExercise.t =>
                                Nat.eqb (RoutineSet.routineExerciseId (snd s))
                                  (fst x0)) l))
               (fun s =>
                  negb (Nat.eqb (RoutineSet.routineExerciseId (snd s)) (fst x)
                        || existsb
                             (fun x0 : Id * RoutineExercise.t =>
                                Nat.eqb (RoutineSet.routineExerciseId (snd s))
                                  (fst x0)) l)))
      by (intros r; now rewrite negb_orb).
    reflexivity.
Qed.

Section Linked.

Context {P C PR CR : Type}.
Variable kids : P -> list C.
Variable prow : P -> PR.
Variable crow : Id -> C -> CR.
Variable owner : CR -> Id.
Hypothesis owner_crow : forall e c, owner (crow e c) = e.

(** The children an insertion loop adds name the parents it adds. *)
Lemma new_kids_owner ps : forall n,
  Forall (fun s => In (owner (snd s)) (map fst (new_parents kids prow n ps)))
    (new_kids kids crow n ps).
Proof.
  induction ps as [|p ps IH]; intros n; simpl; [constructor|].
  apply Forall_app. split.
  - apply (numbered_rows
             (fun s =>
                n = owner s
                \/ In (owner s)
                     (map fst
                        (new_parents kids prow (S n + List.length (kids p)) ps)))).
    rewrite Forall_forall. intros r Hr. apply in_map_iff in Hr.
    destruct Hr as [c [E _]]. subst r. left. now rewrite owner_crow.
  - eapply Forall_impl; [|apply IH]. simpl. intros s Hs. now right.
Qed.

(** Parents removed by identifier together with the children that name
    them, then new parents with their children. *)
Lemma linked_replace (gone : Id -> bool) (oldP newP : Table PR)
  (oldK newK : Table CR) :
  Forall (fun s => In (owner (snd s)) (map fst oldP)) oldK ->
  Forall (fun s => In (owner (snd s)) (map fst newP)) newK ->
  Forall
    (fun s =>
       In (owner (snd s))
         (map fst (filter (fun r => negb (gone (fst r))) oldP ++ newP)))
    (filter (fun s => negb (gone (owner (snd s)))) oldK ++ newK).
Proof.
  intros O N. apply Forall_app. split.
  - rewrite Forall_forall in O |- *. intros s Hs.
    apply filter_In in Hs. destruct Hs as [Hs G].
    specialize (O s Hs). apply in_map_iff in O. destruct O as [r [E Hr]].
    rewrite map_app, in_app_iff. left. apply in_map_iff. exists r.
    split; [exact E|]. apply filter_In. split; [exact Hr|]. now rewrite E.
  - eapply Forall_impl; [|exact N]. simpl. intros s Hs.
    rewrite map_app, in_app_iff. now right.
Qed.

Lemma linked_grow (oldP newP : Table PR) (oldK newK : Table CR) :
  Forall (fun s => In (owner (snd s)) (map fst oldP)) oldK ->
  Forall (fun s => In (owner (snd s)) (map fst newP)) newK ->
  Forall (fun s => In (owner (snd s)) (map fst (oldP ++ newP))) (oldK ++ newK).
Proof.
  intros O N. apply Forall_app. split.
  - eapply Forall_impl; [|exact O]. simpl. intros s Hs.
    rewrite map_app, in_app_iff. now left.
  - eapply Forall_impl; [|exact N]. simpl. intros s Hs.
    rewrite map_app, in_app_iff. now right.
Qed.

End Linked.

Lemma upsertWorkout_no_orphans Date_getTime workout d :
  wf d -> no_orphans d ->
  no_orphans (snd (Sync.upsertWorkout Date_getTime workout d)).
Proof.
  intros W [A [B [C D]]].
  destruct (Db.first Db.workoutsT
              (fun w => String.eqb (Workout.hevyId w) (HevyWorkout.id workout)) d)
    as [[id old]|] eqn:F.
  - assert (E : Sync.upsertWorkout Date_getTime workout d
                = (id,
                   Sync.insert_children id workout
                     (Sync.delete_children id
                        (Db.patch Db.workoutsT id
                           (Sync.workout_patch Date_getTime workout) d))))
      by (unfold Sync.upsertWorkout; now rewrite F).
    rewrite E. simpl snd. unfold Sync.insert_children, Sync.delete_children.
    rewrite delete_exercises_exact by (simpl; exact (proj2 (wf_sets d W))).
    rewrite insert_children_eq. unfold no_orphans. simpl.
    apply first_In in F. destruct F as [F _]. apply (in_map fst) in F.
    simpl in F.
    split; [|split; [|split; assumption]].
    + rewrite map_fst_patch_rows. apply Forall_app. split.
      * rewrite Forall_forall in A |- *. intros e He.
        apply filter_In in He. now apply A.
      * apply (new_parents_rows HevyExercise.sets (Sync.exercise_row id)
                 (fun row => In (Exercise.workoutId row) (map fst (Db.workouts d)))).
        intros p0. exact F.
    + apply (linked_replace SetRow.exerciseId
               (fun i =>
                  existsb (fun x : Id * Exercise.t => Nat.eqb i (fst x))
                    (Db.collect Db.exercisesT
                       (fun e => Nat.eqb (Exercise.workoutId e) id)
                       (Db.patch Db.workoutsT id
                          (Sync.workout_patch Date_getTime workout) d))));
        [exact B|].
      apply new_kids_owner. reflexivity.
  - assert (E : Sync.upsertWorkout Date_getTime workout d
                = (Db.nextId d,
                   Sync.insert_children (Db.nextId d) workout
                     (snd (Db.insert Db.workoutsT
                             (Sync.workout_fields Date_getTime workout None) d))))
      by (unfold Sync.upsertWorkout; now rewrite F).
    rewrite E. simpl snd. unfold Sync.insert_children.
    rewrite insert_children_eq. unfold no_orphans. simpl.
    split; [|split; [|split; assumption]].
    + apply Forall_app. split.
      * eapply Forall_impl; [|exact A]. simpl. intros e He.
        rewrite map_app, in_app_iff. now left.
      * apply (new_parents_rows HevyExercise.sets
                 (Sync.exercise_row (Db.nextId d))
                 (fun row =>
                    In (Exercise.workoutId row)
                      (map fst (Db.workouts d
                                ++ [(Db.nextId d,
                                     Sync.workout_fields Date_getTime workout
                                       None)])))).
        intros p0. rewrite map_app, in_app_iff. right. now left.
    + apply linked_grow; [exact B|]. apply new_kids_owner. reflexivity.
Qed.

Lemma upsertRoutine_no_orphans routine d :
  wf d -> no_orphans d -> no_orphans (snd (Sync.upsertRoutine routine d)).
Proof.
  intros W [A [B [C D]]].
  unfold Sync.upsertRoutine.
  destruct (Sync.routine_folder routine d) as [folderId week].
  destruct (Db.first Db.routinesT
              (fun r => String.eqb (Routine.hevyId r) (HevyRoutine.id routine)) d)
    as [[id old]|] eqn:F.
  - simpl snd. unfold Sync.insert_routine_children, Sync.delete_routine_children.
    rewrite delete_routine_exercises_exact
      by (simpl; exact (proj2 (wf_routineSets d W))).
    rewrite insert_routine_children_eq. unfold no_orphans. simpl.
    apply first_In in F. destruct F as [F _]. apply (in_map fst) in F.
    simpl in F.
    split; [assumption|]. split; [assumption|]. split.
    + rewrite map_fst_patch_rows. apply Forall_app. split.
      * rewrite Forall_forall in C |- *. intros e He.
        apply filter_In in He. now apply C.
      * apply (new_parents_rows HevyRoutineExercise.sets
                 (Sync.routine_exercise_row id week
                    (Sync.parseDayNumber (HevyRoutine.title routine)))
                 (fun row =>
                    In (RoutineExercise.routineId row) (map fst (Db.routines d)))).
        intros p0. exact F.
    + apply (linked_replace RoutineSet.routineExerciseId
               (fun i =>
                  existsb (fun x : Id * RoutineExercise.t => Nat.eqb i (fst x))
                    (Db.collect Db.routineExercisesT
                       (fun e => Nat.eqb (RoutineExercise.routineId e) id)
                       (Db.patch Db.routinesT id
                          (fun old0 =>
                             Sync.routine_data routine folderId week
                               (Routine.notionPageId old0)) d))));
        [exact D|].
      apply new_kids_owner. reflexivity.
  - unfold Db.insert. simpl snd. unfold Sync.insert_routine_children.
    rewrite insert_routine_children_eq. unfold no_orphans. simpl.
    split; [assumption|]. split; [assumption|]. split.
    + apply Forall_app. split.
      * eapply Forall_impl; [|exact C]. simpl. intros e He.
        rewrite map_app, in_app_iff. now left.
      * apply (new_parents_rows HevyRoutineExercise.sets
                 (Sync.routine_exercise_row (Db.nextId d) week
                    (Sync.parseDayNumber (HevyRoutine.title routine)))
                 (fun row =>
                    In (RoutineExercise.routineId row)
                      (map fst (Db.routines d
                                ++ [(Db.nextId d,
                                     Sync.routine_data routine folderId week
                                       None)])))).
        intros p0. rewrite map_app, in_app_iff. right. now left.
    + apply linked_grow; [exact D|]. apply new_kids_owner. reflexivity.
Qed.

Lemma updateSyncState_tables args d :
  Db.workouts (Sync.updateSyncState args d) = Db.workouts d
  /\ Db.exercises (Sync.updateSyncState args d) = Db.exercises d
  /\ Db.sets (Sync.updateSyncState args d) = Db.sets d
  /\ Db.routines (Sync.updateSyncState args d) = Db.routines d
  /\ Db.routineExercises (Sync.updateSyncState args d) = Db.routineExercises d
  /\ Db.routineSets (Sync.updateSyncState args d) = Db.routineSets d.
Proof.
  unfold Sync.updateSyncState.
  destruct (Sync.getSyncState d) as [[id st]|]; repeat split.
Qed.

Lemma apply_mutation_no_orphans Date_getTime m d :
  wf d -> no_orphans d -> no_orphans (apply_mutation Date_getTime d m).
Proof.
  intros W N. destruct m; simpl.
  - destruct (updateSyncState_tables args d) as [E1 [E2 [E3 [E4 [E5 E6]]]]].
    unfold no_orphans. now rewrite E1, E2, E3, E4, E5, E6.
  - now apply upsertWorkout_no_orphans.
  - destruct N as [A [B [C D]]]. unfold Sync.markWorkoutDeleted.
    destruct (Db.first _ _ d) as [[id old]|]; [|now repeat split].
    unfold no_orphans. simpl. rewrite map_fst_patch_rows. now repeat split.
  - destruct N as [A [B [C D]]]. unfold Sync.markWorkoutSynced, no_orphans.
    simpl. rewrite map_fst_patch_rows. now repeat split.
  - destruct N as [A [B [C D]]]. unfold Sync.upsertRoutineFolder.
    destruct (Db.first _ _ d) as [[id old]|]; now repeat split.
  - now apply upsertRoutine_no_orphans.
  - destruct N as [A [B [C D]]]. now repeat split.
  - destruct N as [A [B [C D]]]. unfold Sync.markRoutineSynced, no_orphans.
    simpl. rewrite map_fst_patch_rows. now repeat split.
  - destruct N as [A [B [C D]]].
    unfold Sync.markRoutineExerciseSynced, no_orphans.
    simpl. rewrite map_fst_patch_rows. split; [assumption|].
    split; [assumption|]. split; [|assumption].
    apply (Forall_patch_rows
             (fun e => In (RoutineExercise.routineId e) (map fst (Db.routines d))));
      [intros r Hr; exact Hr|exact C].
Qed.

(** On a well-formed store in which every exercise names a stored
    workout and every set a stored exercise (and the same for routines),
    this is still so after any sequence of the mutations: the deletion
    loops of the upserts take the sets away with their exercises, and
    nothing else removes a document. *)
Theorem mutations_leave_no_orphans
  (Date_getTime : string -> Z) (ms : list Mutation) (d : Db.t) :
  wf d -> no_orphans d ->
  no_orphans (fold_left (apply_mutation Date_getTime) ms d).
Proof.
  revert d. induction ms as [|m ms IH]; intros d W N; simpl; [exact N|].
  apply IH; [now apply apply_mutation_wf|now apply apply_mutation_no_orphans].
Qed.

Lemma no_orphans_empty : no_orphans Db.empty.
Proof. repeat split; constructor. Qed.

(** The theorem from the empty store, for a run that upserts the sample
    workout twice, deletes it and upserts the sample folder and routine. *)
Lemma mutations_leave_no_orphans_witness :
  no_orphans
    (fold_left (apply_mutation Sim.Date_getTime)
       [ UpsertWorkout Sim.push_day; UpsertWorkout Sim.push_day;
         MarkWorkoutDeleted "w-1"; UpsertRoutineFolder Sim.week2;
         UpsertRoutine Sim.day3; UpsertRoutine Sim.day3 ]
       Db.empty).
Proof.
  exact (mutations_leave_no_orphans Sim.Date_getTime _ Db.empty wf_empty
           no_orphans_empty).
Defined.

(* ------------------------------------------------------------------ *)
(** ** The two syncs from the tracker                                   *)
(* ------------------------------------------------------------------ *)

Lemma bind_assoc_fetch Net {A B C} (m : Action Net A) (k : A -> Action Net B)
  (h : B -> Action Net C) w :
  bind Net (bind Net m k) h w = bind Net m (fun a => bind Net (k a) h) w.
Proof.
  unfold bind. destruct (m w) as [[a|e|] w1]; reflexivity.
Qed.

Section HevyFacts.

Variable Net : Type.
Variable hevy_fetch : HevyApi.Request -> Net -> HevyApi.Response * Net.
Variable toISOString : nat -> string.
Variable Date_getTime : string -> Z.
Variable env : Env.

Local Abbreviation fullSync' :=
  (fullSync Net hevy_fetch toISOString Date_getTime env).
Local Abbreviation incrementalSync' :=
  (incrementalSync Net hevy_fetch toISOString Date_getTime env).

Lemma upsert_all_run : forall (workouts : list HevyWorkout.t) (w : World Net),
  for_each Net workouts
    (fun workout =>
       runMutation Net (fun d => snd (Sync.upsertWorkout Date_getTime workout d))) w
  = (Returned tt,
     mkWorld Net
       (fold_left (apply_mutation Date_getTime) (map UpsertWorkout workouts)
          (db Net w))
       (net Net w) (sent Net w) (asked Net w) (console Net w) (clock Net w)).
Proof.
  induction workouts as [|x workouts IH]; intros w; simpl.
  - now destruct w.
  - unfold bind, runMutation. rewrite IH. reflexivity.
Qed.

(** With the key of the tracker configured, a tracker that answers every
    request with a success status and clock readings that are not empty,
    [fullSync] returns the number of workouts it fetched.  It asks for the
    pages 1 to [page_count] of the workouts, ten workouts a page; the
    workouts it upserts are the workouts of the answers to these requests,
    page after page; the store is the old one after an upsert of every
    one of them, in that order, and then [updateSyncState] with the two
    readings of the clock made after the loop. *)
Theorem fullSync_upserts_every_page (w : World Net) (c : ascii) (k : string) :
  HEVY_API_KEY env = Some (String c k) ->
  feed_up hevy_fetch ->
  (forall t, toISOString t <> EmptyString) ->
  let run := fullSync' w in
  let first :=
    fst (hevy_fetch (HevyApi.GetWorkouts (String c k) 1 10) (net Net w)) in
  exists workouts,
    fst run = Returned (mkFullSyncResult (List.length workouts))
    /\ workouts
       = flat_map HevyApi.workouts
           (answers hevy_fetch
              (map (fun page => HevyApi.GetWorkouts (String c k) page 10)
                 (seq 1 (S (HevyApi.page_count first - 1))))
              (net Net w))
    /\ asked Net (snd run)
       = asked Net w
         ++ map (fun page => HevyApi.GetWorkouts (String c k) page 10)
              (seq 1 (S (HevyApi.page_count first - 1)))
    /\ db Net (snd run)
       = Sync.updateSyncState (cursor_args toISOString (clock Net w))
           (fold_left (apply_mutation Date_getTime) (map UpsertWorkout workouts)
              (db Net w))
    /\ sent Net (snd run) = sent Net w
    /\ exists id st,
         Sync.getSyncState (db Net (snd run)) = Some (id, st)
         /\ SyncState.lastEventTimestamp st
            = Some (toISOString (S (clock Net w))).
Proof.
  intros K U T run first.
  set (w1 := mkWorld Net (db Net w)
               (snd (hevy_fetch (HevyApi.GetWorkouts (String c k) 1 10)
                       (net Net w)))
               (sent Net w)
               (asked Net w ++ [HevyApi.GetWorkouts (String c k) 1 10])
               (console Net w) (clock Net w)).
  destruct (fetch_pages_answers Net hevy_fetch U
              (fun page => HevyApi.GetWorkouts (String c k) page 10)
              HevyApi.workouts (seq 2 (HevyApi.page_count first - 1))
              (HevyApi.workouts first) w1)
    as [w2 [E [D [Hs [Hc [Q A]]]]]].
  set (more :=
         flat_map HevyApi.workouts
           (answers hevy_fetch
              (map (fun page => HevyApi.GetWorkouts (String c k) page 10)
                 (seq 2 (HevyApi.page_count first - 1)))
              (net Net w1))) in E.
  assert (R : run
              = (Returned
                   (mkFullSyncResult
                      (List.length (HevyApi.workouts first ++ more))),
                 mkWorld Net
                   (Sync.updateSyncState (cursor_args toISOString (clock Net w))
                      (fold_left (apply_mutation Date_getTime)
                         (map UpsertWorkout (HevyApi.workouts first ++ more))
                         (db Net w)))
                   (net Net w2) (sent Net w2) (asked Net w2) (console Net w2)
                   (S (S (clock Net w))))).
  { unfold run, fullSync, hevy_api_key. rewrite K.
    unfold bind at 1. unfold ret at 1. unfold fetchHevyWorkouts.
    rewrite (bind_Returned Net _ _ _ _ _
               (hevyRequest_run Net hevy_fetch U
                  (HevyApi.GetWorkouts (String c k) 1 10) w)).
    fold first. fold w1.
    rewrite (bind_Returned Net _ _ _ _ _ E).
    rewrite (bind_Returned Net _ _ _ _ _
               (upsert_all_run (HevyApi.workouts first ++ more) w2)).
    unfold bind, now, runMutation, ret, cursor_args. simpl.
    rewrite D, Q. reflexivity. }
  exists (HevyApi.workouts first ++ more). rewrite R. simpl.
  split; [reflexivity|]. split; [reflexivity|]. split.
  { rewrite A. unfold w1. simpl. now rewrite <- app_assoc. }
  split; [reflexivity|]. split; [exact Hs|].
  apply getSyncState_updateSyncState. simpl.
  specialize (T (S (clock Net w))).
  destruct (toISOString (S (clock Net w))); [contradiction|reflexivity].
Qed.

(** *** Failures *)

Lemma hevyRequest_keeps r w :
  db Net (snd (hevyRequest Net hevy_fetch r w)) = db Net w
  /\ sent Net (snd (hevyRequest Net hevy_fetch r w)) = sent Net w
  /\ clock Net (snd (hevyRequest Net hevy_fetch r w)) = clock Net w
  /\ fst (hevyRequest Net hevy_fetch r w) <> Diverged.
Proof.
  unfold hevyRequest. destruct (hevy_fetch r (net Net w)) as [resp n'].
  destruct (HevyApi.status resp =? 429)%Z; [repeat split; discriminate|].
  destruct (HevyApi.ok resp); repeat split; discriminate.
Qed.

Lemma fetch_pages_keeps {A} (req : nat -> HevyApi.Request)
  (items : HevyApi.Response -> list A) :
  forall pages acc w,
    let r := fetch_pages Net (fun page => hevyRequest Net hevy_fetch (req page))
               items pages acc w in
    db Net (snd r) = db Net w
    /\ sent Net (snd r) = sent Net w
    /\ clock Net (snd r) = clock Net w
    /\ fst r <> Diverged.
Proof.
  induction pages as [|page pages IH]; intros acc w; simpl.
  - repeat split; discriminate.
  - unfold bind.
    destruct (hevyRequest_keeps (req page) w) as [D [S [C N]]].
    destruct (hevyRequest Net hevy_fetch (req page) w) as [[resp|e|] w1];
      simpl in *; [|repeat split; [assumption..|discriminate]|contradiction].
    destruct (IH (acc ++ items resp) w1) as [D1 [S1 [C1 N1]]].
    simpl in *. rewrite D1, S1, C1. now repeat split.
Qed.

(** The fetching half of both syncs: it leaves the store and the mirror
    alone and makes no clock reading; what comes after it always
    returns. *)
Lemma two_halves {A B} (fetching : Action Net A) (storing : A -> Action Net B) w :
  (forall w0,
     db Net (snd (fetching w0)) = db Net w0
     /\ sent Net (snd (fetching w0)) = sent Net w0
     /\ fst (fetching w0) <> Diverged) ->
  (forall a w0,
     (exists b, fst (storing a w0) = Returned b)
     /\ sent Net (snd (storing a w0)) = sent Net w0) ->
  sent Net (snd (bind Net fetching storing w)) = sent Net w
  /\ fst (bind Net fetching storing w) <> Diverged
  /\ forall e,
       fst (bind Net fetching storing w) = Threw e ->
       db Net (snd (bind Net fetching storing w)) = db Net w.
Proof.
  intros F S. unfold bind. destruct (F w) as [D [Se N]].
  destruct (fetching w) as [[a|e|] w1]; simpl in *.
  - destruct (S a w1) as [[b Eb] Sb]. rewrite Sb, Eb.
    split; [exact Se|]. split; [discriminate|]. intros e H. discriminate.
  - split; [exact Se|]. split; [discriminate|]. intros e0 _. exact D.
  - contradiction.
Qed.

Lemma hevy_api_key_cases :
  (exists c k,
     HEVY_API_KEY env = Some (String c k)
     /\ hevy_api_key Net env = ret Net (String c k))
  \/ (Js.truthy Js.truthy_str (HEVY_API_KEY env) = false
      /\ hevy_api_key Net env = throw Net HevyKeyNotConfigured).
Proof.
  unfold hevy_api_key. destruct (HEVY_API_KEY env) as [[|c k]|].
  - right. now split.
  - left. now exists c, k.
  - right. now split.
Qed.

Lemma fullSync_halves w :
  sent Net (snd (fullSync' w)) = sent Net w
  /\ fst (fullSync' w) <> Diverged
  /\ forall e, fst (fullSync' w) = Threw e -> db Net (snd (fullSync' w)) = db Net w.
Proof.
  unfold fullSync.
  destruct hevy_api_key_cases as [[c [k [_ E]]]|[_ E]]; rewrite E.
  - change (bind Net (ret Net (String c k)) ?f w) with (f (String c k) w).
    cbv beta.
    rewrite <- (bind_assoc_fetch Net).
    apply two_halves.
    + intros w0. unfold bind, fetchHevyWorkouts.
      destruct (hevyRequest_keeps (HevyApi.GetWorkouts (String c k) 1 10) w0)
        as [D [S [_ N]]].
      destruct (hevyRequest Net hevy_fetch _ w0) as [[resp|e|] w1];
        simpl in *; [|now repeat split|contradiction].
      destruct (fetch_pages_keeps
                  (fun page => HevyApi.GetWorkouts (String c k) page 10)
                  HevyApi.workouts (seq 2 (HevyApi.page_count resp - 1))
                  (HevyApi.workouts resp) w1) as [D1 [S1 [_ N1]]].
      simpl in *. rewrite D1, S1. now repeat split.
    + intros workouts w0. unfold bind.
      rewrite upsert_all_run. simpl. split; [eexists|]; reflexivity.
  - unfold bind, throw. simpl. split; [reflexivity|].
    split; [discriminate|reflexivity].
Qed.

Lemma incrementalSync_halves w :
  sent Net (snd (incrementalSync' w)) = sent Net w
  /\ fst (incrementalSync' w) <> Diverged
  /\ forall e,
       fst (incrementalSync' w) = Threw e ->
       db Net (snd (incrementalSync' w)) = db Net w.
Proof.
  unfold incrementalSync.
  destruct hevy_api_key_cases as [[c [k [_ E]]]|[_ E]]; rewrite E.
  - change (bind Net (ret Net (String c k)) ?f w) with (f (String c k) w).
    cbv beta.
    change (bind Net (runQuery Net Sync.getSyncState) ?f w)
      with (f (Sync.getSyncState (db Net w)) w).
    cbv beta zeta.
    rewrite <- (bind_assoc_fetch Net).
    apply two_halves.
    + intros w0. unfold bind, fetchHevyEvents.
      destruct (hevyRequest_keeps
                  (HevyApi.GetEvents (String c k)
                     (since_cursor (Sync.getSyncState (db Net w))) 1 10) w0)
        as [D [S [_ N]]].
      destruct (hevyRequest Net hevy_fetch _ w0) as [[resp|e|] w1];
        simpl in *; [|now repeat split|contradiction].
      destruct (fetch_pages_keeps
                  (fun page =>
                     HevyApi.GetEvents (String c k)
                       (since_cursor (Sync.getSyncState (db Net w))) page 10)
                  HevyApi.events (seq 2 (HevyApi.page_count resp - 1))
                  (HevyApi.events resp) w1) as [D1 [S1 [_ N1]]].
      simpl in *. rewrite D1, S1. now repeat split.
    + intros events w0. unfold bind.
      rewrite (process_events_run Net Date_getTime). simpl.
      split; [eexists|]; reflexivity.
  - unfold bind, throw. simpl. split; [reflexivity|].
    split; [discriminate|reflexivity].
Qed.

(** Both syncs fetch every page before they write: when [fullSync] or
    [incrementalSync] throws an error of the tracker (a missing key, a
    rate limit or another error status, on any page), the store is as it
    was, so no workout was written and the cursor did not move.  Without
    a key of the tracker they throw at once and ask for nothing.  Neither
    of them sends anything to the mirror. *)
Theorem hevy_sync_failure_writes_nothing (w : World Net) :
  (forall e,
     fst (fullSync' w) = Threw e -> tracker_error e = true ->
     db Net (snd (fullSync' w)) = db Net w)
  /\ (forall e,
        fst (incrementalSync' w) = Threw e -> tracker_error e = true ->
        db Net (snd (incrementalSync' w)) = db Net w)
  /\ (Js.truthy Js.truthy_str (HEVY_API_KEY env) = false ->
      fullSync' w = (Threw HevyKeyNotConfigured, w)
      /\ incrementalSync' w = (Threw HevyKeyNotConfigured, w))
  /\ sent Net (snd (fullSync' w)) = sent Net w
  /\ sent Net (snd (incrementalSync' w)) = sent Net w.
Proof.
  destruct (fullSync_halves w) as [S1 [_ T1]].
  destruct (incrementalSync_halves w) as [S2 [_ T2]].
  split; [intros e H _; exact (T1 e H)|].
  split; [intros e H _; exact (T2 e H)|]. split; [|now split].
  intros K. unfold fullSync, incrementalSync.
  destruct hevy_api_key_cases as [[c [k [E _]]]|[_ E]].
  - rewrite E in K. discriminate.
  - rewrite E. now split.
Qed.

End HevyFacts.

(** A tracker that fails on the second page: both syncs have asked for
    two pages, throw the error of the status, and have written nothing,
    not even what the first page held. *)
Lemma hevy_sync_failure_witness :
  let w := Sim.world Db.empty Sim.three_pages_net in
  let full :=
    fullSync Sim.Net Sim.hevy_fails_after_first Sim.toISOString
      Sim.Date_getTime Sim.env w in
  let incremental :=
    incrementalSync Sim.Net Sim.hevy_fails_after_first Sim.toISOString
      Sim.Date_getTime Sim.env w in
  fst full = Threw (HevyApiError 503)
  /\ List.length (asked Sim.Net (snd full)) = 2
  /\ db Sim.Net (snd full) = Db.empty
  /\ fst incremental = Threw (HevyApiError 503)
  /\ List.length (asked Sim.Net (snd incremental)) = 2
  /\ db Sim.Net (snd incremental) = Db.empty.
Proof.
  cbv zeta.
  destruct (hevy_sync_failure_writes_nothing Sim.Net
              Sim.hevy_fails_after_first Sim.toISOString Sim.Date_getTime
              Sim.env (Sim.world Db.empty Sim.three_pages_net))
    as [F [I _]].
  split; [vm_compute; reflexivity|]. split; [vm_compute; reflexivity|].
  split; [exact (F (HevyApiError 503) ltac:(vm_compute; reflexivity) eq_refl)|].
  split; [vm_compute; reflexivity|]. split; [vm_compute; reflexivity|].
  exact (I (HevyApiError 503) ltac:(vm_compute; reflexivity) eq_refl).
Defined.

(** The theorem on an empty store and a collection of three pages with
    one workout each. *)
Lemma fullSync_witness :
  let w := Sim.world Db.empty Sim.three_pages_net in
  let run :=
    fullSync Sim.Net Sim.hevy_fetch Sim.toISOString Sim.Date_getTime Sim.env w in
  (exists workouts,
     fst run = Returned (mkFullSyncResult (List.length workouts))
     /\ db Sim.Net (snd run)
        = Sync.updateSyncState (cursor_args Sim.toISOString 0)
            (fold_left (apply_mutation Sim.Date_getTime)
               (map UpsertWorkout workouts) Db.empty))
  /\ fst run = Returned (mkFullSyncResult 3)
  /\ asked Sim.Net (snd run)
     = [ HevyApi.GetWorkouts "hevy-key" 1 10;
         HevyApi.GetWorkouts "hevy-key" 2 10;
         HevyApi.GetWorkouts "hevy-key" 3 10 ]%string
  /\ map (fun r => Workout.hevyId (snd r)) (Db.workouts (db Sim.Net (snd run)))
     = [ "w-1"; "w-2"; "w-3" ]%string.
Proof.
  split.
  - destruct (fullSync_upserts_every_page Sim.Net Sim.hevy_fetch
                Sim.toISOString Sim.Date_getTime Sim.env
                (Sim.world Db.empty Sim.three_pages_net)
                "h"%char "evy-key"%string eq_refl
                ltac:(intros [] n; reflexivity)
                ltac:(intros t; unfold Sim.toISOString; simpl; discriminate))
      as [workouts [R [_ [_ [D _]]]]].
    exists workouts. split; [exact R|exact D].
  - repeat split; vm_compute; reflexivity.
Defined.

(* ------------------------------------------------------------------ *)
(** ** The push of a workout that has a mirror page                     *)
(* ------------------------------------------------------------------ *)

Section MirrorFacts.

Variable Net : Type.
Variable notion_fetch : Notion.Request -> Net -> Notion.Response * Net.
Variable env : Env.
Variable dbs : WorkoutDbs.

Local Abbreviation sync_workout' := (sync_workout Net notion_fetch env dbs).
Local Abbreviation syncToNotion' := (syncToNotion Net notion_fetch env dbs).

(** A deleted workout with a stored page id: the push sends one request,
    the archiving of that page, and marks the workout synced under the
    same page id when the mirror accepts it; when the mirror refuses, or
    without an access token (then nothing is sent), the push throws and the
    store is as it was.  The exercises and sets of the workout stay in the
    store, and no request is made for their pages. *)
Theorem deleted_and_mirrored_workout_is_archived
  (workout : Id * Workout.t) (c : ascii) (p : string) (w : World Net) :
  Workout.isDeleted (snd workout) = true ->
  Workout.notionPageId (snd workout) = Some (String c p) ->
  let run := sync_workout' workout w in
  let answer := fst (notion_fetch (Notion.ArchivePage (String c p)) (net Net w)) in
  (Js.truthy Js.truthy_str (NOTION_TOKEN env) = false ->
   run = (Threw NotionTokenNotConfigured, w))
  /\ (Js.truthy Js.truthy_str (NOTION_TOKEN env) = true ->
      sent Net (snd run) = sent Net w ++ [Notion.ArchivePage (String c p)]
      /\ (Notion.ok answer = true ->
          fst run = Returned tt
          /\ db Net (snd run)
             = Sync.markWorkoutSynced (fst workout) (String c p) (db Net w))
      /\ (Notion.ok answer = false ->
          fst run
          = Threw (NotionApiError (Notion.status answer) (Notion.text answer))
          /\ db Net (snd run) = db Net w))
  /\ Db.exercises (db Net (snd run)) = Db.exercises (db Net w)
  /\ Db.sets (db Net (snd run)) = Db.sets (db Net w)
  /\ List.length (Db.workouts (db Net (snd run)))
     = List.length (Db.workouts (db Net w)).
Proof.
  intros D P run answer.
  assert (R : run
              = bind Net (archivePage Net notion_fetch env (String c p))
                  (fun _ =>
                     runMutation Net
                       (Sync.markWorkoutSynced (fst workout) (String c p))) w).
  { unfold run, sync_workout. now rewrite D, P. }
  unfold archivePage in R.
  destruct (Js.truthy Js.truthy_str (NOTION_TOKEN env)) eqn:T.
  - unfold bind in R. rewrite (notionRequest_run Net notion_fetch env _ w T) in R.
    fold answer in R.
    destruct (Notion.ok answer) eqn:O; rewrite R; simpl.
    + split; [discriminate|]. split.
      * intros _. split; [reflexivity|]. split; [now split|discriminate].
      * unfold Db.patch_rows. rewrite length_map. now repeat split.
    + split; [discriminate|]. split; [|now repeat split].
      intros _. split; [reflexivity|]. split; [discriminate|now split].
  - unfold bind, notionRequest in R. rewrite T in R. unfold throw in R.
    rewrite R. simpl. split; [reflexivity|]. split; [discriminate|].
    now repeat split.
Qed.

(** A workout that is not deleted and has a stored page id, pushed with
    the access token set: the first request updates that page, there is no
    search, and every later request creates the page of an exercise or of a
    set, so these pages are created again on every push.  A push that
    returns has created one page per exercise and one per set and has
    marked the workout synced under the same page id. *)
Theorem mirrored_workout_is_updated_in_place
  (workout : Id * Workout.t) (c : ascii) (p : string) (w : World Net) :
  Workout.isDeleted (snd workout) = false ->
  Workout.notionPageId (snd workout) = Some (String c p) ->
  Js.truthy Js.truthy_str (NOTION_TOKEN env) = true ->
  let run := sync_workout' workout w in
  exists rest,
    sent Net (snd run)
    = sent Net w
      ++ Notion.UpdatePage (String c p) (workoutProps (snd workout)) :: rest
    /\ Forall child_page rest
    /\ (fst run = Returned tt ->
        db Net (snd run)
        = Sync.markWorkoutSynced (fst workout) (String c p) (db Net w)
        /\ map created_in rest
           = child_targets dbs
               (Sync.getWorkoutExercises (fst workout) (db Net w)) (db Net w)).
Proof.
  intros D P T run.
  set (u := Notion.UpdatePage (String c p) (workoutProps (snd workout))).
  set (w1 := mkWorld Net (db Net w) (snd (notion_fetch u (net Net w)))
               (sent Net w ++ [u]) (asked Net w) (console Net w) (clock Net w)).
  assert (R : run
              = if Notion.ok (fst (notion_fetch u (net Net w)))
                then push_tail Net notion_fetch env dbs (fst workout)
                       (Workout.title (snd workout)) (Some (String c p)) w1
                else (Threw (NotionApiError
                               (Notion.status (fst (notion_fetch u (net Net w))))
                               (Notion.text (fst (notion_fetch u (net Net w))))),
                      w1)).
  { unfold run.
    rewrite (sync_workout_general Net notion_fetch env dbs workout)
      by (now rewrite D).
    unfold push_general, find_workout_page. rewrite P. simpl Js.truthy.
    unfold bind at 1. unfold ret at 1. unfold write_page, updatePage.
    unfold bind at 1. unfold bind at 1. fold u.
    rewrite (notionRequest_run Net notion_fetch env u w T). fold w1.
    now destruct (Notion.ok (fst (notion_fetch u (net Net w)))). }
  destruct (Notion.ok (fst (notion_fetch u (net Net w)))).
  - destruct (push_tail_sends Net notion_fetch env dbs (fst workout)
                (Workout.title (snd workout)) (Some (String c p)) w1)
      as [rest [S F]].
    exists rest. rewrite R. split.
    { rewrite S. unfold w1. simpl. now rewrite <- app_assoc. }
    split; [exact F|]. intros Q.
    destruct (push_tail Net notion_fetch env dbs (fst workout)
                (Workout.title (snd workout)) (Some (String c p)) w1)
      as [o w2] eqn:PT.
    simpl in Q. subst o.
    destruct (push_tail_Returned Net notion_fetch env dbs _ _ _ _ _ PT)
      as [q [new [Eq [Dq [Sq Nq]]]]].
    inversion Eq; subst q. simpl in S |- *.
    rewrite Sq in S. apply app_inv_head in S. subst new.
    split; [exact Dq|exact Nq].
  - exists []. rewrite R. simpl. split; [reflexivity|].
    split; [constructor|discriminate].
Qed.

(** *** A pass after a clean pass *)

Lemma syncToNotion_nothing_waits w :
  Sync.getUnsyncedWorkouts (db Net w) = [] ->
  syncToNotion' w = (Returned (mkSyncCounts 0 0 0), w).
Proof.
  intros E. unfold syncToNotion, bind, runQuery. now rewrite E.
Qed.

(** When no workout waits for the mirror a pass returns three zeros and
    does nothing; this is so right after a pass that counted no error,
    since then every workout that was waiting is marked synced. *)
Theorem pass_after_clean_pass_does_nothing (w : World Net) (counts : SyncCounts) :
  NoDup (map fst (Db.workouts (db Net w))) ->
  fst (syncToNotion' w) = Returned counts ->
  errors counts = 0 ->
  Sync.getUnsyncedWorkouts (db Net (snd (syncToNotion' w))) = []
  /\ syncToNotion' (snd (syncToNotion' w))
     = (Returned (mkSyncCounts 0 0 0), snd (syncToNotion' w)).
Proof.
  intros N R Z.
  destruct (syncToNotion_spec Net notion_fetch env dbs w N)
    as [counts0 [w' [marks [E [_ [_ [Er _]]]]]]].
  rewrite E in R |- *. simpl in R |- *. inversion R; subst counts0.
  rewrite Z in Er. symmetry in Er. apply length_zero_iff_nil in Er.
  split; [exact Er|]. now apply syncToNotion_nothing_waits.
Qed.

End MirrorFacts.

(** The theorem for the sample workout, deleted after it was mirrored
    under the page [old]: the page is archived and nothing waits any
    more. *)
Lemma archived_witness :
  let workout := Sim.first_unsynced Sim.mirrored_deleted_store in
  let w :=
    Sim.world Sim.mirrored_deleted_store (Sim.net_with_page "db-workouts" "w-1") in
  let run := sync_workout Sim.Net Sim.notion_fetch Sim.env Sim.dbs workout w in
  (fst run = Returned tt
   /\ db Sim.Net (snd run)
      = Sync.markWorkoutSynced (fst workout) "old" Sim.mirrored_deleted_store)
  /\ sent Sim.Net (snd run) = [Notion.ArchivePage "old"]
  /\ map Sim.page_archived (Sim.pages (net Sim.Net (snd run))) = [true]
  /\ unsynced_ids (db Sim.Net (snd run)) = [].
Proof.
  cbv zeta. split.
  - exact (proj1 (proj2 (proj1 (proj2
             (deleted_and_mirrored_workout_is_archived Sim.Net Sim.notion_fetch
                Sim.env Sim.dbs (Sim.first_unsynced Sim.mirrored_deleted_store)
                "o"%char "ld"%string
                (Sim.world Sim.mirrored_deleted_store
                   (Sim.net_with_page "db-workouts" "w-1"))
                ltac:(vm_compute; reflexivity) ltac:(vm_compute; reflexivity)))
             eq_refl))
           ltac:(vm_compute; reflexivity)).
  - repeat split; vm_compute; reflexivity.
Defined.

(** The theorem for the sample workout, upserted again after it was
    mirrored under the page [old]: the page is updated, and two exercise
    pages and four set pages are created. *)
Lemma updated_in_place_witness :
  let workout := Sim.first_unsynced Sim.updated_store in
  let w := Sim.world Sim.updated_store (Sim.net_with_page "db-workouts" "w-1") in
  let run := sync_workout Sim.Net Sim.notion_fetch Sim.env Sim.dbs workout w in
  (exists rest,
     sent Sim.Net (snd run)
     = Notion.UpdatePage "old" (workoutProps (snd workout)) :: rest
     /\ Forall child_page rest)
  /\ fst run = Returned tt
  /\ map created_in (sent Sim.Net (snd run))
     = [ None; Some "db-exercises"; Some "db-sets"; Some "db-sets";
         Some "db-sets"; Some "db-exercises"; Some "db-sets" ]%string
  /\ Sim.search "db-workouts" "w-1" (net Sim.Net (snd run)) = Some ["old"%string].
Proof.
  cbv zeta. split.
  - destruct (mirrored_workout_is_updated_in_place Sim.Net Sim.notion_fetch
                Sim.env Sim.dbs (Sim.first_unsynced Sim.updated_store)
                "o"%char "ld"%string
                (Sim.world Sim.updated_store
                   (Sim.net_with_page "db-workouts" "w-1"))
                ltac:(vm_compute; reflexivity) ltac:(vm_compute; reflexivity)
                eq_refl)
      as [rest [S [F _]]].
    exists rest. split; [exact S|exact F].
  - repeat split; vm_compute; reflexivity.
Defined.

(** The theorem after the pass that mirrors the sample workout. *)
Lemma clean_pass_witness :
  let w := Sim.world Sim.pushed_store Sim.empty_net in
  let after := snd (syncToNotion Sim.Net Sim.notion_fetch Sim.env Sim.dbs w) in
  fst (syncToNotion Sim.Net Sim.notion_fetch Sim.env Sim.dbs w)
  = Returned (mkSyncCounts 1 0 1)
  /\ syncToNotion Sim.Net Sim.notion_fetch Sim.env Sim.dbs after
     = (Returned (mkSyncCounts 0 0 0), after).
Proof.
  cbv zeta. split; [vm_compute; reflexivity|].
  exact (proj2 (pass_after_clean_pass_does_nothing Sim.Net Sim.notion_fetch
                  Sim.env Sim.dbs (Sim.world Sim.pushed_store Sim.empty_net)
                  (mkSyncCounts 1 0 1)
                  ltac:(vm_compute; repeat constructor; intros [])
                  ltac:(vm_compute; reflexivity) eq_refl)).
Defined.

(* ------------------------------------------------------------------ *)
(** ** The batch runner at its bounds                                   *)
(* ------------------------------------------------------------------ *)

Section BatchEdges.

Variable Net : Type.
Context {T R : Type}.
Variable processor : T -> Action Net R.

(** Without items the batch runner returns at once, whatever the bound,
    and calls no processor; with a bound of 0 and at least one item its
    loop never ends, however many iterations it is given. *)
Theorem batchProcess_at_its_bounds :
  (forall N w, batchProcess Net [] processor N w = (Returned ([], 0), w))
  /\ (forall x items fuel results errors w,
        fst (batch_loop Net fuel (x :: items) processor 0 0 results errors w)
        = Diverged)
  /\ (forall x items w,
        fst (batchProcess Net (x :: items) processor 0 w) = Diverged).
Proof.
  split; [reflexivity|]. split.
  - intros. apply batch_loop_zero_diverges.
  - intros. apply batch_loop_zero_diverges.
Qed.

Variable e : Err.
Hypothesis refuses : forall item w, processor item w = (Threw e, w).

Lemma allSettled_refused (batch : list T) : forall w,
  allSettled Net processor batch w = (Returned (map (fun _ => inr e) batch), w).
Proof.
  induction batch as [|item batch IH]; intros w; simpl; [reflexivity|].
  rewrite refuses. unfold bind. now rewrite IH.
Qed.

Lemma collect_settled_refused (batch : list T) : forall results errors w,
  collect_settled Net (map (fun _ => @inr R Err e) batch) results errors w
  = (Returned (results, errors + List.length batch),
     mkWorld Net (db Net w) (net Net w) (sent Net w) (asked Net w)
       (console Net w ++ repeat (LogBatchError e) (List.length batch))
       (clock Net w)).
Proof.
  induction batch as [|item batch IH]; intros results errors w; simpl.
  - rewrite Nat.add_0_r, app_nil_r. now destruct w.
  - unfold bind, log. rewrite IH. simpl.
    rewrite <- app_assoc, Nat.add_succ_r. reflexivity.
Qed.

Lemma run_chunks_refused (groups : list (list T)) : forall results errors w,
  run_chunks groups processor results errors w
  = (Returned (results, errors + List.length (List.concat groups)),
     mkWorld Net (db Net w) (net Net w) (sent Net w) (asked Net w)
       (console Net w
        ++ repeat (LogBatchError e) (List.length (List.concat groups)))
       (clock Net w)).
Proof.
  induction groups as [|group groups IH]; intros results errors w; simpl.
  - rewrite Nat.add_0_r, app_nil_r. now destruct w.
  - unfold bind. rewrite allSettled_refused, collect_settled_refused.
    simpl. rewrite IH. simpl.
    rewrite length_app, repeat_app, <- app_assoc, Nat.add_assoc. reflexivity.
Qed.

(** When every processor throws [e] and changes nothing, the batch
    runner returns no result and counts every item, and it has written one
    line per item to the console. *)
Lemma batchProcess_refused (items : list T) N w :
  0 < N ->
  batchProcess Net items processor N w
  = (Returned ([], List.length items),
     mkWorld Net (db Net w) (net Net w) (sent Net w) (asked Net w)
       (console Net w ++ repeat (LogBatchError e) (List.length items))
       (clock Net w)).
Proof.
  intros H. rewrite (batchProcess_chunks Net processor N items w H).
  rewrite run_chunks_refused, (chunks_concat N items H). reflexivity.
Qed.

End BatchEdges.

(* ------------------------------------------------------------------ *)
(** ** The routine push at its bounds                                   *)
(* ------------------------------------------------------------------ *)

Section RoutinePushEdges.

Variable Net : Type.
Variable notion_fetch : Notion.Request -> Net -> Notion.Response * Net.
Variable env : Env.
Variable dbs : RoutineDbs.

Local Abbreviation syncRoutinesToNotion' :=
  (syncRoutinesToNotion Net notion_fetch env dbs).

(** The routine push starts from the folders that wait for the mirror:
    when there is none it returns four zeros and does nothing, whatever
    routines and routine exercises wait. *)
Theorem routines_are_pushed_through_their_folders (w : World Net) :
  Sync.getUnsyncedRoutineFolders (db Net w) = [] ->
  syncRoutinesToNotion' w = (Returned (mkRoutineCounts 0 0 0 0), w).
Proof.
  intros E. unfold syncRoutinesToNotion.
  unfold bind at 1. unfold runQuery at 1. now rewrite E.
Qed.

Lemma push_folder_without_token folder w :
  Js.truthy Js.truthy_str (NOTION_TOKEN env) = false ->
  push_folder Net notion_fetch env dbs folder w
  = (Threw NotionTokenNotConfigured, w).
Proof.
  intros T. unfold push_folder, bind, runQuery, createPage, notionRequest.
  now rewrite T.
Qed.

(** Without an access token the routine push does not throw: every
    folder that waits is counted as an error and logged, nothing is sent
    and the store is as it was; the routines and exercises of the folders
    are not tried and not counted. *)
Theorem routine_push_without_token_counts_folders (w : World Net) :
  Js.truthy Js.truthy_str (NOTION_TOKEN env) = false ->
  let waiting := List.length (Sync.getUnsyncedRoutineFolders (db Net w)) in
  syncRoutinesToNotion' w
  = (Returned (mkRoutineCounts 0 0 0 waiting),
     mkWorld Net (db Net w) (net Net w) (sent Net w) (asked Net w)
       (console Net w
        ++ repeat (LogBatchError NotionTokenNotConfigured) waiting)
       (clock Net w)).
Proof.
  intros T waiting. unfold syncRoutinesToNotion.
  unfold bind at 1. unfold runQuery at 1.
  unfold bind at 1.
  rewrite (batchProcess_refused Net (push_folder Net notion_fetch env dbs)
             NotionTokenNotConfigured
             (fun folder w0 => push_folder_without_token folder w0 T)
             (Sync.getUnsyncedRoutineFolders (db Net w)) 5 w)
    by lia.
  unfold waiting, bind, ret, batchProcess. simpl.
  now rewrite !Nat.add_0_r.
Qed.

End RoutinePushEdges.

(** A routine that was upserted without its folder waits for the mirror,
    and the routine push does nothing. *)
Lemma routine_without_folder_witness :
  let d := snd (Sync.upsertRoutine Sim.day3 Db.empty) in
  let w := Sim.world d Sim.empty_net in
  map (fun r => (Routine.folderId (snd r), Routine.syncedToNotion (snd r)))
    (Db.routines d)
  = [(None, false)]
  /\ syncRoutinesToNotion Sim.Net Sim.notion_fetch Sim.env Sim.routine_dbs w
     = (Returned (mkRoutineCounts 0 0 0 0), w).
Proof.
  cbv zeta. split; [vm_compute; reflexivity|].
  exact (routines_are_pushed_through_their_folders Sim.Net Sim.notion_fetch
           Sim.env Sim.routine_dbs
           (Sim.world (snd (Sync.upsertRoutine Sim.day3 Db.empty)) Sim.empty_net)
           ltac:(vm_compute; reflexivity)).
Defined.

(** The sample folder and its routine, pushed without an access token. *)
Lemma routine_push_without_token_witness :
  fst (syncRoutinesToNotion Sim.Net Sim.notion_fetch Sim.no_token
         Sim.routine_dbs (Sim.world Sim.routine_store Sim.empty_net))
  = Returned (mkRoutineCounts 0 0 0 1).
Proof.
  exact (f_equal fst
           (routine_push_without_token_counts_folders Sim.Net Sim.notion_fetch
              Sim.no_token Sim.routine_dbs
              (Sim.world Sim.routine_store Sim.empty_net) eq_refl)).
Defined.

(* ------------------------------------------------------------------ *)
(** ** The pipeline and the routes as a whole                           *)
(* ------------------------------------------------------------------ *)

Section PipelineFacts.

Variable Net : Type.
Variable notion_fetch : Notion.Request -> Net -> Notion.Response * Net.
Variable hevy_fetch : HevyApi.Request -> Net -> HevyApi.Response * Net.
Variable toISOString : nat -> string.
Variable Date_getTime : string -> Z.
Variable env : Env.

Local Abbreviation incrementalSync' :=
  (incrementalSync Net hevy_fetch toISOString Date_getTime env).
Local Abbreviation fullSync' :=
  (fullSync Net hevy_fetch toISOString Date_getTime env).
Local Abbreviation fullPipeline' :=
  (fullPipeline Net notion_fetch hevy_fetch toISOString Date_getTime env).
Local Abbreviation syncToNotion' := (syncToNotion Net notion_fetch env).
Local Abbreviation post_sync' :=
  (post_sync Net notion_fetch hevy_fetch toISOString Date_getTime env).
Local Abbreviation post_full_sync' :=
  (post_full_sync Net hevy_fetch toISOString Date_getTime env).

Lemma fetch_then_store_wf {A B} (fetching : Action Net A)
  (storing : A -> Action Net B) w :
  (forall w0, db Net (snd (fetching w0)) = db Net w0) ->
  (forall a w0, wf (db Net w0) -> wf (db Net (snd (storing a w0)))) ->
  wf (db Net w) -> wf (db Net (snd (bind Net fetching storing w))).
Proof.
  intros F S W. unfold bind. specialize (F w).
  destruct (fetching w) as [[a|e|] w1]; simpl in *.
  - apply S. now rewrite F.
  - now rewrite F.
  - now rewrite F.
Qed.

Lemma incrementalSync_wf w :
  wf (db Net w) -> wf (db Net (snd (incrementalSync' w))).
Proof.
  intros W. unfold incrementalSync.
  destruct (hevy_api_key_cases Net env) as [[c [k [_ E]]]|[_ E]]; rewrite E;
    [|exact W].
  change (bind Net (ret Net (String c k)) ?f w) with (f (String c k) w).
  cbv beta.
  change (bind Net (runQuery Net Sync.getSyncState) ?f w)
    with (f (Sync.getSyncState (db Net w)) w).
  cbv beta zeta.
  rewrite <- (bind_assoc_fetch Net).
  apply fetch_then_store_wf; [| |exact W].
  - intros w0. unfold bind, fetchHevyEvents.
    destruct (hevyRequest_keeps Net hevy_fetch
                (HevyApi.GetEvents (String c k)
                   (since_cursor (Sync.getSyncState (db Net w))) 1 10) w0)
      as [D _].
    destruct (hevyRequest Net hevy_fetch _ w0) as [[resp|e|] w1];
      simpl in *; [|exact D|exact D].
    destruct (fetch_pages_keeps Net hevy_fetch
                (fun page =>
                   HevyApi.GetEvents (String c k)
                     (since_cursor (Sync.getSyncState (db Net w))) page 10)
                HevyApi.events (seq 2 (HevyApi.page_count resp - 1))
                (HevyApi.events resp) w1) as [D1 _].
    simpl in D1. now rewrite D1.
  - intros events w0 W0. unfold bind.
    rewrite (process_events_run Net Date_getTime). simpl.
    apply updateSyncState_wf. now apply apply_mutations_wf.
Qed.

Lemma sync_workouts_ends dbs (ws : Table Workout.t) : forall s e,
  ends (sync_workouts Net notion_fetch env dbs ws s e).
Proof.
  induction ws as [|x ws IH]; intros s e w; simpl; [discriminate|].
  pose proof (sync_workout_ends Net notion_fetch env dbs x w) as N.
  destruct (sync_workout Net notion_fetch env dbs x w) as [[[]|err|] w1];
    simpl in *.
  - apply IH.
  - unfold bind, log. apply IH.
  - contradiction.
Qed.

Lemma syncToNotion_ends dbs : ends (syncToNotion' dbs).
Proof.
  unfold syncToNotion.
  apply ends_bind; [apply ends_runQuery|]. intros ws.
  apply ends_bind; [apply sync_workouts_ends|]. intros counts. apply ends_ret.
Qed.

(** The pipeline runs the sync from the tracker first.  When that throws,
    the pipeline throws the same error and nothing was sent to the mirror;
    when the error is one of the tracker, the store is as it was.  When it
    returns, on a well-formed store, the
    pipeline returns its result paired with the counters of the mirror
    push: a failure of the mirror is counted, not thrown. *)
Theorem pipeline_stops_at_a_tracker_failure (dbs : WorkoutDbs) (w : World Net) :
  wf (db Net w) ->
  match fst (incrementalSync' w) with
  | Threw e =>
      fullPipeline' dbs w = (Threw e, snd (incrementalSync' w))
      /\ sent Net (snd (incrementalSync' w)) = sent Net w
      /\ (tracker_error e = true ->
          db Net (snd (incrementalSync' w)) = db Net w)
  | Returned result =>
      exists counts,
        fst (fullPipeline' dbs w) = Returned (result, counts)
        /\ syncToNotion' dbs (snd (incrementalSync' w))
           = (Returned counts, snd (fullPipeline' dbs w))
        /\ synced counts + errors counts = total counts
  | Diverged => False
  end.
Proof.
  intros W.
  destruct (incrementalSync_halves Net hevy_fetch toISOString Date_getTime env w)
    as [S [N T]].
  pose proof (incrementalSync_wf w W) as W1.
  unfold fullPipeline, bind.
  destruct (incrementalSync' w) as [[result|e|] w1] eqn:E; simpl in *.
  - destruct (syncToNotion_spec Net notion_fetch env dbs w1
                (proj2 (wf_workouts _ W1)))
      as [counts [w2 [marks [R [_ [A _]]]]]].
    exists counts. rewrite R. simpl. now repeat split.
  - split; [reflexivity|]. split; [exact S|]. intros _. now apply (T e).
  - now apply N.
Qed.

(** *** The routes *)

Lemma catch_500_answers {A} (m : Action Net A) (body : A -> ResponseBody) w :
  fst (m w) <> Diverged ->
  exists resp,
    fst (catch_500 Net
           (bind Net m (fun r => ret Net (mkHttpResponse 200 (body r)))) w)
    = Returned resp
    /\ snd (catch_500 Net
              (bind Net m (fun r => ret Net (mkHttpResponse 200 (body r)))) w)
       = snd (m w)
    /\ (http_status resp = 200%Z \/ http_status resp = 500%Z).
Proof.
  intros N. unfold catch_500, bind, ret.
  destruct (m w) as [[a|e|] w1]; simpl in *.
  - eexists. split; [reflexivity|]. split; [reflexivity|now left].
  - eexists. split; [reflexivity|]. split; [reflexivity|now right].
  - contradiction.
Qed.

Lemma fullPipeline_ends dbs w : fst (fullPipeline' dbs w) <> Diverged.
Proof.
  unfold fullPipeline.
  destruct (incrementalSync_halves Net hevy_fetch toISOString Date_getTime env w)
    as [_ [N _]].
  unfold bind. destruct (incrementalSync' w) as [[result|e|] w1]; simpl in *;
    [|discriminate|contradiction].
  pose proof (syncToNotion_ends dbs w1) as M.
  destruct (syncToNotion' dbs w1) as [[counts|e|] w2]; simpl in *;
    [discriminate|discriminate|contradiction].
Qed.

(** Both routes always answer, with status 401, 200 or 500, and never
    with an exception.  [POST /full-sync] sends nothing to the mirror, and
    neither does [POST /sync] unless the body names the three databases
    with non-empty identifiers. *)
Theorem routes_always_answer (request : HttpRequest) (w : World Net) :
  (exists resp,
     fst (post_sync' request w) = Returned resp
     /\ (http_status resp = 401%Z \/ http_status resp = 200%Z
         \/ http_status resp = 500%Z))
  /\ (exists resp,
        fst (post_full_sync' request w) = Returned resp
        /\ (http_status resp = 401%Z \/ http_status resp = 200%Z
            \/ http_status resp = 500%Z))
  /\ sent Net (snd (post_full_sync' request w)) = sent Net w
  /\ (wants_pipeline (json request) = None ->
      sent Net (snd (post_sync' request w)) = sent Net w).
Proof.
  destruct (incrementalSync_halves Net hevy_fetch toISOString Date_getTime env w)
    as [SI [NI _]].
  destruct (fullSync_halves Net hevy_fetch toISOString Date_getTime env w)
    as [SF [NF _]].
  destruct (rejected env request) eqn:Rj.
  { unfold post_sync, post_full_sync. rewrite Rj. simpl.
    split; [eexists; split; [reflexivity|now left]|].
    split; [eexists; split; [reflexivity|now left]|]. now split. }
  split; [|split; [|split]].
  - rewrite (post_sync_accepted Net notion_fetch hevy_fetch toISOString
               Date_getTime env request Rj).
    destruct (json request) as [| | |x y z] eqn:J.
    + destruct (catch_500_answers incrementalSync' JsonIncremental w NI)
        as [resp [E [_ St]]].
      exists resp. simpl. split; [exact E|tauto].
    + eexists. split; [reflexivity|]. simpl. tauto.
    + destruct (catch_500_answers incrementalSync' JsonIncremental w NI)
        as [resp [E [_ St]]].
      exists resp. simpl. split; [exact E|tauto].
    + destruct (wants_pipeline (body_object x y z)) as [dbs|].
      * destruct (catch_500_answers (fullPipeline' dbs) JsonPipeline w
                    (fullPipeline_ends dbs w)) as [resp [E [_ St]]].
        exists resp. split; [exact E|tauto].
      * destruct (catch_500_answers incrementalSync' JsonIncremental w NI)
          as [resp [E [_ St]]].
        exists resp. split; [exact E|tauto].
  - unfold post_full_sync. rewrite Rj.
    destruct (catch_500_answers fullSync' JsonFullSync w NF)
      as [resp [E [_ St]]].
    exists resp. split; [exact E|tauto].
  - unfold post_full_sync. rewrite Rj.
    destruct (catch_500_answers fullSync' JsonFullSync w NF)
      as [resp [_ [E _]]].
    now rewrite E.
  - intros P.
    rewrite (post_sync_accepted Net notion_fetch hevy_fetch toISOString
               Date_getTime env request Rj).
    destruct (catch_500_answers incrementalSync' JsonIncremental w NI)
      as [resp [_ [E _]]].
    destruct (json request) as [| | |x y z] eqn:J; cbv iota beta.
    + simpl wants_pipeline. cbv iota. now rewrite E.
    + reflexivity.
    + simpl wants_pipeline. cbv iota. now rewrite E.
    + rewrite P. now rewrite E.
Qed.

End PipelineFacts.

(** The theorem on an empty store and the sample feed of events: both
    workouts of the feed are mirrored.  With a tracker that fails on the
    second page the pipeline throws the error of the status; the store is
    still empty and nothing was sent to the mirror. *)
Lemma pipeline_witness :
  (exists counts,
     fst (fullPipeline Sim.Net Sim.notion_fetch Sim.hevy_fetch Sim.toISOString
            Sim.Date_getTime Sim.env Sim.dbs
            (Sim.world Db.empty Sim.events_net))
     = Returned (mkIncrementalResult 4 2 1, counts)
     /\ synced counts + errors counts = total counts)
  /\ (let run :=
        fullPipeline Sim.Net Sim.notion_fetch Sim.hevy_fails_after_first
          Sim.toISOString Sim.Date_getTime Sim.env Sim.dbs
          (Sim.world Db.empty Sim.three_pages_net) in
      fst run = Threw (HevyApiError 503)
      /\ db Sim.Net (snd run) = Db.empty
      /\ sent Sim.Net (snd run) = []).
Proof.
  split.
  - pose proof (pipeline_stops_at_a_tracker_failure Sim.Net Sim.notion_fetch
                  Sim.hevy_fetch Sim.toISOString Sim.Date_getTime Sim.env
                  Sim.dbs (Sim.world Db.empty Sim.events_net) wf_empty) as H.
    assert (E : fst (incrementalSync Sim.Net Sim.hevy_fetch Sim.toISOString
                       Sim.Date_getTime Sim.env
                       (Sim.world Db.empty Sim.events_net))
                = Returned (mkIncrementalResult 4 2 1))
      by (vm_compute; reflexivity).
    rewrite E in H. destruct H as [counts [A [_ B]]].
    exists counts. split; [exact A|exact B].
  - cbv zeta.
    pose proof (pipeline_stops_at_a_tracker_failure Sim.Net Sim.notion_fetch
                  Sim.hevy_fails_after_first Sim.toISOString Sim.Date_getTime
                  Sim.env Sim.dbs (Sim.world Db.empty Sim.three_pages_net)
                  wf_empty) as H.
    assert (E : fst (incrementalSync Sim.Net Sim.hevy_fails_after_first
                       Sim.toISOString Sim.Date_getTime Sim.env
                       (Sim.world Db.empty Sim.three_pages_net))
                = Threw (HevyApiError 503))
      by (vm_compute; reflexivity).
    rewrite E in H. destruct H as [A [B C]]. rewrite A.
    split; [reflexivity|]. split; [exact (C eq_refl)|exact B].
Defined.

(* ------------------------------------------------------------------ *)
(** ** Routines and their folders                                       *)
(* ------------------------------------------------------------------ *)

Lemma upsertRoutineFolder_routines folder d :
  Db.routines (snd (Sync.upsertRoutineFolder folder d)) = Db.routines d.
Proof.
  unfold Sync.upsertRoutineFolder.
  now destruct (Db.first Db.routineFoldersT _ d) as [[id old]|].
Qed.

(** After the upsert of a folder, the first document with its Hevy id is
    the one returned, and it carries the week number of the title. *)
Lemma upsertRoutineFolder_stored folder d :
  wf d ->
  exists page,
    Db.first Db.routineFoldersT
      (fun f => (RoutineFolder.hevyId f =? HevyRoutineFolder.id folder)%Z)
      (snd (Sync.upsertRoutineFolder folder d))
    = Some (fst (Sync.upsertRoutineFolder folder d),
            Sync.folder_data folder page).
Proof.
  intros W. destruct (wf_routineFolders d W) as [_ Nd].
  set (p := fun f : RoutineFolder.t =>
              (RoutineFolder.hevyId f =? HevyRoutineFolder.id folder)%Z).
  set (g := fun old : RoutineFolder.t =>
              Sync.folder_data folder (RoutineFolder.notionPageId old)).
  assert (Pg : forall page, p (Sync.folder_data folder page) = true)
    by (intros page; unfold p; simpl; apply Z.eqb_refl).
  assert (Once : Sync.upsertRoutineFolder folder d
                 = match Db.first Db.routineFoldersT p d with
                   | Some (id, _) => (id, Db.patch Db.routineFoldersT id g d)
                   | None =>
                       Db.insert Db.routineFoldersT
                         (Sync.folder_data folder None) d
                   end) by reflexivity.
  rewrite Once.
  destruct (Db.first Db.routineFoldersT p d) as [[id old]|] eqn:F.
  - exists (RoutineFolder.notionPageId old).
    unfold Db.first, Db.patch in *.
    destruct d as [n ss ws es sets fs rs res rss ep]. simpl in *.
    exact (find_patch_rows p id g old fs Nd F (Pg _)).
  - exists None.
    unfold Db.first, Db.insert, Db.bump in *.
    destruct d as [n ss ws es sets fs rs res rss ep]. simpl in *.
    exact (find_snoc (fun r => p (snd r)) fs
             (n, Sync.folder_data folder None) F (Pg None)).
Qed.

(** A routine upserted after its folder, on a well-formed store that
    holds the routine at most once: the one document with the routine's
    Hevy id names the folder's document, has the week number read off the
    folder's title and the sort order [week * 100 + day], and is among the
    routines of that folder. *)
Theorem routine_is_linked_to_its_folder
  (folder : HevyRoutineFolder.t) (routine : HevyRoutine.t) (d : Db.t) :
  wf d ->
  List.length (routines_with (HevyRoutine.id routine) d) <= 1 ->
  HevyRoutine.folder_id routine = Some (HevyRoutineFolder.id folder) ->
  HevyRoutineFolder.id folder <> 0%Z ->
  let d1 := Sync.upsertRoutineFolder folder d in
  let d2 := Sync.upsertRoutine routine (snd d1) in
  let week := Sync.parseWeekNumber (HevyRoutineFolder.title folder) in
  exists row,
    routines_with (HevyRoutine.id routine) (snd d2) = [(fst d2, row)]
    /\ Routine.folderId row = Some (fst d1)
    /\ Routine.weekNumber row = week
    /\ Routine.sortOrder row
       = Some (Sync.or_zero week * 100
               + Sync.or_zero (Sync.parseDayNumber (HevyRoutine.title routine)))%Z
    /\ In (fst d2, row) (Sync.getRoutinesByFolder (fst d1) (snd d2)).
Proof.
  intros W L Fid Nz. cbv zeta.
  pose proof (upsertRoutineFolder_wf folder d W) as W1.
  destruct (upsertRoutineFolder_stored folder d W) as [fpage St].
  assert (RF : Sync.routine_folder routine (snd (Sync.upsertRoutineFolder folder d))
               = (Some (fst (Sync.upsertRoutineFolder folder d)),
                  Sync.parseWeekNumber (HevyRoutineFolder.title folder))).
  { unfold Sync.routine_folder. rewrite Fid.
    assert (T : Js.truthy_int (HevyRoutineFolder.id folder) = true).
    { unfold Js.truthy_int. apply negb_true_iff. now apply Z.eqb_neq. }
    rewrite T, St. reflexivity. }
  assert (L1 : List.length
                 (routines_with (HevyRoutine.id routine)
                    (snd (Sync.upsertRoutineFolder folder d))) <= 1).
  { unfold routines_with, Db.collect in *. simpl in *.
    now rewrite upsertRoutineFolder_routines. }
  destruct (upsertRoutine_once routine _ W1 L1) as [page [One _]].
  rewrite RF in One. simpl fst in One. simpl snd in One.
  eexists. split; [exact One|]. split; [reflexivity|]. split; [reflexivity|].
  split; [reflexivity|].
  assert (I : In (fst (Sync.upsertRoutine routine
                         (snd (Sync.upsertRoutineFolder folder d))),
                  Sync.routine_data routine
                    (Some (fst (Sync.upsertRoutineFolder folder d)))
                    (Sync.parseWeekNumber (HevyRoutineFolder.title folder)) page)
                (routines_with (HevyRoutine.id routine)
                   (snd (Sync.upsertRoutine routine
                           (snd (Sync.upsertRoutineFolder folder d))))))
    by (rewrite One; now left).
  unfold routines_with, Db.collect in I. apply filter_In in I.
  destruct I as [I _].
  unfold Sync.getRoutinesByFolder, Db.collect. apply filter_In.
  split; [exact I|]. simpl. apply Nat.eqb_refl.
Qed.



(** The two theorems on the sample folder and routine. *)
Lemma routine_linked_witness :
  exists row,
    routines_with "r-1" Sim.routine_store = [(1, row)]
    /\ Routine.folderId row = Some 0
    /\ Routine.weekNumber row = Some 2%Z
    /\ Routine.sortOrder row = Some 203%Z.
Proof.
  destruct (routine_is_linked_to_its_folder Sim.week2 Sim.day3 Db.empty
              wf_empty (Nat.le_0_l 1) eq_refl ltac:(discriminate))
    as [row [A [B [C [D _]]]]].
  exists row.
  assert (E1 : fst (Sync.upsertRoutine Sim.day3
                      (snd (Sync.upsertRoutineFolder Sim.week2 Db.empty))) = 1)
    by (vm_compute; reflexivity).
  assert (E0 : fst (Sync.upsertRoutineFolder Sim.week2 Db.empty) = 0)
    by (vm_compute; reflexivity).
  assert (EW : Sync.parseWeekNumber (HevyRoutineFolder.title Sim.week2)
               = Some 2%Z) by (vm_compute; reflexivity).
  assert (ED : Sync.parseDayNumber (HevyRoutine.title Sim.day3) = Some 3%Z)
    by (vm_compute; reflexivity).
  rewrite E1 in A. rewrite E0 in B. rewrite EW in C, D. rewrite ED in D.
  split; [exact A|]. split; [exact B|]. split; [exact C|exact D].
Defined.


(* ------------------------------------------------------------------ *)
(** ** Deleting twice, and updating a mirrored workout                  *)
(* ------------------------------------------------------------------ *)

(** On a store with distinct workout identifiers, marking a workout
    deleted a second time changes nothing. *)
Theorem markWorkoutDeleted_twice_is_once (hevyId : string) (d : Db.t) :
  NoDup (map fst (Db.workouts d)) ->
  Sync.markWorkoutDeleted hevyId (Sync.markWorkoutDeleted hevyId d)
  = Sync.markWorkoutDeleted hevyId d.
Proof.
  intros N.
  set (p := fun w : Workout.t => String.eqb (Workout.hevyId w) hevyId).
  assert (Once : forall d0,
            Sync.markWorkoutDeleted hevyId d0
            = match Db.first Db.workoutsT p d0 with
              | Some (id, _) => Db.patch Db.workoutsT id Sync.mark_deleted d0
              | None => d0
              end) by reflexivity.
  rewrite (Once d).
  destruct (Db.first Db.workoutsT p d) as [[id old]|] eqn:F.
  - rewrite Once.
    assert (F2 : Db.first Db.workoutsT p
                   (Db.patch Db.workoutsT id Sync.mark_deleted d)
                 = Some (id, Sync.mark_deleted old)).
    { pose proof (first_In _ _ _ _ _ F) as [_ P].
      unfold Db.first, Db.patch in *.
      destruct d as [n ss ws es sets fs rs res rss ep]. simpl in *.
      exact (find_patch_rows p id Sync.mark_deleted old ws N F P). }
    rewrite F2. unfold Db.patch.
    destruct d as [n ss ws es sets fs rs res rss ep]. simpl.
    now rewrite patch_rows_twice.
  - rewrite Once. now rewrite F.
Qed.

(** The theorem on the store that holds the sample workout. *)
Lemma markWorkoutDeleted_twice_witness :
  Sync.markWorkoutDeleted "w-1" Sim.deleted_store = Sim.deleted_store.
Proof.
  exact (markWorkoutDeleted_twice_is_once "w-1" Sim.pushed_store
           ltac:(vm_compute; repeat constructor; intros [])).
Defined.

Section UpsertMirrored.

Variable Date_getTime : string -> Z.
Variable workout : HevyWorkout.t.

(** An upsert of a workout that is stored, on a well-formed store: the
    document keeps its identifier and its mirror page id, takes the fields
    of the payload, is not deleted any more and waits for the mirror again;
    so the next push updates the page it has. *)
Theorem upsert_keeps_the_mirror_page (d : Db.t) (id : Id) (old : Workout.t) :
  wf d ->
  Db.first Db.workoutsT
    (fun w => String.eqb (Workout.hevyId w) (HevyWorkout.id workout)) d
  = Some (id, old) ->
  let r := Sync.upsertWorkout Date_getTime workout d in
  let row :=
    Sync.workout_fields Date_getTime workout (Workout.notionPageId old) in
  fst r = id
  /\ Db.lookup Db.workoutsT id (snd r) = Some row
  /\ Workout.notionPageId row = Workout.notionPageId old
  /\ Workout.syncedToNotion row = false
  /\ Workout.isDeleted row = false
  /\ In (id, row) (Sync.getUnsyncedWorkouts (snd r)).
Proof.
  intros W F. cbv zeta.
  destruct (upsertWorkout_existing Date_getTime workout d id old F)
    as [kE [kS [E _]]].
  rewrite E. simpl fst. simpl snd.
  pose proof (first_In _ _ _ _ _ F) as [I P].
  apply String.eqb_eq in P.
  assert (L : option_map snd
                (find (fun r => Nat.eqb (fst r) id)
                   (Db.patch_rows id (Sync.workout_patch Date_getTime workout)
                      (Db.workouts d)))
              = Some (Sync.workout_fields Date_getTime workout
                        (Workout.notionPageId old))).
  { rewrite lookup_patch_rows, Nat.eqb_refl.
    assert (Lo : option_map snd
                   (find (fun r => Nat.eqb (fst r) id) (Db.workouts d))
                 = Some old).
    { destruct (find (fun r => Nat.eqb (fst r) id) (Db.workouts d))
        as [[j x]|] eqn:Fi.
      - apply find_some in Fi. destruct Fi as [Ij Ej]. simpl in Ej.
        apply Nat.eqb_eq in Ej. subst j. simpl. f_equal.
        exact (NoDup_fst_eq _ id x old (proj2 (wf_workouts d W)) Ij I).
      - exfalso. pose proof (find_none _ _ Fi (id, old) I) as C.
        simpl in C. now rewrite Nat.eqb_refl in C. }
    rewrite Lo. simpl. f_equal.
    unfold Sync.workout_patch, Sync.workout_fields. simpl. now rewrite P. }
  split; [reflexivity|]. split; [exact L|]. split; [reflexivity|].
  split; [reflexivity|]. split; [reflexivity|].
  unfold Sync.getUnsyncedWorkouts, Db.collect. simpl.
  apply filter_In. split; [|reflexivity]. now apply lookup_In.
Qed.

End UpsertMirrored.

(** The theorem on the store in which the sample workout is mirrored
    under the page [old]. *)
Lemma upsert_keeps_the_mirror_page_witness :
  map (fun r => (Workout.notionPageId (snd r), Workout.syncedToNotion (snd r)))
    (Db.workouts Sim.mirrored_store)
  = [(Some "old"%string, true)]
  /\ exists row,
       Db.lookup Db.workoutsT 0 Sim.updated_store = Some row
       /\ Workout.notionPageId row = Some "old"%string
       /\ Workout.syncedToNotion row = false.
Proof.
  split; [vm_compute; reflexivity|].
  destruct (upsert_keeps_the_mirror_page Sim.Date_getTime Sim.push_day
              Sim.mirrored_store 0
              (Sync.mark_synced "old"
                 (Sync.workout_fields Sim.Date_getTime Sim.push_day None))
              (markWorkoutSynced_wf 0 "old" _
                 (upsertWorkout_wf Sim.Date_getTime Sim.push_day Db.empty wf_empty))
              ltac:(vm_compute; reflexivity))
    as [_ [L [P [S _]]]].
  eexists. split; [exact L|]. split; [exact P|exact S].
Defined.

(* ------------------------------------------------------------------ *)
(** ** What the pages show                                              *)
(* ------------------------------------------------------------------ *)

Section PageFacts.

Local Open Scope string_scope.

Lemma split_T_0_app date : forall rest,
  every_char (fun c => negb (Ascii.eqb c "T")) date = true ->
  Js.split_T_0 (date ++ String "T" rest) = date.
Proof.
  induction date as [|c date IH]; intros rest E; simpl; [reflexivity|].
  simpl in E. apply andb_prop in E. destruct E as [C E].
  apply negb_true_iff in C. rewrite C. f_equal. now apply IH.
Qed.

Lemma split_T_0_whole s :
  every_char (fun c => negb (Ascii.eqb c "T")) s = true -> Js.split_T_0 s = s.
Proof.
  induction s as [|c s IH]; intros E; simpl; [reflexivity|].
  simpl in E. apply andb_prop in E. destruct E as [C E].
  apply negb_true_iff in C. rewrite C. f_equal. now apply IH.
Qed.

(** The [Date] of a workout page is the part of the stored start time
    before its first [T], that is the calendar day as the tracker wrote it,
    and the whole start time when it has no [T]. *)
Theorem workout_page_date (workout : Workout.t) (date rest : string) :
  every_char (fun c => negb (Ascii.eqb c "T")) date = true ->
  (Workout.startTime workout = date ++ String "T" rest ->
   In ("Date", Notion.date date) (workoutProps workout))
  /\ (Workout.startTime workout = date ->
      In ("Date", Notion.date date) (workoutProps workout)).
Proof.
  intros E. split; intros S; unfold workoutProps; rewrite S.
  - rewrite (split_T_0_app date rest E). simpl. tauto.
  - rewrite (split_T_0_whole date E). simpl. tauto.
Qed.

End PageFacts.

(** The theorem on the stored sample workout. *)
Lemma workout_page_date_witness :
  In ("Date"%string, Notion.date "2024-01-01")
    (workoutProps (snd (Sim.first_unsynced Sim.pushed_store))).
Proof.
  exact (proj1 (workout_page_date (snd (Sim.first_unsynced Sim.pushed_store))
                  "2024-01-01" "10:00:00Z" eq_refl)
           ltac:(vm_compute; reflexivity)).
Defined.

(** *** Volumes *)

Lemma exerciseVolume_sum (sets : Table SetRow.t) : forall acc,
  fold_left
    (fun acc set =>
       match setVolume (snd set) with
       | Some v => (acc + v)%Q
       | None => acc
       end) sets acc
  == acc + Qsum (map (fun set => page_volume (snd set)) sets).
Proof.
  induction sets as [|s sets IH]; intros acc; simpl.
  - ring.
  - rewrite IH. unfold page_volume.
    destruct (setVolume (snd s)); ring.
Qed.

Lemma page_volume_set_row e wid set :
  page_volume (Sync.set_row e wid set) == counted_volume set.
Proof.
  unfold page_volume, setVolume, counted_volume, Sync.set_row. simpl.
  unfold Js.or_undefined.
  destruct (HevySet.reps set) as [r|], (HevySet.weight_kg set) as [w|];
    try (destruct (Js.truthy_num w) eqn:Tw);
    try (destruct (Js.truthy_num r) eqn:Tr);
    simpl; rewrite ?Tw, ?Tr; simpl; reflexivity.
Qed.

Lemma Qsum_app a b : Qsum (a ++ b) == Qsum a + Qsum b.
Proof.
  induction a as [|x a IH]; simpl; [ring|]. rewrite IH. ring.
Qed.

Lemma Qsum_ext {A} (f g : A -> Q) l :
  (forall x, f x == g x) -> Qsum (map f l) == Qsum (map g l).
Proof.
  intros H. induction l as [|x l IH]; simpl; [reflexivity|].
  now rewrite H, IH.
Qed.

(** The volumes on the pages agree with the volume of the workout, for a
    payload whose weights are whole numbers of half kilograms and whose
    repetitions are whole numbers (ten times the volume not above
    [Number.MAX_SAFE_INTEGER]): the [Total Volume] of the page of an
    exercise, computed from the set documents that [upsertWorkout] wrote
    for it, is the sum of weight times repetitions over the sets of the
    exercise in the payload, and these page volumes add up to the volume
    that is stored for the workout. *)
Theorem page_volumes_add_up (exercises : list HevyExercise.t)
  (rows : HevyExercise.t -> Table SetRow.t) :
  exact_volumes exercises ->
  (forall ex,
     In ex exercises ->
     exists e wid n,
       rows ex = numbered n (map (Sync.set_row e wid) (HevyExercise.sets ex))) ->
  let shown := fun ex => Js.round1 (exerciseVolume (rows ex)) in
  (forall page exercise ex,
     In ("Total Volume (kg)"%string, Notion.number (Some (shown ex)))
       (exerciseProps page exercise (rows ex)))
  /\ (forall ex,
        In ex exercises ->
        shown ex == Qsum (map counted_volume (HevyExercise.sets ex)))
  /\ Sync.totalVolume (calculateWorkoutStats exercises)
     == Qsum (map shown exercises).
Proof.
  intros [P _] Rows shown.
  assert (Each : forall ex,
             In ex exercises ->
             shown ex == Qsum (map counted_volume (HevyExercise.sets ex))).
  { intros ex I. destruct (Rows ex I) as [e [wid [n E]]].
    assert (V : exerciseVolume (rows ex)
                == Qsum (map counted_volume (HevyExercise.sets ex))).
    { rewrite E. unfold exerciseVolume. rewrite exerciseVolume_sum.
      rewrite <- (map_map snd page_volume), map_snd_numbered, map_map.
      rewrite (Qsum_ext (fun x => page_volume (Sync.set_row e wid x))
                 counted_volume _ (page_volume_set_row e wid)).
      ring. }
    unfold shown. rewrite <- V. apply round1_halves.
    apply (halves_comp _ _ (Qeq_sym _ _ V)). apply volumes_halves.
    rewrite forallb_forall in P |- *. intros set Hs. apply P.
    unfold all_sets. apply in_flat_map. now exists ex. }
  split; [|split; [exact Each|]].
  - intros page exercise ex. unfold exerciseProps, shown. simpl. tauto.
  - destruct (workout_totals_are_sums_aux exercises) as [V C].
    rewrite C. simpl Sync.totalVolume.
    rewrite round1_halves
      by (apply (halves_comp _ _ (Qeq_sym _ _ V)); now apply volumes_halves).
    rewrite V. unfold all_sets. clear V C P Rows.
    induction exercises as [|x exercises IH]; simpl; [reflexivity|].
    rewrite map_app, Qsum_app, IH by (intros ex I; apply Each; now right).
    rewrite (Each x) by now left. reflexivity.
Qed.

(** The theorem on two exercises with weights of 100, 50 and 22.5
    kilograms, whose set documents are those an upsert writes into the
    empty store: the pages show 1000 and 157.5, the workout 1157.5. *)
Lemma page_volumes_witness :
  let rows := fun ex =>
    numbered 0 (map (Sync.set_row 0 0) (HevyExercise.sets ex)) in
  Forall2 Qeq
    (map (fun ex => Js.round1 (exerciseVolume (rows ex)))
       Sim.with_half_kilograms)
    [1000; 315 # 2]%Q
  /\ Sync.totalVolume (calculateWorkoutStats Sim.with_half_kilograms)
     == Qsum
          (map (fun ex => Js.round1 (exerciseVolume (rows ex)))
             Sim.with_half_kilograms).
Proof.
  cbv zeta. split.
  { constructor; [vm_compute; reflexivity|].
    constructor; [vm_compute; reflexivity|constructor]. }
  assert (H : exact_volumes Sim.with_half_kilograms)
    by (split; [vm_compute; reflexivity|vm_compute; discriminate]).
  exact (proj2 (proj2
           (page_volumes_add_up Sim.with_half_kilograms
              (fun ex =>
                 numbered 0 (map (Sync.set_row 0 0) (HevyExercise.sets ex)))
              H
              (fun ex _ => ex_intro _ 0 (ex_intro _ 0 (ex_intro _ 0 eq_refl)))))).
Defined.

(* ------------------------------------------------------------------ *)
(** ** The answers of the tracker                                       *)
(* ------------------------------------------------------------------ *)

Section TrackerErrors.

Variable Net : Type.
Variable hevy_fetch : HevyApi.Request -> Net -> HevyApi.Response * Net.
Variable toISOString : nat -> string.
Variable Date_getTime : string -> Z.
Variable env : Env.

Lemma hevyRequest_refused r w :
  let answer := fst (hevy_fetch r (net Net w)) in
  HevyApi.status answer = 429%Z \/ HevyApi.ok answer = false ->
  hevyRequest Net hevy_fetch r w
  = (Threw (if (HevyApi.status answer =? 429)%Z then HevyRateLimited
            else HevyApiError (HevyApi.status answer)),
     mkWorld Net (db Net w) (snd (hevy_fetch r (net Net w))) (sent Net w)
       (asked Net w ++ [r]) (console Net w) (clock Net w)).
Proof.
  cbv zeta. unfold hevyRequest.
  destruct (hevy_fetch r (net Net w)) as [resp n']. simpl. intros [H|H].
  - rewrite H. reflexivity.
  - rewrite H. now destruct (HevyApi.status resp =? 429)%Z.
Qed.

(** With the key configured, the first answer of the tracker decides: on
    status 429 [fullSync] and [incrementalSync] throw the rate-limit
    error, on any other status outside 200..299 the error that carries the
    status; in both cases after that one request and with the store as it
    was. *)
Theorem first_answer_of_the_tracker_decides
  (w : World Net) (c : ascii) (k : string) :
  HEVY_API_KEY env = Some (String c k) ->
  let failure (answer : HevyApi.Response) :=
    if (HevyApi.status answer =? 429)%Z then HevyRateLimited
    else HevyApiError (HevyApi.status answer) in
  (forall request,
     request = HevyApi.GetWorkouts (String c k) 1 10 ->
     let answer := fst (hevy_fetch request (net Net w)) in
     let run := fullSync Net hevy_fetch toISOString Date_getTime env w in
     HevyApi.status answer = 429%Z \/ HevyApi.ok answer = false ->
     fst run = Threw (failure answer)
     /\ asked Net (snd run) = asked Net w ++ [request]
     /\ db Net (snd run) = db Net w)
  /\ (forall request,
        request
        = HevyApi.GetEvents (String c k)
            (since_cursor (Sync.getSyncState (db Net w))) 1 10 ->
        let answer := fst (hevy_fetch request (net Net w)) in
        let run := incrementalSync Net hevy_fetch toISOString Date_getTime env w in
        HevyApi.status answer = 429%Z \/ HevyApi.ok answer = false ->
        fst run = Threw (failure answer)
        /\ asked Net (snd run) = asked Net w ++ [request]
        /\ db Net (snd run) = db Net w).
Proof.
  intros K failure. split; intros request -> answer run H.
  - assert (E : run
                = (Threw (failure answer),
                   mkWorld Net (db Net w)
                     (snd (hevy_fetch (HevyApi.GetWorkouts (String c k) 1 10)
                             (net Net w)))
                     (sent Net w)
                     (asked Net w ++ [HevyApi.GetWorkouts (String c k) 1 10])
                     (console Net w) (clock Net w))).
    { unfold run, fullSync, hevy_api_key. rewrite K.
      unfold bind at 1. unfold ret at 1. unfold fetchHevyWorkouts.
      exact (bind_Threw Net _ _ _ _ _ (hevyRequest_refused _ w H)). }
    rewrite E. now repeat split.
  - assert (E : run
                = (Threw (failure answer),
                   mkWorld Net (db Net w)
                     (snd (hevy_fetch
                             (HevyApi.GetEvents (String c k)
                                (since_cursor (Sync.getSyncState (db Net w)))
                                1 10)
                             (net Net w)))
                     (sent Net w)
                     (asked Net w
                      ++ [HevyApi.GetEvents (String c k)
                            (since_cursor (Sync.getSyncState (db Net w))) 1 10])
                     (console Net w) (clock Net w))).
    { unfold run, incrementalSync, hevy_api_key. rewrite K.
      unfold bind at 1. unfold ret at 1. unfold bind at 1.
      unfold runQuery at 1. unfold fetchHevyEvents.
      exact (bind_Threw Net _ _ _ _ _ (hevyRequest_refused _ w H)). }
    rewrite E. now repeat split.
Qed.

End TrackerErrors.

(** The theorem for a tracker that answers 429 and one that answers
    503. *)
Lemma tracker_errors_witness :
  fst (fullSync Sim.Net Sim.hevy_limited Sim.toISOString Sim.Date_getTime Sim.env
         (Sim.world Db.empty Sim.empty_net))
  = Threw HevyRateLimited
  /\ fst (incrementalSync Sim.Net Sim.hevy_down Sim.toISOString Sim.Date_getTime
            Sim.env (Sim.world Db.empty Sim.empty_net))
     = Threw (HevyApiError 503).
Proof.
  split.
  - exact (proj1 (proj1 (first_answer_of_the_tracker_decides Sim.Net
                           Sim.hevy_limited Sim.toISOString Sim.Date_getTime
                           Sim.env (Sim.world Db.empty Sim.empty_net)
                           "h"%char "evy-key"%string eq_refl)
                    _ eq_refl (or_introl eq_refl))).
  - exact (proj1 (proj2 (first_answer_of_the_tracker_decides Sim.Net
                           Sim.hevy_down Sim.toISOString Sim.Date_getTime
                           Sim.env (Sim.world Db.empty Sim.empty_net)
                           "h"%char "evy-key"%string eq_refl)
                    _ eq_refl (or_intror eq_refl))).
Defined.

(* ------------------------------------------------------------------ *)
(** ** The update of the sorting values                                 *)
(* ------------------------------------------------------------------ *)

Section SortingFacts.

Variable Net : Type.
Variable notion_fetch : Notion.Request -> Net -> Notion.Response * Net.
Variable env : Env.

Lemma keeps_db_allSettled {T R} (processor : T -> Action Net R) batch :
  (forall item, keeps_db (processor item)) ->
  keeps_db (allSettled Net processor batch).
Proof.
  intros H. induction batch as [|item batch IH]; simpl.
  - apply keeps_db_ret.
  - intros w. pose proof (H item w) as D.
    destruct (processor item w) as [[r|e|] w1]; simpl in D.
    + rewrite <- D. apply keeps_db_bind; [exact IH|]. intros s.
      apply keeps_db_ret.
    + rewrite <- D. apply keeps_db_bind; [exact IH|]. intros s.
      apply keeps_db_ret.
    + exact D.
Qed.

Lemma keeps_db_collect_settled {R} (settled : list (R + Err)) :
  forall results errors,
    keeps_db (collect_settled Net settled results errors).
Proof.
  induction settled as [|s settled IH]; intros results errors; simpl.
  - apply keeps_db_ret.
  - destruct s as [v|e]; [apply IH|].
    apply keeps_db_bind; [apply keeps_db_log|]. intros _. apply IH.
Qed.

Lemma keeps_db_batch_loop {T R} (processor : T -> Action Net R) items N :
  (forall item, keeps_db (processor item)) ->
  forall fuel i results errors,
    keeps_db (batch_loop Net fuel items processor N i results errors).
Proof.
  intros H. induction fuel as [|fuel IH]; intros i results errors; simpl.
  - intros w. reflexivity.
  - destruct (i <? List.length items); [|apply keeps_db_ret].
    apply keeps_db_bind; [now apply keeps_db_allSettled|]. intros settled.
    apply keeps_db_bind; [apply keeps_db_collect_settled|]. intros acc.
    apply IH.
Qed.

Lemma keeps_db_batchProcess {T R} (processor : T -> Action Net R) items N :
  (forall item, keeps_db (processor item)) ->
  keeps_db (batchProcess Net items processor N).
Proof. intros H. now apply keeps_db_batch_loop. Qed.

(** A batch whose processors end, keep the store and send requests of one
    kind: every item is counted once, as a result or as an error. *)
Lemma batchProcess_accounts {T R} (ok : Notion.Request -> Prop)
  (processor : T -> Action Net R) items N w :
  0 < N ->
  (forall item, ends (processor item)) ->
  (forall item, keeps_db (processor item)) ->
  (forall item, sends_only ok (processor item)) ->
  exists results errors w',
    batchProcess Net items processor N w = (Returned (results, errors), w')
    /\ List.length results + errors = List.length items
    /\ db Net w' = db Net w

    /\ exists new, sent Net w' = sent Net w ++ new /\ Forall ok new.
Proof.
  intros HN He Hk Hs.
  pose proof (keeps_db_batchProcess processor items N Hk w) as D.
  destruct (sends_only_batchProcess Net ok processor items N Hs w)
    as [new [Sn F]].
  rewrite batchProcess_chunks in * by assumption.
  destruct (run_chunks_spec Net processor (chunks N items) He [] 0 w)
    as [settled [w' [E F2]]].
  rewrite chunks_concat in F2 by assumption.
  rewrite E in D, Sn. simpl in D, Sn.
  exists (values_of settled), (failures_of settled), w'.
  split; [exact E|]. split.
  { rewrite values_failures_length. symmetry. eapply Forall2_length. exact F2. }
  split; [exact D|]. now exists new.
Qed.

Lemma gather_all_run {A B} (q : A -> Db.t -> list B) (xs : list A) w :
  gather_all Net xs q w = (Returned (flat_map (fun x => q x (db Net w)) xs), w).
Proof.
  induction xs as [|x xs IH]; [reflexivity|].
  simpl. unfold bind, runQuery. rewrite IH. reflexivity.
Qed.

Lemma updatePage_then_ret {A} pageId props (a : A) :
  ends (bind Net (updatePage Net notion_fetch env pageId props)
          (fun _ => ret Net a))
  /\ keeps_db (bind Net (updatePage Net notion_fetch env pageId props)
                 (fun _ => ret Net a))
  /\ sends_only is_update
       (bind Net (updatePage Net notion_fetch env pageId props)
          (fun _ => ret Net a)).
Proof.
  unfold updatePage. split; [|split].
  - apply ends_bind; [apply ends_notionRequest|]. intros _. apply ends_ret.
  - apply keeps_db_bind; [apply keeps_db_notionRequest|]. intros _.
    apply keeps_db_ret.
  - apply sends_only_bind; [|intros _; apply sends_only_ret].
    apply sends_only_notionRequest. now exists pageId, props.
Qed.

(** The update of the sorting values always returns.  It leaves the
    store as it is and sends only page updates.  Every folder, every
    routine of a folder and every exercise of such a routine that has a
    page is counted once: as updated, or as an error. *)
Theorem sorting_update_accounts_for_every_page (w : World Net) :
  let d := db Net w in
  let folders := getAllRoutineFolders d in
  let allRoutines :=
    flat_map (fun folder => Sync.getRoutinesByFolder (fst folder) d) folders in
  let allExercises :=
    flat_map (fun routine => Sync.getRoutineExercises (fst routine) d)
      allRoutines in
  exists counts w',
    updateExistingWithSorting Net notion_fetch env w = (Returned counts, w')
    /\ db Net w' = d
    /\ (exists new, sent Net w' = sent Net w ++ new /\ Forall is_update new)
    /\ updatedFolders counts
       <= List.length (with_page RoutineFolder.notionPageId folders)
    /\ updatedRoutines counts
       <= List.length (with_page Routine.notionPageId allRoutines)
    /\ updatedExercises counts
       <= List.length (with_page RoutineExercise.notionPageId allExercises)
    /\ updatedFolders counts + updatedRoutines counts
       + updatedExercises counts + sortingErrors counts
       = List.length (with_page RoutineFolder.notionPageId folders)
         + List.length (with_page Routine.notionPageId allRoutines)
         + List.length (with_page RoutineExercise.notionPageId allExercises).
Proof.
  cbv zeta. unfold updateExistingWithSorting.
  unfold bind at 1. unfold runQuery at 1.
  destruct (batchProcess_accounts is_update
              (sort_folder Net notion_fetch env)
              (with_page RoutineFolder.notionPageId
                 (getAllRoutineFolders (db Net w))) 10 w
              ltac:(lia)
              (fun item => proj1 (updatePage_then_ret _ _ _))
              (fun item => proj1 (proj2 (updatePage_then_ret _ _ _)))
              (fun item => proj2 (proj2 (updatePage_then_ret _ _ _))))
    as [r1 [e1 [w1 [E1 [L1 [D1 [n1 [S1 F1]]]]]]]].
  unfold bind at 1. rewrite E1.
  unfold bind at 1. rewrite gather_all_run. rewrite D1.
  destruct (batchProcess_accounts is_update
              (sort_routine Net notion_fetch env)
              (with_page Routine.notionPageId
                 (flat_map
                    (fun folder => Sync.getRoutinesByFolder (fst folder) (db Net w))
                    (getAllRoutineFolders (db Net w)))) 10 w1
              ltac:(lia)
              (fun item => proj1 (updatePage_then_ret _ _ _))
              (fun item => proj1 (proj2 (updatePage_then_ret _ _ _)))
              (fun item => proj2 (proj2 (updatePage_then_ret _ _ _))))
    as [r2 [e2 [w2 [E2 [L2 [D2 [n2 [S2 F2]]]]]]]].
  unfold bind at 1. rewrite E2.
  unfold bind at 1. rewrite gather_all_run. rewrite D2, D1.
  destruct (batchProcess_accounts is_update
              (sort_exercise Net notion_fetch env)
              (with_page RoutineExercise.notionPageId
                 (flat_map
                    (fun routine =>
                       Sync.getRoutineExercises (fst routine) (db Net w))
                    (flat_map
                       (fun folder =>
                          Sync.getRoutinesByFolder (fst folder) (db Net w))
                       (getAllRoutineFolders (db Net w))))) 20 w2
              ltac:(lia)
              (fun item => proj1 (updatePage_then_ret _ _ _))
              (fun item => proj1 (proj2 (updatePage_then_ret _ _ _)))
              (fun item => proj2 (proj2 (updatePage_then_ret _ _ _))))
    as [r3 [e3 [w3 [E3 [L3 [D3 [n3 [S3 F3]]]]]]]].
  unfold bind at 1. rewrite E3. unfold ret. simpl.
  eexists _, _. split; [reflexivity|]. simpl.
  split; [now rewrite D3, D2, D1|]. split.
  { exists (n1 ++ n2 ++ n3). rewrite S3, S2, S1, <- !app_assoc.
    split; [reflexivity|]. rewrite !Forall_app. auto. }
  lia.
Qed.

End SortingFacts.

(** The update on the sample folder and routine, both mirrored: one page
    update each, no exercise page, no error. *)
Example sorting_update_sample :
  fst (updateExistingWithSorting Sim.Net Sim.notion_fetch Sim.env
         (Sim.world Sim.sorted_store Sim.sorted_net))
  = Returned (mkSortingCounts 1 1 0 0).
Proof. vm_compute. reflexivity. Qed.

(* ------------------------------------------------------------------ *)
(** ** C1: upserting twice                                              *)
(* ------------------------------------------------------------------ *)

Lemma filter_split_length {A} (p : A -> bool) (l : list A) :
  List.length (filter p l) + List.length (filter (fun x => negb (p x)) l)
  = List.length l.
Proof.
  induction l as [|x l IH]; simpl; [reflexivity|].
  destruct (p x); simpl; lia.
Qed.

Lemma filter_or_length {A} (p q : A -> bool) (l : list A) :
  (forall x, In x l -> p x = true -> q x = false) ->
  List.length (filter (fun x => p x || q x) l)
  = List.length (filter p l) + List.length (filter q l).
Proof.
  induction l as [|x l IH]; intros D; [reflexivity|].
  assert (E : List.length (filter (fun x => p x || q x) l)
              = List.length (filter p l) + List.length (filter q l))
    by (apply IH; intros y Hy; apply D; now right).
  cbn [filter]. destruct (p x) eqn:P.
  - rewrite (D x (or_introl eq_refl) P). simpl. now rewrite E.
  - destruct (q x); simpl; rewrite E; lia.
Qed.

Lemma new_kids_length {P C CR} (kids : P -> list C) (crow : Id -> C -> CR) ps :
  forall n,
    List.length (new_kids kids crow n ps)
    = list_sum (map (fun p => List.length (kids p)) ps).
Proof.
  induction ps as [|p ps IH]; intros n; simpl; [reflexivity|].
  rewrite length_app, IH. unfold numbered.
  rewrite length_combine, length_seq, length_map. lia.
Qed.

Section Replaced.

Context {PR CR : Type}.
Variable owner : PR -> Id.
Variable parent_of : CR -> Id.

(** The children of some parents with distinct identifiers, counted at
    once and parent by parent. *)
Lemma count_by_parent (kidsT : Table CR) (mine : Table PR) :
  NoDup (map fst mine) ->
  List.length
    (filter (fun s => existsb (fun x => Nat.eqb (parent_of (snd s)) (fst x)) mine)
       kidsT)
  = list_sum
      (map (fun e =>
              List.length
                (filter (fun s => Nat.eqb (parent_of (snd s)) (fst e)) kidsT))
         mine).
Proof.
  induction mine as [|x mine IH]; intros N; simpl.
  - induction kidsT; simpl; auto.
  - inversion N as [|? ? Hn Hd]; subst.
    rewrite <- IH by assumption.
    apply (filter_or_length
             (fun s => Nat.eqb (parent_of (snd s)) (fst x))
             (fun s =>
                existsb (fun x0 => Nat.eqb (parent_of (snd s)) (fst x0)) mine)).
    intros s _ E. apply Nat.eqb_eq in E.
    destruct (existsb _ mine) eqn:X; [|reflexivity].
    apply existsb_exists in X. destruct X as [y [Hy Ey]].
    apply Nat.eqb_eq in Ey. exfalso. apply Hn. rewrite <- E, Ey.
    now apply in_map.
Qed.

Variables (oldP newP : Table PR) (oldK newK : Table CR) (id n : Id).

Let mine := filter (fun r => Nat.eqb (owner (snd r)) id) oldP.
Let P2 := filter (fun r => negb (Nat.eqb (owner (snd r)) id)) oldP ++ newP.
Let K2 :=
  filter
    (fun s =>
       negb (existsb (fun x => Nat.eqb (parent_of (snd s)) (fst x)) mine))
    oldK
  ++ newK.

(** Replacing the children of one parent by as many new ones leaves the
    sizes of the two tables as they were. *)
Lemma replaced_sizes :
  NoDup (map fst oldP) ->
  List.length newP = List.length mine ->
  List.length newK
  = list_sum
      (map (fun e =>
              List.length
                (filter (fun s => Nat.eqb (parent_of (snd s)) (fst e)) oldK))
         mine) ->
  List.length P2 = List.length oldP /\ List.length K2 = List.length oldK.
Proof.
  intros N LP LK. unfold P2, K2. rewrite !length_app, LP, LK. split.
  - pose proof (filter_split_length
                  (fun r : Id * PR => Nat.eqb (owner (snd r)) id) oldP).
    fold mine in H. lia.
  - rewrite <- (count_by_parent oldK mine) by now apply NoDup_filter.
    pose proof (filter_split_length
                  (fun s : Id * CR =>
                     existsb (fun x => Nat.eqb (parent_of (snd s)) (fst x)) mine)
                  oldK).
    lia.
Qed.

(** The replaced children are gone: their identifiers name no document
    any more and no grandchild refers to them. *)
Lemma replaced_gone e :
  NoDup (map fst oldP) ->
  Forall (fun r => fst r < n) oldP ->
  Forall (fun r => n <= fst r) newP ->
  Forall (fun s => n <= parent_of (snd s)) newK ->
  In e mine ->
  find (fun r => Nat.eqb (fst r) (fst e)) P2 = None
  /\ filter (fun s => Nat.eqb (parent_of (snd s)) (fst e)) K2 = [].
Proof.
  intros N Lt NP NK I. unfold mine in I. apply filter_In in I.
  destruct I as [I O].
  assert (Le : fst e < n) by (rewrite Forall_forall in Lt; now apply Lt).
  split.
  - destruct (find _ P2) as [r|] eqn:F; [|reflexivity]. exfalso.
    apply find_some in F. destruct F as [Hr Er]. apply Nat.eqb_eq in Er.
    unfold P2 in Hr. apply in_app_iff in Hr. destruct Hr as [Hr|Hr].
    + apply filter_In in Hr. destruct Hr as [Hr Or].
      destruct r as [i a], e as [j b]. simpl in *. subst j.
      rewrite (NoDup_fst_eq oldP i a b N Hr I) in Or.
      rewrite O in Or. discriminate.
    + rewrite Forall_forall in NP. specialize (NP r Hr). lia.
  - unfold K2. rewrite filter_app.
    assert (A : forall a b : Table CR, a = [] -> b = [] -> a ++ b = [])
      by (intros a b -> ->; reflexivity).
    apply A.
    + apply filter_none. rewrite Forall_forall. intros s Hs.
      apply filter_In in Hs. destruct Hs as [_ Hs].
      destruct (Nat.eqb (parent_of (snd s)) (fst e)) eqn:E; [|reflexivity].
      apply negb_true_iff in Hs.
      assert (X : existsb (fun x => Nat.eqb (parent_of (snd s)) (fst x)) mine
                  = true).
      { apply existsb_exists. exists e. split; [|exact E].
        unfold mine. apply filter_In. now split. }
      congruence.
    + apply filter_none. eapply Forall_impl; [|exact NK]. simpl.
      intros s Hs. apply Nat.eqb_neq. lia.
Qed.

End Replaced.

Lemma upsertWorkout_again Date_getTime workout d id old :
  wf d ->
  Db.first Db.workoutsT
    (fun w => String.eqb (Workout.hevyId w) (HevyWorkout.id workout)) d
  = Some (id, old) ->
  Sync.upsertWorkout Date_getTime workout d
  = (id,
     Db.mk (Db.nextId d + ids_used HevyExercise.sets (HevyWorkout.exercises workout))
       (Db.syncState d)
       (Db.patch_rows id (Sync.workout_patch Date_getTime workout) (Db.workouts d))
       (filter (fun r => negb (Nat.eqb (Exercise.workoutId (snd r)) id))
          (Db.exercises d)
        ++ new_parents HevyExercise.sets (Sync.exercise_row id) (Db.nextId d)
             (HevyWorkout.exercises workout))
       (filter
          (fun s =>
             negb (existsb
                     (fun x => Nat.eqb (SetRow.exerciseId (snd s)) (fst x))
                     (filter (fun r => Nat.eqb (Exercise.workoutId (snd r)) id)
                        (Db.exercises d))))
          (Db.sets d)
        ++ new_kids HevyExercise.sets (fun e => Sync.set_row e id) (Db.nextId d)
             (HevyWorkout.exercises workout))
       (Db.routineFolders d) (Db.routines d) (Db.routineExercises d)
       (Db.routineSets d) (Db.exerciseProgress d)).
Proof.
  intros W F. unfold Sync.upsertWorkout. rewrite F. f_equal.
  rewrite delete_children_exact;
    [|exact (proj2 (wf_exercises d W))|exact (proj2 (wf_sets d W))].
  unfold Sync.insert_children. rewrite insert_children_eq. reflexivity.
Qed.

Lemma delete_routine_children_exact rid d :
  NoDup (map fst (Db.routineExercises d)) ->
  NoDup (map fst (Db.routineSets d)) ->
  Sync.delete_routine_children rid d
  = Db.set Db.routineExercisesT
      (filter (fun r => negb (Nat.eqb (RoutineExercise.routineId (snd r)) rid))
         (Db.routineExercises d))
      (Db.set Db.routineSetsT
         (filter
            (fun s =>
               negb (existsb
                       (fun x =>
                          Nat.eqb (RoutineSet.routineExerciseId (snd s)) (fst x))
                       (filter
                          (fun r =>
                             Nat.eqb (RoutineExercise.routineId (snd r)) rid)
                          (Db.routineExercises d))))
            (Db.routineSets d)) d).
Proof.
  intros NE NS. unfold Sync.delete_routine_children.
  rewrite (delete_routine_exercises_exact _ d NS). f_equal.
  apply filter_ext_in. intros r I. unfold Db.collect. simpl.
  now rewrite (existsb_same_id
                 (fun e => Nat.eqb (RoutineExercise.routineId (snd e)) rid)
                 (Db.routineExercises d) r NE I).
Qed.

Lemma upsertRoutine_again routine d id old :
  wf d ->
  Db.first Db.routinesT
    (fun r => String.eqb (Routine.hevyId r) (HevyRoutine.id routine)) d
  = Some (id, old) ->
  Sync.upsertRoutine routine d
  = (id,
     Db.mk (Db.nextId d
            + ids_used HevyRoutineExercise.sets (HevyRoutine.exercises routine))
       (Db.syncState d) (Db.workouts d) (Db.exercises d) (Db.sets d)
       (Db.routineFolders d)
       (Db.patch_rows id
          (fun old => Sync.routine_data routine
                        (fst (Sync.routine_folder routine d))
                        (snd (Sync.routine_folder routine d))
                        (Routine.notionPageId old))
          (Db.routines d))
       (filter (fun r => negb (Nat.eqb (RoutineExercise.routineId (snd r)) id))
          (Db.routineExercises d)
        ++ new_parents HevyRoutineExercise.sets
             (Sync.routine_exercise_row id
                (snd (Sync.routine_folder routine d))
                (Sync.parseDayNumber (HevyRoutine.title routine)))
             (Db.nextId d) (HevyRoutine.exercises routine))
       (filter
          (fun s =>
             negb (existsb
                     (fun x =>
                        Nat.eqb (RoutineSet.routineExerciseId (snd s)) (fst x))
                     (filter
                        (fun r => Nat.eqb (RoutineExercise.routineId (snd r)) id)
                        (Db.routineExercises d))))
          (Db.routineSets d)
        ++ new_kids HevyRoutineExercise.sets
             (fun e => Sync.routine_set_row e id) (Db.nextId d)
             (HevyRoutine.exercises routine))
       (Db.exerciseProgress d)).
Proof.
  intros W F. unfold Sync.upsertRoutine.
  destruct (Sync.routine_folder routine d) as [folderId week].
  rewrite F. f_equal.
  rewrite delete_routine_children_exact;
    [|exact (proj2 (wf_routineExercises d W))
     |exact (proj2 (wf_routineSets d W))].
  unfold Sync.insert_routine_children.
  rewrite insert_routine_children_eq. reflexivity.
Qed.

(** An upsert over a workout whose children are those of the payload:
    the tables keep their sizes and the old children are gone. *)
Lemma upsertWorkout_replaces Date_getTime workout d id old :
  wf d ->
  Db.first Db.workoutsT
    (fun w => String.eqb (Workout.hevyId w) (HevyWorkout.id workout)) d
  = Some (id, old) ->
  List.length (Sync.getWorkoutExercises id d)
  = List.length (HevyWorkout.exercises workout) ->
  map (fun e => List.length (Sync.getExerciseSets (fst e) d))
    (Sync.getWorkoutExercises id d)
  = map (fun ex => List.length (HevyExercise.sets ex))
      (HevyWorkout.exercises workout) ->
  let d' := snd (Sync.upsertWorkout Date_getTime workout d) in
  List.length (Db.workouts d') = List.length (Db.workouts d)
  /\ List.length (Db.exercises d') = List.length (Db.exercises d)
  /\ List.length (Db.sets d') = List.length (Db.sets d)
  /\ (forall e,
        In e (Sync.getWorkoutExercises id d) ->
        Db.lookup Db.exercisesT (fst e) d' = None
        /\ Sync.getExerciseSets (fst e) d' = []).
Proof.
  intros W F L M. cbv zeta.
  rewrite (upsertWorkout_again Date_getTime workout d id old W F).
  unfold Sync.getWorkoutExercises, Sync.getExerciseSets, Db.collect, Db.lookup
    in *.
  simpl in *.
  split; [unfold Db.patch_rows; apply length_map|].
  destruct (replaced_sizes Exercise.workoutId SetRow.exerciseId
              (Db.exercises d)
              (new_parents HevyExercise.sets (Sync.exercise_row id)
                 (Db.nextId d) (HevyWorkout.exercises workout))
              (Db.sets d)
              (new_kids HevyExercise.sets (fun e => Sync.set_row e id)
                 (Db.nextId d) (HevyWorkout.exercises workout))
              id (proj2 (wf_exercises d W)))
    as [SP SK].
  { now rewrite new_parents_length. }
  { now rewrite new_kids_length, <- M. }
  split; [exact SP|]. split; [exact SK|].
  intros e I.
  destruct (replaced_gone Exercise.workoutId SetRow.exerciseId
              (Db.exercises d)
              (new_parents HevyExercise.sets (Sync.exercise_row id)
                 (Db.nextId d) (HevyWorkout.exercises workout))
              (Db.sets d)
              (new_kids HevyExercise.sets (fun e => Sync.set_row e id)
                 (Db.nextId d) (HevyWorkout.exercises workout))
              id (Db.nextId d) e
              (proj2 (wf_exercises d W)) (proj1 (wf_exercises d W)))
    as [G1 G2].
  { eapply Forall_impl; [|apply new_parents_ids]. simpl. intros; lia. }
  { eapply Forall_impl;
      [|apply (new_kids_parent HevyExercise.sets (fun e => Sync.set_row e id)
                 SetRow.exerciseId)]; [simpl; intros; lia|reflexivity]. }
  { exact I. }
  split; [now rewrite G1|exact G2].
Qed.

Lemma upsertRoutine_replaces routine d id old :
  wf d ->
  Db.first Db.routinesT
    (fun r => String.eqb (Routine.hevyId r) (HevyRoutine.id routine)) d
  = Some (id, old) ->
  List.length (Sync.getRoutineExercises id d)
  = List.length (HevyRoutine.exercises routine) ->
  map (fun e =>
         List.length
           (Db.collect Db.routineSetsT
              (fun s => Nat.eqb (RoutineSet.routineExerciseId s) (fst e)) d))
    (Sync.getRoutineExercises id d)
  = map (fun ex => List.length (HevyRoutineExercise.sets ex))
      (HevyRoutine.exercises routine) ->
  let d' := snd (Sync.upsertRoutine routine d) in
  List.length (Db.routines d') = List.length (Db.routines d)
  /\ List.length (Db.routineExercises d') = List.length (Db.routineExercises d)
  /\ List.length (Db.routineSets d') = List.length (Db.routineSets d)
  /\ (forall e,
        In e (Sync.getRoutineExercises id d) ->
        Db.lookup Db.routineExercisesT (fst e) d' = None
        /\ Db.collect Db.routineSetsT
             (fun s => Nat.eqb (RoutineSet.routineExerciseId s) (fst e)) d'
           = []).
Proof.
  intros W F L M. cbv zeta.
  rewrite (upsertRoutine_again routine d id old W F).
  unfold Sync.getRoutineExercises, Db.collect, Db.lookup in *.
  simpl in *.
  split; [unfold Db.patch_rows; apply length_map|].
  destruct (replaced_sizes RoutineExercise.routineId
              RoutineSet.routineExerciseId
              (Db.routineExercises d)
              (new_parents HevyRoutineExercise.sets
                 (Sync.routine_exercise_row id
                    (snd (Sync.routine_folder routine d))
                    (Sync.parseDayNumber (HevyRoutine.title routine)))
                 (Db.nextId d) (HevyRoutine.exercises routine))
              (Db.routineSets d)
              (new_kids HevyRoutineExercise.sets
                 (fun e => Sync.routine_set_row e id)
                 (Db.nextId d) (HevyRoutine.exercises routine))
              id (proj2 (wf_routineExercises d W)))
    as [SP SK].
  { now rewrite new_parents_length. }
  { now rewrite new_kids_length, <- M. }
  split; [exact SP|]. split; [exact SK|].
  intros e I.
  destruct (replaced_gone RoutineExercise.routineId
              RoutineSet.routineExerciseId
              (Db.routineExercises d)
              (new_parents HevyRoutineExercise.sets
                 (Sync.routine_exercise_row id
                    (snd (Sync.routine_folder routine d))
                    (Sync.parseDayNumber (HevyRoutine.title routine)))
                 (Db.nextId d) (HevyRoutine.exercises routine))
              (Db.routineSets d)
              (new_kids HevyRoutineExercise.sets
                 (fun e => Sync.routine_set_row e id)
                 (Db.nextId d) (HevyRoutine.exercises routine))
              id (Db.nextId d) e
              (proj2 (wf_routineExercises d W))
              (proj1 (wf_routineExercises d W)))
    as [G1 G2].
  { eapply Forall_impl; [|apply new_parents_ids]. simpl. intros; lia. }
  { eapply Forall_impl;
      [|apply (new_kids_parent HevyRoutineExercise.sets
                 (fun e => Sync.routine_set_row e id)
                 RoutineSet.routineExerciseId)]; [simpl; intros; lia|reflexivity]. }
  { exact I. }
  split; [now rewrite G1|exact G2].
Qed.

(** C1.  Upserting the same workout payload twice into a well-formed store
    in which the natural key is not duplicated leaves exactly one workout
    with that [hevyId]; it is the document of the first upsert, with the
    same fields (among them [totalVolume], [durationMinutes], [totalSets],
    [totalReps]); the workout has as many exercise rows as the payload has
    exercises, and each of them as many set rows as the payload gives it.
    The second upsert deletes every child the first one wrote: the
    identifiers of those exercises name no document any more and no set
    row refers to them; and it duplicates nothing: the tables of the
    workouts, of the exercises and of the sets have the sizes they had
    after the first upsert.  The same holds for [upsertRoutine] over
    [routines], [routineExercises] and [routineSets]. *)
Theorem upsert_twice_one_record_same_children
  (Date_getTime : string -> Z) (workout : HevyWorkout.t)
  (routine : HevyRoutine.t) (d : Db.t) :
  wf d ->
  List.length (workouts_with (HevyWorkout.id workout) d) <= 1 ->
  List.length (routines_with (HevyRoutine.id routine) d) <= 1 ->
  (let first := Sync.upsertWorkout Date_getTime workout d in
   let second := Sync.upsertWorkout Date_getTime workout (snd first) in
   fst second = fst first
   /\ (exists page,
         workouts_with (HevyWorkout.id workout) (snd first)
         = [(fst first, Sync.workout_fields Date_getTime workout page)]
         /\ workouts_with (HevyWorkout.id workout) (snd second)
            = [(fst first, Sync.workout_fields Date_getTime workout page)])
   /\ List.length (Sync.getWorkoutExercises (fst first) (snd second))
      = List.length (HevyWorkout.exercises workout)
   /\ map (fun e => List.length (Sync.getExerciseSets (fst e) (snd second)))
        (Sync.getWorkoutExercises (fst first) (snd second))
      = map (fun ex => List.length (HevyExercise.sets ex))
          (HevyWorkout.exercises workout)
   /\ List.length (Db.workouts (snd second))
      = List.length (Db.workouts (snd first))
   /\ List.length (Db.exercises (snd second))
      = List.length (Db.exercises (snd first))
   /\ List.length (Db.sets (snd second)) = List.length (Db.sets (snd first))
   /\ (forall e,
         In e (Sync.getWorkoutExercises (fst first) (snd first)) ->
         Db.lookup Db.exercisesT (fst e) (snd second) = None
         /\ Sync.getExerciseSets (fst e) (snd second) = []))
  /\
  (let first := Sync.upsertRoutine routine d in
   let second := Sync.upsertRoutine routine (snd first) in
   fst second = fst first
   /\ (exists page,
         routines_with (HevyRoutine.id routine) (snd first)
         = [(fst first,
             Sync.routine_data routine (fst (Sync.routine_folder routine d))
               (snd (Sync.routine_folder routine d)) page)]
         /\ routines_with (HevyRoutine.id routine) (snd second)
            = [(fst first,
                Sync.routine_data routine (fst (Sync.routine_folder routine d))
                  (snd (Sync.routine_folder routine d)) page)])
   /\ List.length (Sync.getRoutineExercises (fst first) (snd second))
      = List.length (HevyRoutine.exercises routine)
   /\ map (fun e =>
             List.length
               (Db.collect Db.routineSetsT
                  (fun s => Nat.eqb (RoutineSet.routineExerciseId s) (fst e))
                  (snd second)))
        (Sync.getRoutineExercises (fst first) (snd second))
      = map (fun ex => List.length (HevyRoutineExercise.sets ex))
          (HevyRoutine.exercises routine)
   /\ List.length (Db.routines (snd second))
      = List.length (Db.routines (snd first))
   /\ List.length (Db.routineExercises (snd second))
      = List.length (Db.routineExercises (snd first))
   /\ List.length (Db.routineSets (snd second))
      = List.length (Db.routineSets (snd first))
   /\ (forall e,
         In e (Sync.getRoutineExercises (fst first) (snd first)) ->
         Db.lookup Db.routineExercisesT (fst e) (snd second) = None
         /\ Db.collect Db.routineSetsT
              (fun s => Nat.eqb (RoutineSet.routineExerciseId s) (fst e))
              (snd second)
            = [])).
Proof.
  intros W Uw Ur. split; cbv zeta.
  - destruct (upsertWorkout_once Date_getTime workout d W Uw)
      as [page [C1 [L1 M1]]].
    pose proof (upsertWorkout_wf Date_getTime workout d W) as W1.
    assert (U1 : List.length
                   (workouts_with (HevyWorkout.id workout)
                      (snd (Sync.upsertWorkout Date_getTime workout d))) <= 1)
      by (rewrite C1; simpl; lia).
    destruct (upsertWorkout_once Date_getTime workout _ W1 U1)
      as [page2 [C2 [L2 M2]]].
    destruct (upsertWorkout_same_id Date_getTime workout _ page _ C1)
      as [Hid Hpage].
    rewrite Hid in C2, L2, M2.
    rewrite (Hpage page2 C2) in C2.
    split; [exact Hid|]. split; [exists page; split; assumption|].
    split; [assumption|]. split; [assumption|].
    exact (upsertWorkout_replaces Date_getTime workout _ _ _ W1
             (collect_first _ _ _ _ _ C1) L1 M1).
  - destruct (upsertRoutine_once routine d W Ur) as [page [C1 [Fo [L1 M1]]]].
    pose proof (upsertRoutine_wf routine d W) as W1.
    assert (U1 : List.length
                   (routines_with (HevyRoutine.id routine)
                      (snd (Sync.upsertRoutine routine d))) <= 1)
      by (rewrite C1; simpl; lia).
    destruct (upsertRoutine_once routine _ W1 U1) as [page2 [C2 [_ [L2 M2]]]].
    rewrite (routine_folder_frame routine _ _ Fo) in C2.
    destruct (upsertRoutine_same_id routine _ _ _ page _ W1 C1) as [Hid Hpage].
    rewrite Hid in C2, L2, M2.
    rewrite (routine_folder_frame routine _ _ Fo) in Hpage.
    rewrite (Hpage page2 C2) in C2.
    split; [exact Hid|]. split; [exists page; split; assumption|].
    split; [assumption|]. split; [assumption|].
    exact (upsertRoutine_replaces routine _ _ _ W1
             (collect_first _ _ _ _ _ C1) L1 M1).
Qed.

(** The theorem at the sample payloads, from the empty store: after the
    second upsert the workout has its two exercises, with three sets and
    one set; the store holds two exercise rows and four set rows, as
    after the first upsert, and the exercises of the first upsert (the
    documents 1 and 5) have no set row left. *)
Lemma upsert_twice_witness :
  let d1 := snd (Sync.upsertWorkout Sim.Date_getTime Sim.push_day Db.empty) in
  let d2 := snd (Sync.upsertWorkout Sim.Date_getTime Sim.push_day d1) in
  List.length (Sync.getWorkoutExercises 0 d2) = 2
  /\ map (fun e => List.length (Sync.getExerciseSets (fst e) d2))
       (Sync.getWorkoutExercises 0 d2) = [3; 1]
  /\ List.length (Db.exercises d2) = 2
  /\ List.length (Db.sets d2) = 4
  /\ map fst (Sync.getWorkoutExercises 0 d1) = [1; 5]
  /\ Forall (fun e =>
               Db.lookup Db.exercisesT (fst e) d2 = None
               /\ Sync.getExerciseSets (fst e) d2 = [])
       (Sync.getWorkoutExercises 0 d1).
Proof.
  cbv zeta.
  destruct (proj1
              (upsert_twice_one_record_same_children Sim.Date_getTime
                 Sim.push_day Sim.day3 Db.empty wf_empty (Nat.le_0_l 1)
                 (Nat.le_0_l 1)))
    as [_ [_ [L [M _]]]].
  split; [exact L|]. split; [exact M|].
  split; [vm_compute; reflexivity|]. split; [vm_compute; reflexivity|].
  split; [vm_compute; reflexivity|].
  vm_compute. repeat constructor.
Defined.
